(** * Image time-difference analysis: frame sampling, pairing and drift

    A shallow embedding of the Python sources

      - [src/frame_extraction.py]       (sampling predicate, frame naming)
      - [src/multiprocess_extraction.py] (per-segment worker, task scheduler)
      - [src/frame_stitching.py]        (pairing by global frame number)
      - [src/timestamp_analysis.py]     (timestamp statistics, drift, rating)
      - [src/video_discovery.py]        (segments, frame-count validation)
      - [src/main.py]                   (the guards around the two stages)

    Conventions.  Python [int] is [Z]; [%] and [//] on a positive divisor are
    [Z.modulo] and [Z.div].  Python [float] values are idealised as exact
    rationals [Q]: every float of the sources is a quotient, product or
    difference of integers and literals, and only its order against literal
    thresholds is observed.  Where the rounding of a double decides the
    result, as in the frame count check, the rounding is written out
    ([float64]), and a float that may be a NaN or an infinity is a
    [floats.float].  A [dict] with a fixed set of keys is a record, a
    [dict] used as a map is a [gmap].  A raised exception is the [Raise]
    outcome of the [py] monad; [try/except] is a match on that outcome. *)

From Stdlib Require Import ZArith QArith Qabs Qround Qpower Lia Lqa Permutation Sorted.
From Stdlib Require Import Ascii String DecimalString.
From stdpp Require Import gmap strings list sorting.

Local Open Scope Z_scope.

(** ** Python outcomes *)

Inductive exn : Type :=
| ValueError (msg : string)
| IOError (msg : string)
| ZeroDivisionError
| StatisticsError
| IndexError
| KeyError
| CvError
| PoolError.

Inductive py (A : Type) : Type :=
| Return (a : A)
| Raise (e : exn).
Arguments Return {A} a.
Arguments Raise {A} e.

#[global] Instance py_ret : MRet py := fun _ a => Return a.
#[global] Instance py_bind : MBind py := fun _ _ k m =>
  match m with
  | Return a => k a
  | Raise e => Raise e
  end.

(** [for x in l: ...] where the body may raise. *)
Fixpoint py_for {A B : Type} (body : A -> py B) (l : list A) : py (list B) :=
  match l with
  | [] => Return []
  | x :: rest =>
      y ← body x;
      ys ← py_for body rest;
      Return (y :: ys)
  end.

(** [l[i]] with Python's negative indices and [IndexError]. *)
Definition py_index {A : Type} (l : list A) (i : Z) : py A :=
  let n := Z.of_nat (length l) in
  let j := if i <? 0 then n + i else i in
  if (j <? 0) || (n <=? j) then Raise IndexError
  else match l !! Z.to_nat j with
       | Some x => Return x
       | None => Raise IndexError
       end.

(** [range(n)]. *)
Definition py_range (n : Z) : list Z := seqZ 0 n.

(** [sorted(l, key=key)] and [l.sort(key=key)]: a stable sort; equal keys keep
    their input order. *)
Fixpoint insert_by_key {A : Type} (key : A -> Z) (x : A) (l : list A) : list A :=
  match l with
  | [] => [x]
  | y :: rest =>
      if key x <=? key y then x :: y :: rest
      else y :: insert_by_key key x rest
  end.

Fixpoint sorted_by_key {A : Type} (key : A -> Z) (l : list A) : list A :=
  match l with
  | [] => []
  | x :: rest => insert_by_key key x (sorted_by_key key rest)
  end.

(** Float comparisons on the rational idealisation. *)
Definition Qltb (x y : Q) : bool := negb (Qle_bool y x).
Definition Qgeb (x y : Q) : bool := Qle_bool y x.
Definition Qgtb (x y : Q) : bool := negb (Qle_bool x y).

(** ASCII [str.lower()]. *)
Definition lower_ascii (c : ascii) : ascii :=
  let n := nat_of_ascii c in
  if ((65 <=? n) && (n <=? 90))%nat then ascii_of_nat (n + 32) else c.

Fixpoint lower (s : string) : string :=
  match s with
  | EmptyString => EmptyString
  | String c rest => String (lower_ascii c) (lower rest)
  end.

(** [f"{n:04d}"]: decimal digits, zero padded to width four, the sign
    counted in the width. *)
Definition digits (n : Z) : string := NilZero.string_of_uint (N.to_uint (Z.to_N n)).

Fixpoint zero_pad (fuel width : nat) (s : string) : string :=
  match fuel with
  | O => s
  | S fuel' =>
      if (String.length s <? width)%nat then zero_pad fuel' width (String "0" s) else s
  end.

Definition format_04d (n : Z) : string :=
  if n <? 0 then String "-" (zero_pad 3 3 (digits (- n)))
  else zero_pad 4 4 (digits n).

(** [dir / name] on paths. *)
Definition path_join (dir name : string) : string := (dir ++ "/" ++ name)%string.

(** ** video_discovery.py *)

Module video_discovery.

Record VideoSegment : Type := {
  camera_id : string;
  segment_number : Z;
  file_path : string;
  frame_count : Z
}.

(** [calculate_total_frame_counts], one camera. *)
Definition total_frames (segment_list : list VideoSegment) : Z :=
  foldr Z.add 0 (frame_count <$> segment_list).

(** [validate_frame_count_difference] in exact arithmetic;
    [video_discovery_doubles] has it with the rounding of the doubles. *)
Definition validate_frame_count_difference
    (cam0_total cam1_total : Z) (threshold_percent : Q) : bool * Q * Z :=
  if (cam0_total =? 0) && (cam1_total =? 0) then (false, 0%Q, 0)
  else
    let absolute_diff := Z.abs (cam0_total - cam1_total) in
    let max_frames := Z.max cam0_total cam1_total in
    let difference_percent :=
      if max_frames =? 0 then 0%Q
      else ((inject_Z absolute_diff / inject_Z max_frames) * 100)%Q in
    let exceeds_threshold := Qgtb difference_percent threshold_percent in
    (exceeds_threshold, difference_percent, absolute_diff).

End video_discovery.

(** ** frame_extraction.py *)

Module frame_extraction.

Record ExtractedFrame : Type := {
  global_frame_number : Z;
  camera_id : string;
  file_path : string
}.

Record FrameExtractor : Type := {
  sampling_interval : Z;
  output_format : string;
  enable_overlay : bool;
  overlay_font_size : Z;
  overlay_position : string
}.

Definition valid_formats : list string := ["png"; "jpg"; "jpeg"]%string.

(** [FrameExtractor.__init__]. *)
Definition init (sampling_interval : Z) (output_format : string)
    (enable_overlay : bool) (overlay_font_size : Z) (overlay_position : string)
    : py FrameExtractor :=
  if sampling_interval <? 1 then Raise (ValueError "sampling_interval must be >= 1")
  else
    let normalized_format := lower output_format in
    if bool_decide (normalized_format ∈ valid_formats) then
      Return {| sampling_interval := sampling_interval;
                output_format := normalized_format;
                enable_overlay := enable_overlay;
                overlay_font_size := overlay_font_size;
                overlay_position := overlay_position |}
    else Raise (ValueError "output_format must be 'png', 'jpg', or 'jpeg'").

Definition should_extract_frame (self : FrameExtractor) (global_frame_number : Z) : bool :=
  if global_frame_number <? 1 then false
  else (global_frame_number - 1) mod sampling_interval self =? 0.

End frame_extraction.

(** ** The media library seen by the workers

    Decoding and encoding are external.  A capture is the list of rasters its
    successive [read()] calls deliver, with a flag telling whether the read
    after the last of them raises instead of reporting end of stream.  Pixel
    content is not modelled; a raster only shows its [size]. *)

Module cv2.

Record Raster : Type := { size : Z }.

Record Capture : Type := {
  frames : list Raster;
  read_raises : bool
}.

Inductive OpenOutcome : Type :=
| Opened (cap : Capture)
| NotOpened
| OpenRaises.

Inductive WriteOutcome : Type :=
| Written
| NotWritten
| WriteRaises.

Record World : Type := {
  VideoCapture : string -> OpenOutcome;
  mkdir : string -> py unit;
  imwrite : string -> Raster -> WriteOutcome
}.

End cv2.

(** ** frame_extraction.py: the methods that use the media library *)

Module frame_io.
Import frame_extraction.

(** [FrameExtractor._open_video]: [None] when the capture is not opened or
    opening raises. *)
Definition _open_video (w : cv2.World) (video_path : string) : option cv2.Capture :=
  match cv2.VideoCapture w video_path with
  | cv2.Opened cap => Some cap
  | cv2.NotOpened => None
  | cv2.OpenRaises => None
  end.

(** [add_frame_number_overlay] draws on a copy; the size is unchanged. *)
Definition add_frame_number_overlay (self : FrameExtractor) (frame : cv2.Raster)
    (frame_number : Z) : cv2.Raster := frame.

Definition frame_filename (self : FrameExtractor) (global_frame_number : Z) : string :=
  ("frame_" ++ format_04d global_frame_number ++ "." ++ output_format self)%string.

(** [FrameExtractor.save_frame]. *)
Definition save_frame (w : cv2.World) (self : FrameExtractor) (frame : cv2.Raster)
    (global_frame_number : Z) (output_dir camera_id : string) : py string :=
  if cv2.size frame =? 0 then Raise (ValueError "Frame is None or empty")
  else
    let frame_to_save := add_frame_number_overlay self frame global_frame_number in
    _ ← cv2.mkdir w output_dir;
    let file_path := path_join output_dir (frame_filename self global_frame_number) in
    match cv2.imwrite w file_path frame_to_save with
    | cv2.Written => Return file_path
    | cv2.NotWritten => Raise (IOError "Failed to save frame")
    | cv2.WriteRaises => Raise (IOError "Failed to save frame")
    end.

End frame_io.

(** ** multiprocess_extraction.py *)

Module multiprocess_extraction.
Import video_discovery.

Record SegmentExtractionTask : Type := {
  segment : VideoSegment;
  camera_id : string;
  output_dir : string;
  sampling_interval : Z;
  output_format : string;
  enable_overlay : bool;
  overlay_font_size : Z;
  overlay_position : string;
  global_frame_offset : Z
}.

(** The metadata dictionary of one extracted frame. *)
Record FrameMeta : Type := {
  global_frame_number : Z;
  meta_camera_id : string;
  meta_file_path : string
}.

(** The [while True] loop of the worker.  [local_frame_number] and
    [extracted_frames] are the loop's two variables. *)
Fixpoint read_loop (w : cv2.World) (extractor : frame_extraction.FrameExtractor)
    (task : SegmentExtractionTask) (frames : list cv2.Raster) (read_raises : bool)
    (local_frame_number : Z) (extracted_frames : list FrameMeta) : py (list FrameMeta) :=
  match frames with
  | [] => if read_raises then Raise CvError else Return extracted_frames
  | frame :: rest =>
      let local_frame_number := local_frame_number + 1 in
      let global_frame_number := global_frame_offset task + local_frame_number in
      if frame_extraction.should_extract_frame extractor global_frame_number then
        match frame_io.save_frame w extractor frame global_frame_number
                (output_dir task) (camera_id task) with
        | Return file_path =>
            let frame_metadata :=
              {| global_frame_number := global_frame_number;
                 meta_camera_id := camera_id task;
                 meta_file_path := file_path |} in
            read_loop w extractor task rest read_raises local_frame_number
              (extracted_frames ++ [frame_metadata])
        | Raise _ =>
            read_loop w extractor task rest read_raises local_frame_number
              extracted_frames
        end
      else
        read_loop w extractor task rest read_raises local_frame_number extracted_frames
  end.

(** The body of the worker's [try]. *)
Definition segment_attempt (w : cv2.World) (task : SegmentExtractionTask)
    : py (list FrameMeta) :=
  extractor ← frame_extraction.init (sampling_interval task) (output_format task)
                (enable_overlay task) (overlay_font_size task) (overlay_position task);
  match frame_io._open_video w (file_path (segment task)) with
  | None => Return []
  | Some cap =>
      read_loop w extractor task (cv2.frames cap) (cv2.read_raises cap) 0 []
  end.

(** [extract_segment_frames]: any exception of the body yields []. *)
Definition extract_segment_frames (w : cv2.World) (task : SegmentExtractionTask)
    : list FrameMeta :=
  match segment_attempt w task with
  | Return extracted_frames => extracted_frames
  | Raise _ => []
  end.

Record ExtractionDirs : Type := { base : string; cam0 : string; cam1 : string }.

Record ExtractorConfig : Type := {
  cfg_sampling_interval : Z;
  cfg_output_format : string;
  cfg_enable_overlay : bool;
  cfg_overlay_font_size : Z;
  cfg_overlay_position : string
}.

Record MultiprocessExtractor : Type := { max_workers : Z }.

(** The process pool: a submitted task may be lost to a fault of the pool
    itself, and futures complete in an order the pool chooses. *)
Record Pool : Type := {
  fault : SegmentExtractionTask -> option exn;
  as_completed :
    list (py (list FrameMeta) * SegmentExtractionTask) ->
    list (py (list FrameMeta) * SegmentExtractionTask)
}.

(** [executor.submit(extract_segment_frames, task)], as the value that
    [future.result()] later gives. *)
Definition submit (w : cv2.World) (pool : Pool) (task : SegmentExtractionTask)
    : py (list FrameMeta) :=
  match fault pool task with
  | Some e => Raise e
  | None => Return (extract_segment_frames w task)
  end.

(** One camera's offset loop over its already sorted segments;
    [offset] is [cam0_offset] (resp. [cam1_offset]). *)
Fixpoint make_tasks (camera : string) (dir : string) (extractor_config : ExtractorConfig)
    (segments : list VideoSegment) (offset : Z) : list SegmentExtractionTask :=
  match segments with
  | [] => []
  | seg :: rest =>
      {| segment := seg;
         camera_id := camera;
         output_dir := dir;
         sampling_interval := cfg_sampling_interval extractor_config;
         output_format := cfg_output_format extractor_config;
         enable_overlay := cfg_enable_overlay extractor_config;
         overlay_font_size := cfg_overlay_font_size extractor_config;
         overlay_position := cfg_overlay_position extractor_config;
         global_frame_offset := offset |}
      :: make_tasks camera dir extractor_config rest (offset + frame_count seg)
  end.

Definition camera_tasks (camera : string) (dir : string) (extractor_config : ExtractorConfig)
    (segments : list VideoSegment) : list SegmentExtractionTask :=
  make_tasks camera dir extractor_config (sorted_by_key segment_number segments) 0.

(** The collection loop over the completed futures. *)
Definition collect_one (results : list FrameMeta * list FrameMeta)
    (done : py (list FrameMeta) * SegmentExtractionTask)
    : list FrameMeta * list FrameMeta :=
  let '(cam0_results, cam1_results) := results in
  let '(future, task) := done in
  match future with
  | Return frames =>
      if String.eqb (camera_id task) "cam0" then (cam0_results ++ frames, cam1_results)
      else (cam0_results, cam1_results ++ frames)
  | Raise _ => (cam0_results, cam1_results)
  end.

Definition collect (completed : list (py (list FrameMeta) * SegmentExtractionTask))
    : list FrameMeta * list FrameMeta :=
  fold_left collect_one completed ([], []).

(** [MultiprocessExtractor.extract_all_frames].  [ProcessPoolExecutor]
    refuses a worker count that is not positive with a [ValueError]; the
    [finally] clause only shuts the pool down. *)
Definition extract_all_frames (self : MultiprocessExtractor) (w : cv2.World) (pool : Pool)
    (cam0_segments cam1_segments : list VideoSegment)
    (extraction_dirs : ExtractionDirs) (extractor_config : ExtractorConfig)
    : py (list FrameMeta * list FrameMeta) :=
  let tasks :=
    camera_tasks "cam0" (cam0 extraction_dirs) extractor_config cam0_segments
    ++ camera_tasks "cam1" (cam1 extraction_dirs) extractor_config cam1_segments in
  if max_workers self <=? 0 then Raise (ValueError "max_workers must be greater than 0")
  else
    let future_to_task := (fun task => (submit w pool task, task)) <$> tasks in
    let '(cam0_results, cam1_results) := collect (as_completed pool future_to_task) in
    Return (sorted_by_key global_frame_number cam0_results,
            sorted_by_key global_frame_number cam1_results).

End multiprocess_extraction.

(** ** frame_stitching.py *)

Module frame_stitching.
Import frame_extraction.

(** The two [logger.warning] calls of [find_frame_pairs], with the count
    each one prints. *)
Inductive Warning : Type :=
| Cam0WithoutCam1 (count : nat)
| Cam1WithoutCam0 (count : nat).

(** [{frame.global_frame_number: frame for frame in frames}]: a later frame
    replaces an earlier one with the same number. *)
Definition frame_map (frames : list ExtractedFrame) : gmap Z ExtractedFrame :=
  fold_left (fun m frame => <[global_frame_number frame := frame]> m) frames ∅.

(** [d[k]]. *)
Definition py_get {V : Type} (d : gmap Z V) (k : Z) : py V :=
  match d !! k with
  | Some v => Return v
  | None => Raise KeyError
  end.

Definition common_frame_numbers (cam0_map cam1_map : gmap Z ExtractedFrame) : list Z :=
  sorted_by_key id (elements (dom cam0_map ∩ dom cam1_map)).

Definition cam0_only (cam0_map cam1_map : gmap Z ExtractedFrame) : gset Z :=
  dom cam0_map ∖ dom cam1_map.

Definition cam1_only (cam0_map cam1_map : gmap Z ExtractedFrame) : gset Z :=
  dom cam1_map ∖ dom cam0_map.

Definition unpaired_warnings (cam0_map cam1_map : gmap Z ExtractedFrame) : list Warning :=
  (if bool_decide (cam0_only cam0_map cam1_map = ∅) then []
   else [Cam0WithoutCam1 (size (cam0_only cam0_map cam1_map))])
  ++
  (if bool_decide (cam1_only cam0_map cam1_map = ∅) then []
   else [Cam1WithoutCam0 (size (cam1_only cam0_map cam1_map))]).

(** [FrameStitcher.find_frame_pairs]: the warnings logged, and the value
    returned. *)
Definition find_frame_pairs (cam0_frames cam1_frames : list ExtractedFrame)
    : list Warning * py (list (ExtractedFrame * ExtractedFrame)) :=
  let cam0_map := frame_map cam0_frames in
  let cam1_map := frame_map cam1_frames in
  let numbers := common_frame_numbers cam0_map cam1_map in
  (unpaired_warnings cam0_map cam1_map,
   py_for (fun num =>
             f0 ← py_get cam0_map num;
             f1 ← py_get cam1_map num;
             Return (f0, f1)) numbers).

End frame_stitching.

(** ** timestamp_analysis.py *)

Module timestamp_analysis.

(** One line of a timestamp log: [{"i": ..., "pts_us": ...}]. *)
Record Timestamp : Type := { i : Z; pts_us : Z }.

Record TimestampStats : Type := {
  total_frames : Z;
  start_time_us : Z;
  end_time_us : Z;
  duration_seconds : Q;
  avg_framerate : Q;
  avg_frame_interval_ms : Q;
  frame_interval_std_ms : Q;
  min_interval_ms : Q;
  max_interval_ms : Q
}.

(** The [drift_distribution] dictionary; its keys are
    ['<10ms'], ['10-30ms'], ['30-50ms'] and ['>50ms']. *)
Record Distribution : Type := {
  lt_10ms : Z;
  from_10_to_30ms : Z;
  from_30_to_50ms : Z;
  ge_50ms : Z
}.

(** The quality words: "优秀", "良好", "一般", "较差". *)
Inductive Quality : Type := Excellent | Good | Fair | Poor.

#[global] Instance Quality_eq_dec : EqDecision Quality.
Proof. solve_decision. Defined.

(** The recommendation sentences, by the check that appends them. *)
Inductive Recommendation : Type :=
| AvgDrift10to30
| AvgDrift30to50
| AvgDriftOver50
| MaxDriftOver100 (max_drift_ms : Q)
| FewFramesUnder10 (good_percent : Q)
| FrameNumberMatchingSuffices.

Record SyncAnalysis : Type := {
  cam0_stats : TimestampStats;
  cam1_stats : TimestampStats;
  start_delay_ms : Q;
  duration_diff_seconds : Q;
  avg_time_drift_ms : Q;
  max_time_drift_ms : Q;
  time_drift_std_ms : Q;
  drift_distribution : Distribution;
  sample_drifts : list (Z * Q * Q * Q);
  overall_rating : Quality;
  recommendations : list Recommendation
}.

Record TimestampAnalyzer : Type := {
  sync_threshold_ms : Q;
  sample_points : Z
}.

(** *** The [statistics] module and the builtins on float lists *)

Definition Qsum (l : list Q) : Q := foldr Qplus 0%Q l.

Definition Qlen (l : list Q) : Q := inject_Z (Z.of_nat (length l)).

Definition mean (l : list Q) : py Q :=
  match l with
  | [] => Raise StatisticsError
  | _ => Return (Qsum l / Qlen l)%Q
  end.

Definition py_max (l : list Q) : py Q :=
  match l with
  | [] => Raise (ValueError "max() arg is an empty sequence")
  | x :: rest => Return (fold_left (fun m y => if Qltb m y then y else m) rest x)
  end.

Definition py_min (l : list Q) : py Q :=
  match l with
  | [] => Raise (ValueError "min() arg is an empty sequence")
  | x :: rest => Return (fold_left (fun m y => if Qltb y m then y else m) rest x)
  end.

(** [sum(1 for d in drifts if p d)]. *)
Fixpoint count_where (p : Q -> bool) (drifts : list Q) : Z :=
  match drifts with
  | [] => 0
  | d :: rest => (if p d then 1 else 0) + count_where p rest
  end.

(** The four bucket counts of [analyze_time_drift]. *)
Definition distribution_of (drifts : list Q) : Distribution :=
  {| lt_10ms := count_where (fun d => Qltb d 10) drifts;
     from_10_to_30ms := count_where (fun d => Qle_bool 10 d && Qltb d 30) drifts;
     from_30_to_50ms := count_where (fun d => Qle_bool 30 d && Qltb d 50) drifts;
     ge_50ms := count_where (fun d => Qgeb d 50) drifts |}.

(** The sample positions of [analyze_time_drift]. *)
Definition sample_indices (self : TimestampAnalyzer) (min_frames : Z) : py (list Z) :=
  if min_frames <=? sample_points self then Return (py_range min_frames)
  else if sample_points self =? 0 then Raise ZeroDivisionError
  else
    let step := min_frames / sample_points self in
    Return ((fun k => k * step) <$> py_range (sample_points self)).

(** One iteration of the sampling loop: the absolute drift appended to
    [drifts] and the tuple appended to [sample_drifts]. *)
Definition drift_at (cam0_timestamps cam1_timestamps : list Timestamp) (idx : Z)
    : py (Q * (Z * Q * Q * Q)) :=
  t0 ← py_index cam0_timestamps idx;
  t1 ← py_index cam1_timestamps idx;
  let cam0_time_us := pts_us t0 in
  let cam1_time_us := pts_us t1 in
  let drift_us := cam0_time_us - cam1_time_us in
  let drift_ms := (inject_Z drift_us / 1000)%Q in
  first0 ← py_index cam0_timestamps 0;
  first1 ← py_index cam1_timestamps 0;
  let cam0_time_s := (inject_Z (cam0_time_us - pts_us first0) / 1000000)%Q in
  let cam1_time_s := (inject_Z (cam1_time_us - pts_us first1) / 1000000)%Q in
  Return (Qabs drift_ms, (idx, cam0_time_s, cam1_time_s, drift_ms)).

(** [_calculate_rating]. *)
Definition _calculate_rating (self : TimestampAnalyzer)
    (start_delay_ms avg_drift_ms max_drift_ms : Q)
    (distribution : Distribution) (total_samples : Z)
    : Quality * list Recommendation :=
  let start_quality :=
    if Qltb (Qabs start_delay_ms) 10 then Excellent
    else if Qltb (Qabs start_delay_ms) 50 then Good
    else Fair in
  let '(drift_quality, recommendations) :=
    if Qltb avg_drift_ms 10 then (Excellent, [])
    else if Qltb avg_drift_ms 30 then (Good, [AvgDrift10to30])
    else if Qltb avg_drift_ms 50 then (Fair, [AvgDrift30to50])
    else (Poor, [AvgDriftOver50]) in
  let recommendations :=
    if Qgtb max_drift_ms 100 then recommendations ++ [MaxDriftOver100 max_drift_ms]
    else recommendations in
  let good_ratio :=
    if 0 <? total_samples then (inject_Z (lt_10ms distribution) / inject_Z total_samples)%Q
    else 0%Q in
  let recommendations :=
    if Qltb good_ratio 0.5 then recommendations ++ [FewFramesUnder10 (good_ratio * 100)%Q]
    else recommendations in
  let overall :=
    if bool_decide (drift_quality = Excellent) && bool_decide (start_quality = Excellent)
    then Excellent
    else if bool_decide (drift_quality ∈ [Excellent; Good])
            && bool_decide (start_quality ∈ [Excellent; Good])
    then Good
    else if bool_decide (drift_quality = Fair) then Fair
    else Poor in
  let recommendations :=
    match recommendations with
    | [] => [FrameNumberMatchingSuffices]
    | _ => recommendations
    end in
  (overall, recommendations).

(** The collection loop of [analyze_all_segments].  [loaded] lists the
    results of the loading futures in their completion order: camera,
    segment number, and the records read (none when the log is missing or
    unreadable). *)
Definition collect_loaded (loaded : list (string * Z * list Timestamp))
    : gmap Z (list Timestamp) * gmap Z (list Timestamp) :=
  fold_left (fun '(cam0_results, cam1_results) '(camera_id, segment_num, timestamps) =>
               if String.eqb camera_id "cam0"
               then (<[segment_num := timestamps]> cam0_results, cam1_results)
               else (cam0_results, <[segment_num := timestamps]> cam1_results))
            loaded (∅, ∅).

(** [for seg_num in sorted(results.keys()): all.extend(results[seg_num])]. *)
Definition all_timestamps (results : gmap Z (list Timestamp)) : py (list Timestamp) :=
  parts ← py_for (frame_stitching.py_get results)
                 (sorted_by_key id (elements (dom results)));
  Return (concat parts).

Section with_sqrt.

(** The square root taken by [statistics.stdev]; it is not rational and
    stays a parameter. *)
Variable sqrt : Q -> Q.

Definition stdev (l : list Q) : py Q :=
  if (length l <? 2)%nat then Raise StatisticsError
  else
    let m := (Qsum l / Qlen l)%Q in
    let ss := Qsum ((fun x => (x - m) * (x - m))%Q <$> l) in
    Return (sqrt (ss / (Qlen l - 1))%Q).

(** [calculate_timestamp_stats]. *)
Definition calculate_timestamp_stats (timestamps : list Timestamp) : py TimestampStats :=
  if (length timestamps <? 2)%nat
  then Raise (ValueError "Need at least 2 timestamps for analysis")
  else
    let total_frames := Z.of_nat (length timestamps) in
    first ← py_index timestamps 0;
    last ← py_index timestamps (-1);
    let start_time_us := pts_us first in
    let end_time_us := pts_us last in
    let duration_us := end_time_us - start_time_us in
    let duration_seconds := (inject_Z duration_us / 1000000)%Q in
    intervals_ms ←
      py_for (fun k =>
                cur ← py_index timestamps k;
                prev ← py_index timestamps (k - 1);
                let interval_us := pts_us cur - pts_us prev in
                Return (inject_Z interval_us / 1000)%Q)
             (seqZ 1 (total_frames - 1));
    avg_interval_ms ← mean intervals_ms;
    interval_std_ms ←
      (if (1 <? length intervals_ms)%nat then stdev intervals_ms else Return 0%Q);
    min_interval_ms ← py_min intervals_ms;
    max_interval_ms ← py_max intervals_ms;
    let avg_framerate :=
      if Qgtb duration_seconds 0 then (inject_Z total_frames / duration_seconds)%Q
      else 0%Q in
    Return {| total_frames := total_frames;
              start_time_us := start_time_us;
              end_time_us := end_time_us;
              duration_seconds := duration_seconds;
              avg_framerate := avg_framerate;
              avg_frame_interval_ms := avg_interval_ms;
              frame_interval_std_ms := interval_std_ms;
              min_interval_ms := min_interval_ms;
              max_interval_ms := max_interval_ms |}.

(** [analyze_time_drift]. *)
Definition analyze_time_drift (self : TimestampAnalyzer)
    (cam0_timestamps cam1_timestamps : list Timestamp)
    : py (Q * Q * Q * Distribution * list (Z * Q * Q * Q)) :=
  let min_frames :=
    Z.min (Z.of_nat (length cam0_timestamps)) (Z.of_nat (length cam1_timestamps)) in
  indices ← sample_indices self min_frames;
  sampled ← py_for (drift_at cam0_timestamps cam1_timestamps) indices;
  let drifts := fst <$> sampled in
  let sample_drifts := snd <$> sampled in
  avg_drift_ms ← mean drifts;
  max_drift_ms ← py_max drifts;
  std_drift_ms ← (if (1 <? length drifts)%nat then stdev drifts else Return 0%Q);
  let distribution := distribution_of drifts in
  Return (avg_drift_ms, max_drift_ms, std_drift_ms, distribution, sample_drifts).

(** [analyze_sync_quality]. *)
Definition analyze_sync_quality (self : TimestampAnalyzer)
    (cam0_timestamps cam1_timestamps : list Timestamp) : py SyncAnalysis :=
  cam0_stats ← calculate_timestamp_stats cam0_timestamps;
  cam1_stats ← calculate_timestamp_stats cam1_timestamps;
  let start_delay_us := start_time_us cam0_stats - start_time_us cam1_stats in
  let start_delay_ms := (inject_Z start_delay_us / 1000)%Q in
  let duration_diff_seconds :=
    (duration_seconds cam0_stats - duration_seconds cam1_stats)%Q in
  '(avg_drift, max_drift, std_drift, distribution, sample_drifts) ←
    analyze_time_drift self cam0_timestamps cam1_timestamps;
  let '(rating, recommendations) :=
    _calculate_rating self start_delay_ms avg_drift max_drift distribution
      (Z.of_nat (length sample_drifts)) in
  Return {| cam0_stats := cam0_stats;
            cam1_stats := cam1_stats;
            start_delay_ms := start_delay_ms;
            duration_diff_seconds := duration_diff_seconds;
            avg_time_drift_ms := avg_drift;
            max_time_drift_ms := max_drift;
            time_drift_std_ms := std_drift;
            drift_distribution := distribution;
            sample_drifts := sample_drifts;
            overall_rating := rating;
            recommendations := recommendations |}.

(** [analyze_all_segments], from the point where the loading futures
    are collected. *)
Definition analyze_all_segments (self : TimestampAnalyzer)
    (loaded : list (string * Z * list Timestamp)) : py SyncAnalysis :=
  let '(cam0_results, cam1_results) := collect_loaded loaded in
  all_cam0_timestamps ← all_timestamps cam0_results;
  all_cam1_timestamps ← all_timestamps cam1_results;
  match all_cam0_timestamps, all_cam1_timestamps with
  | [], _ | _, [] => Raise (ValueError "No timestamps loaded for analysis")
  | _, _ => analyze_sync_quality self all_cam0_timestamps all_cam1_timestamps
  end.

End with_sqrt.

End timestamp_analysis.

(** ** main.py: the guards around the analysis and extraction stages *)

Module main.
Import video_discovery multiprocess_extraction.

(** The [try/except] around the timestamp analysis: any exception leaves
    [sync_analysis = None] and the run goes on. *)
Definition timestamp_analysis_step (sqrt : Q -> Q) (timestamp_analysis_enabled : bool)
    (timestamp_sync_threshold_ms : Q) (timestamp_sample_points : Z)
    (loaded : list (string * Z * list timestamp_analysis.Timestamp))
    : option timestamp_analysis.SyncAnalysis :=
  if timestamp_analysis_enabled then
    let analyzer :=
      {| timestamp_analysis.sync_threshold_ms := timestamp_sync_threshold_ms;
         timestamp_analysis.sample_points := timestamp_sample_points |} in
    match timestamp_analysis.analyze_all_segments sqrt analyzer loaded with
    | Return analysis => Some analysis
    | Raise _ => None
    end
  else None.

(** The two list comprehensions of [main] that turn the workers' metadata
    into [ExtractedFrame] objects. *)
Definition to_extracted_frames (frames : list FrameMeta)
    : list frame_extraction.ExtractedFrame :=
  (fun f =>
     {| frame_extraction.global_frame_number := global_frame_number f;
        frame_extraction.camera_id := meta_camera_id f;
        frame_extraction.file_path := meta_file_path f |}) <$> frames.

(** What the extraction stage of [main] comes to: the exit code of an
    early [return], or the two frame lists handed to stitching. *)
Inductive ExtractionOutcome : Type :=
| Exit (code : Z)
| Extracted (cam0_frames cam1_frames : list FrameMeta).

(** The segment check of [main], then the extraction as [main] runs it;
    an exception that escapes reaches [main]'s last handler, which
    returns 1.  This is the path of a run that gets from the segment check
    to the extraction: the prompt after the frame count check (a declined
    prompt returns 0), the set-up of the directories and of the components
    (an exception there returns 1) and the interrupt flag tested after the
    extraction (a requested shutdown returns 1) are not part of it. *)
Definition extraction_stage (w : cv2.World) (pool : Pool)
    (cam0_segments cam1_segments : list VideoSegment)
    (extraction_dirs : ExtractionDirs) (extractor_config : ExtractorConfig)
    : ExtractionOutcome :=
  match cam0_segments, cam1_segments with
  | [], _ | _, [] => Exit 1
  | _, _ =>
      let mp_extractor :=
        {| max_workers :=
             Z.of_nat (length cam0_segments) + Z.of_nat (length cam1_segments) |} in
      match extract_all_frames mp_extractor w pool cam0_segments cam1_segments
              extraction_dirs extractor_config with
      | Return (cam0_frames, cam1_frames) => Extracted cam0_frames cam1_frames
      | Raise _ => Exit 1
      end
  end.

End main.

(** * Further code of the same files *)

(** ** Python floats

    A float is a double: a finite value, an infinity or a NaN.  A
    comparison with a NaN is false whichever way it is put. *)

Module floats.

Inductive float : Type :=
| Finite (q : Q)
| Infinity (negative : bool)
| NaN.

(** [x < y]. *)
Definition lt (x y : float) : bool :=
  match x, y with
  | NaN, _ | _, NaN => false
  | Finite a, Finite b => Qltb a b
  | Finite _, Infinity negative => negb negative
  | Infinity negative, Finite _ => negative
  | Infinity a, Infinity b => a && negb b
  end.

(** [x > y]. *)
Definition gt (x y : float) : bool := lt y x.

End floats.

(** ** Doubles

    The value of an arithmetic operation on doubles is the exact result
    rounded to the nearest double, ties to the even significand: 53
    significant bits, exponents from -1022 (below it the spacing stays that
    of the subnormal numbers).  The overflow to an infinity is not
    modelled; the values rounded below are at most 100. *)

Module float64.

Definition pow2 (e : Z) : Q := (2 ^ e)%Q.

(** The exponent [e] with [2^e <= x < 2^(e+1)], for a positive [x]. *)
Definition floor_log2 (x : Q) : Z :=
  let g := Z.log2 (Qnum x) - Z.log2 (Zpos (Qden x)) in
  if Qle_bool (pow2 g) x then g else g - 1.

(** The nearest integer, the even one of two that are equally near. *)
Definition round_half_even (s : Q) : Z :=
  let f := Qfloor s in
  match (s - inject_Z f ?= 1 # 2)%Q with
  | Lt => f
  | Gt => f + 1
  | Eq => if Z.even f then f else f + 1
  end.

(** The nearest double to a positive [x]: the nearest multiple of
    [2^(e-52)]. *)
Definition round_magnitude (x : Q) : Q :=
  let e := Z.max (floor_log2 x) (-1022) in
  let ulp := pow2 (e - 52) in
  (inject_Z (round_half_even (x / ulp)) * ulp)%Q.

Definition round (x : Q) : Q :=
  if Qeq_bool x 0 then 0%Q
  else if Qle_bool 0 x then round_magnitude x
  else (- round_magnitude (- x))%Q.

End float64.

(** ** video_discovery.py: the frame count check on doubles *)

Module video_discovery_doubles.

(** [VideoDiscovery.validate_frame_count_difference].  [int / int] is the
    quotient of the two integers rounded to a double, at most 1 for totals
    that are not negative; [* 100.0] rounds again. *)
Definition validate_frame_count_difference
    (cam0_total cam1_total : Z) (threshold_percent : floats.float) : bool * Q * Z :=
  if (cam0_total =? 0) && (cam1_total =? 0) then (false, 0%Q, 0)
  else
    let absolute_diff := Z.abs (cam0_total - cam1_total) in
    let max_frames := Z.max cam0_total cam1_total in
    let difference_percent :=
      if max_frames =? 0 then 0%Q
      else float64.round
             (float64.round (inject_Z absolute_diff / inject_Z max_frames) * 100) in
    let exceeds_threshold :=
      floats.gt (floats.Finite difference_percent) threshold_percent in
    (exceeds_threshold, difference_percent, absolute_diff).

End video_discovery_doubles.

(** ** The project's own exceptions

    [error_handling.py] adds its exception classes to the builtin ones; the
    functions below that raise them end in [Raised] or in a [Value]. *)

Inductive raised : Type :=
| Py (e : exn)
| InputDirectoryError (reason : string)
| OutputDirectoryError (operation reason : string)
| StitchingError (frame_number : Z) (reason : string).

Inductive run (A : Type) : Type :=
| Value (a : A)
| Raised (e : raised).
Arguments Value {A} a.
Arguments Raised {A} e.

(** ** error_handling.py: directory validation against the file system *)

Module error_handling.

(** What the file system answers to [validate_output_directory]: nothing to
    report, or the operation and reason of the [OutputDirectoryError]. *)
Record Disk : Type := {
  output_directory_fault : string -> option (string * string)
}.

Definition validate_output_directory (disk : Disk) (output_dir : string) : run unit :=
  match output_directory_fault disk output_dir with
  | None => Value tt
  | Some (operation, reason) => Raised (OutputDirectoryError operation reason)
  end.

End error_handling.

(** ** main.py: the expected counts *)

Module main_expected.

(** [sum(1 for i in numbers if extractor.should_extract_frame(i))]. *)
Fixpoint count_sampled (extractor : frame_extraction.FrameExtractor) (numbers : list Z) : Z :=
  match numbers with
  | [] => 0
  | i :: rest =>
      (if frame_extraction.should_extract_frame extractor i then 1 else 0)
      + count_sampled extractor rest
  end.

(** [expected_cam0] and [expected_cam1]: the count over [range(1, total + 1)]. *)
Definition expected_frames (extractor : frame_extraction.FrameExtractor) (total : Z) : Z :=
  count_sampled extractor (seqZ 1 total).

Definition expected_stitched (extractor : frame_extraction.FrameExtractor)
    (cam0_total cam1_total : Z) : Z :=
  Z.min (expected_frames extractor cam0_total) (expected_frames extractor cam1_total).

End main_expected.

(** ** frame_extraction.py: the sequential [extract_frames] *)

Module frame_extraction_seq.
Import video_discovery frame_extraction.

(** The variables the two loops of [extract_frames] update:
    [global_frame_number], [extracted_frames], and the calls made to
    [progress_callback] (its arguments, in order). *)
Record LoopState : Type := {
  global_frame_number_now : Z;
  extracted_frames : list ExtractedFrame;
  progress_calls : list (Z * Z)
}.

(** The [while True] loop over one opened segment.  A callback that raises
    is caught with the frame already appended, so its outcome does not
    show; [has_callback] tells whether one was passed. *)
Fixpoint frame_loop (w : cv2.World) (self : FrameExtractor) (output_dir camera_id : string)
    (has_callback : bool) (total_frames : Z) (segment : VideoSegment)
    (frames : list cv2.Raster) (read_raises : bool) (state : LoopState) : LoopState :=
  match frames with
  | [] =>
      if read_raises then
        {| global_frame_number_now := global_frame_number_now state + frame_count segment;
           extracted_frames := extracted_frames state;
           progress_calls := progress_calls state |}
      else state
  | frame :: rest =>
      let global_frame_number := global_frame_number_now state + 1 in
      if should_extract_frame self global_frame_number then
        match frame_io.save_frame w self frame global_frame_number output_dir camera_id with
        | Return file_path =>
            let extracted_frame :=
              {| global_frame_number := global_frame_number;
                 camera_id := camera_id;
                 file_path := file_path |} in
            let extracted := extracted_frames state ++ [extracted_frame] in
            frame_loop w self output_dir camera_id has_callback total_frames segment
              rest read_raises
              {| global_frame_number_now := global_frame_number;
                 extracted_frames := extracted;
                 progress_calls :=
                   if has_callback
                   then progress_calls state ++ [(Z.of_nat (length extracted), total_frames)]
                   else progress_calls state |}
        | Raise _ =>
            frame_loop w self output_dir camera_id has_callback total_frames segment
              rest read_raises
              {| global_frame_number_now := global_frame_number;
                 extracted_frames := extracted_frames state;
                 progress_calls := progress_calls state |}
        end
      else
        frame_loop w self output_dir camera_id has_callback total_frames segment
          rest read_raises
          {| global_frame_number_now := global_frame_number;
             extracted_frames := extracted_frames state;
             progress_calls := progress_calls state |}
  end.

(** One turn of the loop over the segments. *)
Definition segment_pass (w : cv2.World) (self : FrameExtractor) (output_dir camera_id : string)
    (has_callback : bool) (total_frames : Z) (state : LoopState) (segment : VideoSegment)
    : LoopState :=
  match cv2.VideoCapture w (video_discovery.file_path segment) with
  | cv2.Opened cap =>
      frame_loop w self output_dir camera_id has_callback total_frames segment
        (cv2.frames cap) (cv2.read_raises cap) state
  | cv2.NotOpened | cv2.OpenRaises =>
      {| global_frame_number_now := global_frame_number_now state + frame_count segment;
         extracted_frames := extracted_frames state;
         progress_calls := progress_calls state |}
  end.

(** [FrameExtractor.extract_frames]; [output_dir] is [None] when no
    directory is given.  The result comes with the calls made to the
    progress callback. *)
Definition extract_frames (w : cv2.World) (disk : error_handling.Disk) (self : FrameExtractor)
    (video_segments : list VideoSegment) (output_dir : option string) (camera_id : string)
    (has_callback : bool) : run (list ExtractedFrame * list (Z * Z)) :=
  match video_segments, output_dir with
  | [], _ => Raised (Py (ValueError "video_segments list is empty"))
  | _, None => Raised (Py (ValueError "output_dir must be specified"))
  | _, Some dir =>
      match error_handling.validate_output_directory disk dir with
      | Raised e => Raised e
      | Value _ =>
          let total_frames := total_frames video_segments in
          let final :=
            fold_left (segment_pass w self dir camera_id has_callback total_frames)
              video_segments
              {| global_frame_number_now := 0;
                 extracted_frames := [];
                 progress_calls := [] |} in
          Value (extracted_frames final, progress_calls final)
      end
  end.

End frame_extraction_seq.

(** ** The image library, as the stitcher sees it

    [Image.open] gives an image of some size or raises; drawing the overlay
    and [Image.save] succeed or raise.  [Image.new] and [paste] are taken
    not to raise (sizes of loaded images are never negative). *)

Module pil.

(** [Image.size]: width and height. *)
Record Size : Type := { width : Z; height : Z }.

(** The exception classes [stitch_pair] tells apart. *)
Inductive Failure : Type := FileNotFoundError | IOFailure | OtherFailure.

Inductive OpenOutcome : Type :=
| Loaded (size : Size)
| OpenFails (failure : Failure).

(** The stitched image: the size of the white canvas and the top left
    corner of each paste. *)
Record Canvas : Type := {
  canvas_size : Size;
  cam0_corner : Z * Z;
  cam1_corner : Z * Z
}.

Record Store : Type := {
  open : string -> OpenOutcome;
  draw_overlay : Canvas -> Z -> option Failure;
  save : string -> string -> Canvas -> option Failure
}.

End pil.

(** ** frame_stitching.py: stitching *)

Module frame_stitching_io.
Import frame_extraction.

Record StitchedFrame : Type := {
  global_frame_number : Z;
  file_path : string
}.

Record FrameStitcher : Type := {
  output_format : string;
  enable_overlay : bool;
  overlay_font_size : Z;
  overlay_position : string
}.

(** [FrameStitcher.__init__]. *)
Definition init (output_format : string) (enable_overlay : bool) (overlay_font_size : Z)
    (overlay_position : string) : py FrameStitcher :=
  let normalized := lower output_format in
  if bool_decide (normalized ∈ ["png"; "jpg"; "jpeg"]) then
    Return {| output_format := normalized;
              enable_overlay := enable_overlay;
              overlay_font_size := overlay_font_size;
              overlay_position := overlay_position |}
  else Raise (ValueError "Invalid output format").

(** [f"frame_{frame_number:04d}.{self.output_format}"]. *)
Definition frame_filename (self : FrameStitcher) (frame_number : Z) : string :=
  ("frame_" ++ format_04d frame_number ++ "." ++ output_format self)%string.

(** The canvas [stitch_pair] builds from the two image sizes. *)
Definition stitched_canvas (cam0_size cam1_size : pil.Size) : pil.Canvas :=
  let cam0_width := pil.width cam0_size in
  let cam0_height := pil.height cam0_size in
  let cam1_width := pil.width cam1_size in
  let cam1_height := pil.height cam1_size in
  let output_width := Z.max cam0_width cam1_width in
  let output_height := cam0_height + cam1_height in
  let cam0_x_offset := (output_width - cam0_width) / 2 in
  let cam1_x_offset := (output_width - cam1_width) / 2 in
  {| pil.canvas_size := {| pil.width := output_width; pil.height := output_height |};
     pil.cam0_corner := (cam0_x_offset, 0);
     pil.cam1_corner := (cam1_x_offset, cam0_height) |}.

(** The reason text of the [StitchingError] each handler raises. *)
Definition reason_of (failure : pil.Failure) : string :=
  match failure with
  | pil.FileNotFoundError => "Image file not found"
  | pil.IOFailure => "Failed to read or write image"
  | pil.OtherFailure => "Unexpected error"
  end.

(** [FrameStitcher.stitch_pair]: every exception leaves as a
    [StitchingError] with frame number 0. *)
Definition stitch_pair (store : pil.Store) (self : FrameStitcher)
    (cam0_path cam1_path output_path : string) (frame_number : Z) : run unit :=
  match pil.open store cam0_path with
  | pil.OpenFails failure => Raised (StitchingError 0 (reason_of failure))
  | pil.Loaded cam0_size =>
      match pil.open store cam1_path with
      | pil.OpenFails failure => Raised (StitchingError 0 (reason_of failure))
      | pil.Loaded cam1_size =>
          let stitched := stitched_canvas cam0_size cam1_size in
          match (if enable_overlay self && (0 <? frame_number)
                 then pil.draw_overlay store stitched frame_number
                 else None) with
          | Some failure => Raised (StitchingError 0 (reason_of failure))
          | None =>
              let image_format :=
                if bool_decide (output_format self = "jpg")
                   || bool_decide (output_format self = "jpeg")
                then "JPEG" else "PNG" in
              match pil.save store output_path image_format stitched with
              | Some failure => Raised (StitchingError 0 (reason_of failure))
              | None => Value tt
              end
          end
      end
  end.

(** [FrameStitcher.stitch_single_pair]. *)
Definition stitch_single_pair (store : pil.Store) (self : FrameStitcher)
    (cam0_path cam1_path : string) (frame_number : Z) (output_dir : string) : run string :=
  let output_path := path_join output_dir (frame_filename self frame_number) in
  match stitch_pair store self cam0_path cam1_path output_path frame_number with
  | Value _ => Value output_path
  | Raised e => Raised e
  end.

(** The loop of [stitch_frames] over [enumerate(frame_pairs)], from index
    [idx] on; its variables are [stitched_frames] and the calls made to the
    progress callback.  A callback that raises is caught after the frame
    was recorded. *)
Fixpoint stitch_loop (store : pil.Store) (self : FrameStitcher) (output_dir : string)
    (has_callback : bool) (total_pairs : Z)
    (frame_pairs : list (ExtractedFrame * ExtractedFrame)) (idx : Z)
    (stitched_frames : list StitchedFrame) (progress_calls : list (Z * Z))
    : list StitchedFrame * list (Z * Z) :=
  match frame_pairs with
  | [] => (stitched_frames, progress_calls)
  | (cam0_frame, cam1_frame) :: rest =>
      let frame_num := frame_extraction.global_frame_number cam0_frame in
      let output_path := path_join output_dir (frame_filename self frame_num) in
      match stitch_pair store self (frame_extraction.file_path cam0_frame)
              (frame_extraction.file_path cam1_frame) output_path frame_num with
      | Value _ =>
          stitch_loop store self output_dir has_callback total_pairs rest (idx + 1)
            (stitched_frames
             ++ [{| global_frame_number := frame_num; file_path := output_path |}])
            (if has_callback then progress_calls ++ [(idx + 1, total_pairs)]
             else progress_calls)
      | Raised _ =>
          stitch_loop store self output_dir has_callback total_pairs rest (idx + 1)
            stitched_frames progress_calls
      end
  end.

(** [FrameStitcher.stitch_frames], with the calls made to the progress
    callback. *)
Definition stitch_frames (store : pil.Store) (disk : error_handling.Disk)
    (self : FrameStitcher) (cam0_frames cam1_frames : list ExtractedFrame)
    (output_dir : string) (has_callback : bool)
    : run (list StitchedFrame * list (Z * Z)) :=
  match error_handling.validate_output_directory disk output_dir with
  | Raised e => Raised e
  | Value _ =>
      match (frame_stitching.find_frame_pairs cam0_frames cam1_frames).2 with
      | Raise e => Raised (Py e)
      | Return frame_pairs =>
          let total_pairs := Z.of_nat (length frame_pairs) in
          Value (stitch_loop store self output_dir has_callback total_pairs frame_pairs 0
                   [] [])
      end
  end.

End frame_stitching_io.


(** ** main.py: extraction, then batch stitching *)

Module main_stages.
Import multiprocess_extraction.

(** How the extraction and stitching stages end: an exit code from the
    segment check or from the last handler, or the counts [main] prints and
    the stitched frame numbers it hands to the report.  The other ways in
    which [main] returns (see [main.extraction_stage]) are not part of
    it. *)
Inductive Outcome : Type :=
| Exit (code : Z)
| Completed (cam0_extracted cam1_extracted frames_stitched : Z)
    (stitched_frame_numbers : list Z).

(** The extraction stage, the conversion of the metadata and
    [stitch_frames] with [main]'s progress callback. *)
Definition extract_then_stitch (w : cv2.World) (pool : Pool) (store : pil.Store)
    (disk : error_handling.Disk)
    (cam0_segments cam1_segments : list video_discovery.VideoSegment)
    (extraction_dirs : ExtractionDirs) (extractor_config : ExtractorConfig)
    (stitcher : frame_stitching_io.FrameStitcher) (stitching_dir : string) : Outcome :=
  match main.extraction_stage w pool cam0_segments cam1_segments extraction_dirs
          extractor_config with
  | main.Exit code => Exit code
  | main.Extracted cam0_frames cam1_frames =>
      let cam0_extracted_frames := main.to_extracted_frames cam0_frames in
      let cam1_extracted_frames := main.to_extracted_frames cam1_frames in
      match frame_stitching_io.stitch_frames store disk stitcher cam0_extracted_frames
              cam1_extracted_frames stitching_dir true with
      | Raised _ => Exit 1
      | Value (stitched_frames, _) =>
          Completed (Z.of_nat (length cam0_frames)) (Z.of_nat (length cam1_frames))
            (Z.of_nat (length stitched_frames))
            (frame_stitching_io.global_frame_number <$> stitched_frames)
      end
  end.

End main_stages.


(** ** config.py *)

Module config.

Record Config : Type := {
  input_dir : string;
  output_dir : string;
  extracted_frames_dir : string;
  sampling_interval : Z;
  output_format : string;
  cam0_pattern : string;
  cam1_pattern : string;
  frame_count_threshold : floats.float;
  enable_frame_overlay : bool;
  overlay_font_size : Z;
  overlay_position : string;
  timestamp_analysis_enabled : bool;
  timestamp_sync_threshold_ms : floats.float;
  timestamp_sample_points : Z
}.

Definition valid_formats : list string := ["png"; "jpg"; "jpeg"]%string.

Definition valid_positions : list string :=
  ["top-left"; "top-right"; "bottom-left"; "bottom-right"]%string.

(** [Config.__post_init__]: the checks in their order, and the object with
    its output format normalised. *)
Definition post_init (self : Config) : py Config :=
  if sampling_interval self <? 1 then Raise (ValueError "sampling_interval must be >= 1")
  else if negb (bool_decide (lower (output_format self) ∈ valid_formats)) then
    Raise (ValueError "output_format must be one of ['png', 'jpg', 'jpeg']")
  else
    let normalized :=
      if bool_decide (lower (output_format self) = "jpeg") then "jpg"%string
      else lower (output_format self) in
    if floats.lt (frame_count_threshold self) (floats.Finite 0)
       || floats.gt (frame_count_threshold self) (floats.Finite 100) then
      Raise (ValueError "frame_count_threshold must be between 0 and 100")
    else if negb (bool_decide (overlay_position self ∈ valid_positions)) then
      Raise (ValueError
               "overlay_position must be one of ['top-left', 'top-right', 'bottom-left', 'bottom-right']")
    else if overlay_font_size self <? 1 then
      Raise (ValueError "overlay_font_size must be >= 1")
    else
      Return {| input_dir := input_dir self;
                output_dir := output_dir self;
                extracted_frames_dir := extracted_frames_dir self;
                sampling_interval := sampling_interval self;
                output_format := normalized;
                cam0_pattern := cam0_pattern self;
                cam1_pattern := cam1_pattern self;
                frame_count_threshold := frame_count_threshold self;
                enable_frame_overlay := enable_frame_overlay self;
                overlay_font_size := overlay_font_size self;
                overlay_position := overlay_position self;
                timestamp_analysis_enabled := timestamp_analysis_enabled self;
                timestamp_sync_threshold_ms := timestamp_sync_threshold_ms self;
                timestamp_sample_points := timestamp_sample_points self |}.

(** [str.isspace] on an ASCII character. *)
Definition isspace (c : ascii) : bool :=
  let n := nat_of_ascii c in
  (((9 <=? n) && (n <=? 13)) || ((28 <=? n) && (n <=? 32)))%nat.

Fixpoint lstrip (s : list ascii) : list ascii :=
  match s with
  | [] => []
  | c :: rest => if isspace c then lstrip rest else s
  end.

(** [str.strip()] on ASCII text. *)
Definition strip (s : string) : string :=
  string_of_list_ascii
    (reverse (lstrip (reverse (lstrip (list_ascii_of_string s))))).

(** [not pattern or not pattern.strip()]. *)
Definition is_blank (pattern : string) : bool :=
  bool_decide (pattern = "") || bool_decide (strip pattern = "").

(** [ConfigManager.validate_config]. *)
Definition validate_config (config : Config) : list string :=
  (if sampling_interval config <? 1 then ["sampling_interval must be >= 1"%string] else [])
  ++ (if negb (bool_decide (output_format config ∈ ["png"; "jpg"]%string)) then
        [("output_format must be 'png' or 'jpg', got '" ++ output_format config ++ "'")%string]
      else [])
  ++ (if is_blank (cam0_pattern config) then ["cam0_pattern cannot be empty"%string] else [])
  ++ (if is_blank (cam1_pattern config) then ["cam1_pattern cannot be empty"%string] else []).

End config.

(** ** main.py: the components built from the configuration *)

Module main_setup.

(** [extractor_config], the dictionary handed to the workers. *)
Definition extractor_config (cfg : config.Config) : multiprocess_extraction.ExtractorConfig :=
  {| multiprocess_extraction.cfg_sampling_interval := config.sampling_interval cfg;
     multiprocess_extraction.cfg_output_format := config.output_format cfg;
     multiprocess_extraction.cfg_enable_overlay := config.enable_frame_overlay cfg;
     multiprocess_extraction.cfg_overlay_font_size := config.overlay_font_size cfg;
     multiprocess_extraction.cfg_overlay_position := config.overlay_position cfg |}.

(** [extractor = FrameExtractor(...)]. *)
Definition extractor (cfg : config.Config) : py frame_extraction.FrameExtractor :=
  frame_extraction.init (config.sampling_interval cfg) (config.output_format cfg)
    (config.enable_frame_overlay cfg) (config.overlay_font_size cfg)
    (config.overlay_position cfg).

(** [stitcher = FrameStitcher(...)]. *)
Definition stitcher (cfg : config.Config) : py frame_stitching_io.FrameStitcher :=
  frame_stitching_io.init (config.output_format cfg) (config.enable_frame_overlay cfg)
    (config.overlay_font_size cfg) (config.overlay_position cfg).

End main_setup.


(** ** error_handling.py and video_discovery.py against the file system

    File names are taken to be ASCII text. *)

Module video_discovery_io.
Import video_discovery.

(** What [iterdir] does on the input directory. *)
Inductive Listing : Type := Listed | PermissionDenied | ListingFails.

(** The file system and the container metadata, as discovery sees them:
    [Path.exists], [Path.is_dir], [Path.iterdir], [Path.glob],
    [Path.is_file], [Path.name] and
    [int(cap.get(cv2.CAP_PROP_FRAME_COUNT))] on an opened capture.
    [exists], [is_dir] and [is_file] raise the [OSError] of [stat] unless
    it says that the path is missing; [glob] raises on a pattern it
    refuses (a [ValueError] for the empty one, a [NotImplementedError] for
    an absolute one) and when the walk fails. *)
Record Files : Type := {
  path_exists : string -> py bool;
  is_dir : string -> py bool;
  iterdir : string -> Listing;
  glob : string -> string -> py (list string);
  is_file : string -> py bool;
  name : string -> string;
  frame_count_property : string -> py Z
}.

(** [error_handling.validate_input_directory]: the two tests stand outside
    the [try], so what they raise is not wrapped. *)
Definition validate_input_directory (files : Files) (input_dir : string) : run unit :=
  match path_exists files input_dir with
  | Raise e => Raised (Py e)
  | Return false => Raised (InputDirectoryError "Directory does not exist")
  | Return true =>
      match is_dir files input_dir with
      | Raise e => Raised (Py e)
      | Return false => Raised (InputDirectoryError "Path is not a directory")
      | Return true =>
          match iterdir files input_dir with
          | Listed => Value tt
          | PermissionDenied =>
              Raised (InputDirectoryError "Permission denied - cannot read directory")
          | ListingFails => Raised (InputDirectoryError "OS error")
          end
      end
  end.

(** The names the functions below read character by character are ASCII
    text without a path separator or a drive colon: on such a name
    [Path(name).name] is the name itself, whatever the platform, and
    [\d] matches the ten ASCII digits only. *)
Definition plain_char (c : ascii) : bool :=
  (nat_of_ascii c <? 128)%nat
  && negb (Ascii.eqb c "/") && negb (Ascii.eqb c "\") && negb (Ascii.eqb c ":").

Definition plain_name (filename : string) : Prop :=
  forallb plain_char (list_ascii_of_string filename) = true.

Definition is_digit (c : ascii) : bool :=
  let n := nat_of_ascii c in ((48 <=? n) && (n <=? 57))%nat.

(** [name.rfind('.')], counted from the position [at_] of the first
    character. *)
Fixpoint rfind_dot (name : list ascii) (at_ : nat) : option nat :=
  match name with
  | [] => None
  | c :: rest =>
      match rfind_dot rest (S at_) with
      | Some i => Some i
      | None => if Ascii.eqb c "." then Some at_ else None
      end
  end.

(** [Path(filename).stem] for a name without separators. *)
Definition stem (filename : list ascii) : list ascii :=
  match rfind_dot filename 0 with
  | Some i => if ((0 <? i) && (i <? length filename - 1))%nat then take i filename
              else filename
  | None => filename
  end.

(** [re.findall(r'\d+', text)]: the maximal runs of digits, [run] being the
    run that is being read. *)
Fixpoint findall_digits (text run : list ascii) : list (list ascii) :=
  match text with
  | [] => match run with [] => [] | _ => [run] end
  | c :: rest =>
      if is_digit c then findall_digits rest (run ++ [c])
      else match run with [] => [] | _ => [run] end ++ findall_digits rest []
  end.

(** The number a run of ASCII digits writes in base 10. *)
Definition digits_value (digits : list ascii) : Z :=
  fold_left (fun value c => 10 * value + (Z.of_nat (nat_of_ascii c) - 48)) digits 0.

(** [sys.get_int_max_str_digits()], as the interpreter starts. *)
Definition int_max_str_digits : Z := 4300.

(** [int(digits)] on a run of digits: leading zeros count towards the
    limit. *)
Definition int_of_digits (digits : list ascii) : py Z :=
  if int_max_str_digits <? Z.of_nat (length digits) then
    Raise (ValueError "Exceeds the limit (4300 digits) for integer string conversion")
  else Return (digits_value digits).

(** [VideoDiscovery._extract_segment_number]; [None] is Python's [None]. *)
Definition _extract_segment_number (filename : string) : py (option Z) :=
  let name_without_ext := stem (list_ascii_of_string filename) in
  let numbers := findall_digits name_without_ext [] in
  match last numbers with
  | Some digits =>
      number ← int_of_digits digits;
      Return (Some number)
  | None => Return None
  end.

(** [VideoDiscovery.get_frame_count]. *)
Definition get_frame_count (w : cv2.World) (files : Files) (video_path : string) : Z :=
  match cv2.VideoCapture w video_path with
  | cv2.Opened _ =>
      match frame_count_property files video_path with
      | Return frame_count => if 0 <? frame_count then frame_count else 0
      | Raise _ => 0
      end
  | cv2.NotOpened | cv2.OpenRaises => 0
  end.

(** One of the two loops of [discover_videos] over the globbed paths;
    nothing in the loop is caught. *)
Fixpoint scan (w : cv2.World) (files : Files) (camera : string) (paths : list string)
    : py (list VideoSegment) :=
  match paths with
  | [] => Return []
  | video_path :: rest =>
      is_a_file ← is_file files video_path;
      if is_a_file : bool then
        segment_number ← _extract_segment_number (name files video_path);
        match segment_number with
        | Some segment_number =>
            let frame_count := get_frame_count w files video_path in
            if 0 <? frame_count then
              segments ← scan w files camera rest;
              Return ({| camera_id := camera;
                         segment_number := segment_number;
                         file_path := video_path;
                         frame_count := frame_count |} :: segments)
            else scan w files camera rest
        | None => scan w files camera rest
        end
      else scan w files camera rest
  end.

(** One camera's part of [discover_videos]: the glob and the loop. *)
Definition discover_camera (w : cv2.World) (files : Files) (camera input_dir pattern : string)
    : py (list VideoSegment) :=
  paths ← glob files input_dir pattern;
  scan w files camera paths.

(** [VideoDiscovery.discover_videos]: the lists for ['cam0'] and ['cam1']. *)
Definition discover_videos (w : cv2.World) (files : Files)
    (input_dir cam0_pattern cam1_pattern : string)
    : run (list VideoSegment * list VideoSegment) :=
  match validate_input_directory files input_dir with
  | Raised e => Raised e
  | Value _ =>
      match discover_camera w files "cam0" input_dir cam0_pattern with
      | Raise e => Raised (Py e)
      | Return cam0_found =>
          match discover_camera w files "cam1" input_dir cam1_pattern with
          | Raise e => Raised (Py e)
          | Return cam1_found =>
              Value (sorted_by_key segment_number cam0_found,
                     sorted_by_key segment_number cam1_found)
          end
      end
  end.

(** The two kinds of message [validate_segment_pairing] writes. *)
Inductive PairingWarning : Type :=
| OnlyCam0 (seg_num : Z)
| OnlyCam1 (seg_num : Z).

Definition segment_numbers (segments : list VideoSegment) : gset Z :=
  list_to_set (segment_number <$> segments).

(** [VideoDiscovery.validate_segment_pairing]. *)
Definition validate_segment_pairing (cam0_segments cam1_segments : list VideoSegment)
    : list PairingWarning :=
  let cam0_numbers := segment_numbers cam0_segments in
  let cam1_numbers := segment_numbers cam1_segments in
  let missing_in_cam1 := cam0_numbers ∖ cam1_numbers in
  let missing_in_cam0 := cam1_numbers ∖ cam0_numbers in
  (OnlyCam0 <$> sorted_by_key id (elements missing_in_cam1))
  ++ (OnlyCam1 <$> sorted_by_key id (elements missing_in_cam0)).

End video_discovery_io.


(** ** report_generator.py: the timestamps of the stitched frames *)

Module report_generator.
Import video_discovery.

(** A line of a timestamp log as [json.loads] and the two key lookups see
    it: a record, or a line on which one of them raises. *)
Inductive Line : Type :=
| Entry (data : timestamp_analysis.Timestamp)
| Malformed.

(** A timestamp log: absent, present but impossible to open, or its
    lines. *)
Inductive LogFile : Type :=
| Absent
| Unreadable
| Lines (lines : list Line).

(** The [for line in f] loop: the first record whose ['i'] is [local_idx],
    unless a line raises before. *)
Fixpoint find_line (lines : list Line) (local_idx : Z) : option (Z * Z) :=
  match lines with
  | [] => None
  | Malformed :: _ => None
  | Entry data :: rest =>
      if timestamp_analysis.i data =? local_idx
      then Some (local_idx, timestamp_analysis.pts_us data)
      else find_line rest local_idx
  end.

(** [f"stereo_{camera_id}_{segment.segment_number:04d}_timestamps.jsonl"]
    under [segments_dir]. *)
Definition timestamp_file (segments_dir camera_id : string) (segment : VideoSegment)
    : string :=
  path_join segments_dir
    ("stereo_" ++ camera_id ++ "_" ++ format_04d (segment_number segment)
     ++ "_timestamps.jsonl")%string.

(** The loop of [load_timestamps_for_frame] over the sorted segments;
    [None] stands for [(None, None)]. *)
Fixpoint locate_frame (logs : string -> LogFile) (segments_dir camera_id : string)
    (segments : list VideoSegment) (frame_idx cumulative_frames : Z) : option (Z * Z) :=
  match segments with
  | [] => None
  | segment :: rest =>
      if frame_idx <? cumulative_frames + frame_count segment then
        let local_idx := frame_idx - cumulative_frames in
        match logs (timestamp_file segments_dir camera_id segment) with
        | Absent => None
        | Unreadable => None
        | Lines lines => find_line lines local_idx
        end
      else
        locate_frame logs segments_dir camera_id rest frame_idx
          (cumulative_frames + frame_count segment)
  end.

Definition load_timestamps_for_frame (logs : string -> LogFile)
    (segments_dir camera_id : string) (global_frame_number : Z)
    (cam_segments : list VideoSegment) : option (Z * Z) :=
  let frame_idx := global_frame_number - 1 in
  locate_frame logs segments_dir camera_id (sorted_by_key segment_number cam_segments)
    frame_idx 0.








Section with_sqrt.
Variable sqrt : Q -> Q.


End with_sqrt.

End report_generator.


(** ** progress_reporter.py *)

Module progress_reporter.

Record ProgressReporter : Type := {
  _extraction_frames : gmap string Z;
  _stitching_count : Z
}.

(** [ProgressReporter()]. *)
Definition init : ProgressReporter :=
  {| _extraction_frames := ∅; _stitching_count := 0 |}.

Definition start_extraction (self : ProgressReporter) (camera_id : string)
    (total_segments : Z) : ProgressReporter :=
  {| _extraction_frames := <[camera_id := 0]> (_extraction_frames self);
     _stitching_count := _stitching_count self |}.

(** [update_extraction], with the total it prints. *)
Definition update_extraction (self : ProgressReporter) (camera_id : string)
    (segment_number frames_extracted : Z) : ProgressReporter * Z :=
  let total := default 0 (_extraction_frames self !! camera_id) + frames_extracted in
  ({| _extraction_frames := <[camera_id := total]> (_extraction_frames self);
      _stitching_count := _stitching_count self |},
   total).

Definition start_stitching (self : ProgressReporter) (total_pairs : Z) : ProgressReporter :=
  {| _extraction_frames := _extraction_frames self; _stitching_count := 0 |}.

(** [update_stitching], with the percentage it prints. *)
Definition update_stitching (self : ProgressReporter) (frames_stitched total_pairs : Z)
    : ProgressReporter * Q :=
  ({| _extraction_frames := _extraction_frames self;
      _stitching_count := frames_stitched |},
   if 0 <? total_pairs
   then (inject_Z frames_stitched / inject_Z total_pairs * 100)%Q
   else 0%Q).

Definition get_extraction_count (self : ProgressReporter) (camera_id : string) : Z :=
  default 0 (_extraction_frames self !! camera_id).

Definition get_stitching_count (self : ProgressReporter) : Z := _stitching_count self.

(** The calls that touch the counters; the other methods only print. *)
Inductive Call : Type :=
| StartExtraction (camera_id : string) (total_segments : Z)
| UpdateExtraction (camera_id : string) (segment_number frames_extracted : Z)
| StartStitching (total_pairs : Z)
| UpdateStitching (frames_stitched total_pairs : Z)
| OnlyPrints.

Definition call (self : ProgressReporter) (c : Call) : ProgressReporter :=
  match c with
  | StartExtraction camera_id total_segments =>
      start_extraction self camera_id total_segments
  | UpdateExtraction camera_id segment_number frames_extracted =>
      (update_extraction self camera_id segment_number frames_extracted).1
  | StartStitching total_pairs => start_stitching self total_pairs
  | UpdateStitching frames_stitched total_pairs =>
      (update_stitching self frames_stitched total_pairs).1
  | OnlyPrints => self
  end.

End progress_reporter.


(** ** directory_management.py against a file system with state

    A path is the list of its components; the root [[]] is a directory.
    Links and concurrent changes are not modelled. *)

Module directory_management.

Inductive Kind : Type := Directory | File.

(** The exceptions of [mkdir] as the functions tell them apart: the two
    classes they catch, and anything that is no [OSError] (a [ValueError]
    for a null byte in the path), which they do not catch. *)
Inductive MkdirError : Type := PermissionError | OSError | OtherError (e : exn).

(** What exists, where [stat] fails with an error that [Path.exists] and
    [Path.is_dir] raise again (no search permission on a parent, a name that
    is too long), and where the system refuses to create an entry. *)
Record FileSystem : Type := {
  entries : gmap (list string) Kind;
  stat_fault : list string -> option exn;
  forbidden : list string -> option MkdirError
}.

Definition kind_of (fs : FileSystem) (path : list string) : option Kind :=
  match path with
  | [] => Some Directory
  | _ => entries fs !! path
  end.

(** [path.exists()]. *)
Definition path_exists (fs : FileSystem) (path : list string) : py bool :=
  match stat_fault fs path with
  | Some e => Raise e
  | None => Return (bool_decide (is_Some (kind_of fs path)))
  end.

(** [path.is_dir()]. *)
Definition is_dir (fs : FileSystem) (path : list string) : py bool :=
  match stat_fault fs path with
  | Some e => Raise e
  | None => Return match kind_of fs path with Some Directory => true | _ => false end
  end.

(** [path.mkdir(parents=True, exist_ok=True)], component by component
    below [made]: an existing directory is passed, anything else in the way
    is an error, a missing entry is created unless refused. *)
Fixpoint mkdir_below (fs : FileSystem) (made todo : list string)
    : option MkdirError * FileSystem :=
  match todo with
  | [] => (None, fs)
  | component :: rest =>
      let path := made ++ [component] in
      match kind_of fs path with
      | Some Directory => mkdir_below fs path rest
      | Some File => (Some OSError, fs)
      | None =>
          match forbidden fs path with
          | Some error => (Some error, fs)
          | None =>
              mkdir_below {| entries := <[path := Directory]> (entries fs);
                             stat_fault := stat_fault fs;
                             forbidden := forbidden fs |} path rest
          end
      end
  end.

Definition mkdir_parents (fs : FileSystem) (path : list string)
    : option MkdirError * FileSystem :=
  mkdir_below fs [] path.

(** [ensure_directory_exists].  The two tests stand before the [try]: what
    they raise is not wrapped; of what [mkdir] raises only the two caught
    classes are. *)
Definition ensure_directory_exists (fs : FileSystem) (directory : list string)
    : run unit * FileSystem :=
  match path_exists fs directory with
  | Raise e => (Raised (Py e), fs)
  | Return true =>
      match is_dir fs directory with
      | Raise e => (Raised (Py e), fs)
      | Return false =>
          (Raised (OutputDirectoryError "validate" "Path exists but is not a directory"), fs)
      | Return true => (Value tt, fs)
      end
  | Return false =>
      match mkdir_parents fs directory with
      | (None, fs') => (Value tt, fs')
      | (Some PermissionError, fs') =>
          (Raised (OutputDirectoryError "create" "Permission denied"), fs')
      | (Some OSError, fs') => (Raised (OutputDirectoryError "create" "OS error"), fs')
      | (Some (OtherError e), fs') => (Raised (Py e), fs')
      end
  end.

(** The dictionary [setup_extraction_directories] returns. *)
Record Directories : Type := {
  base : list string;
  cam0 : list string;
  cam1 : list string
}.

Definition setup_extraction_directories (fs : FileSystem) (base_dir : list string)
    : run Directories * FileSystem :=
  match ensure_directory_exists fs base_dir with
  | (Raised e, fs) => (Raised e, fs)
  | (Value _, fs) =>
      let cam0_dir := base_dir ++ ["cam0"%string] in
      let cam1_dir := base_dir ++ ["cam1"%string] in
      match ensure_directory_exists fs cam0_dir with
      | (Raised e, fs) => (Raised e, fs)
      | (Value _, fs) =>
          match ensure_directory_exists fs cam1_dir with
          | (Raised e, fs) => (Raised e, fs)
          | (Value _, fs) =>
              (Value {| base := base_dir; cam0 := cam0_dir; cam1 := cam1_dir |}, fs)
          end
      end
  end.

Definition setup_stitching_directory (fs : FileSystem) (output_dir : list string)
    : run (list string) * FileSystem :=
  match ensure_directory_exists fs output_dir with
  | (Raised e, fs) => (Raised e, fs)
  | (Value _, fs) => (Value output_dir, fs)
  end.

End directory_management.


(** ** main.py: the streaming workers

    The two extraction workers share a dictionary per camera and a queue;
    each saved frame is published under the lock, so the shared state
    changes by one publication at a time, in the order in which the
    workers get the lock. *)

Module main_streaming.
Import multiprocess_extraction.

(** An element of [stitch_queue]. *)
Record Pair : Type := {
  pair_cam0 : FrameMeta;
  pair_cam1 : FrameMeta;
  frame_number : Z
}.

(** [extracted_frames_dict] and [stitch_queue]. *)
Record Shared : Type := {
  cam0_frames : gmap Z FrameMeta;
  cam1_frames : gmap Z FrameMeta;
  stitch_queue : list Pair
}.

Definition nothing_yet : Shared :=
  {| cam0_frames := ∅; cam1_frames := ∅; stitch_queue := [] |}.

(** The block under [with lock] in [streaming_extraction_worker].  With a
    camera id that is no key of the dictionary the store raises KeyError,
    which the worker catches: nothing is published. *)
Definition publish (shared : Shared) (camera_id : string) (frame_metadata : FrameMeta)
    : Shared :=
  let number := global_frame_number frame_metadata in
  if String.eqb camera_id "cam0" then
    let cam0_frames := <[number := frame_metadata]> (cam0_frames shared) in
    match cam1_frames shared !! number with
    | Some other =>
        {| cam0_frames := cam0_frames;
           cam1_frames := cam1_frames shared;
           stitch_queue :=
             stitch_queue shared
             ++ [{| pair_cam0 := frame_metadata; pair_cam1 := other;
                    frame_number := number |}] |}
    | None =>
        {| cam0_frames := cam0_frames;
           cam1_frames := cam1_frames shared;
           stitch_queue := stitch_queue shared |}
    end
  else if String.eqb camera_id "cam1" then
    let cam1_frames := <[number := frame_metadata]> (cam1_frames shared) in
    match cam0_frames shared !! number with
    | Some other =>
        {| cam0_frames := cam0_frames shared;
           cam1_frames := cam1_frames;
           stitch_queue :=
             stitch_queue shared
             ++ [{| pair_cam0 := other; pair_cam1 := frame_metadata;
                    frame_number := number |}] |}
    | None =>
        {| cam0_frames := cam0_frames shared;
           cam1_frames := cam1_frames;
           stitch_queue := stitch_queue shared |}
    end
  else shared.

(** The publications of both workers in the order of the lock. *)
Definition run_schedule (schedule : list (string * FrameMeta)) : Shared :=
  fold_left (fun shared event => publish shared event.1 event.2) schedule nothing_yet.

(** [streaming_stitcher_worker] on the pairs it takes from the queue: the
    count of those it stitches. *)
Fixpoint streaming_stitcher_worker (store : pil.Store)
    (stitcher : frame_stitching_io.FrameStitcher) (stitching_dir : string)
    (taken : list Pair) (stitched_count : Z) : Z :=
  match taken with
  | [] => stitched_count
  | item :: rest =>
      match frame_stitching_io.stitch_single_pair store stitcher
              (meta_file_path (pair_cam0 item)) (meta_file_path (pair_cam1 item))
              (frame_number item) stitching_dir with
      | Value _ =>
          streaming_stitcher_worker store stitcher stitching_dir rest (stitched_count + 1)
      | Raised _ =>
          streaming_stitcher_worker store stitcher stitching_dir rest stitched_count
      end
  end.

End main_streaming.


(** ** report_generator.py: the figures of sections 3, 4 and 6

    Without a sync analysis these are the only expressions of the report's
    text that can raise; the file is written after the text is complete. *)

Module report_figures.

Record Figures : Type := {
  cam0_discarded : Z;
  cam1_discarded : Z;
  total_discarded : Z;
  cam0_extraction_rate : Q;
  cam1_extraction_rate : Q;
  stitching_rate : Q;
  cam0_utilization : Q;
  cam1_utilization : Q
}.

(** [a / b * 100] on two ints. *)
Definition percent (a b : Z) : py Q :=
  if b =? 0 then Raise ZeroDivisionError
  else Return (inject_Z a / inject_Z b * 100)%Q.

(** [(a / b * 100) if b > 0 else 0]. *)
Definition guarded_percent (a b : Z) : py Q :=
  if 0 <? b then percent a b else Return 0%Q.

(** The figures in the order in which [generate_enhanced_report] computes
    them. *)
Definition figures (cam0_total_frames cam1_total_frames : Z)
    (cam0_extracted cam1_extracted frames_stitched : Z) : py Figures :=
  let cam0_discarded := cam0_extracted - frames_stitched in
  let cam1_discarded := cam1_extracted - frames_stitched in
  let total_discarded := cam0_discarded + cam1_discarded in
  cam0_extraction_rate ← percent cam0_extracted cam0_total_frames;
  cam1_extraction_rate ← percent cam1_extracted cam1_total_frames;
  stitching_rate ← percent frames_stitched (Z.min cam0_extracted cam1_extracted);
  cam0_utilization ← guarded_percent frames_stitched cam0_extracted;
  cam1_utilization ← guarded_percent frames_stitched cam1_extracted;
  Return {| cam0_discarded := cam0_discarded;
            cam1_discarded := cam1_discarded;
            total_discarded := total_discarded;
            cam0_extraction_rate := cam0_extraction_rate;
            cam1_extraction_rate := cam1_extraction_rate;
            stitching_rate := stitching_rate;
            cam0_utilization := cam0_utilization;
            cam1_utilization := cam1_utilization |}.

End report_figures.


(** * Notions used in the statements *)

(** Orders on the sorting key. *)
Definition key_le {A : Type} (key : A -> Z) (a b : A) : Prop := key a <= key b.
Definition key_lt {A : Type} (key : A -> Z) (a b : A) : Prop := key a < key b.

(** Ascending by global frame number. *)
Definition ascending (frames : list multiprocess_extraction.FrameMeta) : Prop :=
  StronglySorted Z.le (multiprocess_extraction.global_frame_number <$> frames).

(** The metadata a worker writes for frame number [g], given the camera,
    the output directory and the output format of its task. *)
Definition meta_for (camera dir format : string) (g : Z)
    : multiprocess_extraction.FrameMeta :=
  {| multiprocess_extraction.global_frame_number := g;
     multiprocess_extraction.meta_camera_id := camera;
     multiprocess_extraction.meta_file_path :=
       path_join dir ("frame_" ++ format_04d g ++ "." ++ lower format)%string |}.

(** The record that camera 0 ([true]) or camera 1 ([false]) holds for a
    frame number. *)
Definition camera_meta (extraction_dirs : multiprocess_extraction.ExtractionDirs)
    (extractor_config : multiprocess_extraction.ExtractorConfig)
    (first_camera : bool) (g : Z) : multiprocess_extraction.FrameMeta :=
  meta_for (if first_camera then "cam0" else "cam1")
    (if first_camera then multiprocess_extraction.cam0 extraction_dirs
     else multiprocess_extraction.cam1 extraction_dirs)
    (multiprocess_extraction.cfg_output_format extractor_config) g.

(** The claimed offset of a segment: the frames of the segments of the same
    camera with a strictly smaller number. *)
Definition frames_before (segments : list video_discovery.VideoSegment) (number : Z) : Z :=
  foldr Z.add 0
    (video_discovery.frame_count
       <$> filter (fun s => video_discovery.segment_number s < number) segments).

(** The tasks of [extract_all_frames], camera 0 first. *)
Definition all_tasks (extraction_dirs : multiprocess_extraction.ExtractionDirs)
    (extractor_config : multiprocess_extraction.ExtractorConfig)
    (cam0_segments cam1_segments : list video_discovery.VideoSegment)
    : list multiprocess_extraction.SegmentExtractionTask :=
  multiprocess_extraction.camera_tasks "cam0"
    (multiprocess_extraction.cam0 extraction_dirs) extractor_config cam0_segments
  ++ multiprocess_extraction.camera_tasks "cam1"
       (multiprocess_extraction.cam1 extraction_dirs) extractor_config cam1_segments.

(** The futures of the submitted tasks, in submission order. *)
Definition futures_of (w : cv2.World)
    (pool_fault : multiprocess_extraction.SegmentExtractionTask -> option exn)
    (tasks : list multiprocess_extraction.SegmentExtractionTask)
    : list (py (list multiprocess_extraction.FrameMeta)
            * multiprocess_extraction.SegmentExtractionTask) :=
  (fun task =>
     (multiprocess_extraction.submit w
        {| multiprocess_extraction.fault := pool_fault;
           multiprocess_extraction.as_completed := id |} task, task)) <$> tasks.

(** What one completed future adds to the list of camera 0 ([true]) or of
    camera 1 ([false]). *)
Definition camera_part (first_camera : bool)
    (done : py (list multiprocess_extraction.FrameMeta)
            * multiprocess_extraction.SegmentExtractionTask)
    : list multiprocess_extraction.FrameMeta :=
  match done.1 with
  | Return frames =>
      if Bool.eqb (String.eqb (multiprocess_extraction.camera_id done.2) "cam0") first_camera
      then frames else []
  | Raise _ => []
  end.

(** Some frame of the list carries number [g]. *)
Definition numbered (frames : list frame_extraction.ExtractedFrame) (g : Z) : Prop :=
  exists f, f ∈ frames /\ frame_extraction.global_frame_number f = g.

(** The rating as C5 words it: the average drift and the start delay (by
    its absolute value, as the code takes it) both put in the four bands
    <10, <30, <50, >=50, then combined. *)
Definition four_bands (x : Q) : timestamp_analysis.Quality :=
  if Qltb x 10 then timestamp_analysis.Excellent
  else if Qltb x 30 then timestamp_analysis.Good
  else if Qltb x 50 then timestamp_analysis.Fair
  else timestamp_analysis.Poor.

Definition combined (drift_class start_class : timestamp_analysis.Quality)
    : timestamp_analysis.Quality :=
  match drift_class, start_class with
  | timestamp_analysis.Excellent, timestamp_analysis.Excellent => timestamp_analysis.Excellent
  | timestamp_analysis.Excellent, timestamp_analysis.Good
  | timestamp_analysis.Good, timestamp_analysis.Excellent
  | timestamp_analysis.Good, timestamp_analysis.Good => timestamp_analysis.Good
  | timestamp_analysis.Fair, _ => timestamp_analysis.Fair
  | _, _ => timestamp_analysis.Poor
  end.

Definition rating_as_claimed (start_delay_ms avg_drift_ms : Q) : timestamp_analysis.Quality :=
  combined (four_bands avg_drift_ms) (four_bands (Qabs start_delay_ms)).

(** The absolute drifts of a list of sample tuples. *)
Definition abs_drifts (sample_drifts : list (Z * Q * Q * Q)) : list Q :=
  (fun sample => Qabs sample.2) <$> sample_drifts.

(** The sample tuple at position [idx] carries [idx] and the signed drift
    in milliseconds of the two records at that position. *)
Definition sampled_at (cam0_timestamps cam1_timestamps : list timestamp_analysis.Timestamp)
    (idx : Z) (sample : Z * Q * Q * Q) : Prop :=
  exists r0 r1,
    cam0_timestamps !! Z.to_nat idx = Some r0 /\
    cam1_timestamps !! Z.to_nat idx = Some r1 /\
    sample.1.1.1 = idx /\
    sample.2 = (inject_Z (timestamp_analysis.pts_us r0 - timestamp_analysis.pts_us r1)
                / 1000)%Q.

(** The records one pass over [frames] writes when the frame before the
    first carries the number [before]: one for each frame that is due and
    could be saved. *)
Fixpoint due_frames (w : cv2.World) (extractor : frame_extraction.FrameExtractor)
    (dir camera : string) (frames : list cv2.Raster) (before : Z)
    : list multiprocess_extraction.FrameMeta :=
  match frames with
  | [] => []
  | frame :: rest =>
      (if frame_extraction.should_extract_frame extractor (before + 1) then
         match frame_io.save_frame w extractor frame (before + 1) dir camera with
         | Return path =>
             [{| multiprocess_extraction.global_frame_number := before + 1;
                 multiprocess_extraction.meta_camera_id := camera;
                 multiprocess_extraction.meta_file_path := path |}]
         | Raise _ => []
         end
       else [])
      ++ due_frames w extractor dir camera rest (before + 1)
  end.

(** The extractor a worker builds from a configuration it accepts. *)
Definition extractor_of (extractor_config : multiprocess_extraction.ExtractorConfig)
    : frame_extraction.FrameExtractor :=
  {| frame_extraction.sampling_interval :=
       multiprocess_extraction.cfg_sampling_interval extractor_config;
     frame_extraction.output_format :=
       lower (multiprocess_extraction.cfg_output_format extractor_config);
     frame_extraction.enable_overlay :=
       multiprocess_extraction.cfg_enable_overlay extractor_config;
     frame_extraction.overlay_font_size :=
       multiprocess_extraction.cfg_overlay_font_size extractor_config;
     frame_extraction.overlay_position :=
       multiprocess_extraction.cfg_overlay_position extractor_config |}.

(** A configuration the constructor of [FrameExtractor] accepts. *)
Definition accepted_config (extractor_config : multiprocess_extraction.ExtractorConfig) : Prop :=
  1 <= multiprocess_extraction.cfg_sampling_interval extractor_config /\
  lower (multiprocess_extraction.cfg_output_format extractor_config)
    ∈ frame_extraction.valid_formats.

(** Directories can be made and every image written. *)
Definition saves_succeed (w : cv2.World) : Prop :=
  (forall dir, cv2.mkdir w dir = Return tt) /\
  (forall path raster, cv2.imwrite w path raster = cv2.Written).

(** The file of [segment] opens and decodes, without error, to exactly
    [frame_count] non-empty rasters. *)
Definition decodes_exactly (w : cv2.World) (segment : video_discovery.VideoSegment) : Prop :=
  exists cap,
    cv2.VideoCapture w (video_discovery.file_path segment) = cv2.Opened cap /\
    cv2.read_raises cap = false /\
    Z.of_nat (length (cv2.frames cap)) = video_discovery.frame_count segment /\
    Forall (fun frame => cv2.size frame <> 0) (cv2.frames cap).

(** The file of [segment], when it opens, holds at most [frame_count]
    frames. *)
Definition decodes_at_most (w : cv2.World) (segment : video_discovery.VideoSegment) : Prop :=
  forall cap,
    cv2.VideoCapture w (video_discovery.file_path segment) = cv2.Opened cap ->
    Z.of_nat (length (cv2.frames cap)) <= video_discovery.frame_count segment.

(** Strictly ascending by global frame number. *)
Definition strictly_ascending (frames : list multiprocess_extraction.FrameMeta) : Prop :=
  StronglySorted Z.lt (multiprocess_extraction.global_frame_number <$> frames).


(** What the future of a task gives to the list of its camera: the worker's
    records, or nothing when the pool lost the task. *)
Definition task_result (w : cv2.World)
    (pool_fault : multiprocess_extraction.SegmentExtractionTask -> option exn)
    (task : multiprocess_extraction.SegmentExtractionTask)
    : list multiprocess_extraction.FrameMeta :=
  match pool_fault task with
  | Some _ => []
  | None => multiprocess_extraction.extract_segment_frames w task
  end.

(** The frame numbers among 1..total that the extractor samples, in order. *)
Definition sampled_numbers (extractor : frame_extraction.FrameExtractor) (total : Z) : list Z :=
  filter (fun g => frame_extraction.should_extract_frame extractor g = true) (seqZ 1 total).


(** The tasks of camera 0 ([true]) or camera 1 ([false]), in segment order. *)
Definition tasks_of_camera (extraction_dirs : multiprocess_extraction.ExtractionDirs)
    (extractor_config : multiprocess_extraction.ExtractorConfig) (first_camera : bool)
    (cam0_segments cam1_segments : list video_discovery.VideoSegment)
    : list multiprocess_extraction.SegmentExtractionTask :=
  if first_camera
  then multiprocess_extraction.camera_tasks "cam0"
         (multiprocess_extraction.cam0 extraction_dirs) extractor_config cam0_segments
  else multiprocess_extraction.camera_tasks "cam1"
         (multiprocess_extraction.cam1 extraction_dirs) extractor_config cam1_segments.


(** The calls a progress callback receives while [count] frames are added
    to [already] extracted ones: the running length with the total. *)
Definition progress_numbers (has_callback : bool) (already count : nat) (total : Z)
    : list (Z * Z) :=
  if has_callback
  then (fun k => (Z.of_nat already + k, total)) <$> seqZ 1 (Z.of_nat count)
  else [].

(** The file of [segment] does not open, or it decodes without error to
    exactly [frame_count] frames. *)
Definition announced_or_unopened (w : cv2.World) (segment : video_discovery.VideoSegment)
    : Prop :=
  match cv2.VideoCapture w (video_discovery.file_path segment) with
  | cv2.Opened cap =>
      cv2.read_raises cap = false /\
      Z.of_nat (length (cv2.frames cap)) = video_discovery.frame_count segment
  | cv2.NotOpened | cv2.OpenRaises => True
  end.


(** Every image loads, every overlay is drawn and every image is saved. *)
Definition images_never_fail (store : pil.Store) : Prop :=
  (forall path, exists size, pil.open store path = pil.Loaded size) /\
  (forall canvas frame_number, pil.draw_overlay store canvas frame_number = None) /\
  (forall path image_format canvas, pil.save store path image_format canvas = None).


(** Some segment of the list carries the number. *)
Definition has_segment (segments : list video_discovery.VideoSegment) (number : Z) : Prop :=
  exists seg, seg ∈ segments /\ video_discovery.segment_number seg = number.


(** The share of samples under 10 ms, as [_calculate_rating] computes it. *)
Definition good_ratio (distribution : timestamp_analysis.Distribution) (total_samples : Z)
    : Q :=
  if 0 <? total_samples
  then (inject_Z (timestamp_analysis.lt_10ms distribution) / inject_Z total_samples)%Q
  else 0%Q.


(** The loaded logs of camera 0 ([true]) or of the other camera ([false]),
    in completion order. *)
Definition camera_logs (first_camera : bool)
    (loaded : list (string * Z * list timestamp_analysis.Timestamp))
    : list (string * Z * list timestamp_analysis.Timestamp) :=
  filter (fun r => String.eqb r.1.1 "cam0" = first_camera) loaded.

(** The logs of a camera joined in ascending order of segment number. *)
Definition joined_logs (first_camera : bool)
    (loaded : list (string * Z * list timestamp_analysis.Timestamp))
    : list timestamp_analysis.Timestamp :=
  concat (snd <$> sorted_by_key (fun r => r.1.2) (camera_logs first_camera loaded)).

(** No two loaded logs are of the same camera and segment number. *)
Definition distinct_logs (loaded : list (string * Z * list timestamp_analysis.Timestamp))
    : Prop :=
  NoDup ((fun r => (String.eqb r.1.1 "cam0", r.1.2)) <$> loaded).


(** The dictionary [analyze_all_segments] fills for camera 0 ([true]) or
    for the other camera ([false]). *)
Definition results_of (first_camera : bool)
    (results : gmap Z (list timestamp_analysis.Timestamp)
               * gmap Z (list timestamp_analysis.Timestamp))
    : gmap Z (list timestamp_analysis.Timestamp) :=
  if first_camera then results.1 else results.2.


(** The interval in milliseconds between two consecutive records. *)
Definition interval_ms (prev cur : timestamp_analysis.Timestamp) : Q :=
  (inject_Z (timestamp_analysis.pts_us cur - timestamp_analysis.pts_us prev) / 1000)%Q.




(** Both cameras' logs hold a timestamp for the frame. *)
Definition found_by_both (logs : string -> report_generator.LogFile) (segments_dir : string)
    (cam0_segments cam1_segments : list video_discovery.VideoSegment) (frame_num : Z)
    : Prop :=
  is_Some (report_generator.load_timestamps_for_frame logs segments_dir "cam0" frame_num
             cam0_segments) /\
  is_Some (report_generator.load_timestamps_for_frame logs segments_dir "cam1" frame_num
             cam1_segments).

#[global] Instance found_by_both_dec logs segments_dir cam0_segments cam1_segments frame_num :
  Decision (found_by_both logs segments_dir cam0_segments cam1_segments frame_num) :=
  and_dec _ _.

(** The percentage of the frame count check in exact arithmetic. *)
Definition exact_percent (cam0_total cam1_total : Z) : Q :=
  (inject_Z (Z.abs (cam0_total - cam1_total))
   / inject_Z (Z.max cam0_total cam1_total) * 100)%Q.

(** The thresholds that pass the two comparisons of [__post_init__]: the
    finite ones from 0 to 100, and NaN, which no comparison excludes. *)
Definition passes_threshold_check (threshold : floats.float) : Prop :=
  match threshold with
  | floats.Finite q => (0 <= q)%Q /\ (q <= 100)%Q
  | floats.Infinity _ => False
  | floats.NaN => True
  end.



(** The frames a history reports for a camera. *)
Definition reported_frames (camera_id : string) (calls : list progress_reporter.Call)
    : list Z :=
  omap (fun c => match c with
                 | progress_reporter.UpdateExtraction camera _ frames_extracted =>
                     if String.eqb camera camera_id then Some frames_extracted else None
                 | _ => None
                 end) calls.

(** The history does not start the extraction of the camera. *)
Definition never_starts (camera_id : string) (calls : list progress_reporter.Call) : Prop :=
  forall total_segments, progress_reporter.StartExtraction camera_id total_segments ∉ calls.


(** The second file system keeps every entry of the first and only adds
    directories, each on the way to one of [targets]. *)
Definition only_adds_directories (fs fs' : directory_management.FileSystem)
    (targets : list (list string)) : Prop :=
  directory_management.forbidden fs' = directory_management.forbidden fs /\
  directory_management.stat_fault fs' = directory_management.stat_fault fs /\
  (forall path kind,
     directory_management.kind_of fs path = Some kind ->
     directory_management.kind_of fs' path = Some kind) /\
  (forall path kind,
     directory_management.kind_of fs' path = Some kind ->
     directory_management.kind_of fs path = Some kind \/
     (kind = directory_management.Directory /\
      exists target, target ∈ targets /\ path `prefix_of` target)).


(** No camera publishes a frame number twice. *)
Definition publishes_once (schedule : list (string * multiprocess_extraction.FrameMeta))
    : Prop :=
  NoDup ((fun event => (event.1, multiprocess_extraction.global_frame_number event.2))
           <$> schedule).

(** The pair of two published frames that carry the same number. *)
Definition pair_of (meta0 meta1 : multiprocess_extraction.FrameMeta) : main_streaming.Pair :=
  {| main_streaming.pair_cam0 := meta0;
     main_streaming.pair_cam1 := meta1;
     main_streaming.frame_number := multiprocess_extraction.global_frame_number meta0 |}.

(** What the shared state holds after the publications of [schedule]. *)
Definition published (schedule : list (string * multiprocess_extraction.FrameMeta))
    (shared : main_streaming.Shared) : Prop :=
  (forall number meta,
     main_streaming.cam0_frames shared !! number = Some meta <->
     ("cam0"%string, meta) ∈ schedule /\
     multiprocess_extraction.global_frame_number meta = number) /\
  (forall number meta,
     main_streaming.cam1_frames shared !! number = Some meta <->
     ("cam1"%string, meta) ∈ schedule /\
     multiprocess_extraction.global_frame_number meta = number) /\
  (forall pair,
     pair ∈ main_streaming.stitch_queue shared <->
     exists meta0 meta1,
       ("cam0"%string, meta0) ∈ schedule /\ ("cam1"%string, meta1) ∈ schedule /\
       multiprocess_extraction.global_frame_number meta0
         = multiprocess_extraction.global_frame_number meta1 /\
       pair = pair_of meta0 meta1) /\
  NoDup (main_streaming.frame_number <$> main_streaming.stitch_queue shared).


(** * Concrete inputs *)

Definition example_config : multiprocess_extraction.ExtractorConfig :=
  {| multiprocess_extraction.cfg_sampling_interval := 100;
     multiprocess_extraction.cfg_output_format := "png";
     multiprocess_extraction.cfg_enable_overlay := true;
     multiprocess_extraction.cfg_overlay_font_size := 32;
     multiprocess_extraction.cfg_overlay_position := "top-left" |}.

Definition example_dirs : multiprocess_extraction.ExtractionDirs :=
  {| multiprocess_extraction.base := "extracted_frames";
     multiprocess_extraction.cam0 := "extracted_frames/cam0";
     multiprocess_extraction.cam1 := "extracted_frames/cam1" |}.

Definition example_segment (camera name : string) (number frames : Z)
    : video_discovery.VideoSegment :=
  {| video_discovery.camera_id := camera;
     video_discovery.segment_number := number;
     video_discovery.file_path := name;
     video_discovery.frame_count := frames |}.

(** Three segments found out of order, with a gap in the numbering. *)
Definition gapped_segments : list video_discovery.VideoSegment :=
  [ example_segment "cam0" "stereo_cam0_sbs_0007.mp4" 7 30;
    example_segment "cam0" "stereo_cam0_sbs_0001.mp4" 1 100;
    example_segment "cam0" "stereo_cam0_sbs_0003.mp4" 3 50 ].

(** Two files of one camera whose names carry the same number. *)
Definition twin_segments : list video_discovery.VideoSegment :=
  [ example_segment "cam0" "stereo_cam0_sbs_1.mp4" 1 10;
    example_segment "cam0" "stereo_cam0_sbs_01.mp4" 1 20 ].

(** Every file opens and decodes to 100 frames; every write succeeds. *)
Definition example_world : cv2.World :=
  {| cv2.VideoCapture := fun _ =>
       cv2.Opened {| cv2.frames := replicate 100 {| cv2.size := 6220800 |};
                     cv2.read_raises := false |};
     cv2.mkdir := fun _ => Return tt;
     cv2.imwrite := fun _ _ => cv2.Written |}.

(** Three segments of 100 frames for a camera. *)
Definition three_segments (camera : string) : list video_discovery.VideoSegment :=
  [ example_segment camera (camera ++ "_0001.mp4") 1 100;
    example_segment camera (camera ++ "_0002.mp4") 2 100;
    example_segment camera (camera ++ "_0003.mp4") 3 100 ].

(** The same media, but the second segment of camera 1 cannot be opened. *)
Definition world_with_unreadable_segment : cv2.World :=
  {| cv2.VideoCapture := fun path =>
       if String.eqb path "cam1_0002.mp4" then cv2.NotOpened
       else cv2.VideoCapture example_world path;
     cv2.mkdir := cv2.mkdir example_world;
     cv2.imwrite := cv2.imwrite example_world |}.

(** Two pools that differ only in the order in which futures complete:
    submission order and its reverse. *)
Definition pool_in_order : multiprocess_extraction.Pool :=
  {| multiprocess_extraction.fault := fun _ => None;
     multiprocess_extraction.as_completed := id |}.

Definition pool_reversed : multiprocess_extraction.Pool :=
  {| multiprocess_extraction.fault := fun _ => None;
     multiprocess_extraction.as_completed := reverse |}.

Definition example_frame (camera : string) (g : Z) : frame_extraction.ExtractedFrame :=
  {| frame_extraction.global_frame_number := g;
     frame_extraction.camera_id := camera;
     frame_extraction.file_path :=
       path_join camera ("frame_" ++ format_04d g ++ ".png")%string |}.

Definition default_analyzer : timestamp_analysis.TimestampAnalyzer :=
  {| timestamp_analysis.sync_threshold_ms := 50;
     timestamp_analysis.sample_points := 20 |}.

Definition all_under_10ms (samples : Z) : timestamp_analysis.Distribution :=
  {| timestamp_analysis.lt_10ms := samples;
     timestamp_analysis.from_10_to_30ms := 0;
     timestamp_analysis.from_30_to_50ms := 0;
     timestamp_analysis.ge_50ms := 0 |}.

Definition example_series (start_us : Z) : list timestamp_analysis.Timestamp :=
  (fun k => {| timestamp_analysis.i := k;
               timestamp_analysis.pts_us := start_us + k * 33333 |}) <$> seqZ 0 5.

Definition two_point_analyzer : timestamp_analysis.TimestampAnalyzer :=
  {| timestamp_analysis.sync_threshold_ms := 50;
     timestamp_analysis.sample_points := 2 |}.

(** The extractor of the default configuration. *)
Definition default_extractor : frame_extraction.FrameExtractor :=
  {| frame_extraction.sampling_interval := 100;
     frame_extraction.output_format := "png";
     frame_extraction.enable_overlay := true;
     frame_extraction.overlay_font_size := 32;
     frame_extraction.overlay_position := "top-left" |}.


(** A file system on which every output directory can be used. *)
Definition writable_disk : error_handling.Disk :=
  {| error_handling.output_directory_fault := fun _ => None |}.


(** Every image is 1920 by 1080 and nothing fails. *)
Definition example_store : pil.Store :=
  {| pil.open := fun _ => pil.Loaded {| pil.width := 1920; pil.height := 1080 |};
     pil.draw_overlay := fun _ _ => None;
     pil.save := fun _ _ _ => None |}.

Definition example_stitcher : frame_stitching_io.FrameStitcher :=
  {| frame_stitching_io.output_format := "png";
     frame_stitching_io.enable_overlay := true;
     frame_stitching_io.overlay_font_size := 32;
     frame_stitching_io.overlay_position := "top-left" |}.


(** The configuration [get_default_config] describes. *)
Definition default_config : config.Config :=
  {| config.input_dir := "./segments";
     config.output_dir := "./stitched_frames";
     config.extracted_frames_dir := "./extracted_frames";
     config.sampling_interval := 100;
     config.output_format := "png";
     config.cam0_pattern := "stereo_cam0_sbs_*.mp4";
     config.cam1_pattern := "stereo_cam1_sbs_*.mp4";
     config.frame_count_threshold := floats.Finite 5;
     config.enable_frame_overlay := true;
     config.overlay_font_size := 32;
     config.overlay_position := "top-left";
     config.timestamp_analysis_enabled := true;
     config.timestamp_sync_threshold_ms := floats.Finite 50;
     config.timestamp_sample_points := 20 |}.





(** An empty file system that refuses nothing, and one in which the name
    [extracted_frames] is taken by a file. *)
Definition empty_disk : directory_management.FileSystem :=
  {| directory_management.entries := ∅;
     directory_management.stat_fault := fun _ => None;
     directory_management.forbidden := fun _ => None |}.

Definition disk_with_file : directory_management.FileSystem :=
  {| directory_management.entries :=
       {[ ["extracted_frames"%string] := directory_management.File ]};
     directory_management.stat_fault := fun _ => None;
     directory_management.forbidden := fun _ => None |}.


(** Camera 0 saves frames 5 and 10, camera 1 frames 5, 10 and 15; camera 1
    gets the lock first for frame 5, camera 0 first for frame 10. *)
Definition example_schedule : list (string * multiprocess_extraction.FrameMeta) :=
  let saved (camera_id : string) (number : Z) (file_path : string) :=
    (camera_id,
     {| multiprocess_extraction.global_frame_number := number;
        multiprocess_extraction.meta_camera_id := camera_id;
        multiprocess_extraction.meta_file_path := file_path |}) in
  [ saved "cam1" 5 "out/cam1/frame_000005.png";
    saved "cam0" 5 "out/cam0/frame_000005.png";
    saved "cam0" 10 "out/cam0/frame_000010.png";
    saved "cam1" 10 "out/cam1/frame_000010.png";
    saved "cam1" 15 "out/cam1/frame_000015.png" ]%string.


(** An input directory with two files of camera 0, found out of order, and
    one of camera 1; every video announces 100 frames. *)
Definition example_files : video_discovery_io.Files :=
  {| video_discovery_io.path_exists := fun _ => Return true;
     video_discovery_io.is_dir := fun _ => Return true;
     video_discovery_io.iterdir := fun _ => video_discovery_io.Listed;
     video_discovery_io.glob := fun _ pattern =>
       Return (if String.prefix "stereo_cam0" pattern
               then ["segments/stereo_cam0_sbs_0002.mp4"; "segments/stereo_cam0_sbs_0001.mp4"]
               else ["segments/stereo_cam1_sbs_0001.mp4"])%string;
     video_discovery_io.is_file := fun _ => Return true;
     video_discovery_io.name := fun path => String.substring 9 (String.length path - 9) path;
     video_discovery_io.frame_count_property := fun _ => Return 100 |}.


(** * Properties *)

(** ** The stable sort *)

Section sorting.
Context {A : Type} (key : A -> Z).

#[local] Instance key_le_trans : Transitive (key_le key).
Proof. unfold key_le. intros a b c. lia. Qed.

Lemma insert_by_key_perm x l : insert_by_key key x l ≡ₚ x :: l.
Proof.
  induction l as [|y l IH]; simpl; [done|].
  destruct (key x <=? key y); [done|].
  rewrite IH. apply Permutation_swap.
Qed.

Lemma sorted_by_key_perm l : sorted_by_key key l ≡ₚ l.
Proof.
  induction l as [|x l IH]; simpl; [done|].
  by rewrite insert_by_key_perm, IH.
Qed.

Lemma insert_by_key_sorted x l :
  StronglySorted (key_le key) l -> StronglySorted (key_le key) (insert_by_key key x l).
Proof.
  induction 1 as [|y l Hl IH Hy]; simpl.
  { repeat constructor. }
  destruct (Z.leb_spec (key x) (key y)) as [Hxy|Hxy].
  - constructor; [by constructor|].
    constructor; [done|].
    eapply Forall_impl; [exact Hy|].
    unfold key_le. intros z ?. lia.
  - constructor; [done|].
    rewrite insert_by_key_perm. constructor; [|done].
    unfold key_le. lia.
Qed.

Lemma sorted_by_key_sorted l : StronglySorted (key_le key) (sorted_by_key key l).
Proof.
  induction l as [|x l IH]; simpl; [constructor|].
  by apply insert_by_key_sorted.
Qed.

(** Two orders of the same elements sort to the same list as soon as the
    key decides the element. *)
Lemma sorted_by_key_unique l1 l2 :
  l1 ≡ₚ l2 ->
  (forall x y, x ∈ l1 -> y ∈ l1 -> key x = key y -> x = y) ->
  sorted_by_key key l1 = sorted_by_key key l2.
Proof.
  intros Hperm Hkey.
  apply (StronglySorted_unique_strong (key_le key));
    [|apply sorted_by_key_sorted..|by rewrite !sorted_by_key_perm].
  intros x y Hx Hy Hxy Hyx.
  rewrite sorted_by_key_perm in Hx, Hy. rewrite <- Hperm in Hy.
  apply Hkey; [done..|]. unfold key_le in *. lia.
Qed.

Lemma sorted_keys_ascending l :
  StronglySorted (key_le key) l -> StronglySorted Z.le (key <$> l).
Proof.
  induction 1 as [|x l Hl IH Hx]; simpl; constructor; [done|].
  by rewrite Forall_fmap.
Qed.

(** Without a repeated key the order is strict. *)
Lemma sorted_distinct_strict l :
  StronglySorted (key_le key) l -> NoDup (key <$> l) -> StronglySorted (key_lt key) l.
Proof.
  induction 1 as [|x l Hl IH Hx]; simpl; intros Hnd; [constructor|].
  apply NoDup_cons in Hnd as [Hnotin Hnd].
  constructor; [by apply IH|].
  rewrite Forall_forall in Hx. apply Forall_forall. intros y Hy.
  specialize (Hx y Hy). unfold key_le, key_lt in *.
  assert (key x <> key y); [|lia].
  intros Heq. apply Hnotin. rewrite Heq. by apply list_elem_of_fmap_2.
Qed.

End sorting.

Lemma sum_perm (l1 l2 : list Z) : l1 ≡ₚ l2 -> foldr Z.add 0 l1 = foldr Z.add 0 l2.
Proof. induction 1; simpl; lia. Qed.

Lemma py_index_in_range {A : Type} (l : list A) (k : Z) (x : A) :
  0 <= k -> l !! Z.to_nat k = Some x -> py_index l k = Return x.
Proof.
  intros Hk Hx. unfold py_index.
  pose proof (lookup_lt_Some _ _ _ Hx) as Hlen.
  destruct (Z.ltb_spec k 0); [lia|].
  destruct (Z.ltb_spec k 0); [lia|].
  destruct (Z.leb_spec (Z.of_nat (length l)) k); [lia|].
  simpl. by rewrite Hx.
Qed.

(** ** The sampling predicate *)

Section sampling.
Import frame_extraction.

Lemma should_extract_frame_iff (self : FrameExtractor) (g : Z) :
  should_extract_frame self g = true <->
  1 <= g /\ (g - 1) mod sampling_interval self = 0.
Proof.
  unfold should_extract_frame.
  destruct (Z.ltb_spec g 1); [intuition (discriminate || lia)|].
  rewrite Z.eqb_eq. intuition lia.
Qed.

Lemma div_step_hit (N n : Z) :
  1 <= N -> 0 <= n -> n mod N = 0 -> n / N = (n - 1) / N + 1.
Proof.
  intros HN Hn Hmod.
  pose proof (Z.div_mod n N ltac:(lia)) as Hdm. rewrite Hmod in Hdm.
  assert ((n - 1) / N = n / N - 1); [|lia].
  symmetry. apply (Z.div_unique _ _ _ (N - 1)); lia.
Qed.

Lemma div_step_miss (N n : Z) :
  1 <= N -> 0 <= n -> n mod N <> 0 -> n / N = (n - 1) / N.
Proof.
  intros HN Hn Hmod.
  pose proof (Z.div_mod n N ltac:(lia)) as Hdm.
  pose proof (Z.mod_pos_bound n N ltac:(lia)) as Hb.
  apply (Z.div_unique _ _ _ (n mod N - 1)); lia.
Qed.

(** The accepted numbers among [1..F], in order. *)
Lemma accepted_prefix (self : FrameExtractor) (n : nat) :
  1 <= sampling_interval self ->
  filter (fun g => should_extract_frame self g = true) (seqZ 1 (Z.of_nat n)) =
  (fun k => 1 + k * sampling_interval self)
    <$> seqZ 0 ((Z.of_nat n - 1) / sampling_interval self + 1).
Proof.
  intros HN. set (N := sampling_interval self) in *.
  induction n as [|n IH].
  { replace ((Z.of_nat 0 - 1) / N) with (-1); [done|].
    apply (Z.div_unique _ _ _ (N - 1)); lia. }
  rewrite seqZ_S, filter_app, IH.
  replace (Z.of_nat (S n) - 1) with (Z.of_nat n) by lia.
  destruct (decide (Z.of_nat n mod N = 0)) as [Hhit|Hmiss].
  - rewrite (div_step_hit N (Z.of_nat n)) by lia.
    pose proof (Z.div_pos (Z.of_nat n) N ltac:(lia) ltac:(lia)) as Hq.
    pose proof (div_step_hit N (Z.of_nat n) ltac:(lia) ltac:(lia) Hhit) as Hstep.
    rewrite (seqZ_app 0 ((Z.of_nat n - 1) / N + 1) 1) by lia.
    rewrite fmap_app. f_equal.
    rewrite (seqZ_cons _ 1), seqZ_nil by lia. simpl.
    pose proof (Z.div_mod (Z.of_nat n) N ltac:(lia)) as Hdm.
    rewrite filter_cons_True, filter_nil.
    + f_equal. lia.
    + apply should_extract_frame_iff. fold N.
      split; [lia|]. by replace (1 + Z.of_nat n - 1) with (Z.of_nat n) by lia.
  - rewrite <- (div_step_miss N (Z.of_nat n)) by lia.
    rewrite filter_cons_False, filter_nil, app_nil_r.
    + rewrite (div_step_miss N (Z.of_nat n)) by lia. done.
    + rewrite should_extract_frame_iff. fold N.
      replace (1 + Z.of_nat n - 1) with (Z.of_nat n) by lia. tauto.
Qed.

End sampling.

(** C1.  For a sampling interval N >= 1, [should_extract_frame] accepts g
    exactly when g >= 1 and (g - 1) mod N = 0; it reads nothing but g and N;
    over 1..F the accepted numbers are, in order, 1, 1+N, 1+2N, ... up to F;
    1 is accepted and is the least accepted number; and after an accepted g
    the next accepted number is g + N. *)
Theorem should_extract_frame_pattern (self : frame_extraction.FrameExtractor) :
  1 <= frame_extraction.sampling_interval self ->
  let N := frame_extraction.sampling_interval self in
  let accepts := frame_extraction.should_extract_frame self in
  (forall g, accepts g = true <-> 1 <= g /\ (g - 1) mod N = 0) /\
  (forall other g,
     frame_extraction.sampling_interval other = N ->
     frame_extraction.should_extract_frame other g = accepts g) /\
  (forall F, 1 <= F ->
     filter (fun g => accepts g = true) (seqZ 1 F) =
     (fun k => 1 + k * N) <$> seqZ 0 ((F - 1) / N + 1)) /\
  accepts 1 = true /\
  (forall g, accepts g = true -> 1 <= g) /\
  (forall g, accepts g = true ->
     accepts (g + N) = true /\
     forall h, g < h < g + N -> accepts h = false).
Proof.
  intros HN N accepts. subst accepts.
  split; [intros g; apply should_extract_frame_iff|].
  split.
  { intros other g Hother. unfold frame_extraction.should_extract_frame.
    by rewrite Hother. }
  split.
  { intros F HF. rewrite <- (Z2Nat.id F) by lia. by apply accepted_prefix. }
  split.
  { apply should_extract_frame_iff. split; [lia|]. by rewrite Z.sub_diag, Z.mod_0_l by lia. }
  split.
  { intros g Hg. by apply should_extract_frame_iff in Hg as [? _]. }
  intros g [Hg Hmod]%should_extract_frame_iff. fold N in Hmod. split.
  - apply should_extract_frame_iff. fold N. split; [lia|].
    replace (g + N - 1) with (g - 1 + 1 * N) by lia.
    by rewrite Z.mod_add by lia.
  - intros h Hh. apply not_true_is_false.
    intros [_ Hhmod]%should_extract_frame_iff. fold N in Hhmod.
    pose proof (Z.div_mod (g - 1) N ltac:(lia)) as Hd1.
    pose proof (Z.div_mod (h - 1) N ltac:(lia)) as Hd2.
    rewrite Hmod in Hd1. rewrite Hhmod in Hd2.
    assert (N * ((h - 1) / N - (g - 1) / N) = h - g) as Hdiff by lia.
    assert (0 < (h - 1) / N - (g - 1) / N < 1); [nia|lia].
Qed.

(** The default configuration: N = 100. *)
Lemma should_extract_frame_pattern_witness :
  let self := {| frame_extraction.sampling_interval := 100;
                 frame_extraction.output_format := "png";
                 frame_extraction.enable_overlay := true;
                 frame_extraction.overlay_font_size := 32;
                 frame_extraction.overlay_position := "top-left" |} in
  1 <= frame_extraction.sampling_interval self /\
  filter (fun g => frame_extraction.should_extract_frame self g = true) (seqZ 1 300) =
  [1; 101; 201].
Proof.
  intros self. split; [simpl; lia|].
  destruct (should_extract_frame_pattern self ltac:(simpl; lia))
    as (_ & _ & Hrange & _).
  rewrite (Hrange 300) by lia. reflexivity.
Defined.

(** ** The worker *)

Section worker.
Import video_discovery multiprocess_extraction.
Context (w : cv2.World).

Lemma save_frame_path extractor frame g dir camera path :
  frame_io.save_frame w extractor frame g dir camera = Return path ->
  path = path_join dir (frame_io.frame_filename extractor g).
Proof.
  unfold frame_io.save_frame.
  destruct (cv2.size frame =? 0); [done|].
  destruct (cv2.mkdir w dir); simpl; [|done].
  destruct (cv2.imwrite w _ _); naive_solver.
Qed.

Lemma init_fields n format overlay font position extractor :
  frame_extraction.init n format overlay font position = Return extractor ->
  frame_extraction.sampling_interval extractor = n /\
  frame_extraction.output_format extractor = lower format /\
  1 <= n.
Proof.
  unfold frame_extraction.init.
  destruct (Z.ltb_spec n 1); [done|].
  case_bool_decide; [|done].
  intros [= <-]. simpl. auto with lia.
Qed.

Lemma read_loop_raises extractor task frames local acc :
  read_loop w extractor task frames true local acc = Raise CvError.
Proof.
  revert local acc. induction frames as [|frame rest IH]; intros; simpl; [done|].
  destruct (frame_extraction.should_extract_frame _ _); [|done].
  by destruct (frame_io.save_frame _ _ _ _ _ _).
Qed.

(** What a complete pass over [frames] appends: one record for each frame
    that is due and could be saved, numbered by its position. *)
Lemma read_loop_returns extractor task frames local acc :
  exists emitted,
    read_loop w extractor task frames false local acc = Return (acc ++ emitted) /\
    forall r, r ∈ emitted <->
      exists (k : nat) frame path,
        frames !! k = Some frame /\
        frame_extraction.should_extract_frame extractor
          (global_frame_offset task + (local + Z.of_nat k + 1)) = true /\
        frame_io.save_frame w extractor frame
          (global_frame_offset task + (local + Z.of_nat k + 1))
          (output_dir task) (camera_id task) = Return path /\
        r = {| global_frame_number := global_frame_offset task + (local + Z.of_nat k + 1);
               meta_camera_id := camera_id task;
               meta_file_path := path |}.
Proof.
  revert local acc. induction frames as [|frame rest IH]; intros local acc; simpl.
  { exists []. rewrite app_nil_r. split; [done|].
    intros r. split; [by intros ?%elem_of_nil|]. by intros (k & ? & ? & ? & _). }
  assert (forall k : nat, local + 1 + Z.of_nat k + 1 = local + Z.of_nat (S k) + 1)
    as Hshift by (intros; lia).
  assert (local + 1 = local + Z.of_nat 0 + 1) as Hzero by lia.
  destruct (frame_extraction.should_extract_frame extractor
              (global_frame_offset task + (local + 1))) eqn:Hdue.
  - destruct (frame_io.save_frame w extractor frame
                (global_frame_offset task + (local + 1))
                (output_dir task) (camera_id task)) as [path|e] eqn:Hsave.
    + destruct (IH (local + 1)
                  (acc ++ [{| global_frame_number := global_frame_offset task + (local + 1);
                              meta_camera_id := camera_id task;
                              meta_file_path := path |}]))
        as (emitted & Hret & Hmem).
      eexists (_ :: emitted). rewrite Hret, <- app_assoc. split; [done|].
      intros r. rewrite elem_of_cons, Hmem. split.
      * intros [->|(k & f & p & Hk & Hd & Hs & ->)].
        -- exists 0%nat, frame, path. rewrite <- Hzero. done.
        -- exists (S k), f, p. rewrite <- Hshift. done.
      * intros ([|k] & f & p & Hk & Hd & Hs & ->).
        -- left. rewrite <- Hzero in *. simpl in Hk. injection Hk as <-.
           rewrite Hsave in Hs. by injection Hs as <-.
        -- right. exists k, f, p. rewrite Hshift. done.
    + destruct (IH (local + 1) acc) as (emitted & Hret & Hmem).
      exists emitted. split; [done|].
      intros r. rewrite Hmem. split.
      * intros (k & f & p & Hk & Hd & Hs & ->).
        exists (S k), f, p. rewrite <- Hshift. done.
      * intros ([|k] & f & p & Hk & Hd & Hs & ->).
        -- rewrite <- Hzero in *. simpl in Hk. injection Hk as <-. congruence.
        -- exists k, f, p. rewrite Hshift. done.
  - destruct (IH (local + 1) acc) as (emitted & Hret & Hmem).
    exists emitted. split; [done|].
    intros r. rewrite Hmem. split.
    * intros (k & f & p & Hk & Hd & Hs & ->).
      exists (S k), f, p. rewrite <- Hshift. done.
    * intros ([|k] & f & p & Hk & Hd & Hs & ->).
      -- rewrite <- Hzero in *. congruence.
      -- exists k, f, p. rewrite Hshift. done.
Qed.



(** Every record of a worker is the one its frame number determines. *)
Lemma worker_records_by_number task r :
  r ∈ extract_segment_frames w task ->
  r = meta_for (camera_id task) (output_dir task) (output_format task)
        (global_frame_number r).
Proof.
  unfold extract_segment_frames, segment_attempt.
  destruct (frame_extraction.init _ _ _ _ _) as [extractor|] eqn:Hinit; simpl;
    [|by intros ?%elem_of_nil].
  apply init_fields in Hinit as (_ & Hformat & _).
  destruct (frame_io._open_video _ _) as [cap|]; [|by intros ?%elem_of_nil].
  destruct (cv2.read_raises cap).
  { rewrite read_loop_raises. by intros ?%elem_of_nil. }
  destruct (read_loop_returns extractor task (cv2.frames cap) 0 [])
    as (emitted & -> & Hmem).
  simpl. intros (k & f & p & _ & _ & Hsave & ->)%Hmem.
  apply save_frame_path in Hsave as ->.
  unfold meta_for, frame_io.frame_filename. simpl. by rewrite Hformat.
Qed.

End worker.

(** ** The task list and its offsets *)

Section offsets.
Import video_discovery multiprocess_extraction.
Context (camera dir : string) (extractor_config : ExtractorConfig).

Lemma make_tasks_segments segments offset :
  segment <$> make_tasks camera dir extractor_config segments offset = segments.
Proof.
  revert offset. induction segments as [|seg rest IH]; intros; simpl; [done|].
  by rewrite IH.
Qed.

Lemma make_tasks_fields segments offset task :
  task ∈ make_tasks camera dir extractor_config segments offset ->
  camera_id task = camera /\ output_dir task = dir /\
  output_format task = cfg_output_format extractor_config.
Proof.
  revert offset. induction segments as [|seg rest IH]; intros offset; simpl.
  { by intros ?%elem_of_nil. }
  intros [->|Hin]%elem_of_cons; [done|]. by eapply IH.
Qed.

Lemma make_tasks_offsets segments offset task :
  StronglySorted (key_lt segment_number) segments ->
  task ∈ make_tasks camera dir extractor_config segments offset ->
  global_frame_offset task =
  offset + frames_before segments (segment_number (segment task)).
Proof.
  intros Hsorted. revert offset.
  induction Hsorted as [|seg rest Hrest IH Hseg]; intros offset; simpl.
  { by intros ?%elem_of_nil. }
  unfold frames_before. rewrite Forall_forall in Hseg.
  intros [->|Hin]%elem_of_cons; simpl.
  - rewrite filter_cons_False by lia.
    assert (filter (fun s => segment_number s < segment_number seg) rest = []) as ->;
      [|simpl; lia].
    apply elem_of_nil_inv. intros s [Hlt Hs]%list_elem_of_filter.
    specialize (Hseg s Hs). unfold key_lt in Hseg. lia.
  - assert (segment task ∈ rest) as Hmem.
    { rewrite <- (make_tasks_segments rest (offset + frame_count seg)).
      by apply list_elem_of_fmap_2. }
    specialize (Hseg _ Hmem). unfold key_lt in Hseg.
    rewrite filter_cons_True by done.
    rewrite (IH _ Hin). unfold frames_before.
    rewrite fmap_cons. cbn [foldr]. lia.
Qed.

Lemma make_tasks_prefix segments offset (k : nat) task :
  make_tasks camera dir extractor_config segments offset !! k = Some task ->
  global_frame_offset task = offset + foldr Z.add 0 (frame_count <$> take k segments).
Proof.
  revert offset k. induction segments as [|seg rest IH]; intros offset k; simpl; [done|].
  destruct k as [|k]; simpl.
  - intros [= <-]. simpl. lia.
  - intros Hk%IH. rewrite Hk. unfold fmap. lia.
Qed.

Lemma frames_before_perm segments segments' number :
  segments ≡ₚ segments' ->
  frames_before segments number = frames_before segments' number.
Proof. intros Hperm. unfold frames_before. apply sum_perm. by rewrite Hperm. Qed.

Lemma camera_tasks_offsets segments task :
  NoDup (segment_number <$> segments) ->
  task ∈ camera_tasks camera dir extractor_config segments ->
  global_frame_offset task = frames_before segments (segment_number (segment task)).
Proof.
  intros Hdistinct Hin. unfold camera_tasks in Hin.
  apply make_tasks_offsets in Hin.
  - rewrite Hin, (frames_before_perm _ segments); [lia|].
    apply sorted_by_key_perm.
  - apply sorted_distinct_strict; [apply sorted_by_key_sorted|].
    by rewrite sorted_by_key_perm.
Qed.

End offsets.

(** C2 as stated fails: of two segments with the same number the second is
    offset by the frames of the first, while no segment has a strictly
    smaller number. *)
Lemma twin_segments_offsets :
  multiprocess_extraction.global_frame_offset
    <$> multiprocess_extraction.camera_tasks "cam0" "extracted_frames/cam0"
          example_config twin_segments
  = [0; 10] /\
  (fun task =>
     frames_before twin_segments
       (video_discovery.segment_number (multiprocess_extraction.segment task)))
    <$> multiprocess_extraction.camera_tasks "cam0" "extracted_frames/cam0"
          example_config twin_segments
  = [0; 0].
Proof. split; reflexivity. Qed.

(** C2, amended.  For a camera's segments, in any order and with gaps in
    the numbering: there is one task per segment, in ascending segment
    number; the offset of each task is the exclusive prefix sum of
    [frame_count] in that sorted order; when the segment numbers are
    pairwise distinct, that is the sum of [frame_count] over the segments
    with a strictly smaller number; and the worker of a task numbers the
    i-th frame it reads (i counted from 1) offset + i: its records are
    exactly those of the frames that are due at that number and could be
    saved. *)
Theorem global_numbers_for_distinct_segments
    (camera dir : string) (extractor_config : multiprocess_extraction.ExtractorConfig)
    (segments : list video_discovery.VideoSegment) :
  let tasks := multiprocess_extraction.camera_tasks camera dir extractor_config segments in
  multiprocess_extraction.segment <$> tasks
    = sorted_by_key video_discovery.segment_number segments /\
  (forall (k : nat) task, tasks !! k = Some task ->
     multiprocess_extraction.global_frame_offset task =
     foldr Z.add 0
       (video_discovery.frame_count
          <$> take k (sorted_by_key video_discovery.segment_number segments))) /\
  (NoDup (video_discovery.segment_number <$> segments) ->
   forall task, task ∈ tasks ->
     multiprocess_extraction.global_frame_offset task =
     frames_before segments
       (video_discovery.segment_number (multiprocess_extraction.segment task))) /\
  (forall w task extractor cap,
     frame_extraction.init (multiprocess_extraction.sampling_interval task)
       (multiprocess_extraction.output_format task)
       (multiprocess_extraction.enable_overlay task)
       (multiprocess_extraction.overlay_font_size task)
       (multiprocess_extraction.overlay_position task) = Return extractor ->
     frame_io._open_video w
       (video_discovery.file_path (multiprocess_extraction.segment task)) = Some cap ->
     cv2.read_raises cap = false ->
     forall r, r ∈ multiprocess_extraction.extract_segment_frames w task <->
       exists (i : Z) frame path,
         1 <= i /\
         cv2.frames cap !! Z.to_nat (i - 1) = Some frame /\
         frame_extraction.should_extract_frame extractor
           (multiprocess_extraction.global_frame_offset task + i) = true /\
         frame_io.save_frame w extractor frame
           (multiprocess_extraction.global_frame_offset task + i)
           (multiprocess_extraction.output_dir task)
           (multiprocess_extraction.camera_id task) = Return path /\
         r = {| multiprocess_extraction.global_frame_number :=
                  multiprocess_extraction.global_frame_offset task + i;
                multiprocess_extraction.meta_camera_id :=
                  multiprocess_extraction.camera_id task;
                multiprocess_extraction.meta_file_path := path |}).
Proof.
  intros tasks. split; [apply make_tasks_segments|].
  split.
  { intros k task Hk. apply make_tasks_prefix in Hk. lia. }
  split; [intros Hdistinct task; by apply camera_tasks_offsets|].
  intros w task extractor cap Hinit Hopen Hread r.
  unfold multiprocess_extraction.extract_segment_frames,
    multiprocess_extraction.segment_attempt.
  rewrite Hinit. simpl. rewrite Hopen, Hread.
  destruct (read_loop_returns w extractor task (cv2.frames cap) 0 [])
    as (emitted & -> & Hmem).
  simpl. rewrite Hmem. split.
  - intros (k & frame & path & Hk & Hdue & Hsave & ->).
    exists (Z.of_nat k + 1), frame, path.
    replace (Z.to_nat (Z.of_nat k + 1 - 1)) with k by lia.
    replace (0 + Z.of_nat k + 1) with (Z.of_nat k + 1) in * by lia.
    split; [lia|done].
  - intros (i & frame & path & Hi & Hk & Hdue & Hsave & ->).
    exists (Z.to_nat (i - 1)), frame, path.
    replace (0 + Z.of_nat (Z.to_nat (i - 1)) + 1) with i by lia.
    done.
Qed.

Lemma global_numbers_for_distinct_segments_witness :
  NoDup (video_discovery.segment_number <$> gapped_segments) /\
  multiprocess_extraction.global_frame_offset
    <$> multiprocess_extraction.camera_tasks "cam0" "extracted_frames/cam0"
          example_config gapped_segments
  = [0; 100; 150] /\
  forall task,
    task ∈ multiprocess_extraction.camera_tasks "cam0" "extracted_frames/cam0"
             example_config gapped_segments ->
    multiprocess_extraction.global_frame_offset task =
    frames_before gapped_segments
      (video_discovery.segment_number (multiprocess_extraction.segment task)).
Proof.
  assert (NoDup (video_discovery.segment_number <$> gapped_segments)) as Hdistinct.
  { apply (bool_decide_unpack _). vm_compute. exact I. }
  split; [exact Hdistinct|]. split; [reflexivity|].
  exact (proj1 (proj2 (proj2 (global_numbers_for_distinct_segments
                                "cam0" "extracted_frames/cam0" example_config
                                gapped_segments))) Hdistinct).
Defined.

(** ** The scheduler *)

Section scheduler.
Import video_discovery multiprocess_extraction.
Context (w : cv2.World) (pool_fault : SegmentExtractionTask -> option exn).
Context (extraction_dirs : ExtractionDirs) (extractor_config : ExtractorConfig).

Lemma collect_from completed cam0_results cam1_results :
  fold_left collect_one completed (cam0_results, cam1_results) =
  (cam0_results ++ concat (camera_part true <$> completed),
   cam1_results ++ concat (camera_part false <$> completed)).
Proof.
  revert cam0_results cam1_results.
  induction completed as [|[future task] rest IH]; intros; simpl.
  { by rewrite !app_nil_r. }
  unfold camera_part at 1 3. simpl.
  destruct future as [frames|e]; simpl.
  - destruct (String.eqb (camera_id task) "cam0"); simpl;
      rewrite IH, ?app_nil_r, <- ?app_assoc; done.
  - by rewrite IH.
Qed.

Lemma collect_parts completed :
  collect completed =
  (concat (camera_part true <$> completed), concat (camera_part false <$> completed)).
Proof. unfold collect. by rewrite collect_from. Qed.

Lemma concat_perm {A : Type} (l1 l2 : list (list A)) :
  l1 ≡ₚ l2 -> concat l1 ≡ₚ concat l2.
Proof.
  induction 1 as [|x l1 l2 _ IH|x y l|l1 l2 l3 _ IH1 _ IH2]; simpl.
  - done.
  - by rewrite IH.
  - rewrite !app_assoc. by rewrite (comm app y x).
  - by rewrite IH1.
Qed.

Lemma camera_part_records first_camera cam0_segments cam1_segments completed r :
  completed ≡ₚ futures_of w pool_fault (all_tasks extraction_dirs extractor_config cam0_segments cam1_segments) ->
  r ∈ concat (camera_part first_camera <$> completed) ->
  r = camera_meta extraction_dirs extractor_config first_camera (global_frame_number r).
Proof.
  intros Hperm.
  rewrite list_elem_of_In, in_concat.
  intros (part & Hpart & Hr).
  rewrite <- !list_elem_of_In in *.
  apply list_elem_of_fmap in Hpart as ([future task] & -> & Hdone).
  rewrite Hperm in Hdone.
  apply list_elem_of_fmap in Hdone as (task' & [= -> <-] & Htask).
  unfold camera_part, submit in Hr. simpl in Hr.
  destruct (pool_fault task); [by apply elem_of_nil in Hr|].
  unfold all_tasks in Htask.
  apply elem_of_app in Htask as [Htask|Htask];
    apply make_tasks_fields in Htask as (Hcam & Hdir & Hfmt);
    rewrite Hcam in Hr; simpl in Hr;
    destruct first_camera; simpl in Hr; try (by apply elem_of_nil in Hr);
    apply worker_records_by_number in Hr;
    rewrite Hr at 1; unfold camera_meta; by rewrite Hcam, Hdir, Hfmt.
Qed.

Lemma sorted_part_unique first_camera cam0_segments cam1_segments completed completed' :
  completed ≡ₚ futures_of w pool_fault (all_tasks extraction_dirs extractor_config cam0_segments cam1_segments) ->
  completed' ≡ₚ futures_of w pool_fault (all_tasks extraction_dirs extractor_config cam0_segments cam1_segments) ->
  sorted_by_key global_frame_number (concat (camera_part first_camera <$> completed)) =
  sorted_by_key global_frame_number (concat (camera_part first_camera <$> completed')).
Proof.
  intros Hperm Hperm'. apply sorted_by_key_unique.
  - apply concat_perm. by rewrite Hperm, Hperm'.
  - intros x y Hx Hy Hkey.
    rewrite (camera_part_records _ _ _ _ x Hperm Hx).
    rewrite (camera_part_records _ _ _ _ y Hperm Hy).
    by rewrite Hkey.
Qed.

Lemma extract_all_frames_unfold self completion cam0_segments cam1_segments :
  extract_all_frames self w {| fault := pool_fault; as_completed := completion |}
    cam0_segments cam1_segments extraction_dirs extractor_config =
  if max_workers self <=? 0 then Raise (ValueError "max_workers must be greater than 0")
  else
    let completed := completion (futures_of w pool_fault (all_tasks extraction_dirs extractor_config cam0_segments cam1_segments)) in
    Return (sorted_by_key global_frame_number (concat (camera_part true <$> completed)),
            sorted_by_key global_frame_number (concat (camera_part false <$> completed))).
Proof.
  unfold extract_all_frames. destruct (max_workers self <=? 0); [done|].
  rewrite collect_parts. done.
Qed.


End scheduler.

(** C3.  Whatever permutation of the submitted futures the pool completes
    them in, [extract_all_frames] returns the same value, and the two lists
    it returns are ascending by global frame number; with a positive worker
    count it does return. *)
Theorem extraction_is_order_independent
    (self : multiprocess_extraction.MultiprocessExtractor) (w : cv2.World)
    (pool pool' : multiprocess_extraction.Pool)
    (cam0_segments cam1_segments : list video_discovery.VideoSegment)
    (extraction_dirs : multiprocess_extraction.ExtractionDirs)
    (extractor_config : multiprocess_extraction.ExtractorConfig) :
  (forall futures, multiprocess_extraction.as_completed pool futures ≡ₚ futures) ->
  (forall futures, multiprocess_extraction.as_completed pool' futures ≡ₚ futures) ->
  multiprocess_extraction.fault pool' = multiprocess_extraction.fault pool ->
  multiprocess_extraction.extract_all_frames self w pool
    cam0_segments cam1_segments extraction_dirs extractor_config =
  multiprocess_extraction.extract_all_frames self w pool'
    cam0_segments cam1_segments extraction_dirs extractor_config /\
  (forall cam0_frames cam1_frames,
     multiprocess_extraction.extract_all_frames self w pool
       cam0_segments cam1_segments extraction_dirs extractor_config
     = Return (cam0_frames, cam1_frames) ->
     ascending cam0_frames /\ ascending cam1_frames) /\
  (0 < multiprocess_extraction.max_workers self ->
   exists cam0_frames cam1_frames,
     multiprocess_extraction.extract_all_frames self w pool
       cam0_segments cam1_segments extraction_dirs extractor_config
     = Return (cam0_frames, cam1_frames)).
Proof.
  destruct pool as [pool_fault completion], pool' as [pool_fault' completion'].
  simpl. intros Hperm Hperm' ->.
  rewrite !extract_all_frames_unfold.
  destruct (Z.leb_spec (multiprocess_extraction.max_workers self) 0) as [Hle|Hlt].
  { split; [done|]. split; [done|]. lia. }
  simpl. split.
  { f_equal.
    f_equal; apply (sorted_part_unique w pool_fault extraction_dirs extractor_config
                      _ cam0_segments cam1_segments); done. }
  split; [|by eauto].
  intros cam0_frames cam1_frames [= <- <-].
  split; apply sorted_keys_ascending, sorted_by_key_sorted.
Qed.

Lemma extraction_is_order_independent_witness :
  multiprocess_extraction.extract_all_frames
    {| multiprocess_extraction.max_workers := 6 |} example_world pool_in_order
    gapped_segments gapped_segments example_dirs example_config =
  multiprocess_extraction.extract_all_frames
    {| multiprocess_extraction.max_workers := 6 |} example_world pool_reversed
    gapped_segments gapped_segments example_dirs example_config.
Proof.
  refine (proj1 (extraction_is_order_independent _ example_world
                   pool_in_order pool_reversed _ _ _ _ _ _ eq_refl)).
  - intros futures. reflexivity.
  - intros futures. apply reverse_Permutation.
Defined.




(** ** Pairing *)

Lemma py_for_returns {A B : Type} (body : A -> py B) (P : A -> B -> Prop) (l : list A) :
  (forall x, x ∈ l -> exists y, body x = Return y /\ P x y) ->
  exists ys, py_for body l = Return ys /\ Forall2 P l ys.
Proof.
  induction l as [|x l IH]; intros Hbody; simpl.
  { exists []. by split. }
  destruct (Hbody x) as (y & -> & Hy); [by left|].
  destruct IH as (ys & -> & Hys).
  { intros z Hz. apply Hbody. by right. }
  exists (y :: ys). split; [done|]. by constructor.
Qed.

Lemma sorted_elements (X : gset Z) :
  StronglySorted Z.lt (sorted_by_key id (elements X)) /\
  forall g, g ∈ sorted_by_key id (elements X) <-> g ∈ X.
Proof.
  split.
  - apply (sorted_distinct_strict id); [apply sorted_by_key_sorted|].
    rewrite list_fmap_id, sorted_by_key_perm. apply NoDup_elements.
  - intros g. by rewrite sorted_by_key_perm, elem_of_elements.
Qed.

Section pairing.
Import frame_extraction frame_stitching.

Lemma frame_map_from frames (m : gmap Z ExtractedFrame) g f :
  fold_left (fun m frame => <[global_frame_number frame := frame]> m) frames m !! g
    = Some f ->
  (f ∈ frames /\ global_frame_number f = g) \/ m !! g = Some f.
Proof.
  revert m. induction frames as [|frame rest IH]; intros m; simpl; [by right|].
  intros [[Hin Hg]|Hm]%IH.
  - left. split; [by right|done].
  - destruct (decide (global_frame_number frame = g)) as [Heq|Hne].
    + rewrite Heq, lookup_insert_eq in Hm. injection Hm as <-.
      left. split; [by left|done].
    + rewrite lookup_insert_ne in Hm by done. by right.
Qed.

Lemma frame_map_dom_from frames (m : gmap Z ExtractedFrame) g :
  g ∈ dom (fold_left (fun m frame => <[global_frame_number frame := frame]> m) frames m)
  <-> numbered frames g \/ g ∈ dom m.
Proof.
  revert m. induction frames as [|frame rest IH]; intros m; simpl.
  { split; [by right|]. intros [(f & Hf & _)|?]; [by apply elem_of_nil in Hf|done]. }
  rewrite IH, dom_insert, elem_of_union, elem_of_singleton. unfold numbered. split.
  - intros [(f & Hf & Hg)|[->|Hm]].
    + left. exists f. split; [by right|done].
    + left. exists frame. split; [by left|done].
    + by right.
  - intros [(f & [->|Hf]%elem_of_cons & Hg)|Hm].
    + right. by left.
    + left. by exists f.
    + right. by right.
Qed.

Lemma frame_map_lookup frames g f :
  frame_map frames !! g = Some f -> f ∈ frames /\ global_frame_number f = g.
Proof.
  intros [?|Hempty]%frame_map_from; [done|]. by rewrite lookup_empty in Hempty.
Qed.

Lemma frame_map_dom frames g : g ∈ dom (frame_map frames) <-> numbered frames g.
Proof.
  unfold frame_map. rewrite frame_map_dom_from, dom_empty, elem_of_empty. tauto.
Qed.

Lemma pair_numbers (numbers : list Z) (pairs : list (ExtractedFrame * ExtractedFrame)) :
  Forall2 (fun num pair => global_frame_number pair.1 = num) numbers pairs ->
  (fun pair => global_frame_number pair.1) <$> pairs = numbers.
Proof.
  induction 1 as [|num pair ? ? Hnum _ IH]; [done|].
  by rewrite fmap_cons, IH, Hnum.
Qed.

End pairing.

(** C4.  [find_frame_pairs] returns, for inputs in any order: pairs whose
    frame numbers are strictly ascending (one pair per number); a number is
    paired exactly when both cameras have a frame with that very number;
    each pair joins a frame of camera 0 and a frame of camera 1 that carry
    the pair's number; the frames of one camera alone only show in the two
    counted warnings.  On numbers 1, 101, 201 against 1, 101, 301 the pairs
    are 1 and 101, and 201 and 301 are unmatched. *)
Theorem pairs_are_the_common_numbers :
  (forall cam0_frames cam1_frames : list frame_extraction.ExtractedFrame,
     let cam0_map := frame_stitching.frame_map cam0_frames in
     let cam1_map := frame_stitching.frame_map cam1_frames in
     exists pairs,
       (frame_stitching.find_frame_pairs cam0_frames cam1_frames).2 = Return pairs /\
       StronglySorted Z.lt
         ((fun pair => frame_extraction.global_frame_number pair.1) <$> pairs) /\
       (forall g,
          g ∈ ((fun pair => frame_extraction.global_frame_number pair.1) <$> pairs) <->
          numbered cam0_frames g /\ numbered cam1_frames g) /\
       (forall f0 f1, (f0, f1) ∈ pairs ->
          f0 ∈ cam0_frames /\ f1 ∈ cam1_frames /\
          frame_extraction.global_frame_number f0 =
          frame_extraction.global_frame_number f1) /\
       (forall g, g ∈ frame_stitching.cam0_only cam0_map cam1_map <->
          numbered cam0_frames g /\ ~ numbered cam1_frames g) /\
       (forall g, g ∈ frame_stitching.cam1_only cam0_map cam1_map <->
          numbered cam1_frames g /\ ~ numbered cam0_frames g) /\
       (forall n,
          frame_stitching.Cam0WithoutCam1 n
            ∈ (frame_stitching.find_frame_pairs cam0_frames cam1_frames).1 <->
          n = size (frame_stitching.cam0_only cam0_map cam1_map) /\ n <> 0%nat) /\
       (forall n,
          frame_stitching.Cam1WithoutCam0 n
            ∈ (frame_stitching.find_frame_pairs cam0_frames cam1_frames).1 <->
          n = size (frame_stitching.cam1_only cam0_map cam1_map) /\ n <> 0%nat)) /\
  frame_stitching.find_frame_pairs
    (example_frame "cam0" <$> [201; 1; 101]) (example_frame "cam1" <$> [1; 301; 101])
  = ([frame_stitching.Cam0WithoutCam1 1; frame_stitching.Cam1WithoutCam0 1],
     Return [(example_frame "cam0" 1, example_frame "cam1" 1);
             (example_frame "cam0" 101, example_frame "cam1" 101)]) /\
  elements (frame_stitching.cam0_only
              (frame_stitching.frame_map (example_frame "cam0" <$> [201; 1; 101]))
              (frame_stitching.frame_map (example_frame "cam1" <$> [1; 301; 101])))
  = [201] /\
  elements (frame_stitching.cam1_only
              (frame_stitching.frame_map (example_frame "cam0" <$> [201; 1; 101]))
              (frame_stitching.frame_map (example_frame "cam1" <$> [1; 301; 101])))
  = [301].
Proof.
  split; [|by vm_compute].
  intros cam0_frames cam1_frames cam0_map cam1_map.
  destruct (sorted_elements (dom cam0_map ∩ dom cam1_map)) as [Hsorted Hmem].
  destruct (py_for_returns
              (fun num =>
                 f0 ← frame_stitching.py_get cam0_map num;
                 f1 ← frame_stitching.py_get cam1_map num;
                 Return (f0, f1))
              (fun num pair => cam0_map !! num = Some pair.1 /\ cam1_map !! num = Some pair.2)
              (frame_stitching.common_frame_numbers cam0_map cam1_map))
    as (pairs & Hpairs & Hall).
  { intros num [[f0 Hf0]%elem_of_dom [f1 Hf1]%elem_of_dom]%Hmem%elem_of_intersection.
    exists (f0, f1). unfold frame_stitching.py_get. by rewrite Hf0, Hf1. }
  assert ((fun pair => frame_extraction.global_frame_number pair.1) <$> pairs
          = frame_stitching.common_frame_numbers cam0_map cam1_map) as Hnumbers.
  { apply pair_numbers. eapply Forall2_impl; [exact Hall|].
    intros num pair [Hf0 _]. by apply frame_map_lookup in Hf0 as [_ ?]. }
  exists pairs. split; [exact Hpairs|].
  rewrite Hnumbers. split; [exact Hsorted|].
  split.
  { intros g. unfold frame_stitching.common_frame_numbers.
    rewrite Hmem, elem_of_intersection. unfold cam0_map, cam1_map.
    by rewrite !frame_map_dom. }
  split.
  { intros f0 f1 Hin.
    apply list_elem_of_lookup in Hin as [k Hk].
    destruct (Forall2_lookup_r _ _ _ _ _ Hall Hk) as (num & _ & Hf0 & Hf1).
    apply frame_map_lookup in Hf0 as [? ?], Hf1 as [? ?]. simpl in *.
    split; [done|]. split; [done|]. congruence. }
  split.
  { intros g. unfold frame_stitching.cam0_only, cam0_map, cam1_map.
    by rewrite elem_of_difference, !frame_map_dom. }
  split.
  { intros g. unfold frame_stitching.cam1_only, cam0_map, cam1_map.
    by rewrite elem_of_difference, !frame_map_dom. }
  unfold frame_stitching.find_frame_pairs, frame_stitching.unpaired_warnings.
  fold cam0_map cam1_map. simpl.
  clear.
  assert (forall X : gset Z, X = ∅ <-> size X = 0%nat) as Hsize.
  { intros X. by rewrite size_empty_iff, leibniz_equiv_iff. }
  split; intros n; rewrite elem_of_app;
    repeat case_bool_decide;
    rewrite ?elem_of_nil, ?list_elem_of_singleton;
    repeat match goal with H : _ |- _ => rewrite Hsize in H end;
    intuition (congruence || lia).
Qed.

(** ** Thresholds on the rational idealisation *)

Lemma Qltb_lt (x y : Q) : Qltb x y = true <-> (x < y)%Q.
Proof.
  unfold Qltb. rewrite negb_true_iff, <- not_true_iff_false, Qle_bool_iff.
  split; [apply Qnot_le_lt|apply Qlt_not_le].
Qed.

Lemma Qltb_ge (x y : Q) : Qltb x y = false <-> (y <= x)%Q.
Proof. unfold Qltb. by rewrite negb_false_iff, Qle_bool_iff. Qed.

Lemma Qltb_spec (x y : Q) : reflect (x < y)%Q (Qltb x y).
Proof.
  destruct (Qltb x y) eqn:Hcmp; constructor.
  - by apply Qltb_lt.
  - apply Qltb_ge in Hcmp. by apply Qle_not_lt.
Qed.

Lemma Qle_bool_spec (x y : Q) : reflect (x <= y)%Q (Qle_bool x y).
Proof.
  destruct (Qle_bool x y) eqn:Hcmp; constructor.
  - by apply Qle_bool_iff.
  - rewrite <- Qle_bool_iff. congruence.
Qed.

(** ** The rating *)

(** C5 as stated fails: with an average drift of 5 ms and a start delay of
    40 ms the code rates "good"; four bands on the start delay would put 40
    in "fair" and make the rating "poor". *)
Lemma start_delay_of_40ms_is_good :
  (timestamp_analysis._calculate_rating default_analyzer 40 5 5 (all_under_10ms 20) 20).1
  = timestamp_analysis.Good /\
  rating_as_claimed 40 5 = timestamp_analysis.Poor.
Proof. split; reflexivity. Qed.

Lemma rating_table self start_delay_ms avg_drift_ms max_drift_ms distribution total_samples :
  (timestamp_analysis._calculate_rating self start_delay_ms avg_drift_ms max_drift_ms
     distribution total_samples).1 =
  if Qltb avg_drift_ms 10 then
    if Qltb (Qabs start_delay_ms) 10 then timestamp_analysis.Excellent
    else if Qltb (Qabs start_delay_ms) 50 then timestamp_analysis.Good
    else timestamp_analysis.Poor
  else if Qltb avg_drift_ms 30 then
    if Qltb (Qabs start_delay_ms) 10 then timestamp_analysis.Good
    else if Qltb (Qabs start_delay_ms) 50 then timestamp_analysis.Good
    else timestamp_analysis.Poor
  else if Qltb avg_drift_ms 50 then timestamp_analysis.Fair
  else timestamp_analysis.Poor.
Proof.
  unfold timestamp_analysis._calculate_rating.
  destruct (Qltb avg_drift_ms 10), (Qltb avg_drift_ms 30), (Qltb avg_drift_ms 50),
    (Qltb (Qabs start_delay_ms) 10), (Qltb (Qabs start_delay_ms) 50); reflexivity.
Qed.

(** C5, amended.  The average drift falls in one of four bands (<10, <30,
    <50, >=50 ms); the start delay, in absolute value, in one of three
    (<10 excellent, <50 good, otherwise fair).  The rating is "excellent"
    when both are excellent, "good" when otherwise the drift is under 30 and
    the start delay under 50, "fair" when the drift is in [30, 50), and
    "poor" in the remaining cases. *)
Theorem rating_decision_table
    (self : timestamp_analysis.TimestampAnalyzer)
    (start_delay_ms avg_drift_ms max_drift_ms : Q)
    (distribution : timestamp_analysis.Distribution) (total_samples : Z) :
  let overall :=
    (timestamp_analysis._calculate_rating self start_delay_ms avg_drift_ms max_drift_ms
       distribution total_samples).1 in
  (overall = timestamp_analysis.Excellent <->
     avg_drift_ms < 10 /\ Qabs start_delay_ms < 10)%Q /\
  (overall = timestamp_analysis.Good <->
     avg_drift_ms < 30 /\ Qabs start_delay_ms < 50 /\
     ~ (avg_drift_ms < 10 /\ Qabs start_delay_ms < 10))%Q /\
  (overall = timestamp_analysis.Fair <-> 30 <= avg_drift_ms /\ avg_drift_ms < 50)%Q /\
  (overall = timestamp_analysis.Poor <->
     50 <= avg_drift_ms \/ (avg_drift_ms < 30 /\ 50 <= Qabs start_delay_ms))%Q.
Proof.
  intros overall. subst overall. rewrite rating_table.
  destruct (Qltb_spec avg_drift_ms 10), (Qltb_spec avg_drift_ms 30),
    (Qltb_spec avg_drift_ms 50), (Qltb_spec (Qabs start_delay_ms) 10),
    (Qltb_spec (Qabs start_delay_ms) 50);
    repeat split; intros; try discriminate; try lra.
Qed.

(** ** The drift histogram *)

Lemma one_bucket (d : Q) :
  (if Qltb d 10 then 1 else 0)
  + (if Qle_bool 10 d && Qltb d 30 then 1 else 0)
  + (if Qle_bool 30 d && Qltb d 50 then 1 else 0)
  + (if Qgeb d 50 then 1 else 0) = 1.
Proof.
  unfold Qgeb.
  destruct (Qltb_spec d 10), (Qle_bool_spec 10 d), (Qltb_spec d 30),
    (Qle_bool_spec 30 d), (Qltb_spec d 50), (Qle_bool_spec 50 d);
    simpl; try reflexivity; exfalso; lra.
Qed.

Lemma buckets_sum (drifts : list Q) :
  timestamp_analysis.lt_10ms (timestamp_analysis.distribution_of drifts)
  + timestamp_analysis.from_10_to_30ms (timestamp_analysis.distribution_of drifts)
  + timestamp_analysis.from_30_to_50ms (timestamp_analysis.distribution_of drifts)
  + timestamp_analysis.ge_50ms (timestamp_analysis.distribution_of drifts)
  = Z.of_nat (length drifts).
Proof.
  simpl. induction drifts as [|d rest IH]; [reflexivity|].
  cbn [timestamp_analysis.count_where length].
  pose proof (one_bucket d). lia.
Qed.

Lemma py_for_length {A B : Type} (body : A -> py B) (l : list A) (ys : list B) :
  py_for body l = Return ys -> length ys = length l.
Proof.
  revert ys. induction l as [|x l IH]; intros ys; simpl.
  { by intros [= <-]. }
  destruct (body x); simpl; [|done].
  destruct (py_for body l); simpl; [|done].
  intros [= <-]. simpl. f_equal. by apply IH.
Qed.

(** C9.  For every list of drifts the four bucket counts add up to the
    number of drifts, each drift being counted in exactly one bucket; and
    in every result of [analyze_time_drift] the four counts of the returned
    histogram add up to the number of samples returned. *)
Theorem drift_buckets_partition (sqrt : Q -> Q) :
  (forall drifts : list Q,
     timestamp_analysis.lt_10ms (timestamp_analysis.distribution_of drifts)
     + timestamp_analysis.from_10_to_30ms (timestamp_analysis.distribution_of drifts)
     + timestamp_analysis.from_30_to_50ms (timestamp_analysis.distribution_of drifts)
     + timestamp_analysis.ge_50ms (timestamp_analysis.distribution_of drifts)
     = Z.of_nat (length drifts)) /\
  (forall d : Q,
     timestamp_analysis.lt_10ms (timestamp_analysis.distribution_of [d])
     + timestamp_analysis.from_10_to_30ms (timestamp_analysis.distribution_of [d])
     + timestamp_analysis.from_30_to_50ms (timestamp_analysis.distribution_of [d])
     + timestamp_analysis.ge_50ms (timestamp_analysis.distribution_of [d]) = 1 /\
     0 <= timestamp_analysis.lt_10ms (timestamp_analysis.distribution_of [d]) /\
     0 <= timestamp_analysis.from_10_to_30ms (timestamp_analysis.distribution_of [d]) /\
     0 <= timestamp_analysis.from_30_to_50ms (timestamp_analysis.distribution_of [d]) /\
     0 <= timestamp_analysis.ge_50ms (timestamp_analysis.distribution_of [d])) /\
  (forall self cam0_timestamps cam1_timestamps avg max std distribution sample_drifts,
     timestamp_analysis.analyze_time_drift sqrt self cam0_timestamps cam1_timestamps
     = Return (avg, max, std, distribution, sample_drifts) ->
     timestamp_analysis.lt_10ms distribution
     + timestamp_analysis.from_10_to_30ms distribution
     + timestamp_analysis.from_30_to_50ms distribution
     + timestamp_analysis.ge_50ms distribution
     = Z.of_nat (length sample_drifts)).
Proof.
  split; [exact buckets_sum|]. split.
  { intros d. split; [exact (buckets_sum [d])|].
    simpl. unfold Qgeb.
    repeat split;
      repeat match goal with |- context [if ?b then _ else _] => destruct b end; lia. }
  intros self cam0_timestamps cam1_timestamps avg max std distribution sample_drifts.
  unfold timestamp_analysis.analyze_time_drift.
  destruct (timestamp_analysis.sample_indices _ _) as [indices|]; simpl; [|done].
  destruct (py_for _ indices) as [sampled|] eqn:Hsampled; simpl; [|done].
  destruct (timestamp_analysis.mean _); simpl; [|done].
  destruct (timestamp_analysis.py_max _); simpl; [|done].
  destruct (if (1 <? length (sampled.*1))%nat then _ else _); simpl; [|done].
  intros [= _ _ _ <- <-].
  rewrite buckets_sum. by rewrite !length_fmap.
Qed.

(** ** The frame-count check *)

(** In exact arithmetic, for non-negative totals and a threshold between
    0 and 100, the check reports an excess exactly when
    |cam0 - cam1| / max(cam0, cam1) * 100 is greater than the threshold; on
    two empty cameras it returns (False, 0.0, 0). *)
Theorem frame_count_excess (cam0_total cam1_total : Z) (threshold_percent : Q) :
  0 <= cam0_total -> 0 <= cam1_total ->
  (0 <= threshold_percent)%Q -> (threshold_percent <= 100)%Q ->
  ((video_discovery.validate_frame_count_difference
      cam0_total cam1_total threshold_percent).1.1 = true <->
   (threshold_percent <
    inject_Z (Z.abs (cam0_total - cam1_total))
    / inject_Z (Z.max cam0_total cam1_total) * 100)%Q) /\
  (video_discovery.validate_frame_count_difference
     cam0_total cam1_total threshold_percent).2 = Z.abs (cam0_total - cam1_total) /\
  video_discovery.validate_frame_count_difference 0 0 threshold_percent = (false, 0%Q, 0).
Proof.
  intros H0 H1 Hlow Hhigh. split; [|split]; [| |reflexivity].
  - unfold video_discovery.validate_frame_count_difference.
    destruct (Z.eqb_spec cam0_total 0) as [->|Hne0];
      [destruct (Z.eqb_spec cam1_total 0) as [->|Hne1]|]; simpl.
    + split; [done|]. intros Hlt. exfalso.
      apply (Qlt_not_le _ _ Hlt). exact Hlow.
    + destruct (Z.eqb_spec (Z.max 0 cam1_total) 0); [lia|].
      unfold Qgtb. rewrite negb_true_iff, <- not_true_iff_false, Qle_bool_iff.
      split; [apply Qnot_le_lt|apply Qlt_not_le].
    + destruct (Z.eqb_spec (Z.max cam0_total cam1_total) 0); [lia|].
      unfold Qgtb. rewrite negb_true_iff, <- not_true_iff_false, Qle_bool_iff.
      split; [apply Qnot_le_lt|apply Qlt_not_le].
  - unfold video_discovery.validate_frame_count_difference.
    destruct (Z.eqb_spec cam0_total 0) as [->|Hne0];
      [destruct (Z.eqb_spec cam1_total 0) as [->|Hne1]|]; simpl; done.
Qed.

(** The docstring's example: 15000 against 14200 frames at 5 percent. *)
Lemma frame_count_excess_witness :
  (video_discovery.validate_frame_count_difference 15000 14200 5).1.1 = true.
Proof.
  apply (proj1 (frame_count_excess 15000 14200 5 ltac:(lia) ltac:(lia)
                  ltac:(unfold Qle; simpl; lia) ltac:(unfold Qle; simpl; lia))).
  unfold Qlt. simpl. lia.
Defined.

(** ** The frame-count check on doubles *)

Section rounding.
Import float64.

Lemma pow2_pos (e : Z) : (0 < pow2 e)%Q.
Proof. unfold pow2. apply Qpower_0_lt. reflexivity. Qed.

Lemma pow2_add (a b : Z) : (pow2 (a + b) == pow2 a * pow2 b)%Q.
Proof. unfold pow2. apply Qpower_plus. discriminate. Qed.

Lemma pow2_Z (n : Z) : 0 <= n -> (pow2 n == inject_Z (2 ^ n))%Q.
Proof. intros Hn. unfold pow2. rewrite Zpower_Qpower by done. reflexivity. Qed.

Lemma pow2_le (a b : Z) : a <= b -> (pow2 a <= pow2 b)%Q.
Proof. intros Hle. unfold pow2. apply Qpower_le_compat_l; [done|]. discriminate. Qed.

Lemma log2_bounds (n : Z) :
  0 < n -> (pow2 (Z.log2 n) <= inject_Z n)%Q /\ (inject_Z n < pow2 (Z.log2 n + 1))%Q.
Proof.
  intros Hn. destruct (Z.log2_spec n Hn) as [Hlow Hhigh].
  pose proof (Z.log2_nonneg n) as Hlog.
  rewrite !pow2_Z by lia. rewrite <- Zle_Qle, <- Zlt_Qlt.
  replace (Z.log2 n + 1) with (Z.succ (Z.log2 n)) by lia. done.
Qed.

Lemma floor_log2_spec (x : Q) :
  (0 < x)%Q -> (pow2 (floor_log2 x) <= x)%Q /\ (x < pow2 (floor_log2 x + 1))%Q.
Proof.
  intros Hx. destruct x as [n d]. unfold floor_log2. cbn [Qnum Qden].
  assert (0 < n) as Hn.
  { unfold Qlt in Hx. simpl in Hx. lia. }
  destruct (log2_bounds n Hn) as [Hn_low Hn_high].
  destruct (log2_bounds (Zpos d) eq_refl) as [Hd_low Hd_high].
  set (ln := Z.log2 n) in *. set (ld := Z.log2 (Zpos d)) in *.
  assert ((n # d) == inject_Z n / inject_Z (Zpos d))%Q as Hx_eq by apply Qmake_Qdiv.
  assert (0 < inject_Z (Zpos d))%Q as Hd_pos by reflexivity.
  pose proof (pow2_pos ln). pose proof (pow2_pos ld).
  pose proof (pow2_pos (ln - ld)) as Hg_pos.
  assert (pow2 (ln + 1) == pow2 ln * 2)%Q as Hn1 by (rewrite pow2_add; reflexivity).
  assert (pow2 (ld + 1) == pow2 ld * 2)%Q as Hd1 by (rewrite pow2_add; reflexivity).
  assert (pow2 ln == pow2 (ln - ld) * pow2 ld)%Q as Hsplit.
  { rewrite <- pow2_add. replace (ln - ld + ld) with ln by lia. reflexivity. }
  assert (pow2 (ln - ld + 1) == pow2 (ln - ld) * 2)%Q as Hup
    by (rewrite pow2_add; reflexivity).
  assert (pow2 (ln - ld) == pow2 (ln - ld - 1) * 2)%Q as Hdown.
  { replace (ln - ld) with ((ln - ld - 1) + 1) at 1 by lia. rewrite pow2_add. reflexivity. }
  pose proof (pow2_pos (ln - ld - 1)) as Hdown_pos.
  rewrite Hn1 in Hn_high. rewrite Hd1 in Hd_high.
  (* x * d = n *)
  assert ((n # d) * inject_Z (Zpos d) == inject_Z n)%Q as Hprod.
  { rewrite Hx_eq. field. intros Hzero. rewrite Hzero in Hd_pos. by apply Qlt_irrefl in Hd_pos. }
  set (x := (n # d)%Q) in *. set (D := inject_Z (Zpos d)) in *. set (N := inject_Z n) in *.
  set (G := pow2 (ln - ld)) in *. set (L := pow2 ld) in *. set (H1 := pow2 ln) in *.
  set (Gd := pow2 (ln - ld - 1)) in *.
  destruct (Qle_bool G x) eqn:Hcmp.
  - apply Qle_bool_iff in Hcmp. split; [done|].
    rewrite Hup.
    (* x * D = N < H1 * 2 = G * L * 2 <= G * 2 * D *)
    apply Qnot_le_lt. intros Hge.
    assert (G * 2 * D <= x * D)%Q by (apply Qmult_le_compat_r; [done|by apply Qlt_le_weak]).
    assert (G * 2 * L <= G * 2 * D)%Q.
    { rewrite !(Qmult_comm (G * 2)). apply Qmult_le_compat_r; [done|]. lra. }
    rewrite Hprod in *. rewrite Hsplit in Hn_high. lra.
  - assert (x < G)%Q as Hlt.
    { apply Qnot_le_lt. intros Hle. apply Qle_bool_iff in Hle. congruence. }
    replace (ln - ld - 1 + 1) with (ln - ld) by lia. fold G. split; [|done].
    (* Gd * D < Gd * L * 2 = G * L = H1 <= N = x * D *)
    apply Qnot_lt_le. intros Hbelow.
    assert (x * D < Gd * D)%Q by (apply Qmult_lt_compat_r; done).
    assert (Gd * D <= Gd * (L * 2))%Q.
    { rewrite !(Qmult_comm Gd). apply Qmult_le_compat_r; [by apply Qlt_le_weak|]. lra. }
    rewrite Hprod in *. rewrite Hsplit, Hdown in Hn_low.
    assert (Gd * 2 * L == Gd * (L * 2))%Q as Heq by ring. rewrite Heq in Hn_low. lra.
Qed.

Lemma round_half_even_error (s : Q) :
  (Qabs (inject_Z (round_half_even s) - s) <= 1 # 2)%Q.
Proof.
  unfold round_half_even.
  pose proof (Qfloor_le s) as Hlow. pose proof (Qlt_floor s) as Hhigh.
  rewrite inject_Z_plus in Hhigh. change (inject_Z 1) with 1%Q in Hhigh.
  set (f := Qfloor s) in *.
  assert (inject_Z (f + 1) == inject_Z f + 1)%Q as Hnext
    by (rewrite inject_Z_plus; reflexivity).
  apply Qabs_Qle_condition.
  destruct (Qcompare_spec (s - inject_Z f) (1 # 2)) as [Heq|Hlt|Hgt].
  - destruct (Z.even f); [|rewrite Hnext]; lra.
  - lra.
  - rewrite Hnext. lra.
Qed.

Lemma round_error (x : Q) :
  (pow2 (-1022) <= x)%Q -> (Qabs (round x - x) <= x * pow2 (-53))%Q.
Proof.
  intros Hnormal. pose proof (pow2_pos (-1022)) as Hmin.
  assert (0 < x)%Q as Hx by lra.
  unfold round.
  assert (Qeq_bool x 0 = false) as ->.
  { apply not_true_iff_false. intros Hzero%Qeq_bool_iff. lra. }
  assert (Qle_bool 0 x = true) as -> by (apply Qle_bool_iff; lra).
  unfold round_magnitude. cbn zeta.
  destruct (floor_log2_spec x Hx) as [Hlog _].
  set (e := Z.max (floor_log2 x) (-1022)).
  assert (pow2 e <= x)%Q as He.
  { unfold e. destruct (Z.max_spec (floor_log2 x) (-1022)) as [[_ ->]|[_ ->]]; done. }
  pose proof (pow2_pos (e - 52)) as Hulp.
  pose proof (pow2_pos (e - 53)) as Hhalf_pos.
  assert (pow2 (e - 52) == pow2 (e - 53) * 2)%Q as Hdouble.
  { replace (e - 52) with ((e - 53) + 1) by lia. rewrite pow2_add. reflexivity. }
  assert (pow2 (e - 53) == pow2 e * pow2 (-53))%Q as Hshift.
  { replace (e - 53) with (e + -53) by lia. apply pow2_add. }
  set (ulp := pow2 (e - 52)) in *.
  pose proof (round_half_even_error (x / ulp)) as Hround.
  set (r := inject_Z (round_half_even (x / ulp))) in *.
  assert (r * ulp - x == (r - x / ulp) * ulp)%Q as ->.
  { field. intros Hzero. rewrite Hzero in Hulp. by apply Qlt_irrefl in Hulp. }
  rewrite Qabs_Qmult, (Qabs_pos ulp) by lra.
  apply (Qle_trans _ ((1 # 2) * ulp)).
  { apply Qmult_le_compat_r; [done|lra]. }
  rewrite Hdouble.
  assert ((1 # 2) * (pow2 (e - 53) * 2) == pow2 (e - 53))%Q as -> by ring.
  rewrite Hshift. apply Qmult_le_compat_r; [done|].
  apply Qlt_le_weak, pow2_pos.
Qed.

End rounding.


(** C10 as stated fails: for 100 frames against 93 at a threshold of 7
    percent the percentage is 7 exactly, which is not greater than 7, but
    the doubles give 7/100 * 100.0 = 7.000000000000001, and the check
    reports an excess. *)
Lemma seven_of_100_exceeds_7 :
  (video_discovery_doubles.validate_frame_count_difference 100 93 (floats.Finite 7)).1.1
  = true /\
  ((video_discovery_doubles.validate_frame_count_difference 100 93 (floats.Finite 7)).1.2
   == 7 + float64.pow2 (-50))%Q /\
  (exact_percent 100 93 == 7)%Q.
Proof. split; [|split]; vm_compute; reflexivity. Qed.

Lemma percent_error (d m : Z) :
  0 <= d <= m -> 0 < m -> m <= 2 ^ 1022 ->
  let q := (inject_Z d / inject_Z m)%Q in
  (Qabs (float64.round (float64.round q * 100) - q * 100)
   <= q * 100 * float64.pow2 (-51))%Q.
Proof.
  intros [Hd Hdm] Hm Hbig q.
  assert (0 < inject_Z m)%Q as Hm' by (by rewrite <- (Zlt_Qlt 0)).
  pose proof (pow2_pos (-53)) as Hu.
  assert (float64.pow2 (-51) == 4 * float64.pow2 (-53))%Q as Hfour.
  { replace (-51) with (2 + -53) by lia. rewrite pow2_add. reflexivity. }
  assert (float64.pow2 (-53) <= 1)%Q as Hu1.
  { change 1%Q with (float64.pow2 0). by apply pow2_le. }
  destruct (Z.eq_dec d 0) as [->|Hpos].
  { assert (q == 0)%Q as Hq by (unfold q; unfold Qdiv; by rewrite Qmult_0_l).
    assert (float64.round q = 0%Q) as ->.
    { unfold float64.round. by rewrite (proj2 (Qeq_bool_iff q 0) Hq). }
    assert (float64.round (0 * 100) = 0%Q) as -> by reflexivity.
    rewrite Hq. apply Qabs_Qle_condition. lra. }
  assert (float64.pow2 (-1022) <= q)%Q as Hnormal.
  { unfold q. apply Qle_shift_div_l; [done|].
    assert (float64.pow2 (-1022) * float64.pow2 1022 == 1)%Q as Hinv.
    { rewrite <- pow2_add. reflexivity. }
    pose proof (pow2_pos (-1022)) as Hmin.
    assert (inject_Z m <= float64.pow2 1022)%Q as Hm_le.
    { rewrite pow2_Z by lia. by rewrite <- Zle_Qle. }
    assert (1 <= inject_Z d)%Q as Hd1 by (rewrite <- (Zle_Qle 1); lia).
    apply (Qle_trans _ (float64.pow2 (-1022) * float64.pow2 1022)); [|lra].
    rewrite !(Qmult_comm (float64.pow2 (-1022))).
    apply Qmult_le_compat_r; [done|lra]. }
  pose proof (pow2_pos (-1022)) as Hmin.
  pose proof (round_error q Hnormal) as Hfirst.
  apply Qabs_Qle_condition in Hfirst.
  set (q' := float64.round q) in *. set (u := float64.pow2 (-53)) in *.
  set (P := (q * u)%Q) in *.
  assert (P <= q)%Q as HP.
  { unfold P. rewrite <- (Qmult_1_r q) at 2. rewrite !(Qmult_comm q).
    apply Qmult_le_compat_r; [done|lra]. }
  assert (0 <= P)%Q as HP0 by (unfold P; apply Qmult_le_0_compat; lra).
  assert (float64.pow2 (-1022) <= q' * 100)%Q as Hnormal'.
  { (* q' >= q - P >= q - q/2 *)
    assert (u <= 1 # 2)%Q as Hhalf.
    { change (1 # 2)%Q with (float64.pow2 (-1)). by apply pow2_le. }
    assert (P <= q * (1 # 2))%Q.
    { unfold P. rewrite !(Qmult_comm q). apply Qmult_le_compat_r; [done|lra]. }
    lra. }
  pose proof (round_error (q' * 100) Hnormal') as Hsecond.
  apply Qabs_Qle_condition in Hsecond. change (float64.pow2 (-53)) with u in Hsecond.
  set (p' := float64.round (q' * 100)) in *.
  assert (q' * 100 * u == 100 * (q' * u))%Q as Hre by ring. rewrite Hre in Hsecond.
  assert (q' * u <= 2 * P)%Q as Hq'u.
  { apply (Qle_trans _ ((q + P) * u)).
    - apply Qmult_le_compat_r; [lra|lra].
    - rewrite Qmult_plus_distr_l. fold P.
      assert (P * u <= P * 1)%Q.
      { rewrite !(Qmult_comm P). apply Qmult_le_compat_r; [done|done]. }
      lra. }
  assert (0 <= q' * u)%Q.
  { apply Qmult_le_0_compat; lra. }
  rewrite Hfour. assert (q * 100 * (4 * u) == 400 * P)%Q as -> by (unfold P; ring).
  apply Qabs_Qle_condition. lra.
Qed.

(** C10, amended.  For non-negative totals and a threshold between 0 and
    100, [validate_frame_count_difference] reports an excess exactly when the
    percentage it returns is greater than the threshold.  That percentage
    is the double |cam0 - cam1| / max(cam0, cam1) * 100.0, the quotient
    rounded and the product rounded; it differs from the exact percentage
    by at most the 2^-51 part of it.  So an excess is reported when the
    exact percentage is above the threshold by more than that, and none
    when it is below or equal by at least that; in between the rounding
    decides.  On two empty cameras it returns (False, 0.0, 0). *)
Theorem frame_count_excess_in_doubles (cam0_total cam1_total : Z) (threshold_percent : Q) :
  0 <= cam0_total -> 0 <= cam1_total ->
  (0 <= threshold_percent)%Q -> (threshold_percent <= 100)%Q ->
  Z.max cam0_total cam1_total <= 2 ^ 1022 ->
  let result :=
    video_discovery_doubles.validate_frame_count_difference cam0_total cam1_total
      (floats.Finite threshold_percent) in
  let difference_percent := result.1.2 in
  let exact := exact_percent cam0_total cam1_total in
  let margin := (exact * float64.pow2 (-51))%Q in
  (result.1.1 = true <-> (threshold_percent < difference_percent)%Q) /\
  result.2 = Z.abs (cam0_total - cam1_total) /\
  (cam0_total <> 0 \/ cam1_total <> 0 ->
   difference_percent
   = float64.round
       (float64.round
          (inject_Z (Z.abs (cam0_total - cam1_total))
           / inject_Z (Z.max cam0_total cam1_total)) * 100)) /\
  (Qabs (difference_percent - exact) <= margin)%Q /\
  ((threshold_percent < exact - margin)%Q -> result.1.1 = true) /\
  ((exact + margin <= threshold_percent)%Q -> result.1.1 = false) /\
  video_discovery_doubles.validate_frame_count_difference 0 0
    (floats.Finite threshold_percent) = (false, 0%Q, 0).
Proof.
  intros H0 H1 Hlow Hhigh Hbig result difference_percent exact margin.
  assert (result.1.1 = true <-> (threshold_percent < difference_percent)%Q) as Hiff.
  { subst difference_percent result.
    unfold video_discovery_doubles.validate_frame_count_difference.
    destruct ((cam0_total =? 0) && (cam1_total =? 0)); cbn [fst snd].
    - split; [done|]. intros Hlt. lra.
    - unfold floats.gt, floats.lt. apply Qltb_lt. }
  assert (Qabs (difference_percent - exact) <= margin)%Q as Herror.
  { subst difference_percent result margin exact.
    unfold video_discovery_doubles.validate_frame_count_difference, exact_percent.
    destruct (Z.eqb_spec cam0_total 0) as [->|Hne0];
      [destruct (Z.eqb_spec cam1_total 0) as [->|Hne1]|]; cbn [andb fst snd].
    - apply Qabs_Qle_condition. vm_compute. split; discriminate.
    - destruct (Z.eqb_spec (Z.max 0 cam1_total) 0); [lia|].
      apply percent_error; lia.
    - destruct (Z.eqb_spec (Z.max cam0_total cam1_total) 0); [lia|].
      apply percent_error; lia. }
  split; [done|]. split.
  { subst result. unfold video_discovery_doubles.validate_frame_count_difference.
    destruct (Z.eqb_spec cam0_total 0) as [->|Hne0];
      [destruct (Z.eqb_spec cam1_total 0) as [->|Hne1]|]; done. }
  split.
  { intros Hsome. subst difference_percent result.
    unfold video_discovery_doubles.validate_frame_count_difference.
    destruct (Z.eqb_spec cam0_total 0) as [->|Hne0];
      [destruct (Z.eqb_spec cam1_total 0) as [->|Hne1]|]; cbn [andb fst snd].
    - by destruct Hsome.
    - by destruct (Z.eqb_spec (Z.max 0 cam1_total) 0); [lia|].
    - by destruct (Z.eqb_spec (Z.max cam0_total cam1_total) 0); [lia|]. }
  split; [done|].
  apply Qabs_Qle_condition in Herror.
  split; [|split; [|reflexivity]].
  - intros Hfar. apply Hiff. lra.
  - intros Hfar. apply not_true_iff_false. intros Hexceeds%Hiff. lra.
Qed.

(** The docstring's example on doubles. *)
Lemma frame_count_excess_in_doubles_witness :
  (video_discovery_doubles.validate_frame_count_difference 15000 14200 (floats.Finite 5)).1.1
  = true.
Proof.
  assert (15000 `max` 14200 <= 2 ^ 1022) as Hbig by (apply Z.leb_le; vm_compute; reflexivity).
  apply (frame_count_excess_in_doubles 15000 14200 5 ltac:(lia) ltac:(lia)
           ltac:(unfold Qle; simpl; lia) ltac:(unfold Qle; simpl; lia) Hbig).
  vm_compute. reflexivity.
Defined.

(** ** Timestamp statistics *)

Lemma py_index_total {A : Type} (l : list A) (k : Z) :
  - Z.of_nat (length l) <= k < Z.of_nat (length l) ->
  exists x, py_index l k = Return x.
Proof.
  intros Hk. unfold py_index.
  set (j := if k <? 0 then Z.of_nat (length l) + k else k).
  assert (0 <= j < Z.of_nat (length l)) as Hj.
  { subst j. destruct (Z.ltb_spec k 0); lia. }
  destruct (Z.ltb_spec j 0); [lia|].
  destruct (Z.leb_spec (Z.of_nat (length l)) j); [lia|]. simpl.
  destruct (lookup_lt_is_Some_2 l (Z.to_nat j)) as [x ->]; [lia|]. by exists x.
Qed.

Lemma mean_total (l : list Q) : l <> [] -> exists m, timestamp_analysis.mean l = Return m.
Proof. destruct l; [done|]. by eexists. Qed.

Lemma py_max_total (l : list Q) : l <> [] -> exists m, timestamp_analysis.py_max l = Return m.
Proof. destruct l; [done|]. by eexists. Qed.

Lemma py_min_total (l : list Q) : l <> [] -> exists m, timestamp_analysis.py_min l = Return m.
Proof. destruct l; [done|]. by eexists. Qed.

Lemma guarded_stdev_total (sqrt : Q -> Q) (l : list Q) :
  exists sd,
    (if (1 <? length l)%nat then timestamp_analysis.stdev sqrt l else Return 0%Q) = Return sd.
Proof.
  destruct (Nat.ltb_spec 1 (length l)) as [Hlen|Hlen]; [|by eexists].
  unfold timestamp_analysis.stdev.
  destruct (Nat.ltb_spec (length l) 2); [lia|]. by eexists.
Qed.

Lemma nonempty_length {A : Type} (l : list A) : (0 < length l)%nat -> l <> [].
Proof. destruct l; simpl; [lia|done]. Qed.

Lemma calculate_timestamp_stats_short (sqrt : Q -> Q) timestamps :
  (length timestamps < 2)%nat ->
  timestamp_analysis.calculate_timestamp_stats sqrt timestamps =
  Raise (ValueError "Need at least 2 timestamps for analysis").
Proof.
  intros Hshort. unfold timestamp_analysis.calculate_timestamp_stats.
  destruct (Nat.ltb_spec (length timestamps) 2); [done|lia].
Qed.

Lemma calculate_timestamp_stats_total (sqrt : Q -> Q) timestamps :
  (2 <= length timestamps)%nat ->
  exists stats,
    timestamp_analysis.calculate_timestamp_stats sqrt timestamps = Return stats /\
    timestamp_analysis.total_frames stats = Z.of_nat (length timestamps).
Proof.
  intros Hlen. unfold timestamp_analysis.calculate_timestamp_stats.
  destruct (Nat.ltb_spec (length timestamps) 2); [lia|].
  destruct (py_index_total timestamps 0) as [first ->]; [lia|].
  destruct (py_index_total timestamps (-1)) as [last ->]; [lia|]. simpl.
  destruct (py_for_returns
              (fun k =>
                 cur ← py_index timestamps k;
                 prev ← py_index timestamps (k - 1);
                 Return (inject_Z (timestamp_analysis.pts_us cur
                                   - timestamp_analysis.pts_us prev) / 1000)%Q)
              (fun _ _ => True)
              (seqZ 1 (Z.of_nat (length timestamps) - 1)))
    as (intervals_ms & Hintervals & _).
  { intros k Hk%elem_of_seqZ.
    destruct (py_index_total timestamps k) as [cur ->]; [lia|].
    destruct (py_index_total timestamps (k - 1)) as [prev ->]; [lia|].
    simpl. by eexists. }
  rewrite Hintervals. simpl.
  apply py_for_length in Hintervals. rewrite length_seqZ in Hintervals.
  assert (intervals_ms <> []) as Hsome by (apply nonempty_length; lia).
  destruct (mean_total _ Hsome) as [avg ->]. simpl.
  destruct (guarded_stdev_total sqrt intervals_ms) as [sd ->]. simpl.
  destruct (py_min_total _ Hsome) as [lo ->]. simpl.
  destruct (py_max_total _ Hsome) as [hi ->]. simpl.
  by eexists.
Qed.

Lemma all_timestamps_total (results : gmap Z (list timestamp_analysis.Timestamp)) :
  exists series, timestamp_analysis.all_timestamps results = Return series.
Proof.
  unfold timestamp_analysis.all_timestamps.
  destruct (py_for_returns (frame_stitching.py_get results) (fun _ _ => True)
              (sorted_by_key id (elements (dom results))))
    as (parts & -> & _); [|by eexists].
  intros num Hnum. apply (sorted_elements (dom results)) in Hnum.
  apply elem_of_dom in Hnum as [ts Hts].
  exists ts. unfold frame_stitching.py_get. by rewrite Hts.
Qed.

(** C6.  Per-camera statistics are computed exactly for series of at least
    two records; a shorter series raises the ValueError "Need at least 2
    timestamps for analysis", which [analyze_sync_quality] passes on when
    either camera is short; in [main] the analysis of the merged logs then
    ends with [sync_analysis = None], whatever the settings, and no
    exception leaves it. *)
Theorem short_series_is_reported (sqrt : Q -> Q) :
  (forall timestamps,
     (length timestamps < 2)%nat ->
     timestamp_analysis.calculate_timestamp_stats sqrt timestamps =
     Raise (ValueError "Need at least 2 timestamps for analysis")) /\
  (forall timestamps,
     (2 <= length timestamps)%nat ->
     exists stats,
       timestamp_analysis.calculate_timestamp_stats sqrt timestamps = Return stats /\
       timestamp_analysis.total_frames stats = Z.of_nat (length timestamps)) /\
  (forall self cam0_timestamps cam1_timestamps,
     (length cam0_timestamps < 2)%nat \/ (length cam1_timestamps < 2)%nat ->
     timestamp_analysis.analyze_sync_quality sqrt self cam0_timestamps cam1_timestamps =
     Raise (ValueError "Need at least 2 timestamps for analysis")) /\
  (forall loaded,
     exists all_cam0_timestamps all_cam1_timestamps,
       timestamp_analysis.all_timestamps (timestamp_analysis.collect_loaded loaded).1
         = Return all_cam0_timestamps /\
       timestamp_analysis.all_timestamps (timestamp_analysis.collect_loaded loaded).2
         = Return all_cam1_timestamps /\
       ((length all_cam0_timestamps < 2)%nat \/ (length all_cam1_timestamps < 2)%nat ->
        forall enabled sync_threshold_ms sample_points,
          (exists msg,
             timestamp_analysis.analyze_all_segments sqrt
               {| timestamp_analysis.sync_threshold_ms := sync_threshold_ms;
                  timestamp_analysis.sample_points := sample_points |} loaded
             = Raise (ValueError msg)) /\
          main.timestamp_analysis_step sqrt enabled sync_threshold_ms sample_points loaded
          = None)).
Proof.
  split; [apply calculate_timestamp_stats_short|].
  split; [apply calculate_timestamp_stats_total|].
  assert (forall self cam0_timestamps cam1_timestamps,
            (length cam0_timestamps < 2)%nat \/ (length cam1_timestamps < 2)%nat ->
            timestamp_analysis.analyze_sync_quality sqrt self cam0_timestamps cam1_timestamps =
            Raise (ValueError "Need at least 2 timestamps for analysis")) as Hshort.
  { intros self cam0_timestamps cam1_timestamps Hlen.
    unfold timestamp_analysis.analyze_sync_quality.
    destruct (Nat.lt_ge_cases (length cam0_timestamps) 2) as [Hlt0|Hge0].
    { by rewrite (calculate_timestamp_stats_short sqrt cam0_timestamps). }
    destruct (calculate_timestamp_stats_total sqrt cam0_timestamps Hge0) as (stats & -> & _).
    simpl. destruct Hlen as [?|Hlt1]; [lia|].
    by rewrite (calculate_timestamp_stats_short sqrt cam1_timestamps). }
  split; [exact Hshort|].
  intros loaded.
  destruct (all_timestamps_total (timestamp_analysis.collect_loaded loaded).1)
    as [series0 Hseries0].
  destruct (all_timestamps_total (timestamp_analysis.collect_loaded loaded).2)
    as [series1 Hseries1].
  exists series0, series1. split; [done|]. split; [done|].
  intros Hlen enabled sync_threshold_ms sample_points.
  assert (exists msg,
            timestamp_analysis.analyze_all_segments sqrt
              {| timestamp_analysis.sync_threshold_ms := sync_threshold_ms;
                 timestamp_analysis.sample_points := sample_points |} loaded
            = Raise (ValueError msg)) as [msg Hraise].
  { unfold timestamp_analysis.analyze_all_segments.
    destruct (timestamp_analysis.collect_loaded loaded) as [cam0_results cam1_results].
    simpl in Hseries0, Hseries1. rewrite Hseries0, Hseries1. simpl.
    destruct series0 as [|first0 rest0]; [by eexists|].
    destruct series1 as [|first1 rest1]; [by eexists|].
    rewrite Hshort by done. by eexists. }
  split; [by exists msg|].
  unfold main.timestamp_analysis_step. destruct enabled; [|done].
  by rewrite Hraise.
Qed.

(** ** Drift sampling *)

Lemma sampled_split cam0_timestamps cam1_timestamps indices
    (sampled : list (Q * (Z * Q * Q * Q))) :
  Forall2 (fun idx pair =>
             pair.1 = Qabs pair.2.2 /\
             sampled_at cam0_timestamps cam1_timestamps idx pair.2) indices sampled ->
  sampled.*1 = abs_drifts (sampled.*2) /\
  Forall2 (sampled_at cam0_timestamps cam1_timestamps) indices (sampled.*2).
Proof.
  induction 1 as [|idx pair ? ? [Habs Hat] _ [IH1 IH2]]; [by split; [|constructor]|].
  unfold abs_drifts in *. rewrite !fmap_cons, IH1, Habs. split; [done|].
  by constructor.
Qed.

Lemma step_indices_in_range (m sp k : Z) :
  1 <= sp -> sp < m -> 0 <= k < sp -> 0 <= k * (m / sp) < m.
Proof.
  intros Hsp Hm Hk.
  pose proof (Z.mul_div_le m sp ltac:(lia)) as Hfloor.
  pose proof (Z.div_str_pos m sp ltac:(lia)) as Hstep.
  nia.
Qed.

Lemma py_for_inv {A B : Type} (body : A -> py B) (l : list A) (ys : list B) :
  py_for body l = Return ys -> Forall2 (fun x y => body x = Return y) l ys.
Proof.
  revert ys. induction l as [|x l IH]; intros ys; simpl.
  { intros [= <-]. constructor. }
  destruct (body x) as [y|] eqn:Hx; simpl; [|done].
  destruct (py_for body l) as [rest|]; simpl; [|done].
  intros [= <-]. constructor; [done|]. by apply IH.
Qed.

Lemma py_index_inv {A : Type} (l : list A) (k : Z) (x : A) :
  0 <= k -> py_index l k = Return x -> l !! Z.to_nat k = Some x.
Proof.
  intros Hk. unfold py_index.
  destruct (Z.ltb_spec k 0); [lia|].
  destruct (_ || _); [done|].
  destruct (l !! Z.to_nat k); [|done]. by intros [= <-].
Qed.

Lemma drift_at_inv cam0_timestamps cam1_timestamps idx pair :
  0 <= idx ->
  timestamp_analysis.drift_at cam0_timestamps cam1_timestamps idx = Return pair ->
  pair.1 = Qabs pair.2.2 /\ sampled_at cam0_timestamps cam1_timestamps idx pair.2.
Proof.
  intros Hidx. unfold timestamp_analysis.drift_at.
  destruct (py_index cam0_timestamps idx) as [r0|] eqn:Hr0; simpl; [|done].
  destruct (py_index cam1_timestamps idx) as [r1|] eqn:Hr1; simpl; [|done].
  destruct (py_index cam0_timestamps 0); simpl; [|done].
  destruct (py_index cam1_timestamps 0); simpl; [|done].
  intros [= <-]. simpl. split; [done|].
  exists r0, r1. by rewrite (py_index_inv _ _ _ Hidx Hr0), (py_index_inv _ _ _ Hidx Hr1).
Qed.

Lemma drift_at_all cam0_timestamps cam1_timestamps (indices : list Z)
    (sampled : list (Q * (Z * Q * Q * Q))) :
  (forall idx, idx ∈ indices -> 0 <= idx) ->
  Forall2 (fun idx pair =>
             timestamp_analysis.drift_at cam0_timestamps cam1_timestamps idx = Return pair)
          indices sampled ->
  Forall2 (fun idx pair =>
             pair.1 = Qabs pair.2.2 /\
             sampled_at cam0_timestamps cam1_timestamps idx pair.2) indices sampled.
Proof.
  intros Hnonneg Hall. induction Hall as [|idx pair ? ? Hpair _ IH]; constructor.
  - apply drift_at_inv; [|done]. apply Hnonneg. by left.
  - apply IH. intros idx' Hin. apply Hnonneg. by right.
Qed.

Lemma sample_indices_inv self m indices :
  timestamp_analysis.sample_indices self m = Return indices ->
  indices =
    (if m <=? timestamp_analysis.sample_points self then seqZ 0 m
     else (fun k => k * (m / timestamp_analysis.sample_points self))
            <$> seqZ 0 (timestamp_analysis.sample_points self)) /\
  forall idx, idx ∈ indices -> 0 <= idx.
Proof.
  unfold timestamp_analysis.sample_indices, py_range.
  destruct (Z.leb_spec m (timestamp_analysis.sample_points self)) as [Hle|Hlt].
  { intros [= <-]. split; [done|]. intros idx Hidx%elem_of_seqZ. lia. }
  destruct (Z.eqb_spec (timestamp_analysis.sample_points self) 0); [done|].
  intros [= <-]. split; [done|].
  intros idx (k & -> & Hk%elem_of_seqZ)%list_elem_of_fmap.
  pose proof (Z.div_pos m (timestamp_analysis.sample_points self)). nia.
Qed.

(** C8.  [analyze_time_drift] samples by index: with m the shorter length,
    every index 0..m-1 when m <= sample_points, and otherwise the indices
    k * (m // sample_points) for 0 <= k < sample_points (sample_points
    many, all of them positions of both series, once at least one sample
    point is asked for).  Whenever it returns, it returns one tuple per
    sampled index, in that order, carrying the index and the drift (cam0
    timestamp minus cam1 timestamp at that index) in milliseconds, and the
    average, the maximum and the histogram are taken over the absolute
    values of these drifts.  It does return when at least one sample point
    is asked for and both series are non-empty. *)
Theorem drift_sampling_by_index (sqrt : Q -> Q)
    (self : timestamp_analysis.TimestampAnalyzer)
    (cam0_timestamps cam1_timestamps : list timestamp_analysis.Timestamp) :
  let sample_points := timestamp_analysis.sample_points self in
  let m := Z.min (Z.of_nat (length cam0_timestamps)) (Z.of_nat (length cam1_timestamps)) in
  let indices :=
    if m <=? sample_points then seqZ 0 m
    else (fun k => k * (m / sample_points)) <$> seqZ 0 sample_points in
  (m <= sample_points \/ sample_points <> 0 ->
   timestamp_analysis.sample_indices self m = Return indices) /\
  (1 <= sample_points ->
   length indices = Z.to_nat (Z.min m sample_points) /\
   forall idx, idx ∈ indices -> 0 <= idx < m) /\
  (forall avg max std distribution sample_drifts,
     timestamp_analysis.analyze_time_drift sqrt self cam0_timestamps cam1_timestamps
     = Return (avg, max, std, distribution, sample_drifts) ->
     Forall2 (sampled_at cam0_timestamps cam1_timestamps) indices sample_drifts /\
     timestamp_analysis.mean (abs_drifts sample_drifts) = Return avg /\
     timestamp_analysis.py_max (abs_drifts sample_drifts) = Return max /\
     distribution = timestamp_analysis.distribution_of (abs_drifts sample_drifts)) /\
  (1 <= sample_points -> 1 <= m ->
   exists avg max std distribution sample_drifts,
     timestamp_analysis.analyze_time_drift sqrt self cam0_timestamps cam1_timestamps
     = Return (avg, max, std, distribution, sample_drifts)).
Proof.
  intros sample_points m indices.
  assert (m <= sample_points \/ sample_points <> 0 ->
          timestamp_analysis.sample_indices self m = Return indices) as Hindices.
  { unfold timestamp_analysis.sample_indices, indices, py_range. fold sample_points.
    intros Hdefined.
    destruct (Z.leb_spec m sample_points); [done|].
    destruct (Z.eqb_spec sample_points 0); [lia|done]. }
  assert (1 <= sample_points ->
          length indices = Z.to_nat (Z.min m sample_points) /\
          forall idx, idx ∈ indices -> 0 <= idx < m) as Hrange.
  { intros Hsp. unfold indices. destruct (Z.leb_spec m sample_points); split.
    - rewrite length_seqZ. lia.
    - intros idx. rewrite elem_of_seqZ. lia.
    - rewrite length_fmap, length_seqZ. lia.
    - intros idx (k & -> & Hk%elem_of_seqZ)%list_elem_of_fmap.
      apply step_indices_in_range; lia. }
  split; [done|]. split; [done|]. split.
  - intros avg max std distribution sample_drifts.
    unfold timestamp_analysis.analyze_time_drift. fold m.
    destruct (timestamp_analysis.sample_indices self m) as [sampled_indices|] eqn:Hsi;
      simpl; [|done].
    apply sample_indices_inv in Hsi as [-> Hnonneg]. fold sample_points indices in Hnonneg |- *.
    destruct (py_for _ indices) as [sampled|] eqn:Hsampled; simpl; [|done].
    destruct (timestamp_analysis.mean _) as [avg'|] eqn:Havg; simpl; [|done].
    destruct (timestamp_analysis.py_max _) as [max'|] eqn:Hmax; simpl; [|done].
    destruct (if (1 <? length (sampled.*1))%nat then _ else _); simpl; [|done].
    intros [= <- <- _ <- <-].
    apply py_for_inv in Hsampled.
    apply (drift_at_all _ _ _ _ Hnonneg), sampled_split in Hsampled as [Hdrifts Hat].
    by rewrite <- Hdrifts.
  - intros Hsp Hm.
    destruct (Hrange Hsp) as [Hlength Hin].
    destruct (py_for_returns
                (timestamp_analysis.drift_at cam0_timestamps cam1_timestamps)
                (fun _ _ => True) indices) as (sampled & Hsampled & _).
    { intros idx Hidx%Hin. unfold timestamp_analysis.drift_at.
      destruct (py_index_total cam0_timestamps idx) as [r0 ->]; [lia|].
      destruct (py_index_total cam1_timestamps idx) as [r1 ->]; [lia|]. simpl.
      destruct (py_index_total cam0_timestamps 0) as [first0 ->]; [lia|].
      destruct (py_index_total cam1_timestamps 0) as [first1 ->]; [lia|]. simpl.
      by eexists. }
    pose proof (py_for_length _ _ _ Hsampled) as Hcount.
    assert (sampled.*1 <> []) as Hsome.
    { apply nonempty_length. rewrite length_fmap. lia. }
    destruct (mean_total _ Hsome) as [avg Havg].
    destruct (py_max_total _ Hsome) as [max Hmax].
    destruct (guarded_stdev_total sqrt (sampled.*1)) as [std Hstd].
    exists avg, max, std, (timestamp_analysis.distribution_of (sampled.*1)), (sampled.*2).
    unfold timestamp_analysis.analyze_time_drift. fold m.
    rewrite Hindices by lia. simpl. rewrite Hsampled. simpl.
    rewrite Havg. simpl. rewrite Hmax. simpl. by rewrite Hstd.
Qed.

(** Five records per camera, cam1 starting 4 ms late, and two sample
    points: indices 0 and 2 are sampled and the analysis returns. *)
Lemma drift_sampling_by_index_witness :
  timestamp_analysis.sample_indices two_point_analyzer
    (Z.min (Z.of_nat (length (example_series 1000000)))
           (Z.of_nat (length (example_series 1004000))))
  = Return [0; 2] /\
  exists avg max std distribution sample_drifts,
    timestamp_analysis.analyze_time_drift (fun x => x) two_point_analyzer
      (example_series 1000000) (example_series 1004000)
    = Return (avg, max, std, distribution, sample_drifts).
Proof.
  destruct (drift_sampling_by_index (fun x => x) two_point_analyzer
              (example_series 1000000) (example_series 1004000))
    as (Hindices & _ & _ & Hreturns).
  split.
  - apply Hindices. right. simpl. lia.
  - apply Hreturns; simpl; lia.
Defined.

(** ** The pipeline on three segments per camera *)

(** Three segments of 100 frames per camera at interval 100: frames 1, 101
    and 201 of each camera, three pairs, nothing unmatched. *)
Example three_segments_end_to_end :
  match main.extraction_stage example_world pool_reversed
          (three_segments "cam0") (three_segments "cam1") example_dirs example_config with
  | main.Extracted cam0_frames cam1_frames =>
      multiprocess_extraction.global_frame_number <$> cam0_frames = [1; 101; 201] /\
      multiprocess_extraction.global_frame_number <$> cam1_frames = [1; 101; 201] /\
      (frame_stitching.find_frame_pairs
         (main.to_extracted_frames cam0_frames) (main.to_extracted_frames cam1_frames)).1 = [] /\
      match (frame_stitching.find_frame_pairs
               (main.to_extracted_frames cam0_frames)
               (main.to_extracted_frames cam1_frames)).2 with
      | Return pairs =>
          (fun pair => frame_extraction.global_frame_number pair.1) <$> pairs = [1; 101; 201]
      | Raise _ => False
      end
  | main.Exit _ => False
  end.
Proof. vm_compute. repeat split. Qed.

(** When the second segment of camera 1 cannot be opened, camera 1 yields
    frames 1 and 201 only; the run goes on, pairs 1 and 201, and warns of
    one frame of camera 0 without a partner. *)
Example unreadable_segment_end_to_end :
  match main.extraction_stage world_with_unreadable_segment pool_in_order
          (three_segments "cam0") (three_segments "cam1") example_dirs example_config with
  | main.Extracted cam0_frames cam1_frames =>
      multiprocess_extraction.global_frame_number <$> cam0_frames = [1; 101; 201] /\
      multiprocess_extraction.global_frame_number <$> cam1_frames = [1; 201] /\
      (frame_stitching.find_frame_pairs
         (main.to_extracted_frames cam0_frames) (main.to_extracted_frames cam1_frames)).1
      = [frame_stitching.Cam0WithoutCam1 1] /\
      match (frame_stitching.find_frame_pairs
               (main.to_extracted_frames cam0_frames)
               (main.to_extracted_frames cam1_frames)).2 with
      | Return pairs =>
          (fun pair => frame_extraction.global_frame_number pair.1) <$> pairs = [1; 201]
      | Raise _ => False
      end
  | main.Exit _ => False
  end.
Proof. vm_compute. repeat split. Qed.

(** * Further properties *)

(** ** Expected counts *)

Lemma count_sampled_filter extractor numbers :
  main_expected.count_sampled extractor numbers =
  Z.of_nat (length (filter (fun g => frame_extraction.should_extract_frame extractor g = true)
                      numbers)).
Proof.
  induction numbers as [|g rest IH]; [done|].
  cbn [main_expected.count_sampled]. rewrite IH, filter_cons.
  destruct (frame_extraction.should_extract_frame extractor g);
    case_decide; try done; simpl; lia.
Qed.

Lemma expected_frames_formula extractor total :
  1 <= frame_extraction.sampling_interval extractor ->
  main_expected.expected_frames extractor total =
  if total <=? 0 then 0
  else (total - 1) / frame_extraction.sampling_interval extractor + 1.
Proof.
  intros HN. unfold main_expected.expected_frames. rewrite count_sampled_filter.
  destruct (Z.leb_spec total 0) as [Hle|Hgt].
  { by rewrite seqZ_nil. }
  rewrite <- (Z2Nat.id total) at 1 by lia.
  rewrite accepted_prefix by done.
  rewrite Z2Nat.id by lia.
  rewrite length_fmap, length_seqZ.
  pose proof (Z.div_pos (total - 1) (frame_extraction.sampling_interval extractor)). lia.
Qed.

Lemma expected_frames_mono extractor (a b : Z) :
  1 <= frame_extraction.sampling_interval extractor ->
  a <= b ->
  main_expected.expected_frames extractor a <= main_expected.expected_frames extractor b.
Proof.
  intros HN Hab. rewrite !expected_frames_formula by done.
  destruct (Z.leb_spec a 0), (Z.leb_spec b 0); try lia.
  - pose proof (Z.div_pos (b - 1) (frame_extraction.sampling_interval extractor)). lia.
  - pose proof (Z.div_le_mono (a - 1) (b - 1)
                  (frame_extraction.sampling_interval extractor)). lia.
Qed.

Lemma expected_stitched_min extractor (cam0_total cam1_total : Z) :
  1 <= frame_extraction.sampling_interval extractor ->
  main_expected.expected_stitched extractor cam0_total cam1_total =
  main_expected.expected_frames extractor (Z.min cam0_total cam1_total).
Proof.
  intros HN. unfold main_expected.expected_stitched.
  destruct (Z.le_ge_cases cam0_total cam1_total) as [Hle|Hge].
  - rewrite (Z.min_l cam0_total) by done. apply Z.min_l.
    by apply expected_frames_mono.
  - rewrite (Z.min_r cam0_total) by lia. apply Z.min_r.
    apply expected_frames_mono; [done|lia].
Qed.

(** X1.  With a sampling interval N >= 1, the count [main] expects for a
    camera with [total] frames is 0 when total <= 0 and (total - 1) // N + 1
    otherwise; it never exceeds [total] and grows with it, so the expected
    number of stitched frames is the count for the shorter camera. *)
Theorem expected_counts (extractor : frame_extraction.FrameExtractor)
    (cam0_total cam1_total : Z) :
  1 <= frame_extraction.sampling_interval extractor ->
  main_expected.expected_frames extractor cam0_total =
    (if cam0_total <=? 0 then 0
     else (cam0_total - 1) / frame_extraction.sampling_interval extractor + 1) /\
  (0 <= cam0_total -> main_expected.expected_frames extractor cam0_total <= cam0_total) /\
  (cam0_total <= cam1_total ->
   main_expected.expected_frames extractor cam0_total
   <= main_expected.expected_frames extractor cam1_total) /\
  main_expected.expected_stitched extractor cam0_total cam1_total =
  main_expected.expected_frames extractor (Z.min cam0_total cam1_total).
Proof.
  intros HN.
  split; [by apply expected_frames_formula|].
  split.
  { intros Hpos. rewrite expected_frames_formula by done.
    destruct (Z.leb_spec cam0_total 0); [lia|].
    pose proof (Z.div_le_upper_bound (cam0_total - 1)
                  (frame_extraction.sampling_interval extractor) (cam0_total - 1)).
    nia. }
  split; [by apply expected_frames_mono|].
  by apply expected_stitched_min.
Qed.

Lemma expected_counts_witness :
  main_expected.expected_frames default_extractor 15000 = 150.
Proof.
  rewrite (proj1 (expected_counts default_extractor 15000 14200 ltac:(simpl; lia))).
  reflexivity.
Defined.


(** ** One pass over a segment *)

Section passes.
Import video_discovery multiprocess_extraction.
Context (w : cv2.World).

Lemma read_loop_due extractor task frames local acc :
  read_loop w extractor task frames false local acc =
  Return (acc ++ due_frames w extractor (output_dir task) (camera_id task) frames
                   (global_frame_offset task + local)).
Proof.
  revert local acc. induction frames as [|frame rest IH]; intros local acc; simpl.
  { by rewrite app_nil_r. }
  replace (global_frame_offset task + local + 1)
    with (global_frame_offset task + (local + 1)) by lia.
  destruct (frame_extraction.should_extract_frame _ _); [|by rewrite IH].
  destruct (frame_io.save_frame _ _ _ _ _ _); rewrite IH; [|done].
  by rewrite <- app_assoc.
Qed.

Lemma due_frames_numbers extractor dir camera frames before :
  StronglySorted Z.lt
    (global_frame_number <$> due_frames w extractor dir camera frames before) /\
  Forall (fun r => before < global_frame_number r <= before + Z.of_nat (length frames))
    (due_frames w extractor dir camera frames before).
Proof.
  revert before. induction frames as [|frame rest IH]; intros before.
  { split; constructor. }
  destruct (IH (before + 1)) as [Hsorted Hbounds].
  assert (Forall (fun r => before + 1 < global_frame_number r
                           <= before + Z.of_nat (length (frame :: rest)))
            (due_frames w extractor dir camera rest (before + 1))) as Hrest.
  { eapply Forall_impl; [exact Hbounds|]. intros r. simpl. lia. }
  cbn [due_frames].
  destruct (frame_extraction.should_extract_frame _ _);
    [destruct (frame_io.save_frame _ _ _ _ _ _)|]; simpl.
  - split.
    + constructor; [done|]. rewrite Forall_fmap.
      eapply Forall_impl; [exact Hrest|]. intros r. simpl. lia.
    + constructor; [simpl; lia|].
      eapply Forall_impl; [exact Hrest|]. intros r. simpl. lia.
  - split; [done|]. eapply Forall_impl; [exact Hrest|]. intros r. simpl. lia.
  - split; [done|]. eapply Forall_impl; [exact Hrest|]. intros r. simpl. lia.
Qed.

Lemma due_frames_all_saved extractor dir camera frames before :
  saves_succeed w ->
  Forall (fun frame => cv2.size frame <> 0) frames ->
  due_frames w extractor dir camera frames before =
  (fun g => {| global_frame_number := g;
               meta_camera_id := camera;
               meta_file_path := path_join dir (frame_io.frame_filename extractor g) |})
    <$> filter (fun g => frame_extraction.should_extract_frame extractor g = true)
          (seqZ (before + 1) (Z.of_nat (length frames))).
Proof.
  intros [Hmkdir Hwrite] Hsizes. revert before.
  induction Hsizes as [|frame rest Hsize _ IH]; intros before; [done|].
  cbn [due_frames length].
  rewrite IH, Nat2Z.inj_succ.
  rewrite (seqZ_cons (before + 1)) by lia.
  rewrite Z.pred_succ, <- Z.add_1_r, filter_cons.
  destruct (frame_extraction.should_extract_frame extractor (before + 1)) eqn:Hdue;
    case_decide; try done.
  unfold frame_io.save_frame.
  destruct (Z.eqb_spec (cv2.size frame) 0); [done|].
  by rewrite Hmkdir, Hwrite.
Qed.

Lemma init_accepted extractor_config camera dir seg offset :
  accepted_config extractor_config ->
  let task := {| segment := seg; camera_id := camera; output_dir := dir;
                 sampling_interval := cfg_sampling_interval extractor_config;
                 output_format := cfg_output_format extractor_config;
                 enable_overlay := cfg_enable_overlay extractor_config;
                 overlay_font_size := cfg_overlay_font_size extractor_config;
                 overlay_position := cfg_overlay_position extractor_config;
                 global_frame_offset := offset |} in
  frame_extraction.init (sampling_interval task) (output_format task)
    (enable_overlay task) (overlay_font_size task) (overlay_position task)
  = Return (extractor_of extractor_config).
Proof.
  intros [HN Hformat]. simpl. unfold frame_extraction.init.
  destruct (Z.ltb_spec (cfg_sampling_interval extractor_config) 1); [lia|].
  by rewrite bool_decide_eq_true_2.
Qed.

(** In any world a worker's numbers ascend strictly and stay within the
    frames its capture holds. *)
Lemma worker_numbers task :
  strictly_ascending (extract_segment_frames w task) /\
  forall bound,
    0 <= bound ->
    (forall cap, cv2.VideoCapture w (file_path (segment task)) = cv2.Opened cap ->
                 Z.of_nat (length (cv2.frames cap)) <= bound) ->
    Forall (fun r => global_frame_offset task < global_frame_number r
                     <= global_frame_offset task + bound)
      (extract_segment_frames w task).
Proof.
  unfold extract_segment_frames, segment_attempt, strictly_ascending.
  destruct (frame_extraction.init _ _ _ _ _) as [extractor|]; simpl;
    [|by split; [constructor|]].
  unfold frame_io._open_video.
  destruct (cv2.VideoCapture w (file_path (segment task))) as [cap| |];
    [|by split; [constructor|]..].
  destruct (cv2.read_raises cap).
  { rewrite read_loop_raises. by split; [constructor|]. }
  rewrite read_loop_due. simpl. rewrite Z.add_0_r.
  destruct (due_frames_numbers extractor (output_dir task) (camera_id task)
              (cv2.frames cap) (global_frame_offset task)) as [Hsorted Hbounds].
  split; [done|]. intros bound _ Hbound.
  eapply Forall_impl; [exact Hbounds|]. intros r. simpl.
  specialize (Hbound cap eq_refl). lia.
Qed.

End passes.


(** ** The tasks of a camera, in segment order *)

Lemma strict_keys_decide {A : Type} (key : A -> Z) (l : list A) (x y : A) :
  StronglySorted (key_lt key) l -> x ∈ l -> y ∈ l -> key x = key y -> x = y.
Proof.
  induction 1 as [|z l Hl IH Hz]; [by intros ?%elem_of_nil|].
  rewrite Forall_forall in Hz. unfold key_lt in Hz.
  intros [->|Hx]%elem_of_cons [->|Hy]%elem_of_cons Hkey; [done| | |by apply IH].
  - specialize (Hz _ Hy). lia.
  - specialize (Hz _ Hx). lia.
Qed.

Lemma strongly_sorted_weaken {A : Type} (R R' : relation A) (l : list A) :
  (forall x y, R x y -> R' x y) -> StronglySorted R l -> StronglySorted R' l.
Proof.
  intros Himpl. induction 1 as [|x l _ IH Hx]; constructor; [done|].
  eapply Forall_impl; [exact Hx|]. auto.
Qed.

(** A strictly ascending list is what any of its orders sorts to. *)
Lemma sorted_of_strict_perm {A : Type} (key : A -> Z) (l l' : list A) :
  l ≡ₚ l' -> StronglySorted (key_lt key) l' -> sorted_by_key key l = l'.
Proof.
  intros Hperm Hstrict.
  apply (StronglySorted_unique_strong (key_le key)).
  - intros x y Hx Hy Hxy Hyx. rewrite sorted_by_key_perm, Hperm in Hx.
    apply (strict_keys_decide key l'); [done..|]. unfold key_le in *. lia.
  - apply sorted_by_key_sorted.
  - eapply strongly_sorted_weaken; [|exact Hstrict].
    intros x y. unfold key_lt, key_le. lia.
  - by rewrite sorted_by_key_perm.
Qed.

Lemma strictly_ascending_keys (frames : list multiprocess_extraction.FrameMeta) :
  strictly_ascending frames <->
  StronglySorted (key_lt multiprocess_extraction.global_frame_number) frames.
Proof.
  unfold strictly_ascending. induction frames as [|r rest IH]; simpl.
  { split; constructor. }
  rewrite !StronglySorted_cons, IH, Forall_fmap. done.
Qed.

Lemma total_frames_cons seg (rest : list video_discovery.VideoSegment) :
  video_discovery.total_frames (seg :: rest) =
  video_discovery.frame_count seg + video_discovery.total_frames rest.
Proof. reflexivity. Qed.

Lemma total_frames_nonneg (segments : list video_discovery.VideoSegment) :
  (forall seg, seg ∈ segments -> 0 <= video_discovery.frame_count seg) ->
  0 <= video_discovery.total_frames segments.
Proof.
  unfold video_discovery.total_frames.
  induction segments as [|seg rest IH]; intros Hcounts; [done|].
  rewrite fmap_cons. cbn [foldr].
  pose proof (Hcounts seg ltac:(left)).
  assert (0 <= foldr Z.add 0 (video_discovery.frame_count <$> rest)); [|lia].
  apply IH. intros s Hs. apply Hcounts. by right.
Qed.

Section camera_results.
Import video_discovery multiprocess_extraction.
Context (w : cv2.World) (pool_fault : SegmentExtractionTask -> option exn).
Context (camera dir : string) (extractor_config : ExtractorConfig).

Lemma task_result_numbers task :
  strictly_ascending (task_result w pool_fault task) /\
  forall bound,
    0 <= bound ->
    (forall cap, cv2.VideoCapture w (file_path (segment task)) = cv2.Opened cap ->
                 Z.of_nat (length (cv2.frames cap)) <= bound) ->
    Forall (fun r => global_frame_offset task < global_frame_number r
                     <= global_frame_offset task + bound)
      (task_result w pool_fault task).
Proof.
  unfold task_result. destruct (pool_fault task); [|apply worker_numbers].
  split; [constructor|]. by intros.
Qed.

(** In segment order the records of a camera ascend strictly, within the
    frames the segments announce, when no file holds more frames than
    announced. *)
Lemma tasks_concat_numbers segments offset :
  (forall seg, seg ∈ segments -> 0 <= frame_count seg /\ decodes_at_most w seg) ->
  strictly_ascending
    (concat (task_result w pool_fault
               <$> make_tasks camera dir extractor_config segments offset)) /\
  Forall (fun r => offset < global_frame_number r <= offset + total_frames segments)
    (concat (task_result w pool_fault
               <$> make_tasks camera dir extractor_config segments offset)).
Proof.
  revert offset. induction segments as [|seg rest IH]; intros offset Hsegs.
  { split; constructor. }
  destruct (Hsegs seg ltac:(left)) as [Hcount Hmost].
  destruct (IH (offset + frame_count seg)) as [Hsorted Hbounds].
  { intros s Hs. apply Hsegs. by right. }
  pose proof (total_frames_nonneg rest) as Hrest.
  specialize (Hrest ltac:(intros s Hs; apply Hsegs; by right)).
  cbn [make_tasks fmap list_fmap concat].
  match goal with |- context [task_result w pool_fault ?t ++ _] => set (task := t) end.
  destruct (task_result_numbers task) as [Hhead Hhead_bounds].
  specialize (Hhead_bounds (frame_count seg) Hcount Hmost). simpl in Hhead_bounds.
  change (list_fmap _ _ (task_result w pool_fault)
            (make_tasks camera dir extractor_config rest (offset + frame_count seg)))
    with (task_result w pool_fault
            <$> make_tasks camera dir extractor_config rest (offset + frame_count seg)).
  rewrite Forall_forall in Hhead_bounds, Hbounds.
  split.
  - unfold strictly_ascending in *. rewrite fmap_app.
    apply StronglySorted_app_2; [|done..].
    intros g1 g2 (r1 & -> & Hr1)%list_elem_of_fmap (r2 & -> & Hr2)%list_elem_of_fmap.
    specialize (Hhead_bounds _ Hr1). specialize (Hbounds _ Hr2). lia.
  - apply Forall_app. rewrite total_frames_cons.
    split; apply Forall_forall; intros r Hr.
    + specialize (Hhead_bounds _ Hr). lia.
    + specialize (Hbounds _ Hr). lia.
Qed.

(** With exact announcements and no failure at all, they are the sampled
    numbers of the whole stream. *)
Lemma tasks_concat_exact segments offset :
  accepted_config extractor_config ->
  saves_succeed w ->
  (forall task, pool_fault task = None) ->
  (forall seg, seg ∈ segments -> decodes_exactly w seg) ->
  concat (task_result w pool_fault
            <$> make_tasks camera dir extractor_config segments offset) =
  meta_for camera dir (cfg_output_format extractor_config)
    <$> filter (fun g => frame_extraction.should_extract_frame
                           (extractor_of extractor_config) g = true)
          (seqZ (offset + 1) (total_frames segments)).
Proof.
  intros Hconfig Hsaves Hfault. revert offset.
  induction segments as [|seg rest IH]; intros offset Hsegs; [done|].
  destruct (Hsegs seg ltac:(left)) as (cap & Hopen & Hread & Hlength & Hsizes).
  assert (0 <= total_frames rest) as Hrest.
  { apply total_frames_nonneg. intros s Hs.
    destruct (Hsegs s ltac:(by right)) as (c & _ & _ & <- & _). lia. }
  cbn [make_tasks fmap list_fmap concat].
  change (list_fmap _ _ (task_result w pool_fault)
            (make_tasks camera dir extractor_config rest (offset + frame_count seg)))
    with (task_result w pool_fault
            <$> make_tasks camera dir extractor_config rest (offset + frame_count seg)).
  rewrite IH by (intros s Hs; apply Hsegs; by right).
  unfold task_result at 1. rewrite Hfault.
  unfold extract_segment_frames, segment_attempt.
  rewrite (init_accepted extractor_config camera dir seg offset Hconfig). simpl.
  unfold frame_io._open_video. rewrite Hopen, Hread, read_loop_due. simpl.
  rewrite Z.add_0_r, due_frames_all_saved, Hlength by done.
  rewrite total_frames_cons.
  rewrite (seqZ_app (offset + 1) (frame_count seg)) by lia.
  rewrite filter_app, fmap_app.
  replace (offset + 1 + frame_count seg) with (offset + frame_count seg + 1) by lia.
  done.
Qed.

End camera_results.


(** ** What [extract_all_frames] returns *)

Section returned_lists.
Import video_discovery multiprocess_extraction.
Context (w : cv2.World) (pool_fault : SegmentExtractionTask -> option exn).
Context (extraction_dirs : ExtractionDirs) (extractor_config : ExtractorConfig).

Lemma camera_part_of_tasks first_camera camera dir segments offset :
  concat (camera_part first_camera
            <$> futures_of w pool_fault
                  (make_tasks camera dir extractor_config segments offset)) =
  if Bool.eqb (String.eqb camera "cam0") first_camera
  then concat (task_result w pool_fault
                 <$> make_tasks camera dir extractor_config segments offset)
  else [].
Proof.
  revert offset. induction segments as [|seg rest IH]; intros offset.
  { by destruct (Bool.eqb _ _). }
  cbn [make_tasks]. unfold futures_of in *. rewrite !fmap_cons.
  cbn [concat]. rewrite IH.
  unfold camera_part at 1. unfold submit, task_result. simpl.
  destruct (Bool.eqb (String.eqb camera "cam0") first_camera);
    destruct (pool_fault _); done.
Qed.

Lemma camera_part_in_order first_camera cam0_segments cam1_segments :
  concat (camera_part first_camera
            <$> futures_of w pool_fault
                  (all_tasks extraction_dirs extractor_config cam0_segments cam1_segments)) =
  concat (task_result w pool_fault
            <$> tasks_of_camera extraction_dirs extractor_config first_camera
                  cam0_segments cam1_segments).
Proof.
  unfold all_tasks, futures_of, camera_tasks, tasks_of_camera.
  rewrite !fmap_app, concat_app.
  pose proof (camera_part_of_tasks first_camera "cam0" (cam0 extraction_dirs)) as H0.
  pose proof (camera_part_of_tasks first_camera "cam1" (cam1 extraction_dirs)) as H1.
  unfold futures_of in H0, H1. rewrite H0, H1.
  destruct first_camera; simpl; by rewrite ?app_nil_r.
Qed.

(** When the records of a camera ascend strictly in segment order, the
    list returned for it is their concatenation in that order, whatever the
    completion order. *)
Lemma returned_in_segment_order first_camera cam0_segments cam1_segments completed :
  completed ≡ₚ
    futures_of w pool_fault
      (all_tasks extraction_dirs extractor_config cam0_segments cam1_segments) ->
  strictly_ascending
    (concat (task_result w pool_fault
               <$> tasks_of_camera extraction_dirs extractor_config first_camera
                     cam0_segments cam1_segments)) ->
  sorted_by_key global_frame_number (concat (camera_part first_camera <$> completed)) =
  concat (task_result w pool_fault
            <$> tasks_of_camera extraction_dirs extractor_config first_camera
                  cam0_segments cam1_segments).
Proof.
  intros Hperm Hstrict. apply sorted_of_strict_perm.
  - rewrite <- camera_part_in_order. apply concat_perm. by rewrite Hperm.
  - by apply strictly_ascending_keys.
Qed.

End returned_lists.

(** Without any failure the two lists are the sampled numbers. *)
Lemma extract_all_frames_faultless
    (self : multiprocess_extraction.MultiprocessExtractor) (w : cv2.World)
    (pool : multiprocess_extraction.Pool)
    (cam0_segments cam1_segments : list video_discovery.VideoSegment)
    (extraction_dirs : multiprocess_extraction.ExtractionDirs)
    (extractor_config : multiprocess_extraction.ExtractorConfig) :
  0 < multiprocess_extraction.max_workers self ->
  accepted_config extractor_config ->
  saves_succeed w ->
  (forall futures, multiprocess_extraction.as_completed pool futures ≡ₚ futures) ->
  (forall task, multiprocess_extraction.fault pool task = None) ->
  (forall seg, seg ∈ cam0_segments ++ cam1_segments -> decodes_exactly w seg) ->
  let extractor := extractor_of extractor_config in
  multiprocess_extraction.extract_all_frames self w pool
    cam0_segments cam1_segments extraction_dirs extractor_config =
  Return (camera_meta extraction_dirs extractor_config true
            <$> sampled_numbers extractor (video_discovery.total_frames cam0_segments),
          camera_meta extraction_dirs extractor_config false
            <$> sampled_numbers extractor (video_discovery.total_frames cam1_segments)).
Proof.
  intros Hworkers Hconfig Hsaves Hperm Hfault Hsegs extractor.
  destruct pool as [pool_fault completion]. simpl in Hperm, Hfault.
  rewrite extract_all_frames_unfold.
  destruct (Z.leb_spec (multiprocess_extraction.max_workers self) 0); [lia|]. simpl.
  assert (forall (camera dir : string) segments,
            (forall seg, seg ∈ segments -> decodes_exactly w seg) ->
            concat (task_result w pool_fault
                      <$> multiprocess_extraction.camera_tasks camera dir extractor_config
                            segments) =
            meta_for camera dir
              (multiprocess_extraction.cfg_output_format extractor_config)
              <$> sampled_numbers extractor (video_discovery.total_frames segments))
    as Hexact.
  { intros camera dir segments Hdecode.
    unfold multiprocess_extraction.camera_tasks.
    rewrite tasks_concat_exact; try done.
    - unfold sampled_numbers. f_equal. f_equal. f_equal.
      unfold video_discovery.total_frames. apply sum_perm.
      by rewrite sorted_by_key_perm.
    - intros seg Hseg. rewrite sorted_by_key_perm in Hseg. by apply Hdecode. }
  assert (forall (f : Z -> multiprocess_extraction.FrameMeta) total,
            (forall g, multiprocess_extraction.global_frame_number (f g) = g) ->
            strictly_ascending (f <$> sampled_numbers extractor total)) as Hstrict.
  { intros f total Hf. unfold strictly_ascending.
    rewrite <- list_fmap_compose.
    rewrite (list_fmap_ext (multiprocess_extraction.global_frame_number ∘ f) id)
      by (intros; apply Hf).
    rewrite list_fmap_id.
    unfold sampled_numbers.
    destruct Hconfig as [HN _].
    destruct (Z.leb_spec total 0).
    { rewrite seqZ_nil by lia. constructor. }
    rewrite <- (Z2Nat.id total) by lia.
    rewrite (accepted_prefix extractor (Z.to_nat total) HN).
    generalize ((Z.of_nat (Z.to_nat total) - 1)
                / frame_extraction.sampling_interval extractor + 1).
    intros len. unfold seqZ.
    generalize (Z.to_nat len). intros n. generalize 0%nat at 1.
    induction n as [|n IH]; intros start; simpl; constructor; [apply IH|].
    rewrite !Forall_fmap. apply Forall_forall.
    intros k Hk%elem_of_seq. simpl.
    pose proof HN. unfold extractor, extractor_of in *. simpl in *. nia. }
  f_equal. f_equal.
  - rewrite (returned_in_segment_order w pool_fault extraction_dirs extractor_config
               true cam0_segments cam1_segments); unfold tasks_of_camera.
    + apply Hexact. intros seg Hseg. apply Hsegs, elem_of_app. by left.
    + apply Hperm.
    + rewrite Hexact by (intros seg Hseg; apply Hsegs, elem_of_app; by left).
      by apply Hstrict.
  - rewrite (returned_in_segment_order w pool_fault extraction_dirs extractor_config
               false cam0_segments cam1_segments); unfold tasks_of_camera.
    + apply Hexact. intros seg Hseg. apply Hsegs, elem_of_app. by right.
    + apply Hperm.
    + rewrite Hexact by (intros seg Hseg; apply Hsegs, elem_of_app; by right).
      by apply Hstrict.
Qed.

(** X2.  When the media library never fails (every segment opens and
    decodes exactly the frames it announces, every image is written), the
    pool loses no task and the configuration is one the extractor accepts,
    [extract_all_frames] returns for each camera exactly the records of the
    frame numbers sampled from 1..total, total being the camera's frame
    total, in ascending order, and as many as [main] expects. *)
Theorem faultless_extraction_is_the_sampling
    (self : multiprocess_extraction.MultiprocessExtractor) (w : cv2.World)
    (pool : multiprocess_extraction.Pool)
    (cam0_segments cam1_segments : list video_discovery.VideoSegment)
    (extraction_dirs : multiprocess_extraction.ExtractionDirs)
    (extractor_config : multiprocess_extraction.ExtractorConfig) :
  0 < multiprocess_extraction.max_workers self ->
  accepted_config extractor_config ->
  saves_succeed w ->
  (forall futures, multiprocess_extraction.as_completed pool futures ≡ₚ futures) ->
  (forall task, multiprocess_extraction.fault pool task = None) ->
  (forall seg, seg ∈ cam0_segments ++ cam1_segments -> decodes_exactly w seg) ->
  let extractor := extractor_of extractor_config in
  let cam0_total := video_discovery.total_frames cam0_segments in
  let cam1_total := video_discovery.total_frames cam1_segments in
  multiprocess_extraction.extract_all_frames self w pool
    cam0_segments cam1_segments extraction_dirs extractor_config =
  Return (camera_meta extraction_dirs extractor_config true
            <$> sampled_numbers extractor cam0_total,
          camera_meta extraction_dirs extractor_config false
            <$> sampled_numbers extractor cam1_total) /\
  Z.of_nat (length (sampled_numbers extractor cam0_total))
    = main_expected.expected_frames extractor cam0_total /\
  Z.of_nat (length (sampled_numbers extractor cam1_total))
    = main_expected.expected_frames extractor cam1_total.
Proof.
  intros Hworkers Hconfig Hsaves Hperm Hfault Hsegs extractor cam0_total cam1_total.
  split; [by apply extract_all_frames_faultless|].
  by unfold main_expected.expected_frames; rewrite !count_sampled_filter.
Qed.

Lemma faultless_extraction_is_the_sampling_witness :
  multiprocess_extraction.extract_all_frames
    {| multiprocess_extraction.max_workers := 6 |} example_world pool_reversed
    (three_segments "cam0") (three_segments "cam1") example_dirs example_config =
  Return (camera_meta example_dirs example_config true
            <$> sampled_numbers (extractor_of example_config)
                  (video_discovery.total_frames (three_segments "cam0")),
          camera_meta example_dirs example_config false
            <$> sampled_numbers (extractor_of example_config)
                  (video_discovery.total_frames (three_segments "cam1"))).
Proof.
  refine (proj1 (faultless_extraction_is_the_sampling
                   {| multiprocess_extraction.max_workers := 6 |} example_world
                   pool_reversed (three_segments "cam0") (three_segments "cam1")
                   example_dirs example_config _ _ _ _ _ _)).
  - simpl. lia.
  - split; [simpl; lia|]. vm_compute. left.
  - split; reflexivity.
  - intros futures. apply reverse_Permutation.
  - reflexivity.
  - intros seg Hseg. eexists. split; [reflexivity|]. split; [reflexivity|].
    cbn [cv2.frames]. split; [|by apply Forall_replicate].
    rewrite length_replicate.
    unfold three_segments in Hseg.
    repeat (apply elem_of_app in Hseg as [Hseg|Hseg]);
      repeat (apply elem_of_cons in Hseg as [->|Hseg]);
      solve [reflexivity | by apply elem_of_nil in Hseg].
Defined.

(** X3.  When every segment announces a frame count that is not negative
    and its file, if it opens at all, holds no more frames than announced,
    then whatever else fails (opening, decoding, writing, tasks lost by the
    pool) and in whatever order the tasks complete, the list
    [extract_all_frames] returns for a camera is the concatenation of its
    tasks' results in segment order, its global frame numbers ascend
    strictly, so none is repeated, and they lie between 1 and the camera's
    frame total. *)
Theorem extracted_numbers_never_repeat
    (self : multiprocess_extraction.MultiprocessExtractor) (w : cv2.World)
    (pool : multiprocess_extraction.Pool)
    (cam0_segments cam1_segments : list video_discovery.VideoSegment)
    (extraction_dirs : multiprocess_extraction.ExtractionDirs)
    (extractor_config : multiprocess_extraction.ExtractorConfig) :
  0 < multiprocess_extraction.max_workers self ->
  (forall futures, multiprocess_extraction.as_completed pool futures ≡ₚ futures) ->
  (forall seg, seg ∈ cam0_segments ++ cam1_segments ->
               0 <= video_discovery.frame_count seg /\ decodes_at_most w seg) ->
  let results first_camera :=
    concat (task_result w (multiprocess_extraction.fault pool)
              <$> tasks_of_camera extraction_dirs extractor_config first_camera
                    cam0_segments cam1_segments) in
  multiprocess_extraction.extract_all_frames self w pool
    cam0_segments cam1_segments extraction_dirs extractor_config =
  Return (results true, results false) /\
  strictly_ascending (results true) /\
  strictly_ascending (results false) /\
  Forall (fun r => 1 <= multiprocess_extraction.global_frame_number r
                   <= video_discovery.total_frames cam0_segments) (results true) /\
  Forall (fun r => 1 <= multiprocess_extraction.global_frame_number r
                   <= video_discovery.total_frames cam1_segments) (results false).
Proof.
  intros Hworkers Hperm Hsegs results.
  destruct pool as [pool_fault completion]. simpl in Hperm, results.
  assert (forall (camera dir : string) segments,
            (forall seg, seg ∈ segments ->
                         0 <= video_discovery.frame_count seg /\ decodes_at_most w seg) ->
            let frames :=
              concat (task_result w pool_fault
                        <$> multiprocess_extraction.camera_tasks camera dir
                              extractor_config segments) in
            strictly_ascending frames /\
            Forall (fun r => 1 <= multiprocess_extraction.global_frame_number r
                             <= video_discovery.total_frames segments) frames)
    as Hcamera.
  { intros camera dir segments Hcounts frames. subst frames.
    unfold multiprocess_extraction.camera_tasks.
    destruct (tasks_concat_numbers w pool_fault camera dir extractor_config
                (sorted_by_key video_discovery.segment_number segments) 0)
      as [Hsorted Hbounds].
    { intros seg Hseg. rewrite sorted_by_key_perm in Hseg. by apply Hcounts. }
    split; [done|].
    eapply Forall_impl; [exact Hbounds|]. intros r. simpl.
    replace (video_discovery.total_frames
               (sorted_by_key video_discovery.segment_number segments))
      with (video_discovery.total_frames segments); [lia|].
    unfold video_discovery.total_frames. apply sum_perm.
    by rewrite sorted_by_key_perm. }
  destruct (Hcamera "cam0" (multiprocess_extraction.cam0 extraction_dirs) cam0_segments)
    as [Hsorted0 Hbounds0].
  { intros seg Hseg. apply Hsegs, elem_of_app. by left. }
  destruct (Hcamera "cam1" (multiprocess_extraction.cam1 extraction_dirs) cam1_segments)
    as [Hsorted1 Hbounds1].
  { intros seg Hseg. apply Hsegs, elem_of_app. by right. }
  split; [|done].
  rewrite extract_all_frames_unfold.
  destruct (Z.leb_spec (multiprocess_extraction.max_workers self) 0); [lia|]. simpl.
  f_equal. f_equal.
  - by apply returned_in_segment_order.
  - by apply returned_in_segment_order.
Qed.

Lemma extracted_numbers_never_repeat_witness :
  let results first_camera :=
    concat (task_result world_with_unreadable_segment
              (multiprocess_extraction.fault pool_reversed)
              <$> tasks_of_camera example_dirs example_config first_camera
                    (three_segments "cam0") (three_segments "cam1")) in
  strictly_ascending (results true) /\ strictly_ascending (results false).
Proof.
  refine (let H := extracted_numbers_never_repeat
                     {| multiprocess_extraction.max_workers := 6 |}
                     world_with_unreadable_segment pool_reversed
                     (three_segments "cam0") (three_segments "cam1")
                     example_dirs example_config _ _ _ in
          conj (proj1 (proj2 H)) (proj1 (proj2 (proj2 H)))).
  - simpl. lia.
  - intros futures. apply reverse_Permutation.
  - intros seg Hseg.
    assert (video_discovery.frame_count seg = 100) as Hcount.
    { unfold three_segments in Hseg.
      repeat (apply elem_of_app in Hseg as [Hseg|Hseg]);
        repeat (apply elem_of_cons in Hseg as [->|Hseg]);
        solve [reflexivity | by apply elem_of_nil in Hseg]. }
    split; [lia|]. intros cap. rewrite Hcount.
    unfold world_with_unreadable_segment, example_world. cbn [cv2.VideoCapture].
    destruct (String.eqb _ _); [discriminate|].
    intros [= <-]. apply Z.leb_le. vm_compute. reflexivity.
Defined.

(** ** The sequential [extract_frames] *)

Lemma progress_numbers_app has_callback already n m total :
  progress_numbers has_callback already (n + m) total =
  progress_numbers has_callback already n total
  ++ progress_numbers has_callback (already + n) m total.
Proof.
  unfold progress_numbers. destruct has_callback; [|done].
  rewrite Nat2Z.inj_add, seqZ_app, fmap_app by lia. f_equal.
  rewrite (Z.add_comm 1), <- (fmap_add_seqZ (Z.of_nat n) 1), <- list_fmap_compose.
  apply list_fmap_ext. intros _ k _. simpl. f_equal. lia.
Qed.

Section sequential.
Import video_discovery frame_extraction frame_extraction_seq.
Context (w : cv2.World) (self : FrameExtractor) (dir camera : string).
Context (has_callback : bool) (total : Z).

Lemma frame_loop_spec segment frames read_raises state :
  frame_loop w self dir camera has_callback total segment frames read_raises state =
  let new :=
    main.to_extracted_frames
      (due_frames w self dir camera frames (global_frame_number_now state)) in
  {| global_frame_number_now :=
       global_frame_number_now state + Z.of_nat (length frames)
       + (if read_raises then frame_count segment else 0);
     extracted_frames := extracted_frames state ++ new;
     progress_calls :=
       progress_calls state
       ++ progress_numbers has_callback (length (extracted_frames state)) (length new)
            total |}.
Proof.
  revert state. induction frames as [|frame rest IH]; intros [g ex calls].
  { cbn. unfold progress_numbers. rewrite !app_nil_r.
    destruct read_raises, has_callback; cbn; rewrite ?app_nil_r; f_equal; lia. }
  cbn [frame_loop due_frames global_frame_number_now extracted_frames progress_calls].
  destruct (should_extract_frame self (g + 1));
    [destruct (frame_io.save_frame w self frame (g + 1) dir camera) as [path|]|];
    rewrite IH; cbn [global_frame_number_now extracted_frames progress_calls length app];
    unfold main.to_extracted_frames.
  - rewrite fmap_cons, <- !app_assoc. cbn [app length].
    rewrite (progress_numbers_app has_callback (length ex) 1), length_app. cbn [length].
    f_equal; [lia|].
    unfold progress_numbers at 2. destruct has_callback; [|done].
    rewrite <- app_assoc. do 2 f_equal.
    change (seqZ 1 (Z.of_nat 1)) with [1]. cbn. do 2 f_equal. lia.
  - f_equal. lia.
  - f_equal. lia.
Qed.

Lemma due_frames_records frames before :
  Forall (fun r =>
            should_extract_frame self (multiprocess_extraction.global_frame_number r) = true /\
            multiprocess_extraction.meta_camera_id r = camera /\
            multiprocess_extraction.meta_file_path r =
              path_join dir
                (frame_io.frame_filename self (multiprocess_extraction.global_frame_number r)))
    (due_frames w self dir camera frames before).
Proof.
  revert before. induction frames as [|frame rest IH]; intros before; [constructor|].
  cbn [due_frames].
  destruct (should_extract_frame self (before + 1)) eqn:Hdue; [|apply IH].
  destruct (frame_io.save_frame w self frame (before + 1) dir camera) as [path|] eqn:Hsave;
    [|apply IH].
  constructor; [|apply IH]. simpl.
  by rewrite (save_frame_path w self frame (before + 1) dir camera path Hsave).
Qed.

Lemma progress_numbers_none already :
  progress_numbers has_callback already 0 total = [].
Proof. unfold progress_numbers. by destruct has_callback. Qed.

(** What the loop over the segments adds to its variables. *)
Lemma sequential_fold_numbers segments state :
  (forall seg, seg ∈ segments -> 0 <= frame_count seg) ->
  let final :=
    fold_left (segment_pass w self dir camera has_callback total) segments state in
  exists new,
    extracted_frames final = extracted_frames state ++ new /\
    progress_calls final =
      progress_calls state
      ++ progress_numbers has_callback (length (extracted_frames state)) (length new)
           total /\
    global_frame_number_now state <= global_frame_number_now final /\
    StronglySorted Z.lt (global_frame_number <$> new) /\
    Forall (fun r =>
              global_frame_number_now state < global_frame_number r
                <= global_frame_number_now final /\
              should_extract_frame self (global_frame_number r) = true /\
              camera_id r = camera /\
              file_path r =
                path_join dir (frame_io.frame_filename self (global_frame_number r)))
      new.
Proof.
  revert state. induction segments as [|seg rest IH]; intros state Hcounts final.
  { exists []. subst final. simpl.
    rewrite !app_nil_r, progress_numbers_none, app_nil_r.
    repeat split; (lia || constructor). }
  pose proof (Hcounts seg ltac:(left)) as Hcount.
  subst final. cbn [fold_left].
  destruct (IH (segment_pass w self dir camera has_callback total state seg))
    as (new & Hframes & Hcalls & Hgrows & Hsorted & Hrecords).
  { intros s Hs. apply Hcounts. by right. }
  set (final := fold_left _ rest _) in *.
  assert (exists first,
            segment_pass w self dir camera has_callback total state seg =
            {| global_frame_number_now :=
                 global_frame_number_now
                   (segment_pass w self dir camera has_callback total state seg);
               extracted_frames := extracted_frames state ++ first;
               progress_calls :=
                 progress_calls state
                 ++ progress_numbers has_callback (length (extracted_frames state))
                      (length first) total |} /\
            global_frame_number_now state
              <= global_frame_number_now
                   (segment_pass w self dir camera has_callback total state seg) /\
            StronglySorted Z.lt (global_frame_number <$> first) /\
            Forall (fun r =>
                      global_frame_number_now state < global_frame_number r
                        <= global_frame_number_now
                             (segment_pass w self dir camera has_callback total state seg) /\
                      should_extract_frame self (global_frame_number r) = true /\
                      camera_id r = camera /\
                      file_path r =
                        path_join dir
                          (frame_io.frame_filename self (global_frame_number r)))
              first)
    as (first & Hpass & Hpass_grows & Hfirst_sorted & Hfirst).
  { unfold segment_pass.
    destruct (cv2.VideoCapture w (video_discovery.file_path seg)) as [cap| |].
    - rewrite frame_loop_spec. cbn zeta.
      cbn [global_frame_number_now extracted_frames progress_calls].
      eexists. split; [reflexivity|].
      destruct (due_frames_numbers w self dir camera (cv2.frames cap)
                  (global_frame_number_now state)) as [Hsorted' Hbounds].
      pose proof (due_frames_records (cv2.frames cap) (global_frame_number_now state))
        as Hrecs.
      assert (0 <= (if cv2.read_raises cap then frame_count seg else 0))
        by (destruct (cv2.read_raises cap); lia).
      split; [lia|]. unfold main.to_extracted_frames.
      split.
      + rewrite <- list_fmap_compose. exact Hsorted'.
      + rewrite Forall_fmap. rewrite Forall_forall in Hbounds, Hrecs.
        apply Forall_forall. intros r Hr. simpl.
        specialize (Hbounds r Hr). specialize (Hrecs r Hr). simpl in Hbounds.
        split; [lia|done].
    - exists []. simpl. rewrite !app_nil_r, progress_numbers_none, app_nil_r.
      repeat split; (lia || constructor).
    - exists []. simpl. rewrite !app_nil_r, progress_numbers_none, app_nil_r.
      repeat split; (lia || constructor). }
  set (middle := segment_pass w self dir camera has_callback total state seg) in *.
  rewrite Hpass in Hframes, Hcalls. cbn [extracted_frames progress_calls] in Hframes, Hcalls.
  exists (first ++ new).
  rewrite Hframes, Hcalls, !app_assoc, !length_app, progress_numbers_app, !app_assoc.
  rewrite Forall_forall in Hfirst, Hrecords.
  split; [done|]. split; [done|]. split; [lia|]. split.
  - rewrite fmap_app. apply StronglySorted_app_2; [|done..].
    intros g1 g2 (r1 & -> & Hr1)%list_elem_of_fmap (r2 & -> & Hr2)%list_elem_of_fmap.
    specialize (Hfirst _ Hr1). specialize (Hrecords _ Hr2). lia.
  - apply Forall_forall. intros r [Hr|Hr]%elem_of_app.
    + specialize (Hfirst _ Hr). split; [lia|tauto].
    + specialize (Hrecords _ Hr). split; [lia|tauto].
Qed.

End sequential.

(** X4.  Given at least one segment, a directory and a file system that
    accepts it, the sequential [extract_frames] returns, whatever the media
    library does, as long as no announced frame count is negative: its
    records ascend strictly by global frame number starting at 1 or above,
    each number is one the sampling accepts, each record carries the camera
    and the path frame_NNNN.<format> under the directory, and a progress
    callback is called once per record with the running count and the sum
    of the announced frame counts. *)
Theorem sequential_extraction_records
    (w : cv2.World) (disk : error_handling.Disk) (self : frame_extraction.FrameExtractor)
    (video_segments : list video_discovery.VideoSegment) (output_dir camera_id : string)
    (has_callback : bool) :
  video_segments <> [] ->
  error_handling.output_directory_fault disk output_dir = None ->
  (forall seg, seg ∈ video_segments -> 0 <= video_discovery.frame_count seg) ->
  exists frames,
    frame_extraction_seq.extract_frames w disk self video_segments (Some output_dir)
      camera_id has_callback =
    Value (frames,
           progress_numbers has_callback 0 (length frames)
             (video_discovery.total_frames video_segments)) /\
    StronglySorted Z.lt (frame_extraction.global_frame_number <$> frames) /\
    Forall (fun r =>
              1 <= frame_extraction.global_frame_number r /\
              frame_extraction.should_extract_frame self
                (frame_extraction.global_frame_number r) = true /\
              frame_extraction.camera_id r = camera_id /\
              frame_extraction.file_path r =
                path_join output_dir
                  (frame_io.frame_filename self (frame_extraction.global_frame_number r)))
      frames.
Proof.
  intros Hsome Hdisk Hcounts.
  unfold frame_extraction_seq.extract_frames, error_handling.validate_output_directory.
  destruct video_segments as [|seg rest] eqn:Hsegments; [done|]. rewrite <- Hsegments in *.
  rewrite Hdisk. cbn zeta.
  destruct (sequential_fold_numbers w self output_dir camera_id has_callback
              (video_discovery.total_frames video_segments) video_segments
              {| frame_extraction_seq.global_frame_number_now := 0;
                 frame_extraction_seq.extracted_frames := [];
                 frame_extraction_seq.progress_calls := [] |} Hcounts)
    as (new & Hframes & Hcalls & _ & Hsorted & Hrecords).
  simpl in Hframes, Hcalls.
  exists new. rewrite Hframes, Hcalls. split; [done|]. split; [done|].
  eapply Forall_impl; [exact Hrecords|]. intros r. simpl. intros (? & ? & ? & ?).
  repeat split; (lia || done).
Qed.

Lemma sequential_extraction_records_witness :
  exists frames,
    frame_extraction_seq.extract_frames world_with_unreadable_segment writable_disk
      default_extractor (three_segments "cam1") (Some "extracted_frames/cam1") "cam1" true =
    Value (frames, progress_numbers true 0 (length frames) 300) /\
    StronglySorted Z.lt (frame_extraction.global_frame_number <$> frames).
Proof.
  destruct (sequential_extraction_records world_with_unreadable_segment writable_disk
              default_extractor (three_segments "cam1") "extracted_frames/cam1" "cam1" true)
    as (frames & Hresult & Hsorted & _).
  - discriminate.
  - reflexivity.
  - intros seg Hseg. unfold three_segments in Hseg.
    repeat (apply elem_of_cons in Hseg as [->|Hseg]);
      solve [simpl; lia | by apply elem_of_nil in Hseg].
  - exists frames. split; [exact Hresult|exact Hsorted].
Defined.

Section two_paths.
Import video_discovery frame_extraction frame_extraction_seq.
Context (w : cv2.World) (extractor_config : multiprocess_extraction.ExtractorConfig).
Context (dir camera : string) (has_callback : bool) (total : Z).

Lemma announced_task_result seg offset :
  accepted_config extractor_config ->
  announced_or_unopened w seg ->
  multiprocess_extraction.extract_segment_frames w
    {| multiprocess_extraction.segment := seg;
       multiprocess_extraction.camera_id := camera;
       multiprocess_extraction.output_dir := dir;
       multiprocess_extraction.sampling_interval :=
         multiprocess_extraction.cfg_sampling_interval extractor_config;
       multiprocess_extraction.output_format :=
         multiprocess_extraction.cfg_output_format extractor_config;
       multiprocess_extraction.enable_overlay :=
         multiprocess_extraction.cfg_enable_overlay extractor_config;
       multiprocess_extraction.overlay_font_size :=
         multiprocess_extraction.cfg_overlay_font_size extractor_config;
       multiprocess_extraction.overlay_position :=
         multiprocess_extraction.cfg_overlay_position extractor_config;
       multiprocess_extraction.global_frame_offset := offset |} =
  match cv2.VideoCapture w (video_discovery.file_path seg) with
  | cv2.Opened cap =>
      due_frames w (extractor_of extractor_config) dir camera (cv2.frames cap) offset
  | cv2.NotOpened | cv2.OpenRaises => []
  end.
Proof.
  intros Hconfig Hseg.
  unfold multiprocess_extraction.extract_segment_frames,
    multiprocess_extraction.segment_attempt.
  rewrite (init_accepted extractor_config camera dir seg offset Hconfig). simpl.
  unfold frame_io._open_video, announced_or_unopened in *.
  destruct (cv2.VideoCapture w (video_discovery.file_path seg)) as [cap| |]; [|done..].
  destruct Hseg as [-> _]. rewrite read_loop_due. simpl. by rewrite Z.add_0_r.
Qed.

Lemma sequential_fold_agrees segments state :
  accepted_config extractor_config ->
  (forall seg, seg ∈ segments -> announced_or_unopened w seg) ->
  fold_left (segment_pass w (extractor_of extractor_config) dir camera has_callback total)
    segments state =
  let new :=
    main.to_extracted_frames
      (concat (multiprocess_extraction.extract_segment_frames w
                 <$> multiprocess_extraction.make_tasks camera dir extractor_config
                       segments (global_frame_number_now state))) in
  {| global_frame_number_now := global_frame_number_now state + total_frames segments;
     extracted_frames := extracted_frames state ++ new;
     progress_calls :=
       progress_calls state
       ++ progress_numbers has_callback (length (extracted_frames state)) (length new)
            total |}.
Proof.
  intros Hconfig. revert state.
  induction segments as [|seg rest IH]; intros [g ex calls] Hsegs.
  { cbn. rewrite !app_nil_r, progress_numbers_none, app_nil_r. f_equal. lia. }
  pose proof (Hsegs seg ltac:(left)) as Hseg.
  cbn [fold_left multiprocess_extraction.make_tasks]. rewrite fmap_cons.
  cbn [concat]. rewrite announced_task_result by done.
  rewrite IH by (intros s Hs; apply Hsegs; by right).
  rewrite total_frames_cons.
  unfold segment_pass, announced_or_unopened in *.
  cbn [global_frame_number_now extracted_frames progress_calls].
  unfold main.to_extracted_frames.
  destruct (cv2.VideoCapture w (video_discovery.file_path seg)) as [cap| |].
  - destruct Hseg as [Hread Hlength]. rewrite frame_loop_spec, Hread. cbn zeta.
    cbn [global_frame_number_now extracted_frames progress_calls].
    unfold main.to_extracted_frames.
    rewrite Hlength, Z.add_0_r, fmap_app, !length_app, progress_numbers_app, !app_assoc.
    f_equal. lia.
  - cbn [global_frame_number_now extracted_frames progress_calls app]. f_equal. lia.
  - cbn [global_frame_number_now extracted_frames progress_calls app]. f_equal. lia.
Qed.

End two_paths.

(** X5.  The sequential [extract_frames] and the workers of the
    multiprocess path agree: for segments already in segment order, each of
    which either does not open or decodes without error to exactly the
    frames it announces, a configuration the extractor accepts and a usable
    directory, [extract_frames] returns the records the tasks of
    [extract_all_frames] return for that camera, concatenated in task order
    and converted as [main] converts them. *)
Theorem sequential_and_parallel_paths_agree
    (w : cv2.World) (disk : error_handling.Disk)
    (extractor_config : multiprocess_extraction.ExtractorConfig)
    (video_segments : list video_discovery.VideoSegment) (output_dir camera_id : string)
    (has_callback : bool) :
  accepted_config extractor_config ->
  video_segments <> [] ->
  error_handling.output_directory_fault disk output_dir = None ->
  sorted_by_key video_discovery.segment_number video_segments = video_segments ->
  (forall seg, seg ∈ video_segments -> announced_or_unopened w seg) ->
  let frames :=
    main.to_extracted_frames
      (concat (multiprocess_extraction.extract_segment_frames w
                 <$> multiprocess_extraction.camera_tasks camera_id output_dir
                       extractor_config video_segments)) in
  frame_extraction_seq.extract_frames w disk (extractor_of extractor_config)
    video_segments (Some output_dir) camera_id has_callback =
  Value (frames,
         progress_numbers has_callback 0 (length frames)
           (video_discovery.total_frames video_segments)).
Proof.
  intros Hconfig Hsome Hdisk Hsorted Hsegs frames. subst frames.
  unfold frame_extraction_seq.extract_frames, error_handling.validate_output_directory,
    multiprocess_extraction.camera_tasks.
  rewrite Hsorted.
  destruct video_segments as [|seg rest] eqn:Hsegments; [done|]. rewrite <- Hsegments in *.
  rewrite Hdisk. cbn zeta.
  by rewrite sequential_fold_agrees.
Qed.

Lemma sequential_and_parallel_paths_agree_witness :
  frame_extraction_seq.extract_frames world_with_unreadable_segment writable_disk
    (extractor_of example_config) (three_segments "cam1") (Some "extracted_frames/cam1")
    "cam1" false =
  Value (main.to_extracted_frames
           (concat (multiprocess_extraction.extract_segment_frames
                      world_with_unreadable_segment
                      <$> multiprocess_extraction.camera_tasks "cam1"
                            "extracted_frames/cam1" example_config
                            (three_segments "cam1"))),
         []).
Proof.
  refine (sequential_and_parallel_paths_agree world_with_unreadable_segment writable_disk
            example_config (three_segments "cam1") "extracted_frames/cam1" "cam1" false
            _ _ _ _ _).
  - split; [simpl; lia|]. vm_compute. left.
  - discriminate.
  - reflexivity.
  - reflexivity.
  - intros seg Hseg. unfold three_segments in Hseg.
    repeat (apply elem_of_cons in Hseg as [->|Hseg]);
      try (by apply elem_of_nil in Hseg);
      unfold announced_or_unopened, world_with_unreadable_segment, example_world;
      cbn [cv2.VideoCapture video_discovery.file_path example_segment];
      (destruct (String.eqb _ _); [done|]);
      cbn [cv2.frames cv2.read_raises video_discovery.frame_count];
      by rewrite length_replicate.
Defined.

(** ** Stitching *)

(** X6.  The canvas [stitch_pair] builds is as wide as the wider image and
    as high as both together; each image lies within the canvas width,
    centred so that its right margin exceeds its left margin by at most one
    pixel, and the wider image has no margin; camera 0 starts at the top
    row and camera 1 right below it, ending at the bottom row. *)
Theorem stitched_canvas_geometry (cam0_size cam1_size : pil.Size) :
  let canvas := frame_stitching_io.stitched_canvas cam0_size cam1_size in
  let output_width := pil.width (pil.canvas_size canvas) in
  let output_height := pil.height (pil.canvas_size canvas) in
  let left0 := (pil.cam0_corner canvas).1 in
  let left1 := (pil.cam1_corner canvas).1 in
  let right0 := output_width - (left0 + pil.width cam0_size) in
  let right1 := output_width - (left1 + pil.width cam1_size) in
  output_width = Z.max (pil.width cam0_size) (pil.width cam1_size) /\
  (0 <= left0 /\ 0 <= right0 /\ 0 <= right0 - left0 <= 1) /\
  (0 <= left1 /\ 0 <= right1 /\ 0 <= right1 - left1 <= 1) /\
  (left0 = 0 /\ right0 = 0 \/ left1 = 0 /\ right1 = 0) /\
  (pil.cam0_corner canvas).2 = 0 /\
  (pil.cam1_corner canvas).2 = pil.height cam0_size /\
  output_height = (pil.cam1_corner canvas).2 + pil.height cam1_size.
Proof.
  destruct cam0_size as [w0 h0], cam1_size as [w1 h1]. cbn.
  pose proof (Z.div_mod (Z.max w0 w1 - w0) 2 ltac:(lia)) as Hd0.
  pose proof (Z.mod_pos_bound (Z.max w0 w1 - w0) 2 ltac:(lia)) as Hm0.
  pose proof (Z.div_mod (Z.max w0 w1 - w1) 2 ltac:(lia)) as Hd1.
  pose proof (Z.mod_pos_bound (Z.max w0 w1 - w1) 2 ltac:(lia)) as Hm1.
  assert (Z.max w0 w1 - w0 = 0 -> (Z.max w0 w1 - w0) / 2 = 0) as Hz0 by (by intros ->).
  assert (Z.max w0 w1 - w1 = 0 -> (Z.max w0 w1 - w1) / 2 = 0) as Hz1 by (by intros ->).
  lia.
Qed.

Lemma strongly_sorted_sublist {A : Type} (R : relation A) (l1 l2 : list A) :
  sublist l1 l2 -> StronglySorted R l2 -> StronglySorted R l1.
Proof.
  induction 1 as [|x l1 l2 Hsub IH|x l1 l2 Hsub IH]; intros Hsorted; [done|..].
  - apply StronglySorted_inv in Hsorted as [Hrest Hx].
    constructor; [by apply IH|].
    rewrite Forall_forall in Hx. apply Forall_forall. intros y Hy. apply Hx.
    eapply elem_of_submseteq; [exact Hy|]. by apply sublist_submseteq.
  - apply StronglySorted_inv in Hsorted as [Hrest _]. by apply IH.
Qed.

Lemma frame_map_size (frames : list frame_extraction.ExtractedFrame) :
  (size (dom (frame_stitching.frame_map frames)) <= length frames)%nat.
Proof.
  unfold frame_stitching.frame_map.
  assert (forall m : gmap Z frame_extraction.ExtractedFrame,
            (size (dom (fold_left
                          (fun m frame =>
                             <[frame_extraction.global_frame_number frame := frame]> m)
                          frames m))
             <= length frames + size (dom m))%nat) as Hfrom.
  { induction frames as [|frame rest IH]; intros m; simpl; [lia|].
    etrans; [apply IH|]. rewrite dom_insert_L, size_union_alt, size_singleton.
    assert (dom m ∖ {[frame_extraction.global_frame_number frame]} ⊆ dom m) as Hsub
      by apply subseteq_difference_l, reflexivity.
    apply subseteq_size in Hsub. lia. }
  specialize (Hfrom ∅). rewrite dom_empty_L, size_empty in Hfrom. lia.
Qed.

(** What [find_frame_pairs] returns: one pair per common number, in
    ascending order, each made of the frames the two maps hold. *)
Lemma find_frame_pairs_returns (cam0_frames cam1_frames : list frame_extraction.ExtractedFrame) :
  let cam0_map := frame_stitching.frame_map cam0_frames in
  let cam1_map := frame_stitching.frame_map cam1_frames in
  exists pairs,
    (frame_stitching.find_frame_pairs cam0_frames cam1_frames).2 = Return pairs /\
    (fun pair => frame_extraction.global_frame_number pair.1) <$> pairs
      = frame_stitching.common_frame_numbers cam0_map cam1_map /\
    Forall (fun pair =>
              cam0_map !! frame_extraction.global_frame_number pair.1 = Some pair.1 /\
              cam1_map !! frame_extraction.global_frame_number pair.1 = Some pair.2)
      pairs.
Proof.
  intros cam0_map cam1_map.
  destruct (sorted_elements (dom cam0_map ∩ dom cam1_map)) as [Hsorted Hmem].
  destruct (py_for_returns
              (fun num =>
                 f0 ← frame_stitching.py_get cam0_map num;
                 f1 ← frame_stitching.py_get cam1_map num;
                 Return (f0, f1))
              (fun num pair => cam0_map !! num = Some pair.1 /\ cam1_map !! num = Some pair.2)
              (frame_stitching.common_frame_numbers cam0_map cam1_map))
    as (pairs & Hpairs & Hall).
  { intros num [[f0 Hf0]%elem_of_dom [f1 Hf1]%elem_of_dom]%Hmem%elem_of_intersection.
    exists (f0, f1). unfold frame_stitching.py_get. by rewrite Hf0, Hf1. }
  assert ((fun pair => frame_extraction.global_frame_number pair.1) <$> pairs
          = frame_stitching.common_frame_numbers cam0_map cam1_map) as Hnumbers.
  { apply pair_numbers. eapply Forall2_impl; [exact Hall|].
    intros num pair [Hf0 _]. by apply frame_map_lookup in Hf0 as [_ ?]. }
  exists pairs. split; [exact Hpairs|]. split; [exact Hnumbers|].
  clear Hpairs Hnumbers Hsorted Hmem.
  induction Hall as [|num pair ? ? [Hf0 Hf1] _ IH]; constructor; [|done].
  pose proof (frame_map_lookup _ _ _ Hf0) as [_ Hnum]. by rewrite Hnum.
Qed.

Section stitching.
Import frame_stitching_io.
Context (store : pil.Store) (self : FrameStitcher) (output_dir : string).
Context (has_callback : bool) (total_pairs : Z).

(** What the loop adds: a record for some of the pairs, in their order,
    and for each record a call that tells the position of its pair. *)
Lemma stitch_loop_adds frame_pairs idx stitched_frames progress_calls :
  exists new calls,
    stitch_loop store self output_dir has_callback total_pairs frame_pairs idx
      stitched_frames progress_calls
    = (stitched_frames ++ new, progress_calls ++ calls) /\
    sublist (global_frame_number <$> new)
      ((fun pair => frame_extraction.global_frame_number pair.1) <$> frame_pairs) /\
    Forall (fun s => file_path s
                     = path_join output_dir (frame_filename self (global_frame_number s)))
      new /\
    if has_callback
    then Forall2 (fun s call =>
                    call.2 = total_pairs /\ idx < call.1 /\
                    ((fun pair => frame_extraction.global_frame_number pair.1)
                       <$> frame_pairs) !! Z.to_nat (call.1 - idx - 1)
                    = Some (global_frame_number s))
           new calls
    else calls = [].
Proof.
  revert idx stitched_frames progress_calls.
  induction frame_pairs as [|[cam0_frame cam1_frame] rest IH];
    intros idx stitched_frames progress_calls.
  { exists [], []. simpl. rewrite !app_nil_r.
    split; [done|]. split; [constructor|]. split; [constructor|].
    by destruct has_callback. }
  cbn [stitch_loop]. rewrite fmap_cons. cbn [fst].
  destruct (stitch_pair _ _ _ _ _ _).
  - match goal with |- context [stitch_loop _ _ _ _ _ _ _ ?s ?c] =>
      destruct (IH (idx + 1) s c) as (new & calls & -> & Hsub & Hpaths & Hcalls) end.
    eexists (_ :: new), (if has_callback then _ :: calls else []).
    split; [|split; [|split]].
    + rewrite <- app_assoc. destruct has_callback; [by rewrite <- app_assoc|].
      by rewrite Hcalls.
    + rewrite fmap_cons. simpl. by constructor.
    + by constructor.
    + destruct has_callback; [|done]. constructor.
      * simpl. replace (idx + 1 - idx - 1) with 0 by lia. split; [done|]. split; [lia|done].
      * eapply Forall2_impl; [exact Hcalls|]. intros s call (Htotal & Hidx & Hlookup).
        split; [done|]. split; [lia|].
        replace (Z.to_nat (call.1 - idx - 1)) with (S (Z.to_nat (call.1 - (idx + 1) - 1)))
          by lia.
        done.
  - destruct (IH (idx + 1) stitched_frames progress_calls)
      as (new & calls & -> & Hsub & Hpaths & Hcalls).
    exists new, calls. split; [done|]. split; [by constructor|]. split; [done|].
    destruct has_callback; [|done].
    eapply Forall2_impl; [exact Hcalls|]. intros s call (Htotal & Hidx & Hlookup).
    split; [done|]. split; [lia|].
    replace (Z.to_nat (call.1 - idx - 1)) with (S (Z.to_nat (call.1 - (idx + 1) - 1)))
      by lia.
    done.
Qed.

End stitching.

Lemma common_frame_numbers_length (cam0_frames cam1_frames : list frame_extraction.ExtractedFrame) :
  let numbers :=
    frame_stitching.common_frame_numbers (frame_stitching.frame_map cam0_frames)
      (frame_stitching.frame_map cam1_frames) in
  (length numbers <= length cam0_frames)%nat /\ (length numbers <= length cam1_frames)%nat.
Proof.
  intros numbers. subst numbers. unfold frame_stitching.common_frame_numbers.
  rewrite sorted_by_key_perm.
  change (length (elements ?X)) with (size X).
  pose proof (frame_map_size cam0_frames). pose proof (frame_map_size cam1_frames).
  pose proof (subseteq_size
                (dom (frame_stitching.frame_map cam0_frames)
                 ∩ dom (frame_stitching.frame_map cam1_frames))
                (dom (frame_stitching.frame_map cam0_frames))
                (intersection_subseteq_l _ _)).
  pose proof (subseteq_size
                (dom (frame_stitching.frame_map cam0_frames)
                 ∩ dom (frame_stitching.frame_map cam1_frames))
                (dom (frame_stitching.frame_map cam1_frames))
                (intersection_subseteq_r _ _)).
  lia.
Qed.

(** What [stitch_frames] returns once the output directory validates. *)
Lemma stitch_frames_returns
    (store : pil.Store) (disk : error_handling.Disk)
    (self : frame_stitching_io.FrameStitcher)
    (cam0_frames cam1_frames : list frame_extraction.ExtractedFrame)
    (output_dir : string) (has_callback : bool) :
  error_handling.output_directory_fault disk output_dir = None ->
  let numbers :=
    frame_stitching.common_frame_numbers (frame_stitching.frame_map cam0_frames)
      (frame_stitching.frame_map cam1_frames) in
  exists stitched calls,
    frame_stitching_io.stitch_frames store disk self cam0_frames cam1_frames output_dir
      has_callback = Value (stitched, calls) /\
    sublist (frame_stitching_io.global_frame_number <$> stitched) numbers /\
    StronglySorted Z.lt (frame_stitching_io.global_frame_number <$> stitched) /\
    Forall (fun s =>
              numbered cam0_frames (frame_stitching_io.global_frame_number s) /\
              numbered cam1_frames (frame_stitching_io.global_frame_number s) /\
              frame_stitching_io.file_path s =
                path_join output_dir
                  (frame_stitching_io.frame_filename self
                     (frame_stitching_io.global_frame_number s)))
      stitched /\
    (length stitched <= length cam0_frames)%nat /\
    (length stitched <= length cam1_frames)%nat /\
    if has_callback
    then Forall2 (fun s call =>
                    call.2 = Z.of_nat (length numbers) /\ 1 <= call.1 /\
                    numbers !! Z.to_nat (call.1 - 1)
                    = Some (frame_stitching_io.global_frame_number s))
           stitched calls
    else calls = [].
Proof.
  intros Hdisk numbers.
  unfold frame_stitching_io.stitch_frames, error_handling.validate_output_directory.
  rewrite Hdisk.
  destruct (find_frame_pairs_returns cam0_frames cam1_frames)
    as (pairs & -> & Hnumbers & _).
  fold numbers in Hnumbers. cbn zeta.
  destruct (stitch_loop_adds store self output_dir has_callback (Z.of_nat (length pairs))
              pairs 0 [] [])
    as (stitched & calls & -> & Hsub & Hpaths & Hcalls).
  rewrite Hnumbers in Hsub, Hcalls.
  assert (length pairs = length numbers) as Hlength
    by (by rewrite <- Hnumbers, length_fmap).
  destruct (sorted_elements
              (dom (frame_stitching.frame_map cam0_frames)
               ∩ dom (frame_stitching.frame_map cam1_frames))) as [Hsorted Hmem].
  fold (frame_stitching.common_frame_numbers (frame_stitching.frame_map cam0_frames)
          (frame_stitching.frame_map cam1_frames)) in Hsorted, Hmem.
  fold numbers in Hsorted, Hmem.
  destruct (common_frame_numbers_length cam0_frames cam1_frames) as [Hle0 Hle1].
  fold numbers in Hle0, Hle1.
  pose proof (sublist_length _ _ Hsub) as Hshort. rewrite length_fmap in Hshort.
  exists stitched, calls. simpl.
  split; [done|]. split; [done|].
  split; [by eapply strongly_sorted_sublist|].
  split; [|split; [lia|split; [lia|]]].
  - rewrite Forall_forall in Hpaths. apply Forall_forall. intros s Hs.
    assert (frame_stitching_io.global_frame_number s ∈ numbers) as Hin.
    { eapply elem_of_submseteq; [|by apply sublist_submseteq, Hsub].
      by apply list_elem_of_fmap_2. }
    apply Hmem, elem_of_intersection in Hin as [Hin0 Hin1].
    rewrite frame_map_dom in Hin0, Hin1. auto.
  - destruct has_callback; [|done].
    eapply Forall2_impl; [exact Hcalls|]. intros s call (Htotal & Hidx & Hlookup).
    rewrite Htotal, Hlength. split; [done|]. split; [lia|].
    by replace (call.1 - 1) with (call.1 - 0 - 1) by lia.
Qed.


(** ** From extraction to stitching *)

Lemma seqZ_sorted (m n : Z) : StronglySorted Z.lt (seqZ m n).
Proof.
  destruct (Z.leb_spec n 0) as [Hle|Hgt]; [rewrite seqZ_nil by lia; constructor|].
  rewrite <- (Z2Nat.id n) by lia. generalize (Z.to_nat n). clear. intros k. revert m.
  induction k as [|k IH]; intros m; [constructor|].
  rewrite seqZ_cons, Nat2Z.inj_succ, Z.pred_succ by lia.
  constructor; [apply IH|].
  apply Forall_forall. intros g Hg%elem_of_seqZ. lia.
Qed.

Lemma strictly_sorted_nodup (l : list Z) : StronglySorted Z.lt l -> NoDup l.
Proof.
  induction 1 as [|x l _ IH Hx]; constructor; [|done].
  intros Hin. rewrite Forall_forall in Hx. specialize (Hx x Hin). lia.
Qed.

(** Two strictly ascending lists with the same elements are equal. *)
Lemma strictly_sorted_ext (l1 l2 : list Z) :
  StronglySorted Z.lt l1 -> StronglySorted Z.lt l2 ->
  (forall g, g ∈ l1 <-> g ∈ l2) -> l1 = l2.
Proof.
  intros Hsorted1 Hsorted2 Hsame.
  apply (StronglySorted_unique_strong Z.lt); [|done..|].
  - intros x y _ _ ? ?. lia.
  - apply NoDup_Permutation; [by apply strictly_sorted_nodup..|done].
Qed.

Lemma sampled_numbers_elem extractor total g :
  g ∈ sampled_numbers extractor total <->
  1 <= g <= total /\ frame_extraction.should_extract_frame extractor g = true.
Proof.
  unfold sampled_numbers. rewrite list_elem_of_filter, elem_of_seqZ. intuition lia.
Qed.

Lemma sampled_numbers_sorted extractor total :
  StronglySorted Z.lt (sampled_numbers extractor total).
Proof.
  apply (strongly_sorted_sublist _ _ (seqZ 1 total)); [|apply seqZ_sorted].
  apply sublist_filter.
Qed.

Lemma numbered_sampled extraction_dirs extractor_config first_camera (numbers : list Z) g :
  numbered (main.to_extracted_frames
              (camera_meta extraction_dirs extractor_config first_camera <$> numbers)) g
  <-> g ∈ numbers.
Proof.
  unfold numbered, main.to_extracted_frames. rewrite <- list_fmap_compose. split.
  - intros (f & (n & -> & Hn)%list_elem_of_fmap & <-). done.
  - intros Hg. eexists. split; [by apply list_elem_of_fmap_2|done].
Qed.

(** When no image operation fails, every pair is stitched. *)
Lemma stitch_loop_all store self output_dir has_callback total_pairs frame_pairs idx
    stitched_frames progress_calls :
  images_never_fail store ->
  frame_stitching_io.global_frame_number
    <$> (frame_stitching_io.stitch_loop store self output_dir has_callback total_pairs
           frame_pairs idx stitched_frames progress_calls).1
  = (frame_stitching_io.global_frame_number <$> stitched_frames)
    ++ ((fun pair => frame_extraction.global_frame_number pair.1) <$> frame_pairs).
Proof.
  intros (Hopen & Hdraw & Hsave).
  revert idx stitched_frames progress_calls.
  induction frame_pairs as [|[cam0_frame cam1_frame] rest IH];
    intros idx stitched_frames progress_calls; simpl; [by rewrite app_nil_r|].
  unfold frame_stitching_io.stitch_pair.
  destruct (Hopen (frame_extraction.file_path cam0_frame)) as [size0 ->].
  destruct (Hopen (frame_extraction.file_path cam1_frame)) as [size1 ->].
  rewrite Hdraw, Hsave.
  destruct (_ && _); rewrite IH, fmap_app, <- app_assoc; done.
Qed.

(** X8.  A run in which nothing fails meets [main]'s expectations: with at
    least one segment per camera, a configuration the extractor accepts,
    segments that decode to exactly the frames they announce, images that
    are always written, loaded and stitched, a pool that loses no task and
    a usable stitching directory, the extracted counts are [expected_cam0]
    and [expected_cam1], the stitched count is [expected_stitched], and the
    stitched frame numbers are those sampled from 1..min(cam0_total,
    cam1_total). *)
Theorem faultless_run_meets_expectations
    (w : cv2.World) (pool : multiprocess_extraction.Pool) (store : pil.Store)
    (disk : error_handling.Disk)
    (cam0_segments cam1_segments : list video_discovery.VideoSegment)
    (extraction_dirs : multiprocess_extraction.ExtractionDirs)
    (extractor_config : multiprocess_extraction.ExtractorConfig)
    (stitcher : frame_stitching_io.FrameStitcher) (stitching_dir : string) :
  cam0_segments <> [] ->
  cam1_segments <> [] ->
  accepted_config extractor_config ->
  saves_succeed w ->
  (forall futures, multiprocess_extraction.as_completed pool futures ≡ₚ futures) ->
  (forall task, multiprocess_extraction.fault pool task = None) ->
  (forall seg, seg ∈ cam0_segments ++ cam1_segments -> decodes_exactly w seg) ->
  images_never_fail store ->
  error_handling.output_directory_fault disk stitching_dir = None ->
  let extractor := extractor_of extractor_config in
  let cam0_total := video_discovery.total_frames cam0_segments in
  let cam1_total := video_discovery.total_frames cam1_segments in
  main_stages.extract_then_stitch w pool store disk cam0_segments cam1_segments
    extraction_dirs extractor_config stitcher stitching_dir =
  main_stages.Completed
    (main_expected.expected_frames extractor cam0_total)
    (main_expected.expected_frames extractor cam1_total)
    (main_expected.expected_stitched extractor cam0_total cam1_total)
    (sampled_numbers extractor (Z.min cam0_total cam1_total)).
Proof.
  intros Hsome0 Hsome1 Hconfig Hsaves Hperm Hfault Hsegs Himages Hdisk
    extractor cam0_total cam1_total.
  assert (0 < Z.of_nat (length cam0_segments) + Z.of_nat (length cam1_segments))
    as Hworkers by (destruct cam0_segments; [done|simpl; lia]).
  unfold main_stages.extract_then_stitch.
  assert (main.extraction_stage w pool cam0_segments cam1_segments extraction_dirs
            extractor_config =
          main.Extracted
            (camera_meta extraction_dirs extractor_config true
               <$> sampled_numbers extractor cam0_total)
            (camera_meta extraction_dirs extractor_config false
               <$> sampled_numbers extractor cam1_total)) as ->.
  { unfold main.extraction_stage.
    rewrite extract_all_frames_faultless by done.
    by destruct cam0_segments, cam1_segments. }
  unfold frame_stitching_io.stitch_frames, error_handling.validate_output_directory.
  rewrite Hdisk.
  match goal with |- context [frame_stitching.find_frame_pairs ?c0 ?c1] =>
    destruct (find_frame_pairs_returns c0 c1) as (pairs & -> & Hnumbers & _) end.
  cbn zeta.
  match goal with |- context [frame_stitching_io.stitch_loop ?a ?b ?c ?d ?e ?f ?g ?h ?i] =>
    pose proof (stitch_loop_all a b c d e f g h i Himages) as Hall;
    destruct (frame_stitching_io.stitch_loop a b c d e f g h i) as [stitched calls] end.
  simpl in Hall. rewrite Hnumbers in Hall.
  assert (frame_stitching_io.global_frame_number <$> stitched
          = sampled_numbers extractor (Z.min cam0_total cam1_total)) as Hstitched.
  { rewrite Hall. apply strictly_sorted_ext.
    - apply sorted_elements.
    - apply sampled_numbers_sorted.
    - intros g. unfold frame_stitching.common_frame_numbers.
      rewrite (proj2 (sorted_elements _)), elem_of_intersection, !frame_map_dom,
        !numbered_sampled, !sampled_numbers_elem.
      intuition lia. }
  destruct Hconfig as [HN _].
  rewrite expected_stitched_min by done.
  unfold main_expected.expected_frames. rewrite !count_sampled_filter.
  fold (sampled_numbers extractor cam0_total) (sampled_numbers extractor cam1_total)
    (sampled_numbers extractor (Z.min cam0_total cam1_total)).
  by rewrite <- Hstitched, !length_fmap.
Qed.

Lemma faultless_run_meets_expectations_witness :
  main_stages.extract_then_stitch example_world pool_reversed example_store writable_disk
    (three_segments "cam0") (take 2 (three_segments "cam1")) example_dirs example_config
    example_stitcher "stitched_frames" =
  main_stages.Completed 3 2 2 [1; 101].
Proof.
  refine (faultless_run_meets_expectations example_world pool_reversed example_store
            writable_disk (three_segments "cam0") (take 2 (three_segments "cam1"))
            example_dirs example_config example_stitcher "stitched_frames"
            _ _ _ _ _ _ _ _ _).
  - discriminate.
  - discriminate.
  - split; [simpl; lia|]. vm_compute. left.
  - split; reflexivity.
  - intros futures. apply reverse_Permutation.
  - reflexivity.
  - intros seg Hseg. eexists. split; [reflexivity|]. split; [reflexivity|].
    cbn [cv2.frames]. split; [|by apply Forall_replicate].
    rewrite length_replicate.
    unfold three_segments in Hseg. cbn [take] in Hseg.
    repeat (apply elem_of_app in Hseg as [Hseg|Hseg]);
      repeat (apply elem_of_cons in Hseg as [->|Hseg]);
      solve [reflexivity | by apply elem_of_nil in Hseg].
  - split; [by eexists|]. split; reflexivity.
  - reflexivity.
Defined.

(** ** The configuration *)

Lemma Qgtb_spec (x y : Q) : Qgtb x y = true <-> (y < x)%Q.
Proof.
  unfold Qgtb. rewrite negb_true_iff, <- not_true_iff_false, Qle_bool_iff.
  split; [apply Qnot_le_lt|apply Qlt_not_le].
Qed.

Lemma threshold_check (threshold : floats.float) :
  floats.lt threshold (floats.Finite 0) || floats.gt threshold (floats.Finite 100) = false
  <-> passes_threshold_check threshold.
Proof.
  destruct threshold as [q|[|]|]; simpl; [|by split..|by split].
  unfold floats.gt. simpl. rewrite orb_false_iff, !Qltb_ge. done.
Qed.

(** X9.  [Config.__post_init__] accepts a configuration exactly when the
    sampling interval and the overlay font size are at least 1, the
    lower-cased output format is png, jpg or jpeg, the frame count threshold
    is not below 0 and not above 100, which a finite threshold within 0..100
    and a NaN both satisfy, and the overlay position is one of the four
    corners; otherwise it raises a ValueError.  An accepted configuration
    has output format png or jpg, is accepted again unchanged, lets [main]
    build its FrameExtractor and FrameStitcher without error, both with
    that output format, gives the workers a configuration they accept, and
    can only draw the two pattern errors from [validate_config]. *)
Theorem post_init_outcome (self : config.Config) :
  let conditions :=
    1 <= config.sampling_interval self /\
    lower (config.output_format self) ∈ config.valid_formats /\
    passes_threshold_check (config.frame_count_threshold self) /\
    config.overlay_position self ∈ config.valid_positions /\
    1 <= config.overlay_font_size self in
  match config.post_init self with
  | Raise e => ~ conditions /\ exists message, e = ValueError message
  | Return cfg =>
      conditions /\
      config.output_format cfg ∈ ["png"; "jpg"]%string /\
      config.post_init cfg = Return cfg /\
      accepted_config (main_setup.extractor_config cfg) /\
      (exists extractor,
         main_setup.extractor cfg = Return extractor /\
         frame_extraction.sampling_interval extractor = config.sampling_interval self /\
         frame_extraction.output_format extractor = config.output_format cfg) /\
      (exists stitcher,
         main_setup.stitcher cfg = Return stitcher /\
         frame_stitching_io.output_format stitcher = config.output_format cfg) /\
      config.validate_config cfg =
        (if config.is_blank (config.cam0_pattern self)
         then ["cam0_pattern cannot be empty"%string] else [])
        ++ (if config.is_blank (config.cam1_pattern self)
            then ["cam1_pattern cannot be empty"%string] else [])
  end.
Proof.
  intros conditions. subst conditions. unfold config.post_init.
  destruct (Z.ltb_spec (config.sampling_interval self) 1) as [Hsmall|HN].
  { split; [|by eexists]. intros (? & _). lia. }
  case_bool_decide as Hformat; cbn [negb]; [|split; [|by eexists]; by intros (_ & ? & _)].
  destruct (floats.lt (config.frame_count_threshold self) (floats.Finite 0)
            || floats.gt (config.frame_count_threshold self) (floats.Finite 100))
    eqn:Hcheck; cbn [negb].
  { split; [|by eexists]. intros (_ & _ & Hpasses & _).
    apply threshold_check in Hpasses. congruence. }
  pose proof (proj1 (threshold_check _) Hcheck) as Hpasses.
  case_bool_decide as Hposition; cbn [negb];
    [|split; [|by eexists]; by intros (_ & _ & _ & ? & _)].
  destruct (Z.ltb_spec (config.overlay_font_size self) 1) as [Hfont|Hfont].
  { split; [|by eexists]. intros (_ & _ & _ & _ & ?). lia. }
  split; [done|].
  unfold config.validate_config, main_setup.extractor, main_setup.stitcher,
    main_setup.extractor_config, accepted_config, frame_extraction.init,
    frame_stitching_io.init.
  cbn [config.sampling_interval config.output_format config.frame_count_threshold
       config.overlay_position config.overlay_font_size config.cam0_pattern
       config.cam1_pattern config.enable_frame_overlay
       multiprocess_extraction.cfg_sampling_interval
       multiprocess_extraction.cfg_output_format].
  destruct (Z.ltb_spec (config.sampling_interval self) 1); [lia|].
  destruct (Z.ltb_spec (config.overlay_font_size self) 1); [lia|].
  rewrite Hcheck.
  rewrite (bool_decide_eq_true_2 _ Hposition).
  unfold config.valid_formats in Hformat.
  assert (exists normalized,
            (if bool_decide (lower (config.output_format self) = "jpeg") then "jpg"%string
             else lower (config.output_format self)) = normalized /\
            (normalized = "png" \/ normalized = "jpg")%string)
    as (normalized & -> & Hnormalized).
  { apply elem_of_cons in Hformat as [->|Hformat]; [by eexists; split; [|left]|].
    apply elem_of_cons in Hformat as [->|Hformat]; [by eexists; split; [|right]|].
    apply elem_of_cons in Hformat as [->|Hformat]; [by eexists; split; [|right]|].
    by apply elem_of_nil in Hformat. }
  destruct Hnormalized as [-> | ->]; simpl; repeat split; eauto; vm_compute;
    by repeat constructor.
Qed.

(** ** Discovery *)

(** Sorting a list that is in order changes nothing. *)
Lemma sorted_by_key_fixed {A : Type} (key : A -> Z) (l : list A) :
  StronglySorted (key_le key) l -> sorted_by_key key l = l.
Proof.
  induction 1 as [|x l _ IH Hx]; [done|].
  cbn [sorted_by_key]. rewrite IH.
  destruct Hx as [|y l Hxy _]; [done|]. simpl.
  unfold key_le in Hxy. by destruct (Z.leb_spec (key x) (key y)); [|lia].
Qed.

Section discovery.
Import video_discovery video_discovery_io.
Context (w : cv2.World) (files : Files).

Lemma get_frame_count_positive video_path :
  0 < get_frame_count w files video_path ->
  (exists cap, cv2.VideoCapture w video_path = cv2.Opened cap) /\
  frame_count_property files video_path = Return (get_frame_count w files video_path).
Proof.
  unfold get_frame_count.
  destruct (cv2.VideoCapture w video_path) as [cap| |]; [|lia..].
  destruct (frame_count_property files video_path) as [count|]; [|lia].
  destruct (Z.ltb_spec 0 count); [|lia]. eauto.
Qed.

Lemma scan_segments camera paths :
  match scan w files camera paths with
  | Return segments =>
      forall seg,
        seg ∈ segments <->
        file_path seg ∈ paths /\
        is_file files (file_path seg) = Return true /\
        _extract_segment_number (name files (file_path seg))
          = Return (Some (segment_number seg)) /\
        frame_count seg = get_frame_count w files (file_path seg) /\
        0 < frame_count seg /\
        camera_id seg = camera
  | Raise fault =>
      exists video_path,
        video_path ∈ paths /\
        (is_file files video_path = Raise fault \/
         _extract_segment_number (name files video_path) = Raise fault)
  end.
Proof.
  induction paths as [|video_path rest IH]; cbn [scan].
  { intros seg. split; [by intros ?%elem_of_nil|]. by intros [?%elem_of_nil _]. }
  assert (forall segments : list VideoSegment,
            (forall seg,
               seg ∈ segments <->
               file_path seg ∈ rest /\
               is_file files (file_path seg) = Return true /\
               _extract_segment_number (name files (file_path seg))
                 = Return (Some (segment_number seg)) /\
               frame_count seg = get_frame_count w files (file_path seg) /\
               0 < frame_count seg /\
               camera_id seg = camera) ->
            ~ (is_file files video_path = Return true /\
               (exists number,
                  _extract_segment_number (name files video_path) = Return (Some number)) /\
               0 < get_frame_count w files video_path) ->
            forall seg,
              seg ∈ segments <->
              file_path seg ∈ video_path :: rest /\
              is_file files (file_path seg) = Return true /\
              _extract_segment_number (name files (file_path seg))
                = Return (Some (segment_number seg)) /\
              frame_count seg = get_frame_count w files (file_path seg) /\
              0 < frame_count seg /\
              camera_id seg = camera) as Hskip.
  { intros segments Hrest Hnot seg. rewrite Hrest, elem_of_cons. split; [tauto|].
    intros ([Hhere|?] & Hfile & Hnumber & Hcount & Hpos & Hcamera); [|tauto].
    destruct Hnot. rewrite <- Hhere. split; [done|]. split; [by eauto|]. lia. }
  assert (forall fault,
            (exists later,
               later ∈ rest /\
               (is_file files later = Raise fault \/
                _extract_segment_number (name files later) = Raise fault)) ->
            exists later,
              later ∈ video_path :: rest /\
              (is_file files later = Raise fault \/
               _extract_segment_number (name files later) = Raise fault)) as Hlater.
  { intros fault (later & Hin & Hfault). exists later. split; [by right|done]. }
  destruct (is_file files video_path) as [[|]|fault] eqn:Hfile; simpl.
  - destruct (_extract_segment_number (name files video_path)) as [[number|]|fault]
      eqn:Hnumber; simpl.
    + destruct (Z.ltb_spec 0 (get_frame_count w files video_path)) as [Hpos|Hzero].
      * destruct (scan w files camera rest) as [segments|fault]; simpl; [|by apply Hlater].
        intros seg. rewrite elem_of_cons, IH, elem_of_cons. split.
        -- intros [->|?]; [|tauto]. simpl. rewrite Hfile, Hnumber.
           split; [by left|]. by repeat split.
        -- intros ([Hhere|?] & Hfile' & Hnumber' & Hcount & ? & Hcamera);
             [|right; by repeat split].
           left. destruct seg as [c n p f]. simpl in *. subst. congruence.
      * destruct (scan w files camera rest) as [segments|fault]; [|by apply Hlater].
        apply Hskip; [done|]. intros (_ & _ & ?). lia.
    + destruct (scan w files camera rest) as [segments|fault]; [|by apply Hlater].
      apply Hskip; [done|]. by intros (_ & [number ?] & _).
    + exists video_path. split; [by left|by right].
  - destruct (scan w files camera rest) as [segments|fault]; [|by apply Hlater].
    apply Hskip; [done|]. by intros (? & _).
  - exists video_path. split; [by left|by left].
Qed.

End discovery.

(** X10.  For plain file names, [discover_videos] raises an
    InputDirectoryError exactly when the input directory is missing, is not
    a directory or cannot be listed.  Any other exception it raises was
    raised by [exists] or [is_dir] on the input directory, by [glob] on one
    of the patterns, by [is_file] on a globbed path or by [int] on the
    digits of its name: none of them is caught.  When it returns, each of
    the two lists is in ascending order of segment number, so that sorting
    it again changes nothing; it holds a segment for exactly those globbed
    paths that are files, whose name carries a number and whose video opens
    with a positive frame count in its metadata; each segment carries that
    number, that count and its camera's id. *)
Theorem discovered_segments (w : cv2.World) (files : video_discovery_io.Files)
    (input_dir cam0_pattern cam1_pattern : string)
    (Hplain : forall pattern paths,
       pattern ∈ [cam0_pattern; cam1_pattern] ->
       video_discovery_io.glob files input_dir pattern = Return paths ->
       Forall (fun video_path =>
                 video_discovery_io.plain_name (video_discovery_io.name files video_path))
         paths) :
  let usable :=
    video_discovery_io.path_exists files input_dir = Return true /\
    video_discovery_io.is_dir files input_dir = Return true /\
    video_discovery_io.iterdir files input_dir = video_discovery_io.Listed in
  let unusable :=
    video_discovery_io.path_exists files input_dir = Return false \/
    (video_discovery_io.path_exists files input_dir = Return true /\
     video_discovery_io.is_dir files input_dir = Return false) \/
    (video_discovery_io.path_exists files input_dir = Return true /\
     video_discovery_io.is_dir files input_dir = Return true /\
     video_discovery_io.iterdir files input_dir <> video_discovery_io.Listed) in
  let not_caught fault :=
    video_discovery_io.path_exists files input_dir = Raise fault \/
    video_discovery_io.is_dir files input_dir = Raise fault \/
    exists pattern,
      pattern ∈ [cam0_pattern; cam1_pattern] /\
      (video_discovery_io.glob files input_dir pattern = Raise fault \/
       exists paths video_path,
         video_discovery_io.glob files input_dir pattern = Return paths /\
         video_path ∈ paths /\
         (video_discovery_io.is_file files video_path = Raise fault \/
          video_discovery_io._extract_segment_number
            (video_discovery_io.name files video_path) = Raise fault)) in
  let found camera pattern (segments : list video_discovery.VideoSegment) :=
    sorted_by_key video_discovery.segment_number segments = segments /\
    StronglySorted Z.le (video_discovery.segment_number <$> segments) /\
    exists paths,
      video_discovery_io.glob files input_dir pattern = Return paths /\
      forall seg,
        seg ∈ segments <->
        video_discovery.file_path seg ∈ paths /\
        video_discovery_io.is_file files (video_discovery.file_path seg) = Return true /\
        video_discovery_io._extract_segment_number
          (video_discovery_io.name files (video_discovery.file_path seg))
          = Return (Some (video_discovery.segment_number seg)) /\
        (exists cap, cv2.VideoCapture w (video_discovery.file_path seg) = cv2.Opened cap) /\
        video_discovery_io.frame_count_property files (video_discovery.file_path seg)
          = Return (video_discovery.frame_count seg) /\
        0 < video_discovery.frame_count seg /\
        video_discovery.camera_id seg = camera in
  ((exists reason,
      video_discovery_io.discover_videos w files input_dir cam0_pattern cam1_pattern
      = Raised (InputDirectoryError reason)) <-> unusable) /\
  match video_discovery_io.discover_videos w files input_dir cam0_pattern cam1_pattern with
  | Raised e =>
      (unusable /\ exists reason, e = InputDirectoryError reason) \/
      (exists fault, e = Py fault /\ not_caught fault)
  | Value (cam0_segments, cam1_segments) =>
      usable /\
      found "cam0"%string cam0_pattern cam0_segments /\
      found "cam1"%string cam1_pattern cam1_segments
  end.
Proof.
  intros usable unusable not_caught found. clear Hplain.
  assert (forall camera pattern,
            pattern ∈ [cam0_pattern; cam1_pattern] ->
            match video_discovery_io.discover_camera w files camera input_dir pattern with
            | Return segments =>
                found camera pattern
                  (sorted_by_key video_discovery.segment_number segments)
            | Raise fault => not_caught fault
            end) as Hcamera.
  { intros camera pattern Hpattern. unfold video_discovery_io.discover_camera.
    destruct (video_discovery_io.glob files input_dir pattern) as [paths|fault] eqn:Hglob;
      simpl.
    2:{ right. right. exists pattern. split; [done|]. by left. }
    pose proof (scan_segments w files camera paths) as Hscan.
    destruct (video_discovery_io.scan w files camera paths) as [segments|fault].
    2:{ destruct Hscan as (video_path & Hin & Hfault).
        right. right. exists pattern. split; [done|]. right. by exists paths, video_path. }
    subst found. cbn beta.
    split; [apply sorted_by_key_fixed, sorted_by_key_sorted|].
    split; [apply sorted_keys_ascending, sorted_by_key_sorted|].
    exists paths. split; [done|].
    intros seg. rewrite sorted_by_key_perm, Hscan. split.
    - intros (Hpath & Hfile & Hnumber & Hcount & Hpos & Hcam).
      destruct (get_frame_count_positive w files (video_discovery.file_path seg))
        as [Hopen Hmeta]; [lia|].
      rewrite <- Hcount in Hmeta. done.
    - intros (Hpath & Hfile & Hnumber & [cap Hopen] & Hmeta & Hpos & Hcam).
      repeat split; try done.
      unfold video_discovery_io.get_frame_count. rewrite Hopen, Hmeta.
      by destruct (Z.ltb_spec 0 (video_discovery.frame_count seg)); [|lia]. }
  assert (cam0_pattern ∈ [cam0_pattern; cam1_pattern]) as Hin0 by (by left).
  assert (cam1_pattern ∈ [cam0_pattern; cam1_pattern]) as Hin1 by (right; by left).
  pose proof (Hcamera "cam0"%string cam0_pattern Hin0) as Hcam0.
  pose proof (Hcamera "cam1"%string cam1_pattern Hin1) as Hcam1.
  subst usable unusable not_caught. cbn beta.
  unfold video_discovery_io.discover_videos, video_discovery_io.validate_input_directory.
  destruct (video_discovery_io.path_exists files input_dir) as [[|]|fault].
  - destruct (video_discovery_io.is_dir files input_dir) as [[|]|fault].
    + destruct (video_discovery_io.iterdir files input_dir) eqn:Hlisting.
      * destruct (video_discovery_io.discover_camera w files "cam0" input_dir cam0_pattern)
          as [cam0_found|fault].
        -- destruct (video_discovery_io.discover_camera w files "cam1" input_dir
                       cam1_pattern) as [cam1_found|fault].
           ++ split; [|done]. split; [by intros [? ?]|].
              intros [?|[[_ ?]|(_ & _ & ?)]]; done.
           ++ split; [|right; by exists fault]. split; [by intros [? ?]|].
              intros [?|[[_ ?]|(_ & _ & ?)]]; done.
        -- split; [|right; by exists fault]. split; [by intros [? ?]|].
           intros [?|[[_ ?]|(_ & _ & ?)]]; done.
      * split; [split; [|by eauto]; intros _; right; right; by repeat split|].
        left. split; [|by eauto]. right. right. by repeat split.
      * split; [split; [|by eauto]; intros _; right; right; by repeat split|].
        left. split; [|by eauto]. right. right. by repeat split.
    + split; [split; [|by eauto]; intros _; right; left; by split|].
      left. split; [|by eauto]. right. left. by split.
    + split; [|right; exists fault; split; [done|]; right; by left].
      split; [by intros [? ?]|]. intros [?|[[_ ?]|(_ & ? & _)]]; done.
  - split; [split; [|by eauto]; intros _; by left|].
    left. split; [by left|by eauto].
  - split; [|right; exists fault; split; [done|]; by left].
    split; [by intros [? ?]|]. intros [?|[[? _]|(? & _)]]; done.
Qed.

Lemma discovered_segments_witness :
  video_discovery_io.discover_videos example_world example_files "segments"
    "stereo_cam0_sbs_*.mp4" "stereo_cam1_sbs_*.mp4"
  = Value ([ example_segment "cam0" "segments/stereo_cam0_sbs_0001.mp4" 1 100;
             example_segment "cam0" "segments/stereo_cam0_sbs_0002.mp4" 2 100 ],
           [ example_segment "cam1" "segments/stereo_cam1_sbs_0001.mp4" 1 100 ]) /\
  ((exists reason,
      video_discovery_io.discover_videos example_world example_files "segments"
        "stereo_cam0_sbs_*.mp4" "stereo_cam1_sbs_*.mp4"
      = Raised (InputDirectoryError reason)) <->
   video_discovery_io.path_exists example_files "segments" = Return false \/
   (video_discovery_io.path_exists example_files "segments" = Return true /\
    video_discovery_io.is_dir example_files "segments" = Return false) \/
   (video_discovery_io.path_exists example_files "segments" = Return true /\
    video_discovery_io.is_dir example_files "segments" = Return true /\
    video_discovery_io.iterdir example_files "segments" <> video_discovery_io.Listed)).
Proof.
  assert (forall pattern paths,
            pattern ∈ ["stereo_cam0_sbs_*.mp4"; "stereo_cam1_sbs_*.mp4"]%string ->
            video_discovery_io.glob example_files "segments" pattern = Return paths ->
            Forall (fun video_path =>
                      video_discovery_io.plain_name
                        (video_discovery_io.name example_files video_path))
              paths) as Hplain.
  { intros pattern paths Hpattern Hglob.
    repeat (apply elem_of_cons in Hpattern as [->|Hpattern];
            [injection Hglob as <-; repeat (constructor; [vm_compute; reflexivity|]);
             constructor|]).
    by apply elem_of_nil in Hpattern. }
  split; [vm_compute; reflexivity|].
  exact (proj1 (discovered_segments example_world example_files "segments"
                  "stereo_cam0_sbs_*.mp4" "stereo_cam1_sbs_*.mp4" Hplain)).
Defined.

Lemma segment_numbers_elem (segments : list video_discovery.VideoSegment) (number : Z) :
  number ∈ video_discovery_io.segment_numbers segments <-> has_segment segments number.
Proof.
  unfold video_discovery_io.segment_numbers, has_segment.
  rewrite elem_of_list_to_set, list_elem_of_fmap. split.
  - intros (seg & -> & Hseg). by exists seg.
  - intros (seg & Hseg & <-). by exists seg.
Qed.

(** X11.  [validate_segment_pairing] warns about a segment number for cam0
    exactly when some cam0 segment and no cam1 segment carries it, and the
    other way round; no warning is repeated; the cam0 warnings come first,
    each group in ascending order of segment number; there is no warning
    exactly when both cameras have the same segment numbers; and the result
    does not depend on the order of either list. *)
Theorem pairing_warnings (cam0_segments cam1_segments : list video_discovery.VideoSegment) :
  let warnings :=
    video_discovery_io.validate_segment_pairing cam0_segments cam1_segments in
  (forall number,
     video_discovery_io.OnlyCam0 number ∈ warnings <->
     has_segment cam0_segments number /\ ~ has_segment cam1_segments number) /\
  (forall number,
     video_discovery_io.OnlyCam1 number ∈ warnings <->
     has_segment cam1_segments number /\ ~ has_segment cam0_segments number) /\
  NoDup warnings /\
  (exists only0 only1,
     warnings = (video_discovery_io.OnlyCam0 <$> only0)
                ++ (video_discovery_io.OnlyCam1 <$> only1) /\
     StronglySorted Z.lt only0 /\ StronglySorted Z.lt only1) /\
  (warnings = [] <->
   forall number, has_segment cam0_segments number <-> has_segment cam1_segments number) /\
  (forall cam0_segments' cam1_segments',
     cam0_segments' ≡ₚ cam0_segments -> cam1_segments' ≡ₚ cam1_segments ->
     video_discovery_io.validate_segment_pairing cam0_segments' cam1_segments' = warnings).
Proof.
  intros warnings. subst warnings. unfold video_discovery_io.validate_segment_pairing.
  set (numbers0 := video_discovery_io.segment_numbers cam0_segments).
  set (numbers1 := video_discovery_io.segment_numbers cam1_segments).
  destruct (sorted_elements (numbers0 ∖ numbers1)) as [Hsorted0 Hmem0].
  destruct (sorted_elements (numbers1 ∖ numbers0)) as [Hsorted1 Hmem1].
  assert (forall number, number ∈ numbers0 ∖ numbers1 <->
            has_segment cam0_segments number /\ ~ has_segment cam1_segments number)
    as Hdiff0
    by (intros; subst numbers0 numbers1;
        by rewrite elem_of_difference, !segment_numbers_elem).
  assert (forall number, number ∈ numbers1 ∖ numbers0 <->
            has_segment cam1_segments number /\ ~ has_segment cam0_segments number)
    as Hdiff1
    by (intros; subst numbers0 numbers1;
        by rewrite elem_of_difference, !segment_numbers_elem).
  split; [|split; [|split; [|split; [|split]]]].
  - intros number. rewrite elem_of_app, !list_elem_of_fmap, <- Hdiff0, <- Hmem0.
    split; [|by eauto]. intros [(n & [= ->] & ?)|(n & ? & _)]; done.
  - intros number. rewrite elem_of_app, !list_elem_of_fmap, <- Hdiff1, <- Hmem1.
    split; [|by eauto]. intros [(n & ? & _)|(n & [= ->] & ?)]; done.
  - apply NoDup_app. split; [|split].
    + apply NoDup_fmap_2; [by intros ? ? [= ?]|]. by apply strictly_sorted_nodup.
    + intros warning (n & -> & _)%list_elem_of_fmap (m & ? & _)%list_elem_of_fmap. done.
    + apply NoDup_fmap_2; [by intros ? ? [= ?]|]. by apply strictly_sorted_nodup.
  - by eexists _, _.
  - split.
    + intros [Hnone0 Hnone1]%app_eq_nil.
      apply fmap_nil_inv in Hnone0, Hnone1.
      intros number.
      pose proof (Hmem0 number) as H0. pose proof (Hmem1 number) as H1.
      rewrite Hnone0, Hdiff0 in H0. rewrite Hnone1, Hdiff1 in H1.
      rewrite elem_of_nil in H0, H1.
      destruct (decide (number ∈ numbers0)) as [Hin0|Hout0],
               (decide (number ∈ numbers1)) as [Hin1|Hout1];
        subst numbers0 numbers1; rewrite segment_numbers_elem in *; tauto.
    + intros Hsame.
      assert (numbers0 ∖ numbers1 = ∅) as ->.
      { apply leibniz_equiv, elem_of_equiv_empty. intros number.
        rewrite Hdiff0, Hsame. tauto. }
      assert (numbers1 ∖ numbers0 = ∅) as ->.
      { apply leibniz_equiv, elem_of_equiv_empty. intros number.
        rewrite Hdiff1, Hsame. tauto. }
      by rewrite elements_empty.
  - intros cam0_segments' cam1_segments' Hperm0 Hperm1.
    assert (video_discovery_io.segment_numbers cam0_segments' = numbers0) as ->.
    { subst numbers0. apply leibniz_equiv. intros number.
      rewrite !segment_numbers_elem. unfold has_segment. by setoid_rewrite Hperm0. }
    assert (video_discovery_io.segment_numbers cam1_segments' = numbers1) as ->.
    { subst numbers1. apply leibniz_equiv. intros number.
      rewrite !segment_numbers_elem. unfold has_segment. by setoid_rewrite Hperm1. }
    done.
Qed.

(** X12.  For totals that are not negative, the difference
    [validate_frame_count_difference] reports lies between 0 and the larger
    total and the percentage between 0 and 100; the result is the same with
    the two cameras exchanged; a threshold of 100 or more is never
    exceeded, equal totals exceed no threshold that is not negative, and an
    empty camera beside a non-empty one gives exactly 100 percent. *)
Theorem frame_count_difference_bounds (cam0_total cam1_total : Z) (threshold_percent : Q) :
  0 <= cam0_total -> 0 <= cam1_total ->
  let result :=
    video_discovery.validate_frame_count_difference cam0_total cam1_total
      threshold_percent in
  (0 <= result.1.2 <= 100)%Q /\
  0 <= result.2 <= Z.max cam0_total cam1_total /\
  video_discovery.validate_frame_count_difference cam1_total cam0_total threshold_percent
    = result /\
  ((100 <= threshold_percent)%Q -> result.1.1 = false) /\
  (cam0_total = cam1_total -> (0 <= threshold_percent)%Q ->
   result.1.1 = false /\ (result.1.2 == 0)%Q) /\
  ((cam0_total = 0 /\ 0 < cam1_total) \/ (cam1_total = 0 /\ 0 < cam0_total) ->
   (result.1.2 == 100)%Q).
Proof.
  intros H0 H1 result. subst result.
  assert (video_discovery.validate_frame_count_difference cam1_total cam0_total
            threshold_percent
          = video_discovery.validate_frame_count_difference cam0_total cam1_total
              threshold_percent) as Hswap.
  { unfold video_discovery.validate_frame_count_difference.
    rewrite (andb_comm (cam1_total =? 0)), (Z.max_comm cam1_total).
    by replace (Z.abs (cam1_total - cam0_total)) with (Z.abs (cam0_total - cam1_total))
      by lia. }
  unfold video_discovery.validate_frame_count_difference in *.
  destruct ((cam0_total =? 0) && (cam1_total =? 0)) eqn:Hboth.
  { apply andb_true_iff in Hboth as [->%Z.eqb_eq ->%Z.eqb_eq]. simpl.
    split; [lra|]. split; [lia|]. split; [done|]. split; [done|].
    split; [done|]. intros [[_ ?]|[_ ?]]; lia. }
  assert (0 < Z.max cam0_total cam1_total) as Hmax.
  { apply andb_false_iff in Hboth as [?%Z.eqb_neq|?%Z.eqb_neq]; lia. }
  destruct (Z.eqb_spec (Z.max cam0_total cam1_total) 0); [lia|]. cbn [fst snd].
  set (difference := Z.abs (cam0_total - cam1_total)) in *.
  set (largest := Z.max cam0_total cam1_total) in *.
  assert (0 <= difference <= largest) as Hdifference by (subst difference largest; lia).
  assert ((0 < inject_Z largest)%Q) as Hpositive by (by rewrite <- (Zlt_Qlt 0)).
  assert ((0 <= inject_Z difference / inject_Z largest)%Q) as Hlow.
  { apply Qle_shift_div_l; [done|]. rewrite Qmult_0_l, <- (Zle_Qle 0). lia. }
  assert ((inject_Z difference / inject_Z largest <= 1)%Q) as Hhigh.
  { apply Qle_shift_div_r; [done|]. rewrite Qmult_1_l, <- Zle_Qle. lia. }
  split; [lra|]. split; [done|]. split; [done|]. split; [|split].
  - intros Hthreshold. unfold Qgtb. apply negb_false_iff, Qle_bool_iff. lra.
  - intros Hsame Hthreshold.
    assert (difference = 0) as -> by (subst difference; lia).
    assert ((inject_Z 0 / inject_Z largest == 0)%Q) as Hzero
      by (unfold Qdiv; apply Qmult_0_l).
    split; [|rewrite Hzero; lra].
    unfold Qgtb. apply negb_false_iff, Qle_bool_iff. rewrite Hzero. lra.
  - intros Hempty.
    assert (difference = largest) as -> by (subst difference largest; lia).
    assert ((inject_Z largest / inject_Z largest == 1)%Q) as Hone.
    { apply Qmult_inv_r. intros Heq. rewrite Heq in Hpositive. lra. }
    rewrite Hone. lra.
Qed.

Lemma frame_count_difference_bounds_witness :
  ((video_discovery.validate_frame_count_difference 15000 14200 5).1.2 <= 100)%Q.
Proof.
  exact (proj2 (proj1 (frame_count_difference_bounds 15000 14200 5
                         ltac:(lia) ltac:(lia)))).
Defined.

(** ** Segment numbers in file names *)

Section names.
Import video_discovery_io.

Lemma rfind_dot_none (name : list ascii) (at_ : nat) :
  "."%char ∉ name -> rfind_dot name at_ = None.
Proof.
  revert at_. induction name as [|c rest IH]; intros at_ Hnone; [done|].
  apply not_elem_of_cons in Hnone as [Hc Hrest]. simpl. rewrite IH by done.
  destruct (Ascii.eqb_spec c "."); [by subst|done].
Qed.

Lemma rfind_dot_last (front ext : list ascii) (at_ : nat) :
  "."%char ∉ ext -> rfind_dot (front ++ "."%char :: ext) at_ = Some (at_ + length front)%nat.
Proof.
  intros Hext. revert at_. induction front as [|c rest IH]; intros at_; simpl.
  - rewrite rfind_dot_none by done. f_equal. lia.
  - rewrite IH. f_equal. lia.
Qed.

Lemma stem_of_name (front ext : list ascii) :
  front <> [] -> ext <> [] -> "."%char ∉ ext ->
  stem (front ++ "."%char :: ext) = front.
Proof.
  intros Hfront Hsome Hext. unfold stem.
  rewrite rfind_dot_last, Nat.add_0_l by done.
  assert ((0 <? length front)%nat = true) as ->
    by (by destruct front).
  assert ((length front <? length (front ++ "."%char :: ext) - 1)%nat = true) as ->.
  { apply Nat.ltb_lt. rewrite length_app. destruct ext; [done|]. simpl. lia. }
  cbn [andb]. by rewrite take_app_length.
Qed.

Lemma findall_digits_run (digits run : list ascii) :
  Forall (fun c => is_digit c = true) digits -> run ++ digits <> [] ->
  findall_digits digits run = [run ++ digits].
Proof.
  intros Hdigits. revert run.
  induction Hdigits as [|c rest Hc _ IH]; intros run Hsome; simpl.
  - rewrite app_nil_r in *. by destruct run.
  - rewrite Hc, IH, <- app_assoc; [done|]. by destruct run.
Qed.

Lemma findall_digits_after (front rest run : list ascii) (c : ascii) :
  is_digit c = false ->
  exists runs,
    findall_digits ((front ++ [c]) ++ rest) run = runs ++ findall_digits rest [].
Proof.
  intros Hc. revert run. induction front as [|d front IH]; intros run; simpl.
  - rewrite Hc. eauto.
  - destruct (is_digit d).
    + apply IH.
    + destruct (IH []) as [runs ->]. rewrite app_assoc. eauto.
Qed.

Lemma findall_digits_none (text run : list ascii) :
  findall_digits text run = [] <->
  run = [] /\ Forall (fun c => is_digit c = false) text.
Proof.
  revert run. induction text as [|c rest IH]; intros run; simpl.
  - destruct run; split; (done || by intros [? _] || by split).
  - destruct (is_digit c) eqn:Hc.
    + rewrite IH. split.
      * intros [Hrun _]. by destruct run.
      * intros [_ Hall]. apply Forall_cons in Hall as [? _]. congruence.
    + destruct run; simpl.
      * rewrite IH, Forall_cons. tauto.
      * split; [done|]. by intros [? _].
Qed.

Lemma digits_value_from (digits : list ascii) (value : Z) :
  0 <= value ->
  Forall (fun c => is_digit c = true) digits ->
  0 <= fold_left (fun value c => 10 * value + (Z.of_nat (nat_of_ascii c) - 48)) digits value.
Proof.
  intros Hvalue Hdigits. revert value Hvalue.
  induction Hdigits as [|c rest Hc _ IH]; intros value Hvalue; simpl; [done|].
  apply IH. unfold is_digit in Hc.
  apply andb_true_iff in Hc as [?%Nat.leb_le ?%Nat.leb_le]. lia.
Qed.

Lemma digits_value_zeros (k : nat) (digits : list ascii) :
  digits_value (replicate k "0"%char ++ digits) = digits_value digits.
Proof.
  unfold digits_value. rewrite fold_left_app. f_equal.
  induction k as [|k IH]; [done|]. simpl. exact IH.
Qed.

(** The digits before the extension are the last run of the stem. *)
Lemma last_run_of_name (prefix digits ext : list ascii) :
  (prefix = [] \/ exists front c, prefix = front ++ [c] /\ is_digit c = false) ->
  digits <> [] ->
  Forall (fun c => is_digit c = true) digits ->
  ext <> [] ->
  "."%char ∉ ext ->
  last (findall_digits (stem (prefix ++ digits ++ "."%char :: ext)) []) = Some digits.
Proof.
  intros Hprefix Hsome Hdigits Hext Hdot. rewrite app_assoc.
  rewrite stem_of_name; [|by intros [_ ?]%app_eq_nil|done..].
  destruct Hprefix as [->|(front & c & -> & Hc)].
  - simpl. by rewrite findall_digits_run.
  - destruct (findall_digits_after front digits [] c Hc) as [runs ->].
    rewrite findall_digits_run by done. simpl. by rewrite last_snoc.
Qed.

End names.

(** X13.  On a plain name, ASCII without a path separator or a drive
    colon, [_extract_segment_number] finds no number exactly when the stem
    has no digit.  For such a name made of a prefix that does not end in a
    digit, then digits, then a dot and an extension without dot, it returns
    the value of those digits, which is not negative, and the same value
    when the digits are preceded by zeros, as long as the run is at most
    4300 characters long: so two names that differ only in leading zeros
    get the same segment number.  On a longer run [int] raises a ValueError,
    which the function does not catch. *)
Theorem segment_number_of_name (prefix digits ext : list ascii) :
  (prefix = [] \/
   exists front c, prefix = front ++ [c] /\ video_discovery_io.is_digit c = false) ->
  digits <> [] ->
  Forall (fun c => video_discovery_io.is_digit c = true) digits ->
  ext <> [] ->
  "."%char ∉ ext ->
  forallb video_discovery_io.plain_char (prefix ++ ext) = true ->
  let name zeros :=
    string_of_list_ascii (prefix ++ (replicate zeros "0"%char ++ digits) ++ "."%char :: ext) in
  (forall zeros,
     video_discovery_io.plain_name (name zeros) /\
     if video_discovery_io.int_max_str_digits <? Z.of_nat (zeros + length digits) then
       exists message,
         video_discovery_io._extract_segment_number (name zeros)
         = Raise (ValueError message)
     else
       video_discovery_io._extract_segment_number (name zeros)
       = Return (Some (video_discovery_io.digits_value digits))) /\
  0 <= video_discovery_io.digits_value digits /\
  (forall filename,
     video_discovery_io.plain_name filename ->
     ((exists outcome,
         video_discovery_io._extract_segment_number filename = Return outcome) \/
      (exists message,
         video_discovery_io._extract_segment_number filename
         = Raise (ValueError message))) /\
     (video_discovery_io._extract_segment_number filename = Return None <->
      Forall (fun c => video_discovery_io.is_digit c = false)
        (video_discovery_io.stem (list_ascii_of_string filename)))).
Proof.
  intros Hprefix Hsome Hdigits Hext Hdot Hplain name.
  split; [|split].
  - intros zeros. subst name. cbn beta.
    assert (Forall (fun c => video_discovery_io.is_digit c = true)
              (replicate zeros "0"%char ++ digits)) as Hall.
    { apply Forall_app. split; [|done]. by apply Forall_replicate. }
    assert (replicate zeros "0"%char ++ digits <> []) as Hnonempty
      by (intros [_ ?]%app_eq_nil; done).
    split.
    { unfold video_discovery_io.plain_name.
      rewrite list_ascii_of_string_of_list_ascii.
      rewrite forallb_app in Hplain. apply andb_true_iff in Hplain as [Hfront Hback].
      rewrite !forallb_app, Hfront. simpl. rewrite Hback.
      rewrite <- forallb_app, andb_true_r.
      apply forallb_forall. intros c Hc%list_elem_of_In.
      rewrite Forall_forall in Hall. specialize (Hall c Hc).
      unfold video_discovery_io.is_digit in Hall.
      apply andb_true_iff in Hall as [Hlow%Nat.leb_le Hhigh%Nat.leb_le].
      unfold video_discovery_io.plain_char.
      assert ((nat_of_ascii c <? 128)%nat = true) as -> by (apply Nat.ltb_lt; lia).
      assert (forall d, (nat_of_ascii d < 48 \/ 57 < nat_of_ascii d)%nat ->
                        Ascii.eqb c d = false) as Hother.
      { intros d Hd. apply Ascii.eqb_neq. intros ->. lia. }
      rewrite !Hother by (vm_compute; lia). done. }
    unfold video_discovery_io._extract_segment_number. cbn zeta.
    rewrite list_ascii_of_string_of_list_ascii.
    rewrite (last_run_of_name prefix (replicate zeros "0"%char ++ digits) ext) by done.
    unfold video_discovery_io.int_of_digits.
    rewrite length_app, length_replicate.
    destruct (video_discovery_io.int_max_str_digits <? Z.of_nat (zeros + length digits));
      simpl; [by eauto|].
    by rewrite digits_value_zeros.
  - by apply digits_value_from.
  - intros filename _. unfold video_discovery_io._extract_segment_number. cbn zeta.
    destruct (last _) as [run|] eqn:Hlast.
    + unfold video_discovery_io.int_of_digits.
      destruct (video_discovery_io.int_max_str_digits <? Z.of_nat (length run)); simpl.
      * split; [right; by eauto|]. split; [done|]. intros Hnone.
        pose proof (proj2 (findall_digits_none _ []) (conj eq_refl Hnone)) as Hempty.
        by rewrite Hempty in Hlast.
      * split; [left; by eauto|]. split; [done|]. intros Hnone.
        pose proof (proj2 (findall_digits_none _ []) (conj eq_refl Hnone)) as Hempty.
        by rewrite Hempty in Hlast.
    + split; [left; by eauto|]. split; [|done]. intros _.
      apply last_None in Hlast. apply findall_digits_none in Hlast as [_ ?]. done.
Qed.

Lemma segment_number_of_name_witness :
  video_discovery_io._extract_segment_number "stereo_cam0_sbs_01.mp4" = Return (Some 1) /\
  video_discovery_io._extract_segment_number "stereo_cam0_sbs_1.mp4" = Return (Some 1).
Proof.
  pose proof (segment_number_of_name (list_ascii_of_string "stereo_cam0_sbs_")
                (list_ascii_of_string "1") (list_ascii_of_string "mp4")) as Hname.
  destruct Hname as (Hnumber & _).
  - right. exists (list_ascii_of_string "stereo_cam0_sbs"), "_"%char. by split.
  - discriminate.
  - by repeat constructor.
  - discriminate.
  - vm_compute. intros Hin. repeat (apply elem_of_cons in Hin as [Hin|Hin]; [done|]).
    by apply elem_of_nil in Hin.
  - vm_compute. reflexivity.
  - split; [exact (proj2 (Hnumber 1%nat))|exact (proj2 (Hnumber 0%nat))].
Defined.

(** ** Recommendations *)

Ltac recommendation_cases :=
  repeat match goal with
         | |- _ /\ _ => split
         | |- forall _, _ => intro
         | |- _ <-> _ => split; intro
         | H : _ ∈ _ :: _ |- _ => apply elem_of_cons in H as [H|H]
         | H : _ ∈ [] |- _ => by apply elem_of_nil in H
         | H : _ /\ _ |- _ => destruct H
         | H : _ :: _ = _ :: _ |- _ => injection H as H
         | H : timestamp_analysis.MaxDriftOver100 _ = timestamp_analysis.MaxDriftOver100 _ |- _ =>
             injection H as H
         | H : timestamp_analysis.FewFramesUnder10 _ = timestamp_analysis.FewFramesUnder10 _ |- _ =>
             injection H as H
         end;
  subst; try discriminate; try done; try lra; simpl; try lia;
  try (rewrite ?elem_of_cons; by auto 6).

(** X14.  [_calculate_rating] always gives between one and three
    recommendations.  It gives the sentence that frame number matching
    suffices exactly when nothing else is to be said, that is when the
    average drift is under 10 ms, the maximum drift is at most 100 ms and
    at least half of the samples are under 10 ms; it does so even when the
    rating is not the best.  Exactly one sentence about the average drift
    appears when that drift is 10 ms or more, the one of its band; the
    sentence about the maximum drift appears when it exceeds 100 ms, and the
    one about the share of good samples when that share is under one half,
    which includes the case of no sample at all. *)
Theorem recommendations_of_rating
    (self : timestamp_analysis.TimestampAnalyzer)
    (start_delay_ms avg_drift_ms max_drift_ms : Q)
    (distribution : timestamp_analysis.Distribution) (total_samples : Z) :
  let recommendations :=
    (timestamp_analysis._calculate_rating self start_delay_ms avg_drift_ms max_drift_ms
       distribution total_samples).2 in
  let ratio := good_ratio distribution total_samples in
  (1 <= length recommendations <= 3)%nat /\
  (timestamp_analysis.FrameNumberMatchingSuffices ∈ recommendations <->
   recommendations = [timestamp_analysis.FrameNumberMatchingSuffices]) /\
  (recommendations = [timestamp_analysis.FrameNumberMatchingSuffices] <->
   avg_drift_ms < 10 /\ max_drift_ms <= 100 /\ 0.5 <= ratio)%Q /\
  (timestamp_analysis.AvgDrift10to30 ∈ recommendations <->
   10 <= avg_drift_ms /\ avg_drift_ms < 30)%Q /\
  (timestamp_analysis.AvgDrift30to50 ∈ recommendations <->
   30 <= avg_drift_ms /\ avg_drift_ms < 50)%Q /\
  (timestamp_analysis.AvgDriftOver50 ∈ recommendations <-> 50 <= avg_drift_ms)%Q /\
  (forall shown,
     timestamp_analysis.MaxDriftOver100 shown ∈ recommendations <->
     shown = max_drift_ms /\ (100 < max_drift_ms)%Q) /\
  (forall shown,
     timestamp_analysis.FewFramesUnder10 shown ∈ recommendations <->
     shown = (ratio * 100)%Q /\ (ratio < 0.5)%Q) /\
  (total_samples <= 0 ->
   timestamp_analysis.FewFramesUnder10 (0 * 100)%Q ∈ recommendations).
Proof.
  intros recommendations ratio. subst recommendations ratio.
  unfold timestamp_analysis._calculate_rating, good_ratio.
  destruct (Z.ltb_spec 0 total_samples) as [Hsamples|Hsamples].
  - set (ratio := (inject_Z (timestamp_analysis.lt_10ms distribution)
                   / inject_Z total_samples)%Q).
    destruct (Qltb_spec avg_drift_ms 10), (Qltb_spec avg_drift_ms 30),
      (Qltb_spec avg_drift_ms 50); try lra;
      destruct (Qgtb max_drift_ms 100) eqn:Hmax;
      (apply Qgtb_spec in Hmax
       || (apply negb_false_iff, Qle_bool_iff in Hmax));
      destruct (Qltb_spec ratio 0.5); cbn [fst snd app];
      recommendation_cases.
  - destruct (Qltb_spec avg_drift_ms 10), (Qltb_spec avg_drift_ms 30),
      (Qltb_spec avg_drift_ms 50); try lra;
      destruct (Qgtb max_drift_ms 100) eqn:Hmax;
      (apply Qgtb_spec in Hmax
       || (apply negb_false_iff, Qle_bool_iff in Hmax));
      destruct (Qltb_spec 0 0.5); try lra; cbn [fst snd app];
      recommendation_cases.
Qed.

(** ** Sample points that are not positive *)

Lemma analyze_time_drift_without_samples sqrt self
    (cam0_timestamps cam1_timestamps : list timestamp_analysis.Timestamp) :
  timestamp_analysis.sample_points self <= 0 ->
  cam0_timestamps <> [] -> cam1_timestamps <> [] ->
  exists e,
    timestamp_analysis.analyze_time_drift sqrt self cam0_timestamps cam1_timestamps
    = Raise e.
Proof.
  intros Hpoints Hsome0 Hsome1. unfold timestamp_analysis.analyze_time_drift.
  cbn zeta. unfold timestamp_analysis.sample_indices.
  assert (0 < Z.min (Z.of_nat (length cam0_timestamps))
                    (Z.of_nat (length cam1_timestamps))) as Hframes.
  { destruct cam0_timestamps, cam1_timestamps; simpl in *; try done. lia. }
  destruct (Z.leb_spec (Z.min (Z.of_nat (length cam0_timestamps))
                          (Z.of_nat (length cam1_timestamps)))
              (timestamp_analysis.sample_points self)); [lia|].
  destruct (Z.eqb_spec (timestamp_analysis.sample_points self) 0); [by eexists|].
  unfold py_range. rewrite seqZ_nil by lia. simpl. by eexists.
Qed.

(** X15.  A configuration whose [timestamp_sample_points] is zero or
    negative, which [Config.__post_init__] does not reject, switches the
    timestamp analysis off: whatever the logs hold, the analysis raises
    (too few timestamps, a division by zero, or the mean of no sample),
    [main] catches it and goes on with [sync_analysis = None]. *)
Theorem nonpositive_sample_points_give_no_analysis (sqrt : Q -> Q)
    (timestamp_analysis_enabled : bool) (timestamp_sync_threshold_ms : Q)
    (timestamp_sample_points : Z)
    (loaded : list (string * Z * list timestamp_analysis.Timestamp)) :
  timestamp_sample_points <= 0 ->
  main.timestamp_analysis_step sqrt timestamp_analysis_enabled timestamp_sync_threshold_ms
    timestamp_sample_points loaded = None.
Proof.
  intros Hpoints. unfold main.timestamp_analysis_step.
  destruct timestamp_analysis_enabled; [|done].
  set (analyzer := {| timestamp_analysis.sync_threshold_ms := timestamp_sync_threshold_ms;
                      timestamp_analysis.sample_points := timestamp_sample_points |}).
  unfold timestamp_analysis.analyze_all_segments.
  destruct (timestamp_analysis.collect_loaded loaded) as [cam0_results cam1_results].
  destruct (timestamp_analysis.all_timestamps cam0_results) as [all0|]; simpl; [|done].
  destruct (timestamp_analysis.all_timestamps cam1_results) as [all1|]; simpl; [|done].
  destruct all0 as [|first0 rest0]; [done|]. destruct all1 as [|first1 rest1]; [done|].
  unfold timestamp_analysis.analyze_sync_quality.
  destruct (timestamp_analysis.calculate_timestamp_stats sqrt (first0 :: rest0));
    simpl; [|done].
  destruct (timestamp_analysis.calculate_timestamp_stats sqrt (first1 :: rest1));
    simpl; [|done].
  destruct (analyze_time_drift_without_samples sqrt analyzer (first0 :: rest0)
              (first1 :: rest1)) as [e ->]; done.
Qed.

Lemma nonpositive_sample_points_give_no_analysis_witness :
  main.timestamp_analysis_step (fun x => x) true 50 0
    [("cam0"%string, 1, example_series 1000); ("cam1"%string, 1, example_series 1200)]
  = None.
Proof.
  apply nonpositive_sample_points_give_no_analysis. lia.
Defined.

(** ** Joining the timestamp logs *)

Lemma nodup_fmap_inj {A B : Type} (f : A -> B) (l : list A) (x y : A) :
  NoDup (f <$> l) -> x ∈ l -> y ∈ l -> f x = f y -> x = y.
Proof.
  induction l as [|z l IH]; intros Hnodup Hx Hy Hsame; [by apply elem_of_nil in Hx|].
  rewrite fmap_cons in Hnodup. apply NoDup_cons in Hnodup as [Hnew Hnodup].
  apply elem_of_cons in Hx as [->|Hx], Hy as [->|Hy]; [done| | |by apply IH].
  - exfalso. apply Hnew. rewrite Hsame. by apply list_elem_of_fmap_2.
  - exfalso. apply Hnew. rewrite <- Hsame. by apply list_elem_of_fmap_2.
Qed.

Section logs.
Import timestamp_analysis.

Lemma collect_loaded_snoc loaded camera_id segment_num timestamps first_camera :
  results_of first_camera (collect_loaded (loaded ++ [(camera_id, segment_num, timestamps)]))
  = if bool_decide (String.eqb camera_id "cam0" = first_camera)
    then <[segment_num := timestamps]> (results_of first_camera (collect_loaded loaded))
    else results_of first_camera (collect_loaded loaded).
Proof.
  unfold collect_loaded. rewrite fold_left_app. cbn [fold_left].
  destruct (fold_left _ loaded (∅, ∅)) as [cam0_results cam1_results].
  by destruct (String.eqb camera_id "cam0"), first_camera.
Qed.

Lemma collect_loaded_lookup loaded first_camera segment_num timestamps :
  distinct_logs loaded ->
  results_of first_camera (collect_loaded loaded) !! segment_num = Some timestamps <->
  exists camera_id,
    (camera_id, segment_num, timestamps) ∈ loaded /\
    String.eqb camera_id "cam0" = first_camera.
Proof.
  unfold distinct_logs.
  induction loaded as [|[[camera n] ts] loaded IH] using rev_ind; intros Hdistinct.
  { destruct first_camera; simpl; rewrite lookup_empty; split; [done| |done|];
      by intros (? & ?%elem_of_nil & _). }
  rewrite fmap_app in Hdistinct. apply NoDup_app in Hdistinct as (Hrest & Hnew & _).
  specialize (IH Hrest). rewrite collect_loaded_snoc.
  assert (forall other, (camera, n, other) ∈ loaded -> False) as Hfresh.
  { intros other Hin. apply (Hnew (String.eqb camera "cam0", n)); [|by left].
    apply list_elem_of_fmap. by exists (camera, n, other). }
  assert (forall c other, String.eqb c "cam0" = String.eqb camera "cam0" ->
                          (c, n, other) ∈ loaded -> False) as Hfresh'.
  { intros c other Hsame Hin. apply (Hnew (String.eqb camera "cam0", n)); [|by left].
    apply list_elem_of_fmap. exists (c, n, other). simpl. by rewrite Hsame. }
  case_bool_decide as Hcamera.
  - destruct (decide (n = segment_num)) as [->|Hother].
    + rewrite lookup_insert_eq. split.
      * intros [= ->]. exists camera. split; [|done]. apply elem_of_app. right. by left.
      * intros (c & [Hin|Hin]%elem_of_app & Hc).
        -- exfalso. apply (Hfresh' c timestamps); [congruence|done].
        -- apply list_elem_of_singleton in Hin. congruence.
    + rewrite lookup_insert_ne, IH by done. split.
      * intros (c & Hin & Hc). exists c. split; [|done]. apply elem_of_app. by left.
      * intros (c & [Hin|Hin]%elem_of_app & Hc); [by exists c|].
        apply list_elem_of_singleton in Hin. congruence.
  - rewrite IH. split.
    + intros (c & Hin & Hc). exists c. split; [|done]. apply elem_of_app. by left.
    + intros (c & [Hin|Hin]%elem_of_app & Hc); [by exists c|].
      apply list_elem_of_singleton in Hin. congruence.
Qed.

Lemma py_for_lookups (results : gmap Z (list Timestamp))
    (entries : list (string * Z * list Timestamp)) :
  (forall r, r ∈ entries -> results !! r.1.2 = Some r.2) ->
  py_for (frame_stitching.py_get results) ((fun r => r.1.2) <$> entries)
  = Return (snd <$> entries).
Proof.
  induction entries as [|r entries IH]; intros Hall; [done|].
  rewrite fmap_cons. cbn [py_for]. rewrite IH by (intros r' Hr'; apply Hall; by right).
  unfold frame_stitching.py_get. by rewrite (Hall r) by left.
Qed.

(** With distinct logs, the series of a camera is its logs joined in
    ascending order of segment number. *)
Lemma all_timestamps_joined loaded first_camera :
  distinct_logs loaded ->
  all_timestamps (results_of first_camera (collect_loaded loaded))
  = Return (joined_logs first_camera loaded).
Proof.
  intros Hdistinct. unfold all_timestamps, joined_logs.
  set (results := results_of first_camera (collect_loaded loaded)).
  set (entries := sorted_by_key (fun r => r.1.2) (camera_logs first_camera loaded)).
  assert (forall r, r ∈ entries <-> r ∈ loaded /\ String.eqb r.1.1 "cam0" = first_camera)
    as Hentries.
  { intros r. subst entries. unfold camera_logs.
    rewrite sorted_by_key_perm, list_elem_of_filter. tauto. }
  assert (forall r, r ∈ entries -> results !! r.1.2 = Some r.2) as Hlookup.
  { intros [[c n] ts] [Hin Hc]%Hentries. subst results.
    apply collect_loaded_lookup; [done|]. by exists c. }
  assert (sorted_by_key id (elements (dom results)) = (fun r => r.1.2) <$> entries) as ->.
  { apply strictly_sorted_ext.
    - apply sorted_elements.
    - assert (StronglySorted (key_lt (fun r : string * Z * list Timestamp => r.1.2)) entries)
        as Hstrict.
      { apply sorted_distinct_strict; [apply sorted_by_key_sorted|].
        subst entries. rewrite sorted_by_key_perm. unfold camera_logs.
        unfold distinct_logs in Hdistinct.
        assert (forall l : list (string * Z * list Timestamp),
                  NoDup ((fun r => (String.eqb r.1.1 "cam0", r.1.2)) <$> l) ->
                  NoDup ((fun r => r.1.2)
                           <$> filter (fun r => String.eqb r.1.1 "cam0" = first_camera) l))
          as Hfilter.
        { clear. induction l as [|r l IH]; intros Hnodup; [constructor|].
          rewrite fmap_cons in Hnodup. apply NoDup_cons in Hnodup as [Hnew Hnodup].
          rewrite filter_cons. case_decide as Hcamera; [|by apply IH].
          rewrite fmap_cons. constructor; [|by apply IH].
          intros (r' & Hkey & [Hcamera' Hin]%list_elem_of_filter)%list_elem_of_fmap.
          apply Hnew, list_elem_of_fmap. exists r'. split; [|done].
          simpl in *. congruence. }
        by apply Hfilter. }
      clear -Hstrict. induction Hstrict as [|r l _ IH Hr]; [constructor|].
      rewrite fmap_cons. constructor; [done|]. by rewrite Forall_fmap.
    - intros n. rewrite (proj2 (sorted_elements _)), elem_of_dom, list_elem_of_fmap.
      split.
      + intros [ts Hts]. subst results.
        apply collect_loaded_lookup in Hts as (c & Hin & Hc); [|done].
        exists (c, n, ts). split; [done|]. apply Hentries. by split.
      + intros (r & -> & Hr). exists r.2. by apply Hlookup. }
  by rewrite py_for_lookups.
Qed.

End logs.

(** X16.  When no two loaded timestamp logs belong to the same camera and
    segment number, [analyze_all_segments] does not depend on the order in
    which the loading futures complete: each camera's series is its logs
    joined in ascending order of segment number, the call raises the
    ValueError "No timestamps loaded for analysis" when one camera has no
    record at all, and otherwise it is [analyze_sync_quality] on the two
    joined series. *)
Theorem logs_are_joined_in_segment_order (sqrt : Q -> Q)
    (self : timestamp_analysis.TimestampAnalyzer)
    (loaded loaded' : list (string * Z * list timestamp_analysis.Timestamp)) :
  distinct_logs loaded ->
  loaded' ≡ₚ loaded ->
  let cam0_series := joined_logs true loaded in
  let cam1_series := joined_logs false loaded in
  timestamp_analysis.analyze_all_segments sqrt self loaded'
    = timestamp_analysis.analyze_all_segments sqrt self loaded /\
  timestamp_analysis.analyze_all_segments sqrt self loaded
    = if bool_decide (cam0_series = [] \/ cam1_series = [])
      then Raise (ValueError "No timestamps loaded for analysis")
      else timestamp_analysis.analyze_sync_quality sqrt self cam0_series cam1_series.
Proof.
  intros Hdistinct Hperm cam0_series cam1_series.
  assert (forall logs, distinct_logs logs ->
            timestamp_analysis.analyze_all_segments sqrt self logs
            = if bool_decide (joined_logs true logs = [] \/ joined_logs false logs = [])
              then Raise (ValueError "No timestamps loaded for analysis")
              else timestamp_analysis.analyze_sync_quality sqrt self
                     (joined_logs true logs) (joined_logs false logs)) as Hjoined.
  { intros logs Hlogs. unfold timestamp_analysis.analyze_all_segments.
    pose proof (all_timestamps_joined logs true Hlogs) as H0.
    pose proof (all_timestamps_joined logs false Hlogs) as H1.
    destruct (timestamp_analysis.collect_loaded logs) as [cam0_results cam1_results].
    simpl in H0, H1. rewrite H0, H1. simpl.
    destruct (joined_logs true logs), (joined_logs false logs);
      case_bool_decide as Hcase; try done;
      solve [exfalso; apply Hcase; auto | by destruct Hcase]. }
  assert (distinct_logs loaded') as Hdistinct'.
  { unfold distinct_logs in *. by rewrite Hperm. }
  assert (forall first_camera,
            joined_logs first_camera loaded' = joined_logs first_camera loaded) as Hsame.
  { intros first_camera. unfold joined_logs. f_equal. f_equal.
    apply sorted_by_key_unique.
    - unfold camera_logs. by rewrite Hperm.
    - intros [[c n] ts] [[c' n'] ts'] [Hc Hin]%list_elem_of_filter
        [Hc' Hin']%list_elem_of_filter Hkey.
      simpl in *. subst n'.
      unfold distinct_logs in Hdistinct'.
      apply (nodup_fmap_inj _ _ _ _ Hdistinct' Hin Hin'). simpl. congruence. }
  split; [|by apply Hjoined].
  rewrite !Hjoined by done. by rewrite !Hsame.
Qed.

Lemma logs_are_joined_in_segment_order_witness :
  timestamp_analysis.analyze_all_segments (fun x => x) default_analyzer
    [("cam1"%string, 1, example_series 1200); ("cam0"%string, 2, example_series 500000);
     ("cam0"%string, 1, example_series 1000)]
  = timestamp_analysis.analyze_all_segments (fun x => x) default_analyzer
      [("cam0"%string, 1, example_series 1000); ("cam0"%string, 2, example_series 500000);
       ("cam1"%string, 1, example_series 1200)].
Proof.
  refine (proj1 (logs_are_joined_in_segment_order (fun x => x) default_analyzer _ _ _ _)).
  - unfold distinct_logs. apply (bool_decide_unpack _). by vm_compute.
  - exact (reverse_Permutation
             [("cam0"%string, 1, example_series 1000);
              ("cam0"%string, 2, example_series 500000);
              ("cam1"%string, 1, example_series 1200)]).
Defined.

(** ** Means, minima and maxima *)

Section float_lists.
Import timestamp_analysis.
Local Open Scope Q_scope.

Lemma fold_max_spec (rest : list Q) (m0 : Q) :
  let m := fold_left (fun m y => if Qltb m y then y else m) rest m0 in
  m0 <= m /\ Forall (fun y => y <= m) rest /\ (m = m0 \/ m ∈ rest).
Proof.
  revert m0. induction rest as [|x rest IH]; intros m0; simpl.
  { split; [lra|]. split; [constructor|by left]. }
  destruct (Qltb_spec m0 x) as [Hlt|Hge].
  - destruct (IH x) as (Hx & Hrest & Hmem).
    split; [lra|]. split; [by constructor|].
    right. destruct Hmem as [->|Hin]; [by left|by right].
  - destruct (IH m0) as (Hm0 & Hrest & Hmem).
    split; [done|]. split; [constructor; [lra|done]|].
    destruct Hmem as [->|Hin]; [by left|right; by right].
Qed.

Lemma fold_min_spec (rest : list Q) (m0 : Q) :
  let m := fold_left (fun m y => if Qltb y m then y else m) rest m0 in
  m <= m0 /\ Forall (fun y => m <= y) rest /\ (m = m0 \/ m ∈ rest).
Proof.
  revert m0. induction rest as [|x rest IH]; intros m0; simpl.
  { split; [lra|]. split; [constructor|by left]. }
  destruct (Qltb_spec x m0) as [Hlt|Hge].
  - destruct (IH x) as (Hx & Hrest & Hmem).
    split; [lra|]. split; [by constructor|].
    right. destruct Hmem as [->|Hin]; [by left|by right].
  - destruct (IH m0) as (Hm0 & Hrest & Hmem).
    split; [done|]. split; [constructor; [lra|done]|].
    destruct Hmem as [->|Hin]; [by left|right; by right].
Qed.

Lemma py_max_spec (l : list Q) (m : Q) :
  py_max l = Return m -> Forall (fun y => y <= m) l /\ m ∈ l.
Proof.
  destruct l as [|x rest]; [done|]. intros [= <-].
  destruct (fold_max_spec rest x) as (Hx & Hrest & Hmem).
  split; [by constructor|]. destruct Hmem as [->|Hin]; [by left|by right].
Qed.

Lemma py_min_spec (l : list Q) (m : Q) :
  py_min l = Return m -> Forall (fun y => m <= y) l /\ m ∈ l.
Proof.
  destruct l as [|x rest]; [done|]. intros [= <-].
  destruct (fold_min_spec rest x) as (Hx & Hrest & Hmem).
  split; [by constructor|]. destruct Hmem as [->|Hin]; [by left|by right].
Qed.

Lemma Qlen_cons (x : Q) (l : list Q) : Qlen (x :: l) == Qlen l + 1.
Proof.
  unfold Qlen. cbn [length]. rewrite Nat2Z.inj_succ, <- Z.add_1_r, inject_Z_plus. reflexivity.
Qed.

Lemma Qlen_nonneg (l : list Q) : 0 <= Qlen l.
Proof. unfold Qlen. rewrite <- (Zle_Qle 0). lia. Qed.

Lemma Qsum_lower (l : list Q) (lo : Q) :
  Forall (fun y => lo <= y) l -> Qlen l * lo <= Qsum l.
Proof.
  induction 1 as [|x l Hx _ IH];
    [change (Qlen []) with 0; change (Qsum []) with 0; lra|].
  rewrite Qlen_cons, Qmult_plus_distr_l. cbn [Qsum foldr]. fold (Qsum l).
  set (product := Qlen l * lo) in *. lra.
Qed.

Lemma Qsum_upper (l : list Q) (hi : Q) :
  Forall (fun y => y <= hi) l -> Qsum l <= Qlen l * hi.
Proof.
  induction 1 as [|x l Hx _ IH];
    [change (Qlen []) with 0; change (Qsum []) with 0; lra|].
  rewrite Qlen_cons, Qmult_plus_distr_l. cbn [Qsum foldr]. fold (Qsum l).
  set (product := Qlen l * hi) in *. lra.
Qed.

Lemma mean_bounds (l : list Q) (lo hi average : Q) :
  Forall (fun y => lo <= y) l -> Forall (fun y => y <= hi) l ->
  mean l = Return average -> lo <= average <= hi.
Proof.
  intros Hlo Hhi. destruct l as [|x rest] eqn:Hl; [done|]. rewrite <- Hl in *.
  unfold mean. rewrite Hl at 1. intros [= <-].
  assert (0 < Qlen l) as Hpositive.
  { rewrite Hl, Qlen_cons. pose proof (Qlen_nonneg rest). lra. }
  pose proof (Qsum_lower l lo Hlo). pose proof (Qsum_upper l hi Hhi).
  split.
  - apply Qle_shift_div_l; [done|]. lra.
  - apply Qle_shift_div_r; [done|]. lra.
Qed.

End float_lists.

Lemma analyze_time_drift_inv (sqrt : Q -> Q) self cam0_timestamps cam1_timestamps
    avg max std distribution sample_drifts :
  timestamp_analysis.analyze_time_drift sqrt self cam0_timestamps cam1_timestamps
  = Return (avg, max, std, distribution, sample_drifts) ->
  timestamp_analysis.mean (abs_drifts sample_drifts) = Return avg /\
  timestamp_analysis.py_max (abs_drifts sample_drifts) = Return max /\
  distribution = timestamp_analysis.distribution_of (abs_drifts sample_drifts).
Proof.
  unfold timestamp_analysis.analyze_time_drift.
  destruct (timestamp_analysis.sample_indices self _) as [indices|] eqn:Hindices;
    simpl; [|done].
  apply sample_indices_inv in Hindices as [_ Hnonneg].
  destruct (py_for _ indices) as [sampled|] eqn:Hsampled; simpl; [|done].
  destruct (timestamp_analysis.mean _) as [avg'|] eqn:Havg; simpl; [|done].
  destruct (timestamp_analysis.py_max _) as [max'|] eqn:Hmax; simpl; [|done].
  destruct (if (1 <? length (sampled.*1))%nat then _ else _); simpl; [|done].
  intros [= <- <- _ <- <-].
  apply py_for_inv in Hsampled.
  apply (drift_at_all _ _ _ _ Hnonneg), sampled_split in Hsampled as [Hdrifts _].
  by rewrite <- Hdrifts.
Qed.

(** X17.  Whenever [analyze_time_drift] returns, there is at least one
    sample, the average drift lies between 0 and the maximum drift, no
    sample's absolute drift exceeds the maximum, and the maximum is the
    absolute drift of one of the samples. *)
Theorem drift_summary_bounds (sqrt : Q -> Q) (self : timestamp_analysis.TimestampAnalyzer)
    (cam0_timestamps cam1_timestamps : list timestamp_analysis.Timestamp)
    (avg max std : Q) (distribution : timestamp_analysis.Distribution)
    (sample_drifts : list (Z * Q * Q * Q)) :
  timestamp_analysis.analyze_time_drift sqrt self cam0_timestamps cam1_timestamps
  = Return (avg, max, std, distribution, sample_drifts) ->
  sample_drifts <> [] /\
  (0 <= avg)%Q /\ (avg <= max)%Q /\
  Forall (fun sample => (Qabs sample.2 <= max)%Q) sample_drifts /\
  exists sample, sample ∈ sample_drifts /\ max = Qabs sample.2.
Proof.
  intros (Havg & Hmax & _)%analyze_time_drift_inv.
  apply py_max_spec in Hmax as [Hbound Hattained].
  assert (Forall (fun y => (0 <= y)%Q) (abs_drifts sample_drifts)) as Hnonneg.
  { unfold abs_drifts. rewrite Forall_fmap. apply Forall_forall. intros sample _.
    apply Qabs_nonneg. }
  destruct (mean_bounds _ _ _ _ Hnonneg Hbound Havg) as [Hlow Hhigh].
  split; [by intros ->|]. split; [done|]. split; [done|].
  split.
  - unfold abs_drifts in Hbound. by rewrite Forall_fmap in Hbound.
  - unfold abs_drifts in Hattained.
    apply list_elem_of_fmap in Hattained as (sample & -> & Hin). by exists sample.
Qed.

Lemma drift_summary_bounds_witness :
  exists avg max std distribution sample_drifts,
    timestamp_analysis.analyze_time_drift (fun x => x) two_point_analyzer
      (example_series 1000000) (example_series 1004000)
    = Return (avg, max, std, distribution, sample_drifts) /\
    (avg <= max)%Q.
Proof.
  destruct (timestamp_analysis.analyze_time_drift (fun x => x) two_point_analyzer
              (example_series 1000000) (example_series 1004000))
    as [[[[[avg max] std] distribution] sample_drifts]|] eqn:Hrun;
    [|by vm_compute in Hrun].
  exists avg, max, std, distribution, sample_drifts. split; [done|].
  exact (proj1 (proj2 (proj2 (drift_summary_bounds _ _ _ _ _ _ _ _ _ Hrun)))).
Defined.

(** ** Per-camera statistics *)

Section intervals.
Import timestamp_analysis.
Local Open Scope Q_scope.

Lemma Qsum_snoc (l : list Q) (x : Q) : Qsum (l ++ [x]) == Qsum l + x.
Proof.
  induction l as [|y l IH]; [change (Qsum ([] ++ [x])) with (x + 0); change (Qsum []) with 0; lra|].
  change (Qsum ((y :: l) ++ [x])) with (y + Qsum (l ++ [x])).
  change (Qsum (y :: l)) with (y + Qsum l). rewrite IH. lra.
Qed.

Lemma intervals_telescope (timestamps : list Timestamp) (m : nat) (intervals : list Q) :
  (m < length timestamps)%nat ->
  Forall2 (fun k interval =>
             exists cur prev,
               timestamps !! Z.to_nat k = Some cur /\
               timestamps !! Z.to_nat (k - 1) = Some prev /\
               interval = interval_ms prev cur)
    (seqZ 1 (Z.of_nat m)) intervals ->
  exists first last,
    timestamps !! 0%nat = Some first /\ timestamps !! m = Some last /\
    Qsum intervals == inject_Z (pts_us last - pts_us first) / 1000 /\
    length intervals = m /\
    forall k prev cur,
      (k < m)%nat -> timestamps !! k = Some prev -> timestamps !! S k = Some cur ->
      interval_ms prev cur ∈ intervals.
Proof.
  revert intervals. induction m as [|m IH]; intros intervals Hm Hall.
  - destruct (lookup_lt_is_Some_2 timestamps 0 Hm) as [first Hfirst].
    apply Forall2_nil_inv_l in Hall as ->.
    exists first, first. split; [done|]. split; [done|]. split.
    + rewrite Z.sub_diag. change (Qsum []) with 0. reflexivity.
    + split; [done|]. intros k prev cur Hk. lia.
  - rewrite seqZ_S in Hall.
    apply Forall2_app_inv_l in Hall as (front & back & Hfront & Hback & ->).
    apply Forall2_cons_inv_l in Hback as (interval & rest & Hinterval & Hrest & ->).
    apply Forall2_nil_inv_l in Hrest as ->.
    destruct (IH front ltac:(lia) Hfront) as (first & middle & Hfirst & Hmiddle & Hsum & Hlength & Hin).
    destruct Hinterval as (cur & prev & Hcur & Hprev & ->).
    replace (Z.to_nat (1 + Z.of_nat m)) with (S m) in Hcur by lia.
    replace (Z.to_nat (1 + Z.of_nat m - 1)) with m in Hprev by lia.
    assert (prev = middle) as -> by congruence.
    exists first, cur. split; [done|]. split; [done|]. split; [|split].
    + rewrite Qsum_snoc, Hsum. unfold interval_ms.
      unfold Z.sub. rewrite !inject_Z_plus, !inject_Z_opp. field.
    + rewrite length_app, Hlength. simpl. lia.
    + intros k prev' cur' Hk Hprev' Hcur'. apply elem_of_app.
      destruct (decide (k = m)) as [->|Hother].
      * right. assert (prev' = middle) as -> by congruence.
        assert (cur' = cur) as -> by congruence. by left.
      * left. apply (Hin k); [lia|done..].
Qed.

Lemma py_index_last {A : Type} (l : list A) (x : A) :
  py_index l (-1) = Return x -> l !! (length l - 1)%nat = Some x.
Proof.
  unfold py_index. cbn [Z.ltb Z.compare].
  destruct (_ || _); [done|].
  destruct (l !! Z.to_nat (Z.of_nat (length l) + -1)) as [y|] eqn:Hy; [|done].
  intros [= <-]. rewrite <- Hy. f_equal. lia.
Qed.

Lemma calculate_timestamp_stats_inv (sqrt : Q -> Q) timestamps stats :
  calculate_timestamp_stats sqrt timestamps = Return stats ->
  exists first last intervals,
    timestamps !! 0%nat = Some first /\
    timestamps !! (length timestamps - 1)%nat = Some last /\
    Forall2 (fun k interval =>
               exists cur prev,
                 timestamps !! Z.to_nat k = Some cur /\
                 timestamps !! Z.to_nat (k - 1) = Some prev /\
                 interval = interval_ms prev cur)
      (seqZ 1 (Z.of_nat (length timestamps) - 1)) intervals /\
    mean intervals = Return (avg_frame_interval_ms stats) /\
    py_min intervals = Return (min_interval_ms stats) /\
    py_max intervals = Return (max_interval_ms stats) /\
    total_frames stats = Z.of_nat (length timestamps) /\
    start_time_us stats = pts_us first /\
    end_time_us stats = pts_us last /\
    duration_seconds stats = inject_Z (pts_us last - pts_us first) / 1000000 /\
    avg_framerate stats =
      (if Qgtb (duration_seconds stats) 0
       then inject_Z (Z.of_nat (length timestamps)) / duration_seconds stats
       else 0).
Proof.
  unfold calculate_timestamp_stats.
  destruct (length timestamps <? 2)%nat; [done|].
  destruct (py_index timestamps 0) as [first|] eqn:Hfirst; simpl; [|done].
  destruct (py_index timestamps (-1)) as [last|] eqn:Hlast; simpl; [|done].
  destruct (py_for _ _) as [intervals|] eqn:Hintervals; simpl; [|done].
  destruct (mean intervals) as [avg|] eqn:Havg; simpl; [|done].
  destruct (if (1 <? length intervals)%nat then _ else _); simpl; [|done].
  destruct (py_min intervals) as [lo|] eqn:Hlo; simpl; [|done].
  destruct (py_max intervals) as [hi|] eqn:Hhi; simpl; [|done].
  intros [= <-]. simpl.
  exists first, last, intervals.
  split; [by apply (py_index_inv _ 0)|]. split; [by apply py_index_last|].
  split; [|done].
  assert (forall k, k ∈ seqZ 1 (Z.of_nat (length timestamps) - 1) -> 1 <= k)%Z as Hpositive
    by (intros k Hk%elem_of_seqZ; lia).
  apply py_for_inv in Hintervals.
  remember (seqZ 1 (Z.of_nat (length timestamps) - 1)) as indices eqn:Hindices.
  clear -Hintervals Hpositive. revert Hpositive.
  induction Hintervals as [|k interval ks rest Hk _ IH]; intros Hpositive; constructor.
  - pose proof (Hpositive k ltac:(left)) as Hone.
    destruct (py_index timestamps k) as [cur|] eqn:Hcur; simpl in Hk; [|done].
    destruct (py_index timestamps (k - 1)) as [prev|] eqn:Hprev; simpl in Hk; [|done].
    injection Hk as <-. exists cur, prev.
    split; [apply py_index_inv; [lia|done]|]. split; [apply py_index_inv; [lia|done]|].
    done.
  - apply IH. intros k' Hk'. apply Hpositive. by right.
Qed.

End intervals.

(** X18.  For a series of at least two records
    [calculate_timestamp_stats] returns statistics in which: the frame
    total is the length of the series; the start and end times are those of
    the first and last record; the duration is their difference in
    seconds; the average interval times the number of intervals is that
    same difference in milliseconds, whatever happens in between; the
    average lies between the least and the greatest interval; every
    interval between consecutive records lies between these two; and the
    frame rate is the frame total divided by the duration when the series
    ends after it starts, and 0 otherwise. *)
Theorem timestamp_stats_values (sqrt : Q -> Q)
    (timestamps : list timestamp_analysis.Timestamp) :
  (2 <= length timestamps)%nat ->
  exists stats first last,
    timestamp_analysis.calculate_timestamp_stats sqrt timestamps = Return stats /\
    head timestamps = Some first /\ list.last timestamps = Some last /\
    timestamp_analysis.total_frames stats = Z.of_nat (length timestamps) /\
    timestamp_analysis.start_time_us stats = timestamp_analysis.pts_us first /\
    timestamp_analysis.end_time_us stats = timestamp_analysis.pts_us last /\
    (timestamp_analysis.duration_seconds stats * 1000000
     == inject_Z (timestamp_analysis.pts_us last - timestamp_analysis.pts_us first))%Q /\
    (timestamp_analysis.avg_frame_interval_ms stats
       * inject_Z (Z.of_nat (length timestamps) - 1)
     == inject_Z (timestamp_analysis.pts_us last - timestamp_analysis.pts_us first) / 1000)%Q /\
    (timestamp_analysis.min_interval_ms stats
       <= timestamp_analysis.avg_frame_interval_ms stats)%Q /\
    (timestamp_analysis.avg_frame_interval_ms stats
       <= timestamp_analysis.max_interval_ms stats)%Q /\
    (forall k prev cur,
       timestamps !! k = Some prev -> timestamps !! S k = Some cur ->
       (timestamp_analysis.min_interval_ms stats <= interval_ms prev cur)%Q /\
       (interval_ms prev cur <= timestamp_analysis.max_interval_ms stats)%Q) /\
    (timestamp_analysis.pts_us first < timestamp_analysis.pts_us last ->
     (timestamp_analysis.avg_framerate stats * timestamp_analysis.duration_seconds stats
      == inject_Z (Z.of_nat (length timestamps)))%Q) /\
    (timestamp_analysis.pts_us last <= timestamp_analysis.pts_us first ->
     timestamp_analysis.avg_framerate stats = 0%Q).
Proof.
  intros Hlength.
  destruct (calculate_timestamp_stats_total sqrt timestamps Hlength) as (stats & Hstats & _).
  destruct (calculate_timestamp_stats_inv sqrt timestamps stats Hstats)
    as (first & last & intervals & Hfirst & Hlast & Hintervals & Havg & Hmin & Hmax
        & Htotal & Hstart & Hend & Hduration & Hrate).
  replace (Z.of_nat (length timestamps) - 1)
    with (Z.of_nat (length timestamps - 1)) in Hintervals by lia.
  destruct (intervals_telescope timestamps (length timestamps - 1) intervals
              ltac:(lia) Hintervals)
    as (first' & last' & Hfirst' & Hlast' & Hsum & Hcount & Hmember).
  assert (first' = first) as -> by congruence.
  assert (last' = last) as -> by congruence.
  apply py_min_spec in Hmin as [Hlow _]. apply py_max_spec in Hmax as [Hhigh _].
  destruct (mean_bounds _ _ _ _ Hlow Hhigh Havg) as [Hmin_avg Havg_max].
  exists stats, first, last.
  split; [done|]. split; [by rewrite head_lookup|]. split; [by rewrite last_lookup, <- Nat.sub_1_r|].
  split; [done|]. split; [done|]. split; [done|].
  split; [rewrite Hduration; field|].
  split.
  { unfold timestamp_analysis.mean in Havg.
    destruct intervals as [|x rest] eqn:Hlist; [done|]. rewrite <- Hlist in *.
    injection Havg as Havg. rewrite <- Havg, <- Hsum.
    unfold timestamp_analysis.Qlen. rewrite Hcount.
    replace (Z.of_nat (length timestamps) - 1)
      with (Z.of_nat (length timestamps - 1)) by lia.
    field. rewrite <- Hcount. rewrite Hlist. cbn [length].
    intros Hzero.
    assert (Z.of_nat (S (length rest)) = 0) by (by apply inject_Z_injective). lia. }
  split; [done|]. split; [done|]. split.
  { intros k prev cur Hprev Hcur.
    assert (interval_ms prev cur ∈ intervals) as Hin.
    { apply (Hmember k); [|done..]. apply lookup_lt_Some in Hcur. lia. }
    rewrite Forall_forall in Hlow, Hhigh. split; [by apply Hlow|by apply Hhigh]. }
  assert ((0 < inject_Z (timestamp_analysis.pts_us last - timestamp_analysis.pts_us first))%Q
          <-> timestamp_analysis.pts_us first < timestamp_analysis.pts_us last) as Hsign.
  { rewrite <- (Zlt_Qlt 0). lia. }
  split.
  - intros Hlater. apply Hsign in Hlater. rewrite Hrate.
    assert ((0 < timestamp_analysis.duration_seconds stats)%Q) as Hpositive.
    { rewrite Hduration. apply Qlt_shift_div_l; lra. }
    rewrite (proj2 (Qgtb_spec _ _) Hpositive). field. lra.
  - intros Hearlier. rewrite Hrate.
    destruct (Qgtb (timestamp_analysis.duration_seconds stats) 0) eqn:Hcompare; [|done].
    apply Qgtb_spec in Hcompare. rewrite Hduration in Hcompare.
    assert ((0 < inject_Z (timestamp_analysis.pts_us last
                           - timestamp_analysis.pts_us first))%Q) as Hpositive.
    { apply (Qmult_lt_r _ _ 1000000) in Hcompare; [|lra].
      rewrite Qmult_0_l in Hcompare.
      assert ((inject_Z (timestamp_analysis.pts_us last - timestamp_analysis.pts_us first)
               / 1000000 * 1000000
               == inject_Z (timestamp_analysis.pts_us last
                            - timestamp_analysis.pts_us first))%Q) as Hcancel by field.
      by rewrite Hcancel in Hcompare. }
    apply Hsign in Hpositive. lia.
Qed.

Lemma timestamp_stats_values_witness :
  exists stats,
    timestamp_analysis.calculate_timestamp_stats (fun x => x) (example_series 1000000)
    = Return stats /\
    (timestamp_analysis.avg_frame_interval_ms stats * inject_Z 4
     == inject_Z (1133332 - 1000000) / 1000)%Q.
Proof.
  destruct (timestamp_stats_values (fun x => x) (example_series 1000000))
    as (stats & first & last & Hstats & Hfirst & Hlast & _ & _ & _ & _ & Havg & _).
  - simpl. lia.
  - exists stats. split; [done|].
    injection Hfirst as <-. injection Hlast as <-. exact Havg.
Defined.

(** ** The report's frame lookup *)

Section lookup.
Import video_discovery multiprocess_extraction report_generator.
Context (logs : string -> LogFile) (segments_dir camera dir : string).
Context (extractor_config : ExtractorConfig).




End lookup.



(** ** The comparison of the stitched frames *)

Section comparisons.
Import video_discovery report_generator.
Context (logs : string -> LogFile) (segments_dir : string).
Context (cam0_segments cam1_segments : list VideoSegment).






End comparisons.


(** ** The progress counters *)

Section counters.
Import progress_reporter.

Lemma extraction_count_after self calls camera_id :
  never_starts camera_id calls ->
  get_extraction_count (fold_left call calls self) camera_id
  = get_extraction_count self camera_id + foldr Z.add 0 (reported_frames camera_id calls).
Proof.
  revert self. induction calls as [|c calls IH]; intros self Hnever; [simpl; lia|].
  cbn [fold_left]. rewrite IH by (intros total Hin; apply (Hnever total); by right).
  assert (get_extraction_count (call self c) camera_id
          = get_extraction_count self camera_id
            + foldr Z.add 0 (reported_frames camera_id [c])) as ->.
  { unfold get_extraction_count, reported_frames.
    destruct c as [camera total|camera number frames| | |]; simpl; try lia.
    - destruct (decide (camera = camera_id)) as [->|Hother].
      + exfalso. apply (Hnever total). by left.
      + rewrite lookup_insert_ne by done. lia.
    - destruct (String.eqb_spec camera camera_id) as [->|Hother]; simpl.
      + rewrite lookup_insert_eq. simpl. lia.
      + rewrite lookup_insert_ne by done. lia. }
  assert (foldr Z.add 0 (reported_frames camera_id (c :: calls))
          = foldr Z.add 0 (reported_frames camera_id [c])
            + foldr Z.add 0 (reported_frames camera_id calls)) as ->; [|lia].
  unfold reported_frames, omap.
  destruct c as [camera total|camera number frames| | |]; simpl; try lia.
  destruct (String.eqb camera camera_id); simpl; lia.
Qed.

End counters.

(** X21.  The extraction counter of a camera is the sum of the frames
    reported for it since its extraction was last started: after
    [start_extraction] for a camera and any history of calls that does not
    start that camera again, [get_extraction_count] is the sum of the
    [frames_extracted] of that camera's updates, whatever is reported for
    other cameras or for stitching; each update prints the count it leaves;
    a camera that was never started counts from 0; and the stitching
    counter is the value of the last [update_stitching], or 0 after
    [start_stitching]. *)
Theorem progress_counters (self : progress_reporter.ProgressReporter)
    (camera_id : string) (total_segments : Z) (calls : list progress_reporter.Call) :
  never_starts camera_id calls ->
  let started := progress_reporter.start_extraction self camera_id total_segments in
  let after := fold_left progress_reporter.call calls in
  progress_reporter.get_extraction_count (after started) camera_id
    = foldr Z.add 0 (reported_frames camera_id calls) /\
  progress_reporter.get_extraction_count (after progress_reporter.init) camera_id
    = foldr Z.add 0 (reported_frames camera_id calls) /\
  (forall segment_number frames_extracted,
     let updated :=
       progress_reporter.update_extraction (after started) camera_id segment_number
         frames_extracted in
     updated.2 = progress_reporter.get_extraction_count updated.1 camera_id /\
     updated.2 = foldr Z.add 0 (reported_frames camera_id calls) + frames_extracted) /\
  (forall frames_stitched total_pairs others,
     Forall (fun c => c = progress_reporter.OnlyPrints \/
                      exists camera number frames,
                        c = progress_reporter.UpdateExtraction camera number frames \/
                        c = progress_reporter.StartExtraction camera number) others ->
     progress_reporter.get_stitching_count
       (fold_left progress_reporter.call
          (progress_reporter.UpdateStitching frames_stitched total_pairs :: others)
          (after started))
     = frames_stitched /\
     progress_reporter.get_stitching_count
       (fold_left progress_reporter.call (progress_reporter.StartStitching total_pairs :: others)
          (after started))
     = 0).
Proof.
  intros Hnever started after. subst started after.
  split; [|split; [|split]].
  - rewrite extraction_count_after by done.
    unfold progress_reporter.get_extraction_count, progress_reporter.start_extraction.
    simpl. rewrite lookup_insert_eq. simpl. lia.
  - rewrite extraction_count_after by done. reflexivity.
  - intros segment_number frames_extracted updated. subst updated.
    unfold progress_reporter.update_extraction. cbn [fst snd].
    fold (progress_reporter.get_extraction_count
            (fold_left progress_reporter.call calls
               (progress_reporter.start_extraction self camera_id total_segments))
            camera_id).
    rewrite extraction_count_after by done.
    unfold progress_reporter.get_extraction_count, progress_reporter.start_extraction.
    cbn [progress_reporter._extraction_frames]. rewrite !lookup_insert_eq.
    simpl. split; lia.
  - intros frames_stitched total_pairs others Hothers.
    assert (forall reporter,
              progress_reporter.get_stitching_count
                (fold_left progress_reporter.call others reporter)
              = progress_reporter.get_stitching_count reporter) as Hkept.
    { induction Hothers as [|c others Hc _ IH]; intros reporter; [done|].
      cbn [fold_left]. rewrite IH.
      destruct Hc as [->|(camera & number & frames & [->| ->])]; done. }
    cbn [fold_left]. by rewrite !Hkept.
Qed.

Lemma progress_counters_witness :
  progress_reporter.get_extraction_count
    (fold_left progress_reporter.call
       [progress_reporter.UpdateExtraction "cam0" 1 3;
        progress_reporter.UpdateExtraction "cam1" 1 2;
        progress_reporter.UpdateExtraction "cam0" 2 4]
       (progress_reporter.start_extraction progress_reporter.init "cam0" 2))
    "cam0"
  = 7.
Proof.
  refine (proj1 (progress_counters progress_reporter.init "cam0" 2
                   [progress_reporter.UpdateExtraction "cam0" 1 3;
                    progress_reporter.UpdateExtraction "cam1" 1 2;
                    progress_reporter.UpdateExtraction "cam0" 2 4] _)).
  intros total Hin.
  repeat (apply elem_of_cons in Hin as [Hin|Hin]; [discriminate|]).
  by apply elem_of_nil in Hin.
Defined.

(** ** Output directories *)

Section directories.
Import directory_management.

Lemma only_adds_refl fs targets : only_adds_directories fs fs targets.
Proof. split; [done|]. split; [done|]. split; [done|]. intros path kind ?. by left. Qed.

Lemma only_adds_trans fs1 fs2 fs3 targets targets' :
  only_adds_directories fs1 fs2 targets ->
  only_adds_directories fs2 fs3 targets' ->
  only_adds_directories fs1 fs3 (targets ++ targets').
Proof.
  intros (Hforbid & Hstat & Hkeep & Hnew) (Hforbid' & Hstat' & Hkeep' & Hnew').
  split; [congruence|]. split; [congruence|]. split; [by auto|].
  intros path kind [Hold|(-> & target & Hin & Hprefix)]%Hnew'.
  - apply Hnew in Hold as [?|(-> & target & Hin & Hprefix)]; [by left|].
    right. split; [done|]. exists target. split; [|done]. apply elem_of_app. by left.
  - right. split; [done|]. exists target. split; [|done]. apply elem_of_app. by right.
Qed.

Lemma only_adds_weaken fs fs' targets targets' :
  (forall target, target ∈ targets -> target ∈ targets') ->
  only_adds_directories fs fs' targets -> only_adds_directories fs fs' targets'.
Proof.
  intros Hsub (Hforbid & Hstat & Hkeep & Hnew).
  split; [done|]. split; [done|]. split; [done|].
  intros path kind [?|(-> & target & Hin & Hprefix)]%Hnew; [by left|].
  right. split; [done|]. exists target. auto.
Qed.

Lemma kind_of_insert fs (created path : list string) :
  created <> [] ->
  kind_of {| entries := <[created := Directory]> (entries fs);
             stat_fault := stat_fault fs;
             forbidden := forbidden fs |} path
  = if decide (path = created) then Some Directory else kind_of fs path.
Proof.
  intros Hcreated. unfold kind_of. destruct path as [|c path]; simpl.
  { by rewrite decide_False. }
  case_decide as Heq.
  - by rewrite Heq, lookup_insert_eq.
  - by rewrite lookup_insert_ne.
Qed.

Lemma mkdir_below_spec fs made todo :
  only_adds_directories fs (mkdir_below fs made todo).2 [made ++ todo] /\
  ((mkdir_below fs made todo).1 = None ->
   forall n, (0 < n <= length todo)%nat ->
             kind_of (mkdir_below fs made todo).2 (made ++ take n todo) = Some Directory) /\
  (forall e, (mkdir_below fs made todo).1 = Some (OtherError e) ->
             exists path, path `prefix_of` made ++ todo /\
                          forbidden fs path = Some (OtherError e)).
Proof.
  revert fs made. induction todo as [|component rest IH]; intros fs made.
  { simpl. split; [apply only_adds_refl|]. split; [|done]. intros _ n Hn. lia. }
  cbn [mkdir_below].
  assert (forall n, made ++ take (S n) (component :: rest)
                    = (made ++ [component]) ++ take n rest) as Htake
    by (intros n; by rewrite <- app_assoc).
  assert (made ++ component :: rest = (made ++ [component]) ++ rest) as Hsplit
    by (by rewrite <- app_assoc).
  destruct (kind_of fs (made ++ [component])) as [[|]|] eqn:Hkind.
  - destruct (IH fs (made ++ [component])) as (Hadds & Hmade & Hother).
    rewrite Hsplit. split; [done|]. split; [|done].
    intros Hok [|n] Hn; [lia|]. rewrite Htake.
    destruct n as [|n].
    + rewrite take_0, app_nil_r. by apply Hadds.
    + apply Hmade; [done|]. simpl in Hn. lia.
  - split; [apply only_adds_refl|]. done.
  - destruct (forbidden fs (made ++ [component])) as [error|] eqn:Hforbidden.
    { split; [apply only_adds_refl|]. split; [done|].
      simpl. intros e [= ->]. exists (made ++ [component]). split; [|done].
      rewrite Hsplit. by apply prefix_app_r. }
    set (fs1 := {| entries := <[made ++ [component] := Directory]> (entries fs);
                   stat_fault := stat_fault fs;
                   forbidden := forbidden fs |}).
    assert (made ++ [component] <> []) as Hnonempty by (by destruct made).
    assert (only_adds_directories fs fs1 [made ++ component :: rest]) as Hfirst.
    { split; [done|]. split; [done|]. split.
      - intros path kind Hpath. unfold fs1. rewrite kind_of_insert by done.
        case_decide as Heq; [|done]. subst path. congruence.
      - intros path kind Hpath. unfold fs1 in Hpath.
        rewrite kind_of_insert in Hpath by done.
        case_decide as Heq; [|by left]. right. injection Hpath as <-.
        split; [done|]. exists (made ++ component :: rest).
        split; [by left|]. subst path. rewrite Hsplit. by apply prefix_app_r. }
    destruct (IH fs1 (made ++ [component])) as (Hadds & Hmade & Hother).
    split; [|split].
    + rewrite Hsplit in Hfirst |- *.
      eapply only_adds_weaken; [|by eapply only_adds_trans].
      intros target [Hin|Hin]%elem_of_app; done.
    + intros Hok [|n] Hn; [lia|]. rewrite Htake.
      destruct n as [|n].
      * rewrite take_0, app_nil_r. apply Hadds. unfold fs1.
        rewrite kind_of_insert by done. by rewrite decide_True.
      * apply Hmade; [done|]. simpl in Hn. lia.
    + rewrite Hsplit. exact Hother.
Qed.

(** An exception that is not wrapped: raised by [exists] or [is_dir] on the
    directory, or by [mkdir], as no [OSError], on the way to it. *)
Lemma ensure_directory_exists_spec fs directory :
  let result := ensure_directory_exists fs directory in
  only_adds_directories fs result.2 [directory] /\
  match result.1 with
  | Value _ => kind_of result.2 directory = Some Directory /\ stat_fault fs directory = None
  | Raised e =>
      (exists operation reason, e = OutputDirectoryError operation reason) \/
      (exists fault,
         e = Py fault /\
         (stat_fault fs directory = Some fault \/
          exists path, path `prefix_of` directory /\
                       forbidden fs path = Some (OtherError fault)))
  end.
Proof.
  unfold ensure_directory_exists, path_exists, is_dir.
  destruct (stat_fault fs directory) as [fault|] eqn:Hstat; simpl.
  { split; [apply only_adds_refl|]. right. exists fault. by auto. }
  destruct (kind_of fs directory) as [[|]|] eqn:Hkind; simpl.
  - split; [apply only_adds_refl|done].
  - split; [apply only_adds_refl|]. left. by eauto.
  - unfold mkdir_parents.
    destruct (mkdir_below_spec fs [] directory) as (Hadds & Hmade & Hother).
    simpl in Hadds, Hother.
    destruct (mkdir_below fs [] directory) as [[[| |e]|] fs'] eqn:Hrun; simpl in *.
    + split; [done|]. left. by eauto.
    + split; [done|]. left. by eauto.
    + split; [done|]. right. exists e. split; [done|]. right. by apply Hother.
    + split; [done|]. split; [|done].
      destruct directory as [|c rest]; [done|].
      specialize (Hmade eq_refl (length (c :: rest)) ltac:(simpl; lia)).
      by rewrite firstn_all in Hmade.
Qed.

Lemma ensure_directory_exists_again fs directory :
  stat_fault fs directory = None ->
  kind_of fs directory = Some Directory ->
  ensure_directory_exists fs directory = (Value tt, fs).
Proof.
  intros Hstat Hkind. unfold ensure_directory_exists, path_exists, is_dir.
  rewrite Hstat, Hkind. simpl. done.
Qed.

End directories.

(** X22.  [setup_extraction_directories] never removes or changes an
    entry of the file system and never changes what the system refuses,
    whether it succeeds or fails; all it adds are directories on the way to
    base/cam0 or base/cam1.  When it returns, the dictionary holds the base
    directory and its two subdirectories cam0 and cam1, all three are
    directories afterwards, and calling it again returns the same
    dictionary and leaves the file system as it is.  When it raises, it
    raises an OutputDirectoryError, with two exceptions that reach the
    caller as they are: what [exists] or [is_dir] raises on one of the three
    directories, the tests standing before the [try], and what [mkdir]
    raises on the way to them that is no OSError. *)
Theorem extraction_directories_are_set_up (fs : directory_management.FileSystem)
    (base_dir : list string) :
  let result := directory_management.setup_extraction_directories fs base_dir in
  let cam0_dir := base_dir ++ ["cam0"%string] in
  let cam1_dir := base_dir ++ ["cam1"%string] in
  only_adds_directories fs result.2 [cam0_dir; cam1_dir] /\
  match result.1 with
  | Value dirs =>
      dirs = {| directory_management.base := base_dir;
                directory_management.cam0 := cam0_dir;
                directory_management.cam1 := cam1_dir |} /\
      Forall (fun directory =>
                directory_management.kind_of result.2 directory
                = Some directory_management.Directory)
        [base_dir; cam0_dir; cam1_dir] /\
      directory_management.setup_extraction_directories result.2 base_dir
        = (Value dirs, result.2)
  | Raised e =>
      (exists operation reason, e = OutputDirectoryError operation reason) \/
      (exists fault,
         e = Py fault /\
         ((exists directory,
             directory ∈ [base_dir; cam0_dir; cam1_dir] /\
             directory_management.stat_fault fs directory = Some fault) \/
          (exists path,
             (path `prefix_of` cam0_dir \/ path `prefix_of` cam1_dir) /\
             directory_management.forbidden fs path
             = Some (directory_management.OtherError fault))))
  end.
Proof.
  intros result cam0_dir cam1_dir. subst result.
  unfold directory_management.setup_extraction_directories. fold cam0_dir cam1_dir.
  assert (forall fs' targets,
            only_adds_directories fs fs' targets ->
            (forall target, target ∈ targets ->
                            target = base_dir \/ target = cam0_dir \/ target = cam1_dir) ->
            only_adds_directories fs fs' [cam0_dir; cam1_dir]) as Hwithin.
  { intros fs' targets (? & ? & ? & Hnew) Htargets.
    split; [done|]. split; [done|]. split; [done|].
    intros path kind [?|(-> & target & Hin & Hprefix)]%Hnew; [by left|].
    right. split; [done|].
    destruct (Htargets target Hin) as [->|[->| ->]].
    - exists cam0_dir. split; [by left|].
      etrans; [exact Hprefix|]. by apply prefix_app_r.
    - exists cam0_dir. split; [by left|done].
    - exists cam1_dir. split; [right; by left|done]. }
  assert (forall fs' e (directory : list string),
            directory_management.forbidden fs' = directory_management.forbidden fs ->
            directory_management.stat_fault fs' = directory_management.stat_fault fs ->
            directory ∈ [base_dir; cam0_dir; cam1_dir] ->
            (directory `prefix_of` cam0_dir \/ directory `prefix_of` cam1_dir) ->
            (exists operation reason, e = OutputDirectoryError operation reason) \/
            (exists fault,
               e = Py fault /\
               (directory_management.stat_fault fs' directory = Some fault \/
                exists path, path `prefix_of` directory /\
                             directory_management.forbidden fs' path
                             = Some (directory_management.OtherError fault))) ->
            (exists operation reason, e = OutputDirectoryError operation reason) \/
            (exists fault,
               e = Py fault /\
               ((exists directory,
                   directory ∈ [base_dir; cam0_dir; cam1_dir] /\
                   directory_management.stat_fault fs directory = Some fault) \/
                (exists path,
                   (path `prefix_of` cam0_dir \/ path `prefix_of` cam1_dir) /\
                   directory_management.forbidden fs path
                   = Some (directory_management.OtherError fault))))) as Hraised.
  { intros fs' e directory Hforbid Hstat Hin Hprefix [Hwrapped|(fault & -> & Hfault)];
      [by left|].
    right. exists fault. split; [done|]. rewrite Hforbid, Hstat in Hfault.
    destruct Hfault as [Hfault|(path & Hpath & Hfault)].
    - left. by exists directory.
    - right. exists path. split; [|done].
      destruct Hprefix as [Hprefix|Hprefix]; [left|right]; by etrans. }
  assert (base_dir ∈ [base_dir; cam0_dir; cam1_dir]) as Hin0 by (by left).
  assert (cam0_dir ∈ [base_dir; cam0_dir; cam1_dir]) as Hin1 by (right; by left).
  assert (cam1_dir ∈ [base_dir; cam0_dir; cam1_dir]) as Hin2 by (right; right; by left).
  assert (base_dir `prefix_of` cam0_dir) as Hbase by (by apply prefix_app_r).
  pose proof (ensure_directory_exists_spec fs base_dir) as [Hadds0 Hresult0].
  destruct (directory_management.ensure_directory_exists fs base_dir) as [[[]|e0] fs0];
    simpl in *.
  2:{ split.
      - apply (Hwithin _ _ Hadds0). intros target Hin. simpl in Hin.
        repeat (apply elem_of_cons in Hin as [->|Hin]; [by auto|]).
        by apply elem_of_nil in Hin.
      - apply (Hraised fs e0 base_dir); by auto. }
  destruct Hresult0 as [Hkind0 Hstat0].
  pose proof (ensure_directory_exists_spec fs0 cam0_dir) as [Hadds1 Hresult1].
  pose proof (only_adds_trans _ _ _ _ _ Hadds0 Hadds1) as Hadds01.
  destruct Hadds0 as (Hforbid0 & Hstats0 & _).
  destruct (directory_management.ensure_directory_exists fs0 cam0_dir) as [[[]|e1] fs1];
    simpl in *.
  2:{ split.
      - apply (Hwithin _ _ Hadds01). intros target Hin. simpl in Hin.
        repeat (apply elem_of_cons in Hin as [->|Hin]; [by auto|]).
        by apply elem_of_nil in Hin.
      - apply (Hraised fs0 e1 cam0_dir); by auto. }
  destruct Hresult1 as [Hkind1 Hstat1].
  pose proof (ensure_directory_exists_spec fs1 cam1_dir) as [Hadds2 Hresult2].
  pose proof (only_adds_trans _ _ _ _ _ Hadds01 Hadds2) as Hall.
  assert (only_adds_directories fs
            (directory_management.ensure_directory_exists fs1 cam1_dir).2
            [cam0_dir; cam1_dir]) as Hadds.
  { apply (Hwithin _ _ Hall). intros target Hin. simpl in Hin.
        repeat (apply elem_of_cons in Hin as [->|Hin]; [by auto|]).
        by apply elem_of_nil in Hin. }
  destruct Hadds01 as (Hforbid1 & Hstats1 & _).
  destruct (directory_management.ensure_directory_exists fs1 cam1_dir) as [[[]|e2] fs2];
    simpl in *.
  2:{ split; [done|]. apply (Hraised fs1 e2 cam1_dir); by auto. }
  destruct Hresult2 as [Hkind2 Hstat2].
  destruct Hadds2 as (Hforbid2 & Hstats2 & Hkeep2 & _).
  destruct Hadds1 as (_ & _ & Hkeep1 & _).
  split; [done|]. split; [done|].
  assert (directory_management.kind_of fs2 base_dir = Some directory_management.Directory)
    as Hkind0' by (by apply Hkeep2, Hkeep1).
  assert (directory_management.kind_of fs2 cam0_dir = Some directory_management.Directory)
    as Hkind1' by (by apply Hkeep2).
  split; [by repeat constructor|].
  rewrite !ensure_directory_exists_again; [done|..]; try done.
  - rewrite Hstats2. done.
  - rewrite Hstats2, Hstats1. congruence.
  - rewrite Hstats2, Hstats1. congruence.
Qed.

(** ** The counts of a run *)

Lemma extract_then_stitch_outcome
    (w : cv2.World) (pool : multiprocess_extraction.Pool) (store : pil.Store)
    (disk : error_handling.Disk)
    (cam0_segments cam1_segments : list video_discovery.VideoSegment)
    (extraction_dirs : multiprocess_extraction.ExtractionDirs)
    (extractor_config : multiprocess_extraction.ExtractorConfig)
    (stitcher : frame_stitching_io.FrameStitcher) (stitching_dir : string) :
  let stopped :=
    cam0_segments = [] \/ cam1_segments = [] \/
    error_handling.output_directory_fault disk stitching_dir <> None in
  match main_stages.extract_then_stitch w pool store disk cam0_segments cam1_segments
          extraction_dirs extractor_config stitcher stitching_dir with
  | main_stages.Exit code => code = 1 /\ stopped
  | main_stages.Completed cam0_extracted cam1_extracted frames_stitched
      stitched_frame_numbers =>
      ~ stopped /\
      frames_stitched = Z.of_nat (length stitched_frame_numbers) /\
      StronglySorted Z.lt stitched_frame_numbers /\
      0 <= cam0_extracted - frames_stitched /\
      0 <= cam1_extracted - frames_stitched
  end.
Proof.
  intros stopped. subst stopped.
  unfold main_stages.extract_then_stitch, main.extraction_stage.
  destruct cam0_segments as [|seg0 rest0] eqn:Hcam0; [split; [done|by left]|].
  destruct cam1_segments as [|seg1 rest1] eqn:Hcam1; [split; [done|right; by left]|].
  destruct pool as [pool_fault completion].
  rewrite extract_all_frames_unfold. cbn [multiprocess_extraction.max_workers].
  destruct (Z.leb_spec (Z.of_nat (length (seg0 :: rest0))
                        + Z.of_nat (length (seg1 :: rest1))) 0) as [Hnone|_];
    [simpl in Hnone; lia|].
  cbn zeta.
  match goal with |- context [frame_stitching_io.stitch_frames _ _ _ ?c0 ?c1 _ _] =>
    set (cam0_frames := c0); set (cam1_frames := c1) end.
  destruct (error_handling.output_directory_fault disk stitching_dir)
    as [[operation reason]|] eqn:Hdisk.
  - unfold frame_stitching_io.stitch_frames, error_handling.validate_output_directory.
    rewrite Hdisk. split; [done|]. right. right. done.
  - destruct (stitch_frames_returns store disk stitcher cam0_frames cam1_frames
                stitching_dir true Hdisk)
      as (stitched & calls & -> & _ & Hsorted & _ & Hle0 & Hle1 & _).
    subst cam0_frames cam1_frames. unfold main.to_extracted_frames in Hle0, Hle1.
    rewrite length_fmap in Hle0, Hle1.
    split; [by intros [?|[?|?]]|]. split; [by rewrite length_fmap|].
    split; [done|]. lia.
Qed.

(** X23.  A run whose extraction and stitching stages complete has counts
    that fit together, whatever the media and image libraries, the pool and
    the file system do: both cameras had a segment and the stitching
    directory validated; the stitched count is the number of stitched frame
    numbers handed to the report, those numbers ascend strictly, and the
    stitched count exceeds neither camera's extracted count, so the
    discarded counts of the report are never negative. *)
Theorem run_counts_are_consistent
    (w : cv2.World) (pool : multiprocess_extraction.Pool) (store : pil.Store)
    (disk : error_handling.Disk)
    (cam0_segments cam1_segments : list video_discovery.VideoSegment)
    (extraction_dirs : multiprocess_extraction.ExtractionDirs)
    (extractor_config : multiprocess_extraction.ExtractorConfig)
    (stitcher : frame_stitching_io.FrameStitcher) (stitching_dir : string) :
  match main_stages.extract_then_stitch w pool store disk cam0_segments cam1_segments
          extraction_dirs extractor_config stitcher stitching_dir with
  | main_stages.Exit _ => True
  | main_stages.Completed cam0_extracted cam1_extracted frames_stitched
      stitched_frame_numbers =>
      cam0_segments <> [] /\ cam1_segments <> [] /\
      error_handling.output_directory_fault disk stitching_dir = None /\
      frames_stitched = Z.of_nat (length stitched_frame_numbers) /\
      StronglySorted Z.lt stitched_frame_numbers /\
      0 <= frames_stitched <= cam0_extracted /\
      frames_stitched <= cam1_extracted /\
      0 <= cam0_extracted - frames_stitched /\
      0 <= cam1_extracted - frames_stitched
  end.
Proof.
  pose proof (extract_then_stitch_outcome w pool store disk cam0_segments cam1_segments
                extraction_dirs extractor_config stitcher stitching_dir) as Houtcome.
  cbv zeta in Houtcome.
  destruct (main_stages.extract_then_stitch _ _ _ _ _ _ _ _ _ _)
    as [code|cam0_extracted cam1_extracted frames_stitched numbers]; [done|].
  destruct Houtcome as (Hrunning & Hcount & Hsorted & Hle0 & Hle1).
  split; [intros ->; apply Hrunning; by left|].
  split; [intros ->; apply Hrunning; right; by left|].
  split.
  { destruct (error_handling.output_directory_fault disk stitching_dir) eqn:Hdisk; [|done].
    destruct Hrunning. right. right. done. }
  split; [done|]. split; [done|]. lia.
Qed.

(** ** The streaming workers *)

Lemma run_schedule_snoc (schedule : list (string * multiprocess_extraction.FrameMeta))
    (event : string * multiprocess_extraction.FrameMeta) :
  main_streaming.run_schedule (schedule ++ [event])
  = main_streaming.publish (main_streaming.run_schedule schedule) event.1 event.2.
Proof. unfold main_streaming.run_schedule. by rewrite fold_left_app. Qed.

Lemma publishes_once_snoc (schedule : list (string * multiprocess_extraction.FrameMeta))
    (camera_id : string) (meta : multiprocess_extraction.FrameMeta) :
  publishes_once (schedule ++ [(camera_id, meta)]) ->
  publishes_once schedule /\
  forall earlier, (camera_id, earlier) ∈ schedule ->
    multiprocess_extraction.global_frame_number earlier
    <> multiprocess_extraction.global_frame_number meta.
Proof.
  unfold publishes_once. rewrite fmap_app. intros Hnodup.
  apply NoDup_app in Hnodup as (Hschedule & Hfresh & _). split; [done|].
  intros earlier Hin Heq.
  apply (Hfresh (camera_id, multiprocess_extraction.global_frame_number earlier)).
  - apply list_elem_of_fmap. by exists (camera_id, earlier).
  - simpl. rewrite Heq. apply list_elem_of_singleton. done.
Qed.

Lemma elem_of_snoc_other_camera (schedule : list (string * multiprocess_extraction.FrameMeta))
    (camera_id other_id : string) (meta other : multiprocess_extraction.FrameMeta) :
  camera_id <> other_id ->
  (other_id, other) ∈ schedule ++ [(camera_id, meta)] <-> (other_id, other) ∈ schedule.
Proof.
  intros Hne. rewrite elem_of_app, list_elem_of_singleton. split; [|by left].
  intros [Hin|Heq]; [done|]. by injection Heq as <- _.
Qed.

Lemma elem_of_snoc_same_camera (schedule : list (string * multiprocess_extraction.FrameMeta))
    (camera_id : string) (meta other : multiprocess_extraction.FrameMeta) :
  (camera_id, other) ∈ schedule ++ [(camera_id, meta)]
  <-> (camera_id, other) ∈ schedule \/ other = meta.
Proof.
  rewrite elem_of_app, list_elem_of_singleton. split.
  - intros [Hin|Heq]; [by left|]. right. by injection Heq.
  - intros [Hin| ->]; [by left|by right].
Qed.

Lemma publish_cam0 (schedule : list (string * multiprocess_extraction.FrameMeta))
    (shared : main_streaming.Shared) (meta : multiprocess_extraction.FrameMeta) :
  (forall earlier, ("cam0"%string, earlier) ∈ schedule ->
     multiprocess_extraction.global_frame_number earlier
     <> multiprocess_extraction.global_frame_number meta) ->
  published schedule shared ->
  published (schedule ++ [("cam0"%string, meta)])
    (main_streaming.publish shared "cam0" meta).
Proof.
  intros Hfresh (Hcam0 & Hcam1 & Hqueue & Hnodup).
  assert (Hother : forall other,
            main_streaming.cam1_frames shared
              !! multiprocess_extraction.global_frame_number meta = Some other <->
            ("cam1"%string, other) ∈ schedule /\
            multiprocess_extraction.global_frame_number other
            = multiprocess_extraction.global_frame_number meta)
    by (intros other; apply Hcam1).
  assert (Hpairs : forall pair,
            (exists meta0 meta1,
               ("cam0"%string, meta0) ∈ schedule ++ [("cam0"%string, meta)] /\
               ("cam1"%string, meta1) ∈ schedule ++ [("cam0"%string, meta)] /\
               multiprocess_extraction.global_frame_number meta0
               = multiprocess_extraction.global_frame_number meta1 /\
               pair = pair_of meta0 meta1) <->
            pair ∈ main_streaming.stitch_queue shared \/
            exists other,
              main_streaming.cam1_frames shared
                !! multiprocess_extraction.global_frame_number meta = Some other /\
              pair = pair_of meta other).
  { intros pair. split.
    - intros (meta0 & meta1 & Hin0 & Hin1 & Hsame & ->).
      apply elem_of_snoc_other_camera in Hin1; [|done].
      apply elem_of_snoc_same_camera in Hin0 as [Hin0| ->].
      + left. apply Hqueue. by exists meta0, meta1.
      + right. exists meta1. split; [|done]. by apply Hother.
    - intros [Hin|(other & Hlookup & ->)].
      + apply Hqueue in Hin as (meta0 & meta1 & Hin0 & Hin1 & Hsame & ->).
        exists meta0, meta1. rewrite !elem_of_app. by auto.
      + apply Hother in Hlookup as [Hin Hsame].
        exists meta, other. rewrite !elem_of_app, list_elem_of_singleton. by auto. }
  assert (Hunqueued : multiprocess_extraction.global_frame_number meta
                      ∉ main_streaming.frame_number <$> main_streaming.stitch_queue shared).
  { intros Hin. apply list_elem_of_fmap in Hin as (pair & Hnumber & Hin).
    apply Hqueue in Hin as (meta0 & meta1 & Hin0 & _ & _ & ->).
    by apply (Hfresh meta0). }
  assert (Hcam0' : forall number found,
            <[multiprocess_extraction.global_frame_number meta := meta]>
              (main_streaming.cam0_frames shared) !! number = Some found <->
            ("cam0"%string, found) ∈ schedule ++ [("cam0"%string, meta)] /\
            multiprocess_extraction.global_frame_number found = number).
  { intros number found. rewrite elem_of_snoc_same_camera.
    destruct (decide (multiprocess_extraction.global_frame_number meta = number))
      as [<-|Hne].
    - rewrite lookup_insert_eq. split.
      + intros [= <-]. by auto.
      + intros [[Hin| ->] Hsame]; [by apply Hfresh in Hin|done].
    - rewrite lookup_insert_ne by done. rewrite Hcam0. split.
      + intros [Hin Hsame]. by auto.
      + intros [[Hin| ->] Hsame]; [done|by destruct Hne]. }
  assert (Hcam1' : forall number found,
            main_streaming.cam1_frames shared !! number = Some found <->
            ("cam1"%string, found) ∈ schedule ++ [("cam0"%string, meta)] /\
            multiprocess_extraction.global_frame_number found = number).
  { intros number found. rewrite elem_of_snoc_other_camera by done. apply Hcam1. }
  unfold main_streaming.publish. simpl.
  destruct (main_streaming.cam1_frames shared
              !! multiprocess_extraction.global_frame_number meta) as [other|] eqn:Hlookup.
  - split; [done|]. split; [done|]. simpl. split.
    + intros pair. rewrite Hpairs, elem_of_app, list_elem_of_singleton. split.
      * intros [Hin| ->]; [by left|]. right. by exists other.
      * intros [Hin|(found & [= <-] & ->)]; [by left|by right].
    + rewrite fmap_app. apply NoDup_app. split; [done|]. split.
      * intros number Hin Heq. simpl in Heq. apply list_elem_of_singleton in Heq as ->.
        done.
      * apply NoDup_singleton.
  - split; [done|]. split; [done|]. simpl. split; [|done].
    intros pair. rewrite Hpairs. split; [by left|].
    by intros [Hin|(found & [=] & _)].
Qed.

Lemma publish_cam1 (schedule : list (string * multiprocess_extraction.FrameMeta))
    (shared : main_streaming.Shared) (meta : multiprocess_extraction.FrameMeta) :
  (forall earlier, ("cam1"%string, earlier) ∈ schedule ->
     multiprocess_extraction.global_frame_number earlier
     <> multiprocess_extraction.global_frame_number meta) ->
  published schedule shared ->
  published (schedule ++ [("cam1"%string, meta)])
    (main_streaming.publish shared "cam1" meta).
Proof.
  intros Hfresh (Hcam0 & Hcam1 & Hqueue & Hnodup).
  assert (Hother : forall other,
            main_streaming.cam0_frames shared
              !! multiprocess_extraction.global_frame_number meta = Some other <->
            ("cam0"%string, other) ∈ schedule /\
            multiprocess_extraction.global_frame_number other
            = multiprocess_extraction.global_frame_number meta)
    by (intros other; apply Hcam0).
  assert (Hpairs : forall pair,
            (exists meta0 meta1,
               ("cam0"%string, meta0) ∈ schedule ++ [("cam1"%string, meta)] /\
               ("cam1"%string, meta1) ∈ schedule ++ [("cam1"%string, meta)] /\
               multiprocess_extraction.global_frame_number meta0
               = multiprocess_extraction.global_frame_number meta1 /\
               pair = pair_of meta0 meta1) <->
            pair ∈ main_streaming.stitch_queue shared \/
            exists other,
              main_streaming.cam0_frames shared
                !! multiprocess_extraction.global_frame_number meta = Some other /\
              pair = pair_of other meta).
  { intros pair. split.
    - intros (meta0 & meta1 & Hin0 & Hin1 & Hsame & ->).
      apply elem_of_snoc_other_camera in Hin0; [|done].
      apply elem_of_snoc_same_camera in Hin1 as [Hin1| ->].
      + left. apply Hqueue. by exists meta0, meta1.
      + right. exists meta0. split; [|done]. by apply Hother.
    - intros [Hin|(other & Hlookup & ->)].
      + apply Hqueue in Hin as (meta0 & meta1 & Hin0 & Hin1 & Hsame & ->).
        exists meta0, meta1. rewrite !elem_of_app. by auto.
      + apply Hother in Hlookup as [Hin Hsame].
        exists other, meta. rewrite !elem_of_app, !list_elem_of_singleton.
        split; [by left|]. split; [by right|]. done. }
  assert (Hunqueued : multiprocess_extraction.global_frame_number meta
                      ∉ main_streaming.frame_number <$> main_streaming.stitch_queue shared).
  { intros Hin. apply list_elem_of_fmap in Hin as (pair & Hnumber & Hin).
    apply Hqueue in Hin as (meta0 & meta1 & _ & Hin1 & Hsame & ->).
    apply (Hfresh meta1); [done|]. simpl in Hnumber. by rewrite Hnumber, Hsame. }
  assert (Hcam1' : forall number found,
            <[multiprocess_extraction.global_frame_number meta := meta]>
              (main_streaming.cam1_frames shared) !! number = Some found <->
            ("cam1"%string, found) ∈ schedule ++ [("cam1"%string, meta)] /\
            multiprocess_extraction.global_frame_number found = number).
  { intros number found. rewrite elem_of_snoc_same_camera.
    destruct (decide (multiprocess_extraction.global_frame_number meta = number))
      as [<-|Hne].
    - rewrite lookup_insert_eq. split.
      + intros [= <-]. by auto.
      + intros [[Hin| ->] Hsame]; [by apply Hfresh in Hin|done].
    - rewrite lookup_insert_ne by done. rewrite Hcam1. split.
      + intros [Hin Hsame]. by auto.
      + intros [[Hin| ->] Hsame]; [done|by destruct Hne]. }
  assert (Hcam0' : forall number found,
            main_streaming.cam0_frames shared !! number = Some found <->
            ("cam0"%string, found) ∈ schedule ++ [("cam1"%string, meta)] /\
            multiprocess_extraction.global_frame_number found = number).
  { intros number found. rewrite elem_of_snoc_other_camera by done. apply Hcam0. }
  unfold main_streaming.publish. simpl.
  destruct (main_streaming.cam0_frames shared
              !! multiprocess_extraction.global_frame_number meta) as [other|] eqn:Hlookup.
  - split; [done|]. split; [done|]. simpl. split.
    + intros pair. rewrite Hpairs, elem_of_app, list_elem_of_singleton. split.
      * intros [Hin| ->]; [by left|]. right. exists other. split; [done|].
        destruct (proj1 (Hother other) eq_refl) as [_ Hsame].
        unfold pair_of. by rewrite Hsame.
      * intros [Hin|(found & [= <-] & ->)]; [by left|]. right.
        destruct (proj1 (Hother other) eq_refl) as [_ Hsame].
        unfold pair_of. by rewrite Hsame.
    + rewrite fmap_app. apply NoDup_app. split; [done|]. split.
      * intros number Hin Heq. simpl in Heq. apply list_elem_of_singleton in Heq as ->.
        done.
      * apply NoDup_singleton.
  - split; [done|]. split; [done|]. simpl. split; [|done].
    intros pair. rewrite Hpairs. split; [by left|].
    by intros [Hin|(found & [=] & _)].
Qed.

Lemma publish_unknown_camera (schedule : list (string * multiprocess_extraction.FrameMeta))
    (shared : main_streaming.Shared) (camera_id : string)
    (meta : multiprocess_extraction.FrameMeta) :
  camera_id <> "cam0"%string -> camera_id <> "cam1"%string ->
  published schedule shared ->
  published (schedule ++ [(camera_id, meta)]) (main_streaming.publish shared camera_id meta).
Proof.
  intros Hcam0 Hcam1 (Hframes0 & Hframes1 & Hqueue & Hnodup).
  unfold main_streaming.publish.
  apply String.eqb_neq in Hcam0 as Heqb0. apply String.eqb_neq in Hcam1 as Heqb1.
  rewrite Heqb0, Heqb1. split; [|split; [|split; [|done]]].
  - intros number found. rewrite elem_of_snoc_other_camera by done. apply Hframes0.
  - intros number found. rewrite elem_of_snoc_other_camera by done. apply Hframes1.
  - intros pair. rewrite Hqueue. split.
    + intros (meta0 & meta1 & Hin0 & Hin1 & Hsame & ->). exists meta0, meta1.
      rewrite !elem_of_snoc_other_camera by done. done.
    + intros (meta0 & meta1 & Hin0 & Hin1 & Hsame & ->). exists meta0, meta1.
      rewrite !elem_of_snoc_other_camera in Hin0, Hin1 by done. done.
Qed.

Lemma run_schedule_published (schedule : list (string * multiprocess_extraction.FrameMeta)) :
  publishes_once schedule ->
  published schedule (main_streaming.run_schedule schedule).
Proof.
  induction schedule as [|[camera_id meta] schedule IH] using rev_ind.
  - intros _. unfold main_streaming.run_schedule. cbn [fold_left].
    split; [|split; [|split; [|by apply NoDup_nil]]].
    + intros number meta. unfold main_streaming.nothing_yet.
      cbn [main_streaming.cam0_frames]. rewrite lookup_empty. split; [done|].
      intros [Hin _]. by apply elem_of_nil in Hin.
    + intros number meta. unfold main_streaming.nothing_yet.
      cbn [main_streaming.cam1_frames]. rewrite lookup_empty. split; [done|].
      intros [Hin _]. by apply elem_of_nil in Hin.
    + intros pair. split; [intros Hin; by apply elem_of_nil in Hin|].
      intros (meta0 & _ & Hin & _). by apply elem_of_nil in Hin.
  - intros Honce. apply publishes_once_snoc in Honce as [Honce Hfresh].
    rewrite run_schedule_snoc. simpl.
    destruct (decide (camera_id = "cam0"%string)) as [->|Hcam0];
      [by apply publish_cam0; auto|].
    destruct (decide (camera_id = "cam1"%string)) as [->|Hcam1];
      [by apply publish_cam1; auto|].
    by apply publish_unknown_camera; auto.
Qed.

Lemma streaming_stitcher_worker_bounds (store : pil.Store)
    (stitcher : frame_stitching_io.FrameStitcher) (stitching_dir : string)
    (taken : list main_streaming.Pair) (stitched_count : Z) :
  stitched_count
  <= main_streaming.streaming_stitcher_worker store stitcher stitching_dir taken stitched_count
  <= stitched_count + Z.of_nat (length taken).
Proof.
  revert stitched_count. induction taken as [|item taken IH]; intros stitched_count.
  - simpl. lia.
  - cbn [main_streaming.streaming_stitcher_worker length].
    destruct (frame_stitching_io.stitch_single_pair _ _ _ _ _ _).
    + specialize (IH (stitched_count + 1)). lia.
    + specialize (IH stitched_count). lia.
Qed.

(** X24. When no camera publishes a frame number twice, the queue of the
    streaming workers holds, whatever the order in which the two workers
    take the lock, exactly one pair for every frame number that both cameras
    published, made of the two frames with that number; another order of the
    same publications only permutes the queue, and the stitcher worker counts
    at most as many frames as the queue holds. *)
Theorem streamed_pairs_do_not_depend_on_the_schedule
    (schedule : list (string * multiprocess_extraction.FrameMeta))
    (Honce : publishes_once schedule) :
  let shared := main_streaming.run_schedule schedule in
  published schedule shared /\
  (forall other_schedule,
     other_schedule ≡ₚ schedule ->
     main_streaming.stitch_queue (main_streaming.run_schedule other_schedule)
     ≡ₚ main_streaming.stitch_queue shared) /\
  (forall store stitcher stitching_dir,
     0 <= main_streaming.streaming_stitcher_worker store stitcher stitching_dir
            (main_streaming.stitch_queue shared) 0
       <= Z.of_nat (length (main_streaming.stitch_queue shared))).
Proof.
  intros shared. subst shared.
  pose proof (run_schedule_published schedule Honce) as Hpublished.
  split; [done|]. split.
  - intros other_schedule Hperm.
    assert (Hother : published other_schedule (main_streaming.run_schedule other_schedule)).
    { apply run_schedule_published. unfold publishes_once in *. by rewrite Hperm. }
    destruct Hpublished as (_ & _ & Hqueue & Hnodup).
    destruct Hother as (_ & _ & Hqueue' & Hnodup').
    apply NoDup_Permutation.
    + by apply NoDup_fmap_1 in Hnodup'.
    + by apply NoDup_fmap_1 in Hnodup.
    + intros pair. rewrite Hqueue', Hqueue.
      split; intros (meta0 & meta1 & Hin0 & Hin1 & Hrest); exists meta0, meta1.
      * by rewrite <- Hperm.
      * by rewrite Hperm.
  - intros store stitcher stitching_dir.
    pose proof (streaming_stitcher_worker_bounds store stitcher stitching_dir
                  (main_streaming.stitch_queue (main_streaming.run_schedule schedule)) 0).
    lia.
Qed.

Lemma streamed_pairs_do_not_depend_on_the_schedule_witness :
  publishes_once example_schedule /\
  main_streaming.frame_number
    <$> main_streaming.stitch_queue (main_streaming.run_schedule example_schedule)
  = [5; 10] /\
  (forall other_schedule,
     other_schedule ≡ₚ example_schedule ->
     main_streaming.stitch_queue (main_streaming.run_schedule other_schedule)
     ≡ₚ main_streaming.stitch_queue (main_streaming.run_schedule example_schedule)).
Proof.
  assert (Honce : publishes_once example_schedule).
  { unfold publishes_once. apply (bool_decide_unpack _). vm_compute. reflexivity. }
  split; [exact Honce|]. split; [vm_compute; reflexivity|].
  apply (streamed_pairs_do_not_depend_on_the_schedule example_schedule Honce).
Defined.

(** ** The figures of the report *)

Lemma percent_le (a b c d : Z) :
  0 < b -> 0 < d -> a * d <= c * b ->
  (inject_Z a / inject_Z b * 100 <= inject_Z c / inject_Z d * 100)%Q.
Proof.
  intros Hb Hd Hle.
  assert (Hb' : (0 < inject_Z b)%Q) by (by rewrite <- (Zlt_Qlt 0)).
  assert (Hd' : (0 < inject_Z d)%Q) by (by rewrite <- (Zlt_Qlt 0)).
  apply Qmult_le_compat_r; [|done].
  apply Qle_shift_div_r; [done|].
  assert (Hswap : (inject_Z c / inject_Z d * inject_Z b
                   == inject_Z c * inject_Z b / inject_Z d)%Q)
    by (field; intros Hzero; rewrite Hzero in Hd'; by apply Qlt_irrefl in Hd').
  rewrite Hswap.
  apply Qle_shift_div_l; [done|].
  rewrite <- !inject_Z_mult, <- Zle_Qle. done.
Qed.

Lemma percent_bounds (a b : Z) :
  0 <= a <= b -> 0 < b ->
  (0 <= inject_Z a / inject_Z b * 100 <= 100)%Q.
Proof.
  intros [Hnonneg Hle] Hb.
  assert (Hb' : (0 < inject_Z b)%Q) by (by rewrite <- (Zlt_Qlt 0)).
  split.
  - apply Qmult_le_0_compat; [|done].
    apply Qle_shift_div_l; [done|]. rewrite Qmult_0_l, <- (Zle_Qle 0). done.
  - apply (Qle_trans _ (1 * 100)%Q); [|by apply Qle_refl].
    apply Qmult_le_compat_r; [|done].
    apply Qle_shift_div_r; [done|]. rewrite Qmult_1_l, <- Zle_Qle. done.
Qed.

(** X25.  The figures of the report for a completed run.  The report
    raises ZeroDivisionError, before anything is written, exactly when a
    camera's announced frame total is 0 or a camera extracted no frame;
    [main] has then already printed its summary and still returns 0.
    Otherwise both cameras extracted a frame, so the guard of the
    utilisation lines never takes its zero branch; each utilisation lies
    between 0 and the stitching rate, the stitching rate is the larger of
    the two and is at most 100, and the discarded counts are not negative. *)
Theorem report_figures_of_a_run
    (w : cv2.World) (pool : multiprocess_extraction.Pool) (store : pil.Store)
    (disk : error_handling.Disk)
    (cam0_segments cam1_segments : list video_discovery.VideoSegment)
    (extraction_dirs : multiprocess_extraction.ExtractionDirs)
    (extractor_config : multiprocess_extraction.ExtractorConfig)
    (stitcher : frame_stitching_io.FrameStitcher) (stitching_dir : string) :
  let cam0_total := video_discovery.total_frames cam0_segments in
  let cam1_total := video_discovery.total_frames cam1_segments in
  match main_stages.extract_then_stitch w pool store disk cam0_segments cam1_segments
          extraction_dirs extractor_config stitcher stitching_dir with
  | main_stages.Exit _ => True
  | main_stages.Completed cam0_extracted cam1_extracted frames_stitched _ =>
      match report_figures.figures cam0_total cam1_total cam0_extracted cam1_extracted
              frames_stitched with
      | Raise e =>
          e = ZeroDivisionError /\
          (cam0_total = 0 \/ cam1_total = 0 \/ cam0_extracted = 0 \/ cam1_extracted = 0)
      | Return figures =>
          cam0_total <> 0 /\ cam1_total <> 0 /\ 0 < cam0_extracted /\ 0 < cam1_extracted /\
          (report_figures.cam0_utilization figures
             == inject_Z frames_stitched / inject_Z cam0_extracted * 100)%Q /\
          (report_figures.cam1_utilization figures
             == inject_Z frames_stitched / inject_Z cam1_extracted * 100)%Q /\
          (0 <= report_figures.cam0_utilization figures
             <= report_figures.stitching_rate figures)%Q /\
          (0 <= report_figures.cam1_utilization figures
             <= report_figures.stitching_rate figures)%Q /\
          (report_figures.stitching_rate figures
             == report_figures.cam0_utilization figures \/
           report_figures.stitching_rate figures
             == report_figures.cam1_utilization figures)%Q /\
          (report_figures.stitching_rate figures <= 100)%Q /\
          0 <= report_figures.cam0_discarded figures /\
          0 <= report_figures.cam1_discarded figures
      end
  end.
Proof.
  intros cam0_total cam1_total.
  pose proof (extract_then_stitch_outcome w pool store disk cam0_segments cam1_segments
                extraction_dirs extractor_config stitcher stitching_dir) as Houtcome.
  cbv zeta in Houtcome.
  destruct (main_stages.extract_then_stitch _ _ _ _ _ _ _ _ _ _)
    as [code|cam0_extracted cam1_extracted frames_stitched numbers]; [done|].
  destruct Houtcome as (_ & Hcount & _ & Hle0 & Hle1).
  assert (0 <= frames_stitched) by lia.
  unfold report_figures.figures, report_figures.guarded_percent, report_figures.percent.
  destruct (Z.eqb_spec cam0_total 0) as [Hzero|Htotal0]; [simpl; by auto|].
  destruct (Z.eqb_spec cam1_total 0) as [Hzero|Htotal1]; [simpl; by auto|].
  destruct (Z.eqb_spec (Z.min cam0_extracted cam1_extracted) 0) as [Hzero|Hmin];
    [simpl; split; [done|]; lia|].
  assert (0 < cam0_extracted /\ 0 < cam1_extracted) as [Hpos0 Hpos1] by lia.
  simpl.
  destruct (Z.ltb_spec 0 cam0_extracted) as [_|?]; [|lia].
  destruct (Z.eqb_spec cam0_extracted 0) as [?|_]; [lia|].
  simpl.
  destruct (Z.ltb_spec 0 cam1_extracted) as [_|?]; [|lia].
  destruct (Z.eqb_spec cam1_extracted 0) as [?|_]; [lia|].
  simpl.
  split; [done|]. split; [done|]. split; [done|]. split; [done|].
  split; [reflexivity|]. split; [reflexivity|].
  split; [|split; [|split; [|split; [|lia]]]].
  - split; [apply percent_bounds; lia|]. apply percent_le; nia.
  - split; [apply percent_bounds; lia|]. apply percent_le; nia.
  - destruct (Z.min_spec cam0_extracted cam1_extracted) as [[_ ->]|[_ ->]];
      [left|right]; reflexivity.
  - apply percent_bounds; lia.
Qed.
